(** * LinuxCourseHw: a simulated UNIX-style filesystem on a disk image

    Shallow embedding of the core managers of the repository
    (src/utils, src/core) and the properties of its specification.

    Conventions of the embedding:
    - a C++ [int] is a [Z]; a [char] of a buffer is a [Z] holding its 8-bit
      pattern; the characters of a path or of a file name are [ascii];
    - a [std::string] is a [list ascii]; a [std::vector] is a [list];
    - the [std::map<int, FileDescriptor>] is a [gmap Z FileDescriptor.t];
    - memory is laid out as on x86-64 Linux (LP64, little-endian): [int] has
      4 bytes, [time_t] has 8, so [sizeof(Inode) = 96],
      [sizeof(Superblock) = 56] and [sizeof(DirectoryEntry) = 264];
    - an out-parameter is returned: a [bool] result with an out-parameter
      becomes an [option];
    - member state is passed explicitly, and a method that mutates an object
      returns the new object, also on its failure paths;
    - [time(nullptr)] is an argument [now] of the operation that calls it;
    - mutexes and locks are not modelled: every operation runs alone. *)

From Stdlib Require Import ZArith Ascii String List Lia Bool.
From stdpp Require Import base list gmap sorting.

Open Scope Z_scope.

(* ====================================================================== *)
(** * src/utils/common.h *)
(* ====================================================================== *)

Definition BLOCK_SIZE : Z := 4096.
Definition BITS_PER_BLOCK : Z := BLOCK_SIZE * 8.
Definition DISK_SIZE : Z := 100 * 1024 * 1024.
Definition MAX_FILENAME_LENGTH : Z := 256.
Definition MAX_PATH_LENGTH : Z := 1024.
Definition DIRECT_BLOCKS_COUNT : Z := 10.
Definition MAGIC_NUMBER : Z := 0x4D494E44.

Definition FILE_TYPE_REGULAR : Z := 0x8000.
Definition FILE_TYPE_DIRECTORY : Z := 0x4000.
Definition FILE_PERMISSION_READ : Z := 0x400.
Definition FILE_PERMISSION_WRITE : Z := 0x200.
Definition FILE_PERMISSION_EXECUTE : Z := 0x100.

Definition OPEN_MODE_READ : Z := 0x01.
Definition OPEN_MODE_WRITE : Z := 0x02.
Definition OPEN_MODE_CREATE : Z := 0x04.
Definition OPEN_MODE_APPEND : Z := 0x08.

Record DiskLayout := {
  superblock_start : Z;
  superblock_blocks : Z;
  inode_bitmap_start : Z;
  inode_bitmap_blocks : Z;
  data_bitmap_start : Z;
  data_bitmap_blocks : Z;
  inode_table_start : Z;
  inode_table_blocks : Z;
  data_blocks_start : Z;
  data_blocks_count : Z
}.

Module Superblock.
Record t := {
  magic_number : Z;
  total_blocks : Z;
  free_blocks : Z;
  total_inodes : Z;
  free_inodes : Z;
  block_size : Z;
  inode_table_start : Z;
  data_blocks_start : Z;
  inode_bitmap_start : Z;
  data_bitmap_start : Z;
  mount_time : Z;
  write_time : Z
}.
End Superblock.

Module Inode.
Record t := {
  mode : Z;
  owner_id : Z;
  group_id : Z;
  size : Z;
  access_time : Z;
  modification_time : Z;
  creation_time : Z;
  link_count : Z;
  direct_blocks : list Z;
  indirect_block : Z;
  double_indirect_block : Z
}.

Definition set_mode (v : Z) (i : t) : t :=
  {| mode := v; owner_id := owner_id i; group_id := group_id i;
     size := size i; access_time := access_time i;
     modification_time := modification_time i;
     creation_time := creation_time i; link_count := link_count i;
     direct_blocks := direct_blocks i; indirect_block := indirect_block i;
     double_indirect_block := double_indirect_block i |}.

Definition set_size (v : Z) (i : t) : t :=
  {| mode := mode i; owner_id := owner_id i; group_id := group_id i;
     size := v; access_time := access_time i;
     modification_time := modification_time i;
     creation_time := creation_time i; link_count := link_count i;
     direct_blocks := direct_blocks i; indirect_block := indirect_block i;
     double_indirect_block := double_indirect_block i |}.

Definition set_access_time (v : Z) (i : t) : t :=
  {| mode := mode i; owner_id := owner_id i; group_id := group_id i;
     size := size i; access_time := v;
     modification_time := modification_time i;
     creation_time := creation_time i; link_count := link_count i;
     direct_blocks := direct_blocks i; indirect_block := indirect_block i;
     double_indirect_block := double_indirect_block i |}.

Definition set_modification_time (v : Z) (i : t) : t :=
  {| mode := mode i; owner_id := owner_id i; group_id := group_id i;
     size := size i; access_time := access_time i;
     modification_time := v;
     creation_time := creation_time i; link_count := link_count i;
     direct_blocks := direct_blocks i; indirect_block := indirect_block i;
     double_indirect_block := double_indirect_block i |}.

Definition set_link_count (v : Z) (i : t) : t :=
  {| mode := mode i; owner_id := owner_id i; group_id := group_id i;
     size := size i; access_time := access_time i;
     modification_time := modification_time i;
     creation_time := creation_time i; link_count := v;
     direct_blocks := direct_blocks i; indirect_block := indirect_block i;
     double_indirect_block := double_indirect_block i |}.

Definition set_direct_blocks (v : list Z) (i : t) : t :=
  {| mode := mode i; owner_id := owner_id i; group_id := group_id i;
     size := size i; access_time := access_time i;
     modification_time := modification_time i;
     creation_time := creation_time i; link_count := link_count i;
     direct_blocks := v; indirect_block := indirect_block i;
     double_indirect_block := double_indirect_block i |}.

Definition set_indirect_block (v : Z) (i : t) : t :=
  {| mode := mode i; owner_id := owner_id i; group_id := group_id i;
     size := size i; access_time := access_time i;
     modification_time := modification_time i;
     creation_time := creation_time i; link_count := link_count i;
     direct_blocks := direct_blocks i; indirect_block := v;
     double_indirect_block := double_indirect_block i |}.

Definition set_double_indirect_block (v : Z) (i : t) : t :=
  {| mode := mode i; owner_id := owner_id i; group_id := group_id i;
     size := size i; access_time := access_time i;
     modification_time := modification_time i;
     creation_time := creation_time i; link_count := link_count i;
     direct_blocks := direct_blocks i; indirect_block := indirect_block i;
     double_indirect_block := v |}.
End Inode.

Module DirectoryEntry.
Record t := {
  inode_number : Z;
  name : list ascii;
  name_length : Z
}.
End DirectoryEntry.

Module FileDescriptor.
Record t := {
  inode_num : Z;
  mode : Z;
  position : Z;
  open : bool
}.

Definition set_position (v : Z) (desc : t) : t :=
  {| inode_num := inode_num desc; mode := mode desc; position := v;
     open := open desc |}.
End FileDescriptor.

(* ====================================================================== *)
(** * src/utils/error_codes.h *)
(* ====================================================================== *)

Inductive ErrorCode :=
| SUCCESS
| ERROR_DISK_NOT_FOUND
| ERROR_DISK_ALREADY_EXISTS
| ERROR_INVALID_BLOCK
| ERROR_NO_FREE_BLOCKS
| ERROR_NO_FREE_INODES
| ERROR_FILE_NOT_FOUND
| ERROR_FILE_ALREADY_EXISTS
| ERROR_INVALID_PATH
| ERROR_PERMISSION_DENIED
| ERROR_DISK_FULL
| ERROR_IO_ERROR
| ERROR_INVALID_INODE
| ERROR_DIRECTORY_NOT_EMPTY
| ERROR_NOT_A_DIRECTORY
| ERROR_IS_A_DIRECTORY
| ERROR_INVALID_FILE_DESCRIPTOR
| ERROR_FILE_ALREADY_OPEN
| ERROR_FILE_NOT_OPEN
| ERROR_INVALID_ARGUMENT
| ERROR_OUT_OF_MEMORY
| ERROR_BUFFER_OVERFLOW
| ERROR_UNKNOWN_COMMAND
| ERROR_INVALID_SYNTAX
| ERROR_MOUNT_FAILED
| ERROR_UNMOUNT_FAILED
| ERROR_FORMAT_FAILED
| ERROR_ALREADY_MOUNTED
| ERROR_NOT_MOUNTED.

(** The outcome of an operation that reports its failures through
    [ErrorHandler::log_error]: [Failed e] carries the code of the last error
    logged before the operation returned its failure value ([false] or
    [-1]). *)
Inductive outcome (A : Type) :=
| Done (a : A)
| Failed (e : ErrorCode).
Arguments Done {A} a.
Arguments Failed {A} e.

(** The [int] a C++ caller sees: the value, or [-1]. *)
Definition ret_int (o : outcome Z) : Z :=
  match o with Done v => v | Failed _ => -1 end.

(** The [bool] a C++ caller sees. *)
Definition ret_bool {A} (o : outcome A) : bool :=
  match o with Done _ => true | Failed _ => false end.

(* ====================================================================== *)
(** * Object representations: bytes, little-endian integers, buffers *)
(* ====================================================================== *)

(** Two's complement wrap-around of a 32-bit [int]. *)
Definition int32 (v : Z) : Z := (v + 2^31) mod 2^32 - 2^31.

(** The [n] little-endian bytes of [v]. *)
Fixpoint encode_le (n : nat) (v : Z) : list Z :=
  match n with
  | O => []
  | S n' => v mod 256 :: encode_le n' (v / 256)
  end.

(** The unsigned value of little-endian bytes. *)
Fixpoint decode_le (bs : list Z) : Z :=
  match bs with
  | [] => 0
  | b :: bs' => b + 256 * decode_le bs'
  end.

Definition to_signed (bytes : Z) (u : Z) : Z :=
  if u <? 2 ^ (8 * bytes - 1) then u else u - 2 ^ (8 * bytes).

Definition sizeof_int : Z := 4.
Definition sizeof_time_t : Z := 8.

Definition encode_int (v : Z) : list Z := encode_le 4 v.
Definition encode_time (v : Z) : list Z := encode_le 8 v.

(** [slice buf off len]: the bytes [buf + off .. buf + off + len). *)
Definition slice {A} (buf : list A) (off len : Z) : list A :=
  take (Z.to_nat len) (drop (Z.to_nat off) buf).

(** [memcpy(dest + off, src, |src|)] on a buffer that is long enough. *)
Definition splice {A} (dest : list A) (off : Z) (src : list A) : list A :=
  take (Z.to_nat off) dest ++ src
    ++ drop (Z.to_nat off + length src) dest.

Definition get_int (buf : list Z) (off : Z) : Z :=
  to_signed 4 (decode_le (slice buf off 4)).
Definition get_time (buf : list Z) (off : Z) : Z :=
  to_signed 8 (decode_le (slice buf off 8)).

(** [reinterpret_cast<int*>(buffer)[i]]. *)
Definition int_at (buf : list Z) (i : Z) : Z := get_int buf (4 * i).

(** ** struct Inode *)

Definition sizeof_Inode : Z := 96.

Definition encode_Inode (i : Inode.t) : list Z :=
  encode_int (Inode.mode i) ++ encode_int (Inode.owner_id i)
  ++ encode_int (Inode.group_id i) ++ encode_int (Inode.size i)
  ++ encode_time (Inode.access_time i)
  ++ encode_time (Inode.modification_time i)
  ++ encode_time (Inode.creation_time i)
  ++ encode_int (Inode.link_count i)
  ++ concat (map encode_int (take 10 (Inode.direct_blocks i)))
  ++ encode_int (Inode.indirect_block i)
  ++ encode_int (Inode.double_indirect_block i)
  ++ [0; 0; 0; 0].

Definition decode_Inode (b : list Z) : Inode.t :=
  {| Inode.mode := get_int b 0;
     Inode.owner_id := get_int b 4;
     Inode.group_id := get_int b 8;
     Inode.size := get_int b 12;
     Inode.access_time := get_time b 16;
     Inode.modification_time := get_time b 24;
     Inode.creation_time := get_time b 32;
     Inode.link_count := get_int b 40;
     Inode.direct_blocks :=
       map (fun k => get_int b (44 + 4 * k)) (seqZ 0 DIRECT_BLOCKS_COUNT);
     Inode.indirect_block := get_int b 84;
     Inode.double_indirect_block := get_int b 88 |}.

(** ** struct Superblock *)

Definition sizeof_Superblock : Z := 56.

Definition encode_Superblock (s : Superblock.t) : list Z :=
  encode_int (Superblock.magic_number s)
  ++ encode_int (Superblock.total_blocks s)
  ++ encode_int (Superblock.free_blocks s)
  ++ encode_int (Superblock.total_inodes s)
  ++ encode_int (Superblock.free_inodes s)
  ++ encode_int (Superblock.block_size s)
  ++ encode_int (Superblock.inode_table_start s)
  ++ encode_int (Superblock.data_blocks_start s)
  ++ encode_int (Superblock.inode_bitmap_start s)
  ++ encode_int (Superblock.data_bitmap_start s)
  ++ encode_time (Superblock.mount_time s)
  ++ encode_time (Superblock.write_time s).

Definition decode_Superblock (b : list Z) : Superblock.t :=
  {| Superblock.magic_number := get_int b 0;
     Superblock.total_blocks := get_int b 4;
     Superblock.free_blocks := get_int b 8;
     Superblock.total_inodes := get_int b 12;
     Superblock.free_inodes := get_int b 16;
     Superblock.block_size := get_int b 20;
     Superblock.inode_table_start := get_int b 24;
     Superblock.data_blocks_start := get_int b 28;
     Superblock.inode_bitmap_start := get_int b 32;
     Superblock.data_bitmap_start := get_int b 36;
     Superblock.mount_time := get_time b 40;
     Superblock.write_time := get_time b 48 |}.

(** ** struct DirectoryEntry *)

Definition sizeof_DirectoryEntry : Z := 264.

Definition char_code (c : ascii) : Z := Z.of_N (N_of_ascii c).
Definition char_of_code (v : Z) : ascii := ascii_of_N (Z.to_N (v mod 256)).
Definition NUL : ascii := "000"%char.

Definition encode_DirectoryEntry (e : DirectoryEntry.t) : list Z :=
  encode_int (DirectoryEntry.inode_number e)
  ++ map char_code (take 256 (DirectoryEntry.name e ++ repeat NUL 256))
  ++ encode_int (DirectoryEntry.name_length e).

Definition decode_DirectoryEntry (b : list Z) : DirectoryEntry.t :=
  {| DirectoryEntry.inode_number := get_int b 0;
     DirectoryEntry.name := map char_of_code (slice b 4 256);
     DirectoryEntry.name_length := get_int b 260 |}.

(** [reinterpret_cast<DirectoryEntry*>(buffer)[i]]. *)
Definition entry_at (buf : list Z) (i : Z) : DirectoryEntry.t :=
  decode_DirectoryEntry
    (slice buf (i * sizeof_DirectoryEntry) sizeof_DirectoryEntry).

(** The C string held in a [char] array: the characters before the first
    NUL. *)
Fixpoint c_str (s : list ascii) : list ascii :=
  match s with
  | [] => []
  | c :: s' => if Ascii.eqb c NUL then [] else c :: c_str s'
  end.

(** [strcmp(a, b) == 0]. *)
Definition strcmp_eq (a b : list ascii) : bool :=
  bool_decide (c_str a = c_str b).

(** [strncmp(a, b, n) == 0]. *)
Definition strncmp_eq (a b : list ascii) (n : Z) : bool :=
  bool_decide (c_str (take (Z.to_nat n) a) = c_str (take (Z.to_nat n) b)).

(* ====================================================================== *)
(** * src/utils/block_utils.cpp *)
(* ====================================================================== *)

Module BlockUtils.

Definition calculate_blocks_needed (size : Z) : Z :=
  (size + BLOCK_SIZE - 1) / BLOCK_SIZE.

Definition is_valid_block_index (block_index : Z) : bool :=
  let total_blocks := DISK_SIZE / BLOCK_SIZE in
  block_index <? total_blocks.

(** A fresh buffer of [BLOCK_SIZE] zero bytes. *)
Definition create_block_buffer : list Z := repeat 0 (Z.to_nat BLOCK_SIZE).

(** [memset(buffer, 0, size)]. *)
Definition clear_buffer (size : Z) : list Z := repeat 0 (Z.to_nat size).

End BlockUtils.

(* ====================================================================== *)
(** * src/core/disk_simulator.cpp *)
(* ====================================================================== *)

(** What the host offers for a path: the bytes of the file, and whether
    [flock] grants the exclusive lock. *)
Record HostFile := {
  contents : list Z;
  lockable : bool
}.

Definition Host := list ascii -> option HostFile.

(** [disk_file] is the open [FILE*] (the bytes of the host file it reads and
    writes), [None] for [nullptr]. *)
Record DiskSimulator := {
  disk_path : list ascii;
  disk_file : option (list Z);
  disk_size : Z;
  total_blocks : Z;
  disk_open : bool;
  lock_acquired : bool
}.

Module Disk.

(** [DiskSimulator::DiskSimulator()]. *)
Definition init : DiskSimulator :=
  {| disk_path := []; disk_file := None; disk_size := 0; total_blocks := 0;
     disk_open := false; lock_acquired := false |}.

Definition set_file (data : list Z) (d : DiskSimulator) : DiskSimulator :=
  {| disk_path := disk_path d; disk_file := Some data;
     disk_size := disk_size d; total_blocks := total_blocks d;
     disk_open := disk_open d; lock_acquired := lock_acquired d |}.

(** [DiskSimulator::open_disk]. *)
Definition open_disk (host : Host) (path : list ascii) (d : DiskSimulator)
  : bool * DiskSimulator :=
  if disk_open d then (false, d)
  else
    match host path with
    | None => (false, d)
    | Some f =>
        if negb (lockable f) then
          (false,
           {| disk_path := disk_path d; disk_file := None;
              disk_size := disk_size d; total_blocks := total_blocks d;
              disk_open := disk_open d; lock_acquired := lock_acquired d |})
        else
          let size := Z.of_nat (length (contents f)) in
          (true,
           {| disk_path := path; disk_file := Some (contents f);
              disk_size := size; total_blocks := size / BLOCK_SIZE;
              disk_open := true; lock_acquired := true |})
    end.

(** [DiskSimulator::close_disk]. *)
Definition close_disk (d : DiskSimulator) : DiskSimulator :=
  match disk_file d with
  | Some _ =>
      {| disk_path := disk_path d; disk_file := None;
         disk_size := disk_size d; total_blocks := total_blocks d;
         disk_open := false; lock_acquired := false |}
  | None =>
      {| disk_path := disk_path d; disk_file := None;
         disk_size := disk_size d; total_blocks := total_blocks d;
         disk_open := false; lock_acquired := lock_acquired d |}
  end.

(** [DiskSimulator::is_ready_for_io]. *)
Definition is_ready_for_io (d : DiskSimulator) (block_num : Z) : bool :=
  if negb (disk_open d) then false
  else if (block_num <? 0) || (total_blocks d <=? block_num) then false
  else true.

(** [DiskSimulator::read_block]: [fread] must deliver a whole block. *)
Definition read_block (d : DiskSimulator) (block_num : Z) : option (list Z) :=
  if negb (is_ready_for_io d block_num) then None
  else
    match disk_file d with
    | None => None
    | Some data =>
        let buffer := slice data (block_num * BLOCK_SIZE) BLOCK_SIZE in
        if Z.of_nat (length buffer) =? BLOCK_SIZE then Some buffer else None
    end.

(** [DiskSimulator::write_block]: [fwrite] takes [BLOCK_SIZE] bytes of the
    buffer. *)
Definition write_block (d : DiskSimulator) (block_num : Z) (buffer : list Z)
  : bool * DiskSimulator :=
  if negb (is_ready_for_io d block_num) then (false, d)
  else
    match disk_file d with
    | None => (false, d)
    | Some data =>
        (true,
         set_file (splice data (block_num * BLOCK_SIZE)
                          (take (Z.to_nat BLOCK_SIZE) buffer)) d)
    end.

Definition inodes_per_block : Z := BLOCK_SIZE / sizeof_Inode.

(** [DiskSimulator::calculate_layout]. *)
Definition calculate_layout (d : DiskSimulator) : DiskLayout :=
  let superblock_blocks := 1 in
  let superblock_start := 0 in
  let inode_count :=
    (total_blocks d / 10 + inodes_per_block - 1) / inodes_per_block
      * inodes_per_block in
  let inode_count :=
    if (inode_count =? 0) && (10 <? total_blocks d) then inodes_per_block
    else inode_count in
  let inode_table_blocks := inode_count / inodes_per_block in
  let inode_table_start := superblock_start + superblock_blocks in
  let inode_bitmap_blocks :=
    (inode_count + BITS_PER_BLOCK - 1) / BITS_PER_BLOCK in
  let inode_bitmap_start := inode_table_start + inode_table_blocks in
  let data_bitmap_blocks :=
    (total_blocks d + BITS_PER_BLOCK - 1) / BITS_PER_BLOCK in
  let data_bitmap_start := inode_bitmap_start + inode_bitmap_blocks in
  let data_blocks_start := data_bitmap_start + data_bitmap_blocks in
  let data_blocks_count :=
    if data_blocks_start <? total_blocks d
    then total_blocks d - data_blocks_start else 0 in
  {| superblock_start := superblock_start;
     superblock_blocks := superblock_blocks;
     inode_bitmap_start := inode_bitmap_start;
     inode_bitmap_blocks := inode_bitmap_blocks;
     data_bitmap_start := data_bitmap_start;
     data_bitmap_blocks := data_bitmap_blocks;
     inode_table_start := inode_table_start;
     inode_table_blocks := inode_table_blocks;
     data_blocks_start := data_blocks_start;
     data_blocks_count := data_blocks_count |}.

(** [DiskSimulator::initialize_superblock]. *)
Definition initialize_superblock (now : Z) (layout : DiskLayout)
    (d : DiskSimulator) : bool * DiskSimulator :=
  let total_inodes := inode_table_blocks layout * inodes_per_block in
  let sb :=
    {| Superblock.magic_number := MAGIC_NUMBER;
       Superblock.total_blocks := total_blocks d;
       Superblock.free_blocks := data_blocks_count layout;
       Superblock.total_inodes := total_inodes;
       Superblock.free_inodes := total_inodes;
       Superblock.block_size := BLOCK_SIZE;
       Superblock.inode_table_start := inode_table_start layout;
       Superblock.data_blocks_start := data_blocks_start layout;
       Superblock.inode_bitmap_start := inode_bitmap_start layout;
       Superblock.data_bitmap_start := data_bitmap_start layout;
       Superblock.mount_time := now;
       Superblock.write_time := now |} in
  let buffer := splice BlockUtils.create_block_buffer 0 (encode_Superblock sb) in
  write_block d (superblock_start layout) buffer.

(** The loop of [DiskSimulator::write_zeroed_blocks], [i] counting up. *)
Fixpoint write_zeroed_loop (n : nat) (block : Z) (d : DiskSimulator)
  : bool * DiskSimulator :=
  match n with
  | O => (true, d)
  | S n' =>
      match write_block d block BlockUtils.create_block_buffer with
      | (false, d') => (false, d')
      | (true, d') => write_zeroed_loop n' (block + 1) d'
      end
  end.

(** [DiskSimulator::write_zeroed_blocks]. *)
Definition write_zeroed_blocks (start_block num_blocks : Z)
    (d : DiskSimulator) : bool * DiskSimulator :=
  if num_blocks <=? 0 then (true, d)
  else write_zeroed_loop (Z.to_nat num_blocks) start_block d.

(** [DiskSimulator::initialize_bitmaps]. *)
Definition initialize_bitmaps (layout : DiskLayout) (d : DiskSimulator)
  : bool * DiskSimulator :=
  match write_zeroed_blocks (inode_bitmap_start layout)
                            (inode_bitmap_blocks layout) d with
  | (false, d') => (false, d')
  | (true, d') =>
      match write_zeroed_blocks (data_bitmap_start layout)
                                (data_bitmap_blocks layout) d' with
      | (false, d'') => (false, d'')
      | (true, d'') => (true, d'')
      end
  end.

(** [DiskSimulator::initialize_inode_table]. *)
Definition initialize_inode_table (layout : DiskLayout) (d : DiskSimulator)
  : bool * DiskSimulator :=
  write_zeroed_blocks (inode_table_start layout) (inode_table_blocks layout) d.

(** [DiskSimulator::format_disk]. *)
Definition format_disk (now : Z) (d : DiskSimulator) : bool * DiskSimulator :=
  if negb (disk_open d) then (false, d)
  else
    let layout := calculate_layout d in
    match initialize_superblock now layout d with
    | (false, d1) => (false, d1)
    | (true, d1) =>
        match initialize_bitmaps layout d1 with
        | (false, d2) => (false, d2)
        | (true, d2) =>
            match initialize_inode_table layout d2 with
            | (false, d3) => (false, d3)
            | (true, d3) => (true, d3)
            end
        end
    end.

End Disk.

(* ====================================================================== *)
(** * src/core/bitmap_manager.cpp *)
(* ====================================================================== *)

(** [bitmap_data] is [None] for [nullptr]. *)
Record BitmapManager := {
  bitmap_data : option (list Z);
  bitmap_size : Z;
  total_bits : Z;
  free_bits_count : Z;
  start_block : Z;
  block_count : Z
}.

Module Bitmap.

Definition set_data (data : list Z) (b : BitmapManager) : BitmapManager :=
  {| bitmap_data := Some data; bitmap_size := bitmap_size b;
     total_bits := total_bits b; free_bits_count := free_bits_count b;
     start_block := start_block b; block_count := block_count b |}.

Definition set_free_bits_count (v : Z) (b : BitmapManager) : BitmapManager :=
  {| bitmap_data := bitmap_data b; bitmap_size := bitmap_size b;
     total_bits := total_bits b; free_bits_count := v;
     start_block := start_block b; block_count := block_count b |}.

Definition set_blocks (start count : Z) (b : BitmapManager) : BitmapManager :=
  {| bitmap_data := bitmap_data b; bitmap_size := bitmap_size b;
     total_bits := total_bits b; free_bits_count := free_bits_count b;
     start_block := start; block_count := count |}.

(** [BitmapManager::BitmapManager(int size)]; the allocation of the array
    is taken to succeed. *)
Definition create (size : Z) : BitmapManager :=
  if 0 <? size then
    let bitmap_size := (size + 7) / 8 in
    {| bitmap_data := Some (BlockUtils.clear_buffer bitmap_size);
       bitmap_size := bitmap_size; total_bits := size;
       free_bits_count := size; start_block := 0; block_count := 0 |}
  else
    {| bitmap_data := None; bitmap_size := 0; total_bits := size;
       free_bits_count := size; start_block := 0; block_count := 0 |}.

(** [BitmapManager::check_initialized]. *)
Definition check_initialized (b : BitmapManager) : bool :=
  match bitmap_data b with
  | Some _ => 0 <? bitmap_size b
  | None => false
  end.

(** [BitmapManager::is_valid_bit]. *)
Definition is_valid_bit (b : BitmapManager) (bit_num : Z) : bool :=
  (0 <=? bit_num) && (bit_num <? total_bits b).

(** [(bitmap_data[bit / 8] & (1 << (bit % 8))) != 0]. *)
Definition test_bit (data : list Z) (bit : Z) : bool :=
  let byte_index := bit / 8 in
  let bit_offset := bit mod 8 in
  negb (Z.land (data !!! Z.to_nat byte_index) (Z.shiftl 1 bit_offset) =? 0).

(** [BitmapManager::set_bit]: [bitmap_data[byte_index] |= (1 << bit_offset)]. *)
Definition set_bit (b : BitmapManager) (bit_num : Z) : BitmapManager :=
  if negb (is_valid_bit b bit_num) then b
  else
    match bitmap_data b with
    | None => b
    | Some data =>
        let byte_index := Z.to_nat (bit_num / 8) in
        let bit_offset := bit_num mod 8 in
        set_data (<[byte_index :=
                      Z.lor (data !!! byte_index) (Z.shiftl 1 bit_offset)]> data) b
    end.

(** [BitmapManager::clear_bit]: [bitmap_data[byte_index] &= ~(1 << bit_offset)]. *)
Definition clear_bit (b : BitmapManager) (bit_num : Z) : BitmapManager :=
  if negb (is_valid_bit b bit_num) then b
  else
    match bitmap_data b with
    | None => b
    | Some data =>
        let byte_index := Z.to_nat (bit_num / 8) in
        let bit_offset := bit_num mod 8 in
        set_data (<[byte_index :=
                      Z.land (data !!! byte_index)
                             (Z.lnot (Z.shiftl 1 bit_offset))]> data) b
    end.

(** The scan of [find_free_bit]: [for (bit = ...; bit < total_bits; ++bit)],
    with [remaining = total_bits - bit]. *)
Fixpoint find_free_from (data : list Z) (bit : Z) (remaining : nat) : Z :=
  match remaining with
  | O => -1
  | S r =>
      if negb (test_bit data bit) then bit
      else find_free_from data (bit + 1) r
  end.

(** [BitmapManager::find_free_bit]. *)
Definition find_free_bit (b : BitmapManager) : Z :=
  match bitmap_data b with
  | None => -1
  | Some data =>
      if free_bits_count b =? 0 then -1
      else find_free_from data 0 (Z.to_nat (total_bits b))
  end.

(** [BitmapManager::allocate_bit]. *)
Definition allocate_bit (b : BitmapManager) : option Z * BitmapManager :=
  if negb (check_initialized b) then (None, b)
  else
    let bit_num := find_free_bit b in
    if bit_num =? -1 then (None, b)
    else
      let b := set_bit b bit_num in
      (Some bit_num, set_free_bits_count (free_bits_count b - 1) b).

(** [BitmapManager::free_bit]. *)
Definition free_bit (b : BitmapManager) (bit_num : Z) : bool * BitmapManager :=
  if negb (check_initialized b) || negb (is_valid_bit b bit_num) then (false, b)
  else
    match bitmap_data b with
    | None => (false, b)
    | Some data =>
        let was_allocated := test_bit data bit_num in
        if was_allocated then
          let b := clear_bit b bit_num in
          (true, set_free_bits_count (free_bits_count b + 1) b)
        else (true, b)
    end.

(** [BitmapManager::is_allocated]. *)
Definition is_allocated (b : BitmapManager) (bit_num : Z) : bool :=
  if negb (is_valid_bit b bit_num) then false
  else
    match bitmap_data b with
    | None => false
    | Some data => test_bit data bit_num
    end.

(** [BitmapManager::clear_all]. *)
Definition clear_all (b : BitmapManager) : BitmapManager :=
  if check_initialized b then
    set_free_bits_count (total_bits b)
      (set_data (BlockUtils.clear_buffer (bitmap_size b)) b)
  else b.

(** The counting loop of [recalculate_free_bits]. *)
Fixpoint count_free_from (data : list Z) (bit : Z) (remaining : nat) : Z :=
  match remaining with
  | O => 0
  | S r =>
      (if negb (test_bit data bit) then 1 else 0)
        + count_free_from data (bit + 1) r
  end.

(** [BitmapManager::recalculate_free_bits]. *)
Definition recalculate_free_bits (b : BitmapManager) : BitmapManager :=
  match bitmap_data b with
  | None => set_free_bits_count 0 b
  | Some data =>
      if total_bits b <=? 0 then set_free_bits_count 0 b
      else
        set_free_bits_count
          (count_free_from data 0 (Z.to_nat (total_bits b))) b
  end.

(** The loop of [load_from_disk]: block [i] is read before
    [bytes_to_copy] is looked at; [ptr] is
    [current_bitmap_ptr - bitmap_data]. A failed read leaves the bytes
    copied so far in place. *)
Fixpoint load_loop (d : DiskSimulator) (n : nat) (block : Z)
    (data : list Z) (ptr remaining_bytes : Z) : bool * list Z :=
  match n with
  | O => (true, data)
  | S n' =>
      match Disk.read_block d block with
      | None => (false, data)
      | Some buffer =>
          let bytes_to_copy := Z.min BLOCK_SIZE remaining_bytes in
          if bytes_to_copy <=? 0 then (true, data)
          else
            load_loop d n' (block + 1)
              (splice data ptr (slice buffer 0 bytes_to_copy))
              (ptr + bytes_to_copy) (remaining_bytes - bytes_to_copy)
      end
  end.

(** [BitmapManager::load_from_disk]. *)
Definition load_from_disk (d : DiskSimulator) (start_block_num num_blocks : Z)
    (b : BitmapManager) : bool * BitmapManager :=
  if negb (check_initialized b) then (false, b)
  else
    let b := set_blocks start_block_num num_blocks b in
    match bitmap_data b with
    | None => (false, b)
    | Some data =>
        match load_loop d (Z.to_nat num_blocks) start_block_num data 0
                        (bitmap_size b) with
        | (false, data') => (false, set_data data' b)
        | (true, data') => (true, recalculate_free_bits (set_data data' b))
        end
    end.

(** The loop of [save_to_disk]. *)
Fixpoint save_loop (n : nat) (block : Z) (data : list Z)
    (ptr remaining_bytes : Z) (d : DiskSimulator) : bool * DiskSimulator :=
  match n with
  | O => (true, d)
  | S n' =>
      let buffer := BlockUtils.create_block_buffer in
      let bytes_to_copy := Z.min BLOCK_SIZE remaining_bytes in
      let buffer :=
        if 0 <? bytes_to_copy
        then splice buffer 0 (slice data ptr bytes_to_copy) else buffer in
      let ptr := if 0 <? bytes_to_copy then ptr + bytes_to_copy else ptr in
      let remaining_bytes :=
        if 0 <? bytes_to_copy then remaining_bytes - bytes_to_copy
        else remaining_bytes in
      match Disk.write_block d block buffer with
      | (false, d') => (false, d')
      | (true, d') => save_loop n' (block + 1) data ptr remaining_bytes d'
      end
  end.

(** [BitmapManager::save_to_disk]. *)
Definition save_to_disk (d : DiskSimulator) (start_block_num num_blocks : Z)
    (b : BitmapManager) : bool * DiskSimulator * BitmapManager :=
  if negb (check_initialized b) then (false, d, b)
  else
    let b := set_blocks start_block_num num_blocks b in
    match bitmap_data b with
    | None => (false, d, b)
    | Some data =>
        let '(ok, d') :=
          save_loop (Z.to_nat num_blocks) start_block_num data 0
                    (bitmap_size b) d in
        (ok, d', b)
    end.

Definition get_total_bits (b : BitmapManager) : Z := total_bits b.
Definition get_free_bits (b : BitmapManager) : Z := free_bits_count b.
Definition get_used_bits (b : BitmapManager) : Z :=
  total_bits b - free_bits_count b.

End Bitmap.
(* ====================================================================== *)
(** * src/core/inode_manager.cpp *)
(* ====================================================================== *)

(** The two bitmap pointers are null exactly until [initialize] has run;
    they are held here by value, and nothing reads them while
    [initialized] is [false]. The disk is the [DiskSimulator&] member: the
    one disk of the file system, passed to every method. *)
Record InodeManager := {
  layout : DiskLayout;
  inode_bitmap : BitmapManager;
  data_bitmap : BitmapManager;
  initialized : bool
}.

Module InodeMgr.

(** [InodeManager::InodeManager(DiskSimulator&)]. *)
Definition init : InodeManager :=
  {| layout :=
       {| superblock_start := 0; superblock_blocks := 0;
          inode_bitmap_start := 0; inode_bitmap_blocks := 0;
          data_bitmap_start := 0; data_bitmap_blocks := 0;
          inode_table_start := 0; inode_table_blocks := 0;
          data_blocks_start := 0; data_blocks_count := 0 |};
     inode_bitmap := Bitmap.create 0;
     data_bitmap := Bitmap.create 0;
     initialized := false |}.

Definition set_inode_bitmap (b : BitmapManager) (m : InodeManager)
  : InodeManager :=
  {| layout := layout m; inode_bitmap := b; data_bitmap := data_bitmap m;
     initialized := initialized m |}.

Definition set_data_bitmap (b : BitmapManager) (m : InodeManager)
  : InodeManager :=
  {| layout := layout m; inode_bitmap := inode_bitmap m; data_bitmap := b;
     initialized := initialized m |}.

Definition set_initialized (v : bool) (m : InodeManager) : InodeManager :=
  {| layout := layout m; inode_bitmap := inode_bitmap m;
     data_bitmap := data_bitmap m; initialized := v |}.

(** [InodeManager::check_initialized]. *)
Definition check_initialized (m : InodeManager) : bool := initialized m.

(** [InodeManager::load_bitmaps]; [&&] does not load the data bitmap when
    the inode bitmap failed. *)
Definition load_bitmaps (d : DiskSimulator) (m : InodeManager)
  : bool * InodeManager :=
  match Bitmap.load_from_disk d (inode_bitmap_start (layout m))
          (inode_bitmap_blocks (layout m)) (inode_bitmap m) with
  | (false, ib) => (false, set_inode_bitmap ib m)
  | (true, ib) =>
      let m := set_inode_bitmap ib m in
      let '(ok, db) :=
        Bitmap.load_from_disk d (data_bitmap_start (layout m))
          (data_bitmap_blocks (layout m)) (data_bitmap m) in
      (ok, set_data_bitmap db m)
  end.

(** [InodeManager::initialize]. *)
Definition initialize (d : DiskSimulator) (l : DiskLayout) (m : InodeManager)
  : bool * InodeManager :=
  let total_inodes := inode_table_blocks l * (BLOCK_SIZE / sizeof_Inode) in
  let total_data_blocks := data_blocks_count l in
  let m :=
    {| layout := l; inode_bitmap := Bitmap.create total_inodes;
       data_bitmap := Bitmap.create total_data_blocks;
       initialized := initialized m |} in
  match load_bitmaps d m with
  | (false, m') => (false, m')
  | (true, m') => (true, set_initialized true m')
  end.

(** [InodeManager::save_inode_bitmap]. *)
Definition save_inode_bitmap (d : DiskSimulator) (m : InodeManager)
  : bool * DiskSimulator * InodeManager :=
  let '(ok, d', b) :=
    Bitmap.save_to_disk d (inode_bitmap_start (layout m))
      (inode_bitmap_blocks (layout m)) (inode_bitmap m) in
  (ok, d', set_inode_bitmap b m).

(** [InodeManager::save_data_bitmap]. *)
Definition save_data_bitmap (d : DiskSimulator) (m : InodeManager)
  : bool * DiskSimulator * InodeManager :=
  let '(ok, d', b) :=
    Bitmap.save_to_disk d (data_bitmap_start (layout m))
      (data_bitmap_blocks (layout m)) (data_bitmap m) in
  (ok, d', set_data_bitmap b m).

(** [InodeManager::reload_bitmap]. *)
Definition reload_bitmap (d : DiskSimulator) (m : InodeManager)
  : bool * InodeManager :=
  if negb (check_initialized m) then (false, m) else load_bitmaps d m.

(** [InodeManager::is_inode_allocated]. *)
Definition is_inode_allocated (m : InodeManager) (inode_num : Z) : bool :=
  if negb (initialized m) then false
  else Bitmap.is_allocated (inode_bitmap m) inode_num.

Definition get_total_inodes (m : InodeManager) : Z :=
  if initialized m then Bitmap.get_total_bits (inode_bitmap m) else 0.

Definition get_free_inodes (m : InodeManager) : Z :=
  if initialized m then Bitmap.get_free_bits (inode_bitmap m) else 0.

Definition get_free_data_blocks (m : InodeManager) : Z :=
  if initialized m then Bitmap.get_free_bits (data_bitmap m) else 0.

(** [InodeManager::get_inode_position]: [(block_num, offset_in_block)]. *)
Definition get_inode_position (m : InodeManager) (inode_num : Z)
  : option (Z * Z) :=
  if (inode_num <? 0) || (get_total_inodes m <=? inode_num) then None
  else
    let inodes_per_block := BLOCK_SIZE / sizeof_Inode in
    Some (inode_table_start (layout m) + inode_num / inodes_per_block,
          (inode_num mod inodes_per_block) * sizeof_Inode).

(** [InodeManager::read_inode]. *)
Definition read_inode (d : DiskSimulator) (m : InodeManager) (inode_num : Z)
  : option Inode.t :=
  if negb (check_initialized m) then None
  else
    match get_inode_position m inode_num with
    | None => None
    | Some (block_num, offset_in_block) =>
        match Disk.read_block d block_num with
        | None => None
        | Some buffer =>
            Some (decode_Inode (slice buffer offset_in_block sizeof_Inode))
        end
    end.

(** [InodeManager::write_inode]: read the block, overwrite the slot, write
    the block back. *)
Definition write_inode (d : DiskSimulator) (m : InodeManager) (inode_num : Z)
    (inode : Inode.t) : bool * DiskSimulator :=
  if negb (check_initialized m) then (false, d)
  else
    match get_inode_position m inode_num with
    | None => (false, d)
    | Some (block_num, offset_in_block) =>
        match Disk.read_block d block_num with
        | None => (false, d)
        | Some buffer =>
            let buffer := splice buffer offset_in_block (encode_Inode inode) in
            Disk.write_block d block_num buffer
        end
    end.

(** [InodeManager::initialize_new_inode]. *)
Definition initialize_new_inode (now : Z) : Inode.t :=
  {| Inode.mode := 0; Inode.owner_id := 0; Inode.group_id := 0;
     Inode.size := 0; Inode.access_time := now;
     Inode.modification_time := now; Inode.creation_time := now;
     Inode.link_count := 1;
     Inode.direct_blocks := repeat 0 (Z.to_nat DIRECT_BLOCKS_COUNT);
     Inode.indirect_block := -1; Inode.double_indirect_block := -1 |}.

(** [InodeManager::allocate_inode]. *)
Definition allocate_inode (now : Z) (d : DiskSimulator) (m : InodeManager)
  : option Z * DiskSimulator * InodeManager :=
  if negb (check_initialized m) then (None, d, m)
  else
    match Bitmap.allocate_bit (inode_bitmap m) with
    | (None, ib) => (None, d, set_inode_bitmap ib m)
    | (Some inode_num, ib) =>
        let m := set_inode_bitmap ib m in
        let new_inode := initialize_new_inode now in
        match write_inode d m inode_num new_inode with
        | (false, d') =>
            (None, d',
             set_inode_bitmap (Bitmap.free_bit (inode_bitmap m) inode_num).2 m)
        | (true, d') =>
            match save_inode_bitmap d' m with
            | (false, d'', m') =>
                (None, d'',
                 set_inode_bitmap
                   (Bitmap.free_bit (inode_bitmap m') inode_num).2 m')
            | (true, d'', m') => (Some inode_num, d'', m')
            end
        end
    end.

(** [InodeManager::read_indirect_block], the loop
    [for (i = ...; i < count && blocks[i] != 0; ++i)]. *)
Fixpoint read_entries (buffer : list Z) (i : Z) (remaining : nat) : list Z :=
  match remaining with
  | O => []
  | S r =>
      let v := int_at buffer i in
      if v =? 0 then [] else v :: read_entries buffer (i + 1) r
  end.

(** [InodeManager::read_indirect_block]. *)
Definition read_indirect_block (d : DiskSimulator) (block_num : Z)
  : option (list Z) :=
  match Disk.read_block d block_num with
  | None => None
  | Some buffer =>
      let count := BLOCK_SIZE / sizeof_int in
      Some (read_entries buffer 0 (Z.to_nat count))
  end.

(** The loop of [write_indirect_block]:
    [for (i = ...; i < data_blocks.size() && i < max_blocks; ++i)]. *)
Fixpoint write_entries (buffer : list Z) (i : Z) (data_blocks : list Z)
  : list Z :=
  match data_blocks with
  | [] => buffer
  | v :: rest =>
      if i <? BLOCK_SIZE / sizeof_int
      then write_entries (splice buffer (4 * i) (encode_int v)) (i + 1) rest
      else buffer
  end.

(** [InodeManager::write_indirect_block]. *)
Definition write_indirect_block (d : DiskSimulator) (block_num : Z)
    (data_blocks : list Z) : bool * DiskSimulator :=
  let buffer := BlockUtils.create_block_buffer in
  Disk.write_block d block_num (write_entries buffer 0 data_blocks).

(** [InodeManager::allocate_indirect_block]. *)
Definition allocate_indirect_block (d : DiskSimulator) (m : InodeManager)
  : option Z * DiskSimulator * InodeManager :=
  match Bitmap.allocate_bit (data_bitmap m) with
  | (None, db) => (None, d, set_data_bitmap db m)
  | (Some bit_num, db) =>
      let m := set_data_bitmap db m in
      let block_num := data_blocks_start (layout m) + bit_num in
      match Disk.write_block d block_num BlockUtils.create_block_buffer with
      | (false, d') => (None, d', m)
      | (true, d') => (Some block_num, d', m)
      end
  end.

(** [InodeManager::free_indirect_block]. *)
Definition free_indirect_block (m : InodeManager) (block_num : Z)
  : bool * InodeManager :=
  if block_num =? -1 then (true, m)
  else
    let '(ok, db) :=
      Bitmap.free_bit (data_bitmap m)
                      (block_num - data_blocks_start (layout m)) in
    (ok, set_data_bitmap db m).

(** [data_bitmap->free_bit(block - layout.data_blocks_start)], the result
    dropped. *)
Definition free_block_bit (m : InodeManager) (block : Z) : InodeManager :=
  set_data_bitmap
    (Bitmap.free_bit (data_bitmap m)
                     (block - data_blocks_start (layout m))).2 m.

(** [InodeManager::allocate_single_block]. *)
Definition allocate_single_block (m : InodeManager)
  : option Z * InodeManager :=
  match Bitmap.allocate_bit (data_bitmap m) with
  | (None, db) => (None, set_data_bitmap db m)
  | (Some bit_num, db) =>
      (Some (data_blocks_start (layout m) + bit_num), set_data_bitmap db m)
  end.

(** The loop of [allocate_multiple_blocks]; [block_indices] holds the
    blocks taken so far. *)
Fixpoint allocate_multiple_loop (count : nat) (block_indices : list Z)
    (m : InodeManager) : option (list Z) * InodeManager :=
  match count with
  | O => (Some block_indices, m)
  | S count' =>
      match allocate_single_block m with
      | (None, m') => (None, foldl free_block_bit m' block_indices)
      | (Some block_index, m') =>
          allocate_multiple_loop count' (block_indices ++ [block_index]) m'
      end
  end.

(** [InodeManager::allocate_multiple_blocks]. *)
Definition allocate_multiple_blocks (count : Z) (m : InodeManager)
  : option (list Z) * InodeManager :=
  allocate_multiple_loop (Z.to_nat count) [] m.

(** [InodeManager::get_data_blocks]: the blocks of the inner indirect
    blocks of a double-indirect block. *)
Fixpoint collect_indirect (d : DiskSimulator) (pointers : list Z)
  : option (list Z) :=
  match pointers with
  | [] => Some []
  | indirect_block_num :: rest =>
      match read_indirect_block d indirect_block_num with
      | None => None
      | Some indirect_blocks =>
          match collect_indirect d rest with
          | None => None
          | Some more => Some (indirect_blocks ++ more)
          end
      end
  end.

(** The block list of an inode that has been read. *)
Definition data_blocks_of (d : DiskSimulator) (inode : Inode.t)
  : option (list Z) :=
  let block_nums := filter (fun p => p <> 0) (Inode.direct_blocks inode) in
  match
    (if Inode.indirect_block inode =? -1 then Some block_nums
     else
       match read_indirect_block d (Inode.indirect_block inode) with
       | Some indirect_blocks => Some (block_nums ++ indirect_blocks)
       | None => None
       end)
  with
  | None => None
  | Some block_nums =>
      if Inode.double_indirect_block inode =? -1 then Some block_nums
      else
        match read_indirect_block d (Inode.double_indirect_block inode) with
        | None => None
        | Some double_indirect_blocks =>
            match collect_indirect d double_indirect_blocks with
            | None => None
            | Some blocks => Some (block_nums ++ blocks)
            end
        end
  end.

(** [InodeManager::get_data_blocks]. *)
Definition get_data_blocks (d : DiskSimulator) (m : InodeManager)
    (inode_num : Z) : option (list Z) :=
  if negb (check_initialized m) then None
  else
    match read_inode d m inode_num with
    | None => None
    | Some inode => data_blocks_of d inode
    end.

(** [InodeManager::free_all_data_blocks_for_inode]: the direct pointers. *)
Definition free_direct_blocks (m : InodeManager) (direct : list Z)
  : InodeManager :=
  foldl (fun m block_ptr =>
           if block_ptr =? 0 then m else free_block_bit m block_ptr)
        m direct.

(** [InodeManager::free_all_data_blocks_for_inode]. The double-indirect
    block itself is released; the blocks it leads to are not looked at. *)
Definition free_all_data_blocks_for_inode (d : DiskSimulator)
    (m : InodeManager) (inode : Inode.t) : InodeManager * Inode.t :=
  let m := free_direct_blocks m (Inode.direct_blocks inode) in
  let inode :=
    Inode.set_direct_blocks (map (fun _ => 0) (Inode.direct_blocks inode))
                            inode in
  let '(m, inode) :=
    if Inode.indirect_block inode =? -1 then (m, inode)
    else
      let m :=
        match read_indirect_block d (Inode.indirect_block inode) with
        | Some indirect_blocks => foldl free_block_bit m indirect_blocks
        | None => m
        end in
      let m := (free_indirect_block m (Inode.indirect_block inode)).2 in
      (m, Inode.set_indirect_block (-1) inode) in
  if Inode.double_indirect_block inode =? -1 then (m, inode)
  else
    let m := (free_indirect_block m (Inode.double_indirect_block inode)).2 in
    (m, Inode.set_double_indirect_block (-1) inode).

(** [InodeManager::free_data_blocks]. *)
Definition free_data_blocks (d : DiskSimulator) (m : InodeManager)
    (inode_num : Z) : bool * DiskSimulator * InodeManager :=
  if negb (check_initialized m) then (false, d, m)
  else
    match read_inode d m inode_num with
    | None => (false, d, m)
    | Some inode =>
        let '(m, inode) := free_all_data_blocks_for_inode d m inode in
        let inode := Inode.set_size 0 inode in
        match write_inode d m inode_num inode with
        | (false, d') => (false, d', m)
        | (true, d') => save_data_bitmap d' m
        end
    end.

(** [InodeManager::free_inode]. *)
Definition free_inode (d : DiskSimulator) (m : InodeManager) (inode_num : Z)
  : bool * DiskSimulator * InodeManager :=
  if negb (check_initialized m) then (false, d, m)
  else if negb (is_inode_allocated m inode_num) then (false, d, m)
  else
    match free_data_blocks d m inode_num with
    | (false, d', m') => (false, d', m')
    | (true, d', m') =>
        let m' :=
          set_inode_bitmap (Bitmap.free_bit (inode_bitmap m') inode_num).2 m' in
        save_inode_bitmap d' m'
    end.

(** One round of the refill loop of [update_inode_block_pointers]: the
    element [all_blocks[i]] goes to its slot. *)
Definition place_block (i : Z) (block : Z) (d : DiskSimulator)
    (m : InodeManager) (inode : Inode.t)
  : bool * DiskSimulator * InodeManager * Inode.t :=
  if i <? DIRECT_BLOCKS_COUNT then
    (true, d, m,
     Inode.set_direct_blocks
       (<[Z.to_nat i := block]> (Inode.direct_blocks inode)) inode)
  else
    let blocks_in_indirect := BLOCK_SIZE / sizeof_int in
    let relative_index := i - DIRECT_BLOCKS_COUNT in
    if relative_index <? blocks_in_indirect then
      (* single indirect block *)
      match
        (if (relative_index =? 0) && (Inode.indirect_block inode =? -1) then
           match allocate_indirect_block d m with
           | (None, d', m') => (false, d', m', inode)
           | (Some b, d', m') => (true, d', m', Inode.set_indirect_block b inode)
           end
         else (true, d, m, inode))
      with
      | (false, d, m, inode) => (false, d, m, inode)
      | (true, d, m, inode) =>
          let indirect_blocks :=
            if Inode.indirect_block inode =? -1 then []
            else default [] (read_indirect_block d (Inode.indirect_block inode)) in
          let indirect_blocks := indirect_blocks ++ [block] in
          let '(ok, d) :=
            write_indirect_block d (Inode.indirect_block inode)
                                 indirect_blocks in
          (ok, d, m, inode)
      end
    else
      (* double indirect block *)
      match
        (if Inode.double_indirect_block inode =? -1 then
           match allocate_indirect_block d m with
           | (None, d', m') => (false, d', m', inode)
           | (Some b, d', m') =>
               (true, d', m', Inode.set_double_indirect_block b inode)
           end
         else (true, d, m, inode))
      with
      | (false, d, m, inode) => (false, d, m, inode)
      | (true, d, m, inode) =>
          let double_relative_index := relative_index - blocks_in_indirect in
          let d_indirect_idx := double_relative_index / blocks_in_indirect in
          if blocks_in_indirect <=? d_indirect_idx then (false, d, m, inode)
          else
            let double_indirect_block_pointers :=
              default []
                (read_indirect_block d (Inode.double_indirect_block inode)) in
            let target_indirect_block_num :=
              if d_indirect_idx
                   <? Z.of_nat (length double_indirect_block_pointers)
              then double_indirect_block_pointers !!! Z.to_nat d_indirect_idx
              else 0 in
            match
              (if target_indirect_block_num =? 0 then
                 match allocate_indirect_block d m with
                 | (None, d', m') => (None, d', m')
                 | (Some target, d', m') =>
                     let pointers :=
                       if Z.of_nat (length double_indirect_block_pointers)
                            <=? d_indirect_idx
                       then
                         double_indirect_block_pointers
                           ++ repeat 0
                                (Z.to_nat d_indirect_idx + 1
                                 - length double_indirect_block_pointers)%nat
                       else double_indirect_block_pointers in
                     let pointers :=
                       <[Z.to_nat d_indirect_idx := target]> pointers in
                     match
                       write_indirect_block d'
                         (Inode.double_indirect_block inode) pointers
                     with
                     | (false, d'') => (None, d'', m')
                     | (true, d'') => (Some target, d'', m')
                     end
                 end
               else (Some target_indirect_block_num, d, m))
            with
            | (None, d, m) => (false, d, m, inode)
            | (Some target_indirect_block_num, d, m) =>
                let indirect_blocks :=
                  default [] (read_indirect_block d target_indirect_block_num) in
                let indirect_blocks := indirect_blocks ++ [block] in
                let '(ok, d) :=
                  write_indirect_block d target_indirect_block_num
                                       indirect_blocks in
                (ok, d, m, inode)
            end
      end.

(** The refill loop [for (i = ...; i < all_blocks.size(); ++i)], over the
    elements from index [i] on. *)
Fixpoint place_blocks (i : Z) (rest : list Z) (d : DiskSimulator)
    (m : InodeManager) (inode : Inode.t)
  : bool * DiskSimulator * InodeManager * Inode.t :=
  match rest with
  | [] => (true, d, m, inode)
  | block :: rest' =>
      match place_block i block d m inode with
      | (false, d', m', inode') => (false, d', m', inode')
      | (true, d', m', inode') => place_blocks (i + 1) rest' d' m' inode'
      end
  end.

(** [InodeManager::update_inode_block_pointers]. *)
Definition update_inode_block_pointers (now : Z) (d : DiskSimulator)
    (m : InodeManager) (inode_id : Z) (block_indices : list Z)
  : bool * DiskSimulator * InodeManager :=
  match read_inode d m inode_id with
  | None => (false, d, m)
  | Some inode =>
      match get_data_blocks d m inode_id with
      | None => (false, d, m)
      | Some all_blocks =>
          let all_blocks := all_blocks ++ block_indices in
          let inode :=
            Inode.set_direct_blocks (repeat 0 (Z.to_nat DIRECT_BLOCKS_COUNT))
                                    inode in
          let '(m, inode) :=
            if Inode.indirect_block inode =? -1 then (m, inode)
            else
              ((free_indirect_block m (Inode.indirect_block inode)).2,
               Inode.set_indirect_block (-1) inode) in
          match place_blocks 0 all_blocks d m inode with
          | (false, d', m', _) => (false, d', m')
          | (true, d', m', inode') =>
              let inode' := Inode.set_modification_time now inode' in
              let '(ok, d'') := write_inode d' m' inode_id inode' in
              (ok, d'', m')
          end
      end
  end.

(** [InodeManager::allocate_data_blocks]: the new block numbers. *)
Definition allocate_data_blocks (now : Z) (d : DiskSimulator)
    (m : InodeManager) (inode_num : Z) (block_count : Z)
  : option (list Z) * DiskSimulator * InodeManager :=
  if negb (check_initialized m) || (block_count <=? 0) then (None, d, m)
  else
    match allocate_multiple_blocks block_count m with
    | (None, m') => (None, d, m')
    | (Some allocated_indices, m') =>
        match update_inode_block_pointers now d m' inode_num
                                          allocated_indices with
        | (false, d', m'') =>
            (None, d', foldl free_block_bit m'' allocated_indices)
        | (true, d', m'') =>
            match save_data_bitmap d' m'' with
            | (false, d'', m3) => (None, d'', m3)
            | (true, d'', m3) => (Some allocated_indices, d'', m3)
            end
        end
    end.

End InodeMgr.
(* ====================================================================== *)
(** * src/utils/path_utils.cpp *)
(* ====================================================================== *)

Module PathUtils.

Definition slash : ascii := "/"%char.
Definition backslash : ascii := "\"%char.

(** [PathUtils::validate_path]: [true] for [SUCCESS]. *)
Definition validate_path (path : list ascii) : bool :=
  if bool_decide (path = []) || (MAX_PATH_LENGTH <? Z.of_nat (length path))
  then false
  else
    forallb (fun c => negb (Ascii.eqb c NUL || Ascii.eqb c "010"%char
                            || Ascii.eqb c "013"%char)) path.

(** [path.find_last_of('/')]: the index of the last ['/'], if any. *)
Fixpoint find_last_of_from (i : Z) (s : list ascii) (found : option Z)
  : option Z :=
  match s with
  | [] => found
  | c :: s' =>
      find_last_of_from (i + 1) s' (if Ascii.eqb c slash then Some i else found)
  end.

Definition find_last_of (s : list ascii) : option Z :=
  find_last_of_from 0 s None.

(** [PathUtils::extract_filename]. *)
Definition extract_filename (path : list ascii) : list ascii :=
  if negb (validate_path path) then []
  else
    match find_last_of path with
    | None => path
    | Some last_slash => drop (Z.to_nat (last_slash + 1)) path
    end.

(** [PathUtils::extract_directory]. *)
Definition extract_directory (path : list ascii) : list ascii :=
  if negb (validate_path path) then []
  else
    match find_last_of path with
    | None => ["."%char]
    | Some last_slash =>
        if last_slash =? 0 then [slash]
        else take (Z.to_nat last_slash) path
    end.

(** [std::replace(first, last, old_value, new_value)]. *)
Fixpoint replace (old_value new_value : ascii) (s : list ascii) : list ascii :=
  match s with
  | [] => []
  | c :: s' =>
      (if Ascii.eqb c old_value then new_value else c)
        :: replace old_value new_value s'
  end.

(** The lambda [[](char a, char b) { return a == '/' && b == '/'; }]. *)
Definition both_slash (a b : ascii) : bool :=
  Ascii.eqb a slash && Ascii.eqb b slash.

(** [std::unique(first, last, p)] followed by [erase]: [result] is the last
    element kept; an element equivalent to it is dropped, any other one is
    kept and becomes the new [result]. *)
Fixpoint unique_from (p : ascii -> ascii -> bool) (result : ascii)
    (s : list ascii) : list ascii :=
  match s with
  | [] => []
  | c :: s' =>
      if p result c then unique_from p result s'
      else c :: unique_from p c s'
  end.

Definition unique (p : ascii -> ascii -> bool) (s : list ascii) : list ascii :=
  match s with
  | [] => []
  | c :: s' => c :: unique_from p c s'
  end.

(** [normalized.back()], read on a non-empty string only. *)
Definition back (s : list ascii) : ascii := List.last s NUL.

(** [normalized.pop_back()]. *)
Definition pop_back (s : list ascii) : list ascii := removelast s.

(** [PathUtils::normalize_path]. *)
Definition normalize_path (path : list ascii) : list ascii :=
  match path with
  | [] => []
  | _ =>
      let normalized := replace backslash slash path in
      let normalized := unique both_slash normalized in
      if (1 <? Z.of_nat (length normalized))
         && Ascii.eqb (back normalized) slash
      then pop_back normalized
      else normalized
  end.

(** [PathUtilsExtended::extract_filename_and_directory]:
    [(filename, directory)]. *)
Definition extract_filename_and_directory (path : list ascii)
  : option (list ascii * list ascii) :=
  if negb (validate_path path) then None
  else
    let filename := extract_filename path in
    let directory := extract_directory path in
    let directory :=
      if bool_decide (directory = ["."%char]) then [slash] else directory in
    let directory :=
      if bool_decide (directory = []) then [slash] else directory in
    Some (filename, directory).

End PathUtils.

(* ====================================================================== *)
(** * src/utils/file_operations_utils.cpp *)
(* ====================================================================== *)

Module FileOperationsUtils.

(** The loop of [read_data_from_blocks], block index [i] counting up over
    the blocks that remain; [buffer] is what has been copied out so far,
    [buffer[0 .. bytes_read)]. *)
Fixpoint read_loop (d : DiskSimulator) (blocks : list Z)
    (start_offset size bytes_read : Z) (buffer : list Z)
  : option (Z * list Z) :=
  match blocks with
  | [] => Some (bytes_read, buffer)
  | block :: rest =>
      if negb (bytes_read <? size) then Some (bytes_read, buffer)
      else
        match Disk.read_block d block with
        | None => None
        | Some block_buffer =>
            let copy_size :=
              Z.min (BLOCK_SIZE - start_offset) (size - bytes_read) in
            read_loop d rest 0 size (bytes_read + copy_size)
              (buffer ++ slice block_buffer start_offset copy_size)
        end
  end.

(** [FileOperationsUtils::read_data_from_blocks]: the [size] bytes read. *)
Definition read_data_from_blocks (d : DiskSimulator) (blocks : list Z)
    (offset size : Z) : option (list Z) :=
  match blocks with
  | [] => None
  | _ =>
      let start_block := Z.quot offset BLOCK_SIZE in
      let start_offset := Z.rem offset BLOCK_SIZE in
      match read_loop d (drop (Z.to_nat start_block) blocks)
                      start_offset size 0 [] with
      | None => None
      | Some (bytes_read, buffer) =>
          if bytes_read =? size then Some buffer else None
      end
  end.

(** The loop of [write_data_to_blocks]; [buffer] is what is left to
    write, [bytes_written] what has gone out. *)
Fixpoint write_loop (blocks : list Z) (start_offset size bytes_written : Z)
    (buffer : list Z) (d : DiskSimulator) : option Z * DiskSimulator :=
  match blocks with
  | [] => (Some bytes_written, d)
  | block :: rest =>
      if negb (bytes_written <? size) then (Some bytes_written, d)
      else
        match
          (if (0 <? start_offset) || (size - bytes_written <? BLOCK_SIZE)
           then Disk.read_block d block
           else Some BlockUtils.create_block_buffer)
        with
        | None => (None, d)
        | Some block_buffer =>
            let copy_size :=
              Z.min (BLOCK_SIZE - start_offset) (size - bytes_written) in
            let block_buffer :=
              splice block_buffer start_offset (slice buffer 0 copy_size) in
            match Disk.write_block d block block_buffer with
            | (false, d') => (None, d')
            | (true, d') =>
                write_loop rest 0 size (bytes_written + copy_size)
                           (drop (Z.to_nat copy_size) buffer) d'
            end
        end
  end.

(** [FileOperationsUtils::write_data_to_blocks]. *)
Definition write_data_to_blocks (d : DiskSimulator) (blocks : list Z)
    (offset : Z) (buffer : list Z) (size : Z) : bool * DiskSimulator :=
  match blocks with
  | [] => (false, d)
  | _ =>
      let start_block := Z.quot offset BLOCK_SIZE in
      let start_offset := Z.rem offset BLOCK_SIZE in
      match write_loop (drop (Z.to_nat start_block) blocks) start_offset size
                       0 buffer d with
      | (None, d') => (false, d')
      | (Some bytes_written, d') => (bytes_written =? size, d')
      end
  end.

(** [FileOperationsUtils::initialize_new_inode]. *)
Definition initialize_new_inode (now : Z) (mode : Z) (link_count : Z)
  : Inode.t :=
  {| Inode.mode := mode; Inode.owner_id := 0; Inode.group_id := 0;
     Inode.size := 0; Inode.access_time := now;
     Inode.modification_time := now; Inode.creation_time := now;
     Inode.link_count := link_count;
     Inode.direct_blocks := repeat 0 (Z.to_nat DIRECT_BLOCKS_COUNT);
     Inode.indirect_block := -1; Inode.double_indirect_block := -1 |}.

(** The default arguments of [initialize_new_inode]. *)
Definition default_mode : Z :=
  Z.lor (Z.lor FILE_TYPE_REGULAR FILE_PERMISSION_READ) FILE_PERMISSION_WRITE.
Definition default_link_count : Z := 1.

End FileOperationsUtils.

(* ====================================================================== *)
(** * path_manager.cpp *)
(* ====================================================================== *)

Module PathMgr.

(** [std::getline(ss, component, '/')] until the stream ends: the pieces
    between the separators. *)
Fixpoint getlines (s : list ascii) (component : list ascii)
  : list (list ascii) :=
  match s with
  | [] => match component with [] => [] | _ => [component] end
  | c :: s' =>
      if Ascii.eqb c PathUtils.slash then component :: getlines s' []
      else getlines s' (component ++ [c])
  end.

(** [PathManager::parse_path]. *)
Definition parse_path (path : list ascii) : option (list (list ascii)) :=
  match path with
  | [] => None
  | c :: _ =>
      if bool_decide (path = [PathUtils.slash]) then Some []
      else
        let p := if Ascii.eqb c PathUtils.slash then path
                 else PathUtils.slash :: path in
        let p := drop 1 p in
        Some (filter (fun component => component <> []) (getlines p []))
  end.

(** [PathManager::get_parent_path]. *)
Definition get_parent_path (path : list ascii) : list ascii :=
  match path with
  | [] => [PathUtils.slash]
  | c :: _ =>
      if bool_decide (path = [PathUtils.slash]) then [PathUtils.slash]
      else
        let p := if Ascii.eqb c PathUtils.slash then path
                 else PathUtils.slash :: path in
        match PathUtils.find_last_of p with
        | Some pos =>
            if pos =? 0 then [PathUtils.slash] else take (Z.to_nat pos) p
        | None => p
        end
  end.

(** [PathManager::get_basename]. *)
Definition get_basename (path : list ascii) : list ascii :=
  match path with
  | [] => []
  | c :: _ =>
      if bool_decide (path = [PathUtils.slash]) then []
      else
        let p := if Ascii.eqb c PathUtils.slash then path
                 else PathUtils.slash :: path in
        match PathUtils.find_last_of p with
        | Some pos => drop (Z.to_nat (pos + 1)) p
        | None => path
        end
  end.

(** [PathManager::load_directory_inode]. *)
Definition load_directory_inode (d : DiskSimulator) (m : InodeManager)
    (inode_num : Z) : option Inode.t :=
  match InodeMgr.read_inode d m inode_num with
  | None => None
  | Some inode =>
      if Z.land (Inode.mode inode) FILE_TYPE_DIRECTORY =? 0 then None
      else Some inode
  end.

Definition max_entries : Z := BLOCK_SIZE / sizeof_DirectoryEntry.

(** The scan of one directory block,
    [for (int i = ...; i < max_entries; i++)]. *)
Fixpoint scan_block (buffer : list Z) (name : list ascii) (i : Z)
    (remaining : nat) : option Z :=
  match remaining with
  | O => None
  | S r =>
      let e := entry_at buffer i in
      if (0 <? DirectoryEntry.name_length e)
         && strcmp_eq (DirectoryEntry.name e) name
      then Some (DirectoryEntry.inode_number e)
      else scan_block buffer name (i + 1) r
  end.

(** The loop over the blocks of a directory; [None] for the failure of the
    lookup, found or not. *)
Fixpoint scan_blocks (d : DiskSimulator) (blocks : list Z) (name : list ascii)
  : Z :=
  match blocks with
  | [] => -1
  | block_num :: rest =>
      match Disk.read_block d block_num with
      | None => -1
      | Some buffer =>
          match scan_block buffer name 0 (Z.to_nat max_entries) with
          | Some inode_number => inode_number
          | None => scan_blocks d rest name
          end
      end
  end.

(** [PathManager::find_inode_in_directory]. *)
Definition find_inode_in_directory (d : DiskSimulator) (m : InodeManager)
    (parent_inode : Z) (name : list ascii) : Z :=
  match load_directory_inode d m parent_inode with
  | None => -1
  | Some _ =>
      match InodeMgr.get_data_blocks d m parent_inode with
      | None => -1
      | Some blocks => scan_blocks d blocks name
      end
  end.

(** The descent of [find_inode] through the components. *)
Fixpoint descend (d : DiskSimulator) (m : InodeManager) (current_inode : Z)
    (components : list (list ascii)) : Z :=
  match components with
  | [] => current_inode
  | component :: rest =>
      let current_inode :=
        find_inode_in_directory d m current_inode component in
      if current_inode =? -1 then -1 else descend d m current_inode rest
  end.

(** [PathManager::find_inode]. *)
Definition find_inode (d : DiskSimulator) (m : InodeManager)
    (path : list ascii) : Z :=
  if bool_decide (path = [PathUtils.slash]) then 0
  else
    match parse_path path with
    | None => -1
    | Some components => descend d m 0 components
    end.

(** [PathManager::file_exists]. *)
Definition file_exists (d : DiskSimulator) (m : InodeManager)
    (path : list ascii) : bool :=
  negb (find_inode d m path =? -1).

(** [PathManager::validate_and_parse_path]. *)
Definition validate_and_parse_path (path : list ascii)
  : option (list ascii * list ascii) :=
  PathUtils.extract_filename_and_directory path.

End PathMgr.

(* ====================================================================== *)
(** * src/core/directory_manager.cpp *)
(* ====================================================================== *)

Module DirMgr.

(** The entries of one block, [for (int i = ...; i < max_entries; i++)]. *)
Fixpoint block_entries (buffer : list Z) (i : Z) (remaining : nat)
  : list DirectoryEntry.t :=
  match remaining with
  | O => []
  | S r =>
      let e := entry_at buffer i in
      if 0 <? DirectoryEntry.name_length e then e :: block_entries buffer (i + 1) r
      else block_entries buffer (i + 1) r
  end.

(** The loop of [read_directory] over the blocks. *)
Fixpoint read_blocks (d : DiskSimulator) (blocks : list Z)
  : option (list DirectoryEntry.t) :=
  match blocks with
  | [] => Some []
  | block_num :: rest =>
      match Disk.read_block d block_num with
      | None => None
      | Some buffer =>
          match read_blocks d rest with
          | None => None
          | Some more =>
              Some (block_entries buffer 0 (Z.to_nat PathMgr.max_entries)
                    ++ more)
          end
      end
  end.

(** [DirectoryManager::read_directory]. *)
Definition read_directory (d : DiskSimulator) (m : InodeManager)
    (inode_num : Z) : option (list DirectoryEntry.t) :=
  match PathMgr.load_directory_inode d m inode_num with
  | None => None
  | Some inode =>
      if Inode.size inode =? 0 then Some []
      else
        match InodeMgr.get_data_blocks d m inode_num with
        | None => None
        | Some blocks => read_blocks d blocks
        end
  end.

(** The inner loop of [write_directory]: up to [entries_per_block] entries
    go to the slots [j, j + 1, ...] of the buffer. *)
Fixpoint fill_block (buffer : list Z) (j : Z) (remaining : nat)
    (entries : list DirectoryEntry.t) : list Z * list DirectoryEntry.t :=
  match remaining, entries with
  | S r, e :: rest =>
      fill_block (splice buffer (j * sizeof_DirectoryEntry)
                         (encode_DirectoryEntry e)) (j + 1) r rest
  | _, _ => (buffer, entries)
  end.

(** The outer loop of [write_directory] over [current_blocks]. *)
Fixpoint write_blocks (blocks : list Z) (entries : list DirectoryEntry.t)
    (d : DiskSimulator) : bool * DiskSimulator :=
  match blocks with
  | [] => (true, d)
  | block :: rest =>
      let '(block_buffer, entries') :=
        fill_block BlockUtils.create_block_buffer 0
                   (Z.to_nat PathMgr.max_entries) entries in
      if negb (BlockUtils.is_valid_block_index block) then (false, d)
      else
        match Disk.write_block d block block_buffer with
        | (false, d') => (false, d')
        | (true, d') => write_blocks rest entries' d'
        end
  end.

(** [DirectoryManager::write_directory]. The inode written back at the end
    is the one read at the start. *)
Definition write_directory (now : Z) (d : DiskSimulator) (m : InodeManager)
    (inode_num : Z) (entries : list DirectoryEntry.t)
  : bool * DiskSimulator * InodeManager :=
  match InodeMgr.read_inode d m inode_num with
  | None => (false, d, m)
  | Some inode =>
      let required_size := Z.of_nat (length entries) * sizeof_DirectoryEntry in
      let required_blocks := BlockUtils.calculate_blocks_needed required_size in
      match InodeMgr.get_data_blocks d m inode_num with
      | None => (false, d, m)
      | Some current_blocks =>
          match
            (if Z.of_nat (length current_blocks) <? required_blocks then
               let additional_blocks :=
                 required_blocks - Z.of_nat (length current_blocks) in
               match InodeMgr.allocate_data_blocks now d m inode_num
                       additional_blocks with
               | (None, d', m') => (None, d', m')
               | (Some _, d', m') =>
                   (InodeMgr.get_data_blocks d' m' inode_num, d', m')
               end
             else (Some current_blocks, d, m))
          with
          | (None, d, m) => (false, d, m)
          | (Some current_blocks, d, m) =>
              match write_blocks current_blocks entries d with
              | (false, d') => (false, d', m)
              | (true, d') =>
                  let inode := Inode.set_size required_size inode in
                  let inode := Inode.set_modification_time now inode in
                  let '(ok, d'') := InodeMgr.write_inode d' m inode_num inode in
                  (ok, d'', m)
              end
          end
      end
  end.

(** [DirectoryManager::find_entry_index]: is there an index. *)
Definition find_entry_index (entries : list DirectoryEntry.t)
    (name : list ascii) : option nat :=
  fst <$> list_find
            (fun e => strncmp_eq (DirectoryEntry.name e) name
                                MAX_FILENAME_LENGTH = true)
            entries.

(** [strncpy(new_entry.name, name.c_str(), name_len)] into a zeroed array,
    then [new_entry.name[name_len] = '\0']. *)
Definition make_entry (name : list ascii) (inode_num : Z)
  : DirectoryEntry.t :=
  let name_len := Z.min (Z.of_nat (length name)) (MAX_FILENAME_LENGTH - 1) in
  {| DirectoryEntry.inode_number := inode_num;
     DirectoryEntry.name :=
       take 256 (take (Z.to_nat name_len) (c_str name ++ repeat NUL 256)
                 ++ repeat NUL 256);
     DirectoryEntry.name_length := name_len |}.

(** [DirectoryManager::add_directory_entry]. *)
Definition add_directory_entry (now : Z) (d : DiskSimulator)
    (m : InodeManager) (dir_inode : Z) (name : list ascii) (inode_num : Z)
  : bool * DiskSimulator * InodeManager :=
  match read_directory d m dir_inode with
  | None => (false, d, m)
  | Some entries =>
      match find_entry_index entries name with
      | Some _ => (false, d, m)
      | None =>
          write_directory now d m dir_inode
                          (entries ++ [make_entry name inode_num])
      end
  end.

(** [DirectoryManager::remove_directory_entry]:
    [entries.erase(entries.begin() + index)]. *)
Definition remove_directory_entry (now : Z) (d : DiskSimulator)
    (m : InodeManager) (dir_inode : Z) (name : list ascii)
  : bool * DiskSimulator * InodeManager :=
  match read_directory d m dir_inode with
  | None => (false, d, m)
  | Some entries =>
      match find_entry_index entries name with
      | None => (false, d, m)
      | Some index =>
          write_directory now d m dir_inode (delete index entries)
      end
  end.

(** [DirectoryManager::list_directory]. *)
Definition list_directory (d : DiskSimulator) (m : InodeManager)
    (path : list ascii) : option (list DirectoryEntry.t) :=
  let inode_num := PathMgr.find_inode d m path in
  if inode_num =? -1 then None else read_directory d m inode_num.

(** [DirectoryManager::remove_directory]. *)
Definition remove_directory (now : Z) (d : DiskSimulator) (m : InodeManager)
    (path : list ascii) : bool * DiskSimulator * InodeManager :=
  if bool_decide (path = [PathUtils.slash]) then (false, d, m)
  else
    let inode_num := PathMgr.find_inode d m path in
    if inode_num =? -1 then (false, d, m)
    else
      match PathMgr.load_directory_inode d m inode_num with
      | None => (false, d, m)
      | Some _ =>
          match read_directory d m inode_num with
          | None => (false, d, m)
          | Some entries =>
              if 2 <? Z.of_nat (length entries) then (false, d, m)
              else
                let parent_path := PathMgr.get_parent_path path in
                let basename := PathMgr.get_basename path in
                let parent_inode := PathMgr.find_inode d m parent_path in
                if parent_inode =? -1 then (false, d, m)
                else
                  match remove_directory_entry now d m parent_inode
                                               basename with
                  | (false, d', m') => (false, d', m')
                  | (true, d', m') => InodeMgr.free_inode d' m' inode_num
                  end
          end
      end.

(** The entries [.] and [..] of a new directory: [memset] to zero, then
    [strncpy] of the name. *)
Definition initial_entries (new_inode parent_inode : Z)
  : list DirectoryEntry.t :=
  [ {| DirectoryEntry.inode_number := new_inode;
       DirectoryEntry.name := "."%char :: repeat NUL 255;
       DirectoryEntry.name_length := 1 |};
    {| DirectoryEntry.inode_number := parent_inode;
       DirectoryEntry.name := "."%char :: "."%char :: repeat NUL 254;
       DirectoryEntry.name_length := 2 |} ].

(** [inode_manager.free_inode(new_inode); return false;] *)
Definition give_up_inode (d : DiskSimulator) (m : InodeManager)
    (new_inode : Z) : bool * DiskSimulator * InodeManager :=
  let '(_, d, m) := InodeMgr.free_inode d m new_inode in (false, d, m).

(** [DirectoryManager::create_directory]. *)
Definition create_directory (now : Z) (d : DiskSimulator) (m : InodeManager)
    (path : list ascii) : bool * DiskSimulator * InodeManager :=
  if PathMgr.file_exists d m path then (false, d, m)
  else
    let parent_path := PathMgr.get_parent_path path in
    let basename := PathMgr.get_basename path in
    let parent_inode := PathMgr.find_inode d m parent_path in
    if parent_inode =? -1 then (false, d, m)
    else
      match InodeMgr.allocate_inode now d m with
      | (None, d, m) => (false, d, m)
      | (Some new_inode, d, m) =>
          let inode :=
            FileOperationsUtils.initialize_new_inode now
              (Z.lor (Z.lor (Z.lor FILE_TYPE_DIRECTORY FILE_PERMISSION_READ)
                            FILE_PERMISSION_WRITE) FILE_PERMISSION_EXECUTE)
              2 in
          match InodeMgr.write_inode d m new_inode inode with
          | (false, d) => give_up_inode d m new_inode
          | (true, d) =>
              match InodeMgr.allocate_data_blocks now d m new_inode 1 with
              | (None, d, m) => give_up_inode d m new_inode
              | (Some _, d, m) =>
                  match write_directory now d m new_inode
                          (initial_entries new_inode parent_inode) with
                  | (false, d, m) => give_up_inode d m new_inode
                  | (true, d, m) =>
                      match add_directory_entry now d m parent_inode
                              basename new_inode with
                      | (false, d, m) => give_up_inode d m new_inode
                      | (true, d, m) => (true, d, m)
                      end
                  end
              end
          end
      end.

End DirMgr.
(* ====================================================================== *)
(** * src/core/filesystem.h: the members of [FileSystem] *)
(* ====================================================================== *)

(** The path, directory and file managers hold references to [disk],
    [inode_manager], [file_descriptors] and [next_fd]; their methods are
    functions of this one record, so that every alias sees the same
    object. *)
Module FS.
Record t := {
  disk : DiskSimulator;
  superblock : Superblock.t;
  inode_manager : InodeManager;
  layout : DiskLayout;
  mounted : bool;
  file_descriptors : gmap Z FileDescriptor.t;
  next_fd : Z
}.

Definition set_disk (v : DiskSimulator) (s : t) : t :=
  {| disk := v; superblock := superblock s;
     inode_manager := inode_manager s; layout := layout s;
     mounted := mounted s; file_descriptors := file_descriptors s;
     next_fd := next_fd s |}.

Definition set_inode_manager (v : InodeManager) (s : t) : t :=
  {| disk := disk s; superblock := superblock s; inode_manager := v;
     layout := layout s; mounted := mounted s;
     file_descriptors := file_descriptors s; next_fd := next_fd s |}.

Definition set_store (d : DiskSimulator) (m : InodeManager) (s : t) : t :=
  set_inode_manager m (set_disk d s).

Definition set_superblock (v : Superblock.t) (s : t) : t :=
  {| disk := disk s; superblock := v; inode_manager := inode_manager s;
     layout := layout s; mounted := mounted s;
     file_descriptors := file_descriptors s; next_fd := next_fd s |}.

Definition set_layout (v : DiskLayout) (s : t) : t :=
  {| disk := disk s; superblock := superblock s;
     inode_manager := inode_manager s; layout := v; mounted := mounted s;
     file_descriptors := file_descriptors s; next_fd := next_fd s |}.

Definition set_mounted (v : bool) (s : t) : t :=
  {| disk := disk s; superblock := superblock s;
     inode_manager := inode_manager s; layout := layout s; mounted := v;
     file_descriptors := file_descriptors s; next_fd := next_fd s |}.

Definition set_file_descriptors (v : gmap Z FileDescriptor.t) (s : t) : t :=
  {| disk := disk s; superblock := superblock s;
     inode_manager := inode_manager s; layout := layout s;
     mounted := mounted s; file_descriptors := v; next_fd := next_fd s |}.

Definition set_next_fd (v : Z) (s : t) : t :=
  {| disk := disk s; superblock := superblock s;
     inode_manager := inode_manager s; layout := layout s;
     mounted := mounted s; file_descriptors := file_descriptors s;
     next_fd := v |}.
End FS.

(* ====================================================================== *)
(** * src/core/file_manager.cpp *)
(* ====================================================================== *)

Module FileMgr.

(** The loop of [allocate_file_descriptor()]:
    [while (file_descriptors.find(next_fd) != file_descriptors.end())].
    The result is [next_fd] when the loop is left, [None] when [fuel]
    rounds did not leave it. *)
Fixpoint fd_search (fuel : nat) (fds : gmap Z FileDescriptor.t) (next_fd : Z)
  : option Z :=
  match fuel with
  | O => None
  | S fuel' =>
      match fds !! next_fd with
      | None => Some next_fd
      | Some _ =>
          let next_fd := int32 (next_fd + 1) in
          let next_fd := if 1024 <? next_fd then 3 else next_fd in
          fd_search fuel' fds next_fd
      end
  end.

(** [FileManager::allocate_file_descriptor()]: [return next_fd++]. *)
Definition allocate_file_descriptor (fuel : nat) (s : FS.t)
  : option (Z * FS.t) :=
  match fd_search fuel (FS.file_descriptors s) (FS.next_fd s) with
  | None => None
  | Some fd => Some (fd, FS.set_next_fd (int32 (fd + 1)) s)
  end.

(** [FileManager::allocate_file_descriptor(inode_num, mode, fd)]. *)
Definition allocate_file_descriptor_for (fuel : nat) (s : FS.t)
    (inode_num mode : Z) : option (outcome Z * FS.t) :=
  match allocate_file_descriptor fuel s with
  | None => None
  | Some (fd, s) =>
      if fd =? -1 then Some (Failed ERROR_INVALID_FILE_DESCRIPTOR, s)
      else
        let desc :=
          {| FileDescriptor.inode_num := inode_num;
             FileDescriptor.mode := mode;
             FileDescriptor.position := 0;
             FileDescriptor.open := true |} in
        Some (Done fd,
              FS.set_file_descriptors (<[fd := desc]> (FS.file_descriptors s)) s)
  end.

(** [FileManager::get_file_descriptor]. *)
Definition get_file_descriptor (s : FS.t) (fd : Z)
  : outcome FileDescriptor.t :=
  match FS.file_descriptors s !! fd with
  | None => Failed ERROR_INVALID_FILE_DESCRIPTOR
  | Some desc =>
      if negb (FileDescriptor.open desc)
      then Failed ERROR_INVALID_FILE_DESCRIPTOR
      else Done desc
  end.

(** [FileManager::free_file_descriptor]. *)
Definition free_file_descriptor (s : FS.t) (fd : Z) : FS.t :=
  match FS.file_descriptors s !! fd with
  | None => s
  | Some _ => FS.set_file_descriptors (delete fd (FS.file_descriptors s)) s
  end.

(** [file_descriptors[fd].position = v] on a descriptor of the table. *)
Definition set_fd_position (s : FS.t) (fd : Z) (v : Z) : FS.t :=
  FS.set_file_descriptors
    (alter (FileDescriptor.set_position v) fd (FS.file_descriptors s)) s.

(** [FileManager::update_file_access_time]. *)
Definition update_file_access_time (now : Z) (s : FS.t) (inode_num : Z)
  : FS.t :=
  match InodeMgr.read_inode (FS.disk s) (FS.inode_manager s) inode_num with
  | None => s
  | Some inode =>
      FS.set_disk
        (InodeMgr.write_inode (FS.disk s) (FS.inode_manager s) inode_num
           (Inode.set_access_time now inode)).2 s
  end.

(** [FileManager::update_file_modification_time]. *)
Definition update_file_modification_time (now : Z) (s : FS.t) (inode_num : Z)
  : FS.t :=
  match InodeMgr.read_inode (FS.disk s) (FS.inode_manager s) inode_num with
  | None => s
  | Some inode =>
      FS.set_disk
        (InodeMgr.write_inode (FS.disk s) (FS.inode_manager s) inode_num
           (Inode.set_modification_time now inode)).2 s
  end.

(** [FileManager::file_exists]. *)
Definition file_exists (s : FS.t) (path : list ascii) : bool :=
  negb (PathMgr.find_inode (FS.disk s) (FS.inode_manager s) path =? -1).

(** [FileManager::allocate_file_inode]. *)
Definition allocate_file_inode (now : Z) (s : FS.t) : outcome Z * FS.t :=
  match InodeMgr.allocate_inode now (FS.disk s) (FS.inode_manager s) with
  | (None, d, m) => (Failed ERROR_NO_FREE_INODES, FS.set_store d m s)
  | (Some new_inode, d, m) =>
      let inode :=
        FileOperationsUtils.initialize_new_inode now
          FileOperationsUtils.default_mode
          FileOperationsUtils.default_link_count in
      match InodeMgr.write_inode d m new_inode inode with
      | (false, d') =>
          let '(_, d'', m') := InodeMgr.free_inode d' m new_inode in
          (Failed ERROR_IO_ERROR, FS.set_store d'' m' s)
      | (true, d') => (Done new_inode, FS.set_store d' m s)
      end
  end.

(** The tail shared by [FileManager::create_file] and
    [FileSystem::create_file]: the mode of the new inode is set and the
    entry is added to the parent. *)
Definition finish_create (now : Z) (s : FS.t) (parent_inode : Z)
    (filename : list ascii) (new_inode : Z) (mode : Z) : outcome Z * FS.t :=
  let d := FS.disk s in
  let m := FS.inode_manager s in
  match InodeMgr.read_inode d m new_inode with
  | None =>
      let '(_, d', m') := InodeMgr.free_inode d m new_inode in
      (Failed ERROR_IO_ERROR, FS.set_store d' m' s)
  | Some inode =>
      let inode := Inode.set_mode (Z.lor FILE_TYPE_REGULAR mode) inode in
      match InodeMgr.write_inode d m new_inode inode with
      | (false, d1) =>
          let '(_, d', m') := InodeMgr.free_inode d1 m new_inode in
          (Failed ERROR_IO_ERROR, FS.set_store d' m' s)
      | (true, d1) =>
          match DirMgr.add_directory_entry now d1 m parent_inode filename
                                           new_inode with
          | (false, d2, m2) =>
              let '(_, d', m') := InodeMgr.free_inode d2 m2 new_inode in
              (Failed ERROR_IO_ERROR, FS.set_store d' m' s)
          | (true, d2, m2) => (Done new_inode, FS.set_store d2 m2 s)
          end
      end
  end.

(** [FileManager::create_file]. *)
Definition create_file (now : Z) (s : FS.t) (path : list ascii) (mode : Z)
  : outcome Z * FS.t :=
  if file_exists s path then (Failed ERROR_FILE_ALREADY_EXISTS, s)
  else
    match PathMgr.validate_and_parse_path path with
    | None => (Failed ERROR_INVALID_PATH, s)
    | Some (filename, directory) =>
        let parent_inode :=
          PathMgr.find_inode (FS.disk s) (FS.inode_manager s) directory in
        if parent_inode =? -1 then (Failed ERROR_FILE_NOT_FOUND, s)
        else
          match allocate_file_inode now s with
          | (Failed e, s') => (Failed e, s')
          | (Done new_inode, s') =>
              finish_create now s' parent_inode filename new_inode mode
          end
    end.

(** [FileManager::open_file]. *)
Definition open_file (fuel : nat) (now : Z) (s : FS.t) (path : list ascii)
    (mode : Z) : option (outcome Z * FS.t) :=
  let inode_num := PathMgr.find_inode (FS.disk s) (FS.inode_manager s) path in
  match
    (if inode_num =? -1 then
       if negb (Z.land mode OPEN_MODE_CREATE =? 0) then
         create_file now s path
           (Z.lor FILE_PERMISSION_READ FILE_PERMISSION_WRITE)
       else (Failed ERROR_FILE_NOT_FOUND, s)
     else (Done inode_num, s))
  with
  | (Failed e, s) => Some (Failed e, s)
  | (Done inode_num, s) =>
      match allocate_file_descriptor_for fuel s inode_num mode with
      | None => None
      | Some (Failed e, s) => Some (Failed e, s)
      | Some (Done fd, s) =>
          if negb (Z.land mode OPEN_MODE_APPEND =? 0) then
            match InodeMgr.read_inode (FS.disk s) (FS.inode_manager s)
                                      inode_num with
            | None => Some (Failed ERROR_IO_ERROR, free_file_descriptor s fd)
            | Some inode =>
                let s := set_fd_position s fd (Inode.size inode) in
                Some (Done fd, update_file_access_time now s inode_num)
            end
          else Some (Done fd, update_file_access_time now s inode_num)
      end
  end.

(** [FileManager::close_file]. *)
Definition close_file (now : Z) (s : FS.t) (fd : Z) : outcome unit * FS.t :=
  match FS.file_descriptors s !! fd with
  | None => (Failed ERROR_INVALID_FILE_DESCRIPTOR, s)
  | Some desc =>
      let s :=
        update_file_modification_time now s (FileDescriptor.inode_num desc) in
      (Done tt, free_file_descriptor s fd)
  end.

(** [FileManager::read_file]: the count returned and the bytes put into
    [buffer[0 .. count)]. *)
Definition read_file (now : Z) (s : FS.t) (fd : Z) (size : Z)
  : outcome (Z * list Z) * FS.t :=
  match get_file_descriptor s fd with
  | Failed e => (Failed e, s)
  | Done desc =>
      if Z.land (FileDescriptor.mode desc) OPEN_MODE_READ =? 0
      then (Failed ERROR_INVALID_ARGUMENT, s)
      else
        let d := FS.disk s in
        let m := FS.inode_manager s in
        match InodeMgr.read_inode d m (FileDescriptor.inode_num desc) with
        | None => (Failed ERROR_IO_ERROR, s)
        | Some inode =>
            if Inode.size inode <=? FileDescriptor.position desc
            then (Done (0, []), s)
            else
              let bytes_to_read :=
                Z.min size (Inode.size inode - FileDescriptor.position desc) in
              match InodeMgr.get_data_blocks d m
                      (FileDescriptor.inode_num desc) with
              | None => (Failed ERROR_IO_ERROR, s)
              | Some blocks =>
                  match FileOperationsUtils.read_data_from_blocks d blocks
                          (FileDescriptor.position desc) bytes_to_read with
                  | None => (Failed ERROR_IO_ERROR, s)
                  | Some buffer =>
                      let s :=
                        set_fd_position s fd
                          (int32 (FileDescriptor.position desc
                                  + bytes_to_read)) in
                      let s :=
                        update_file_access_time now s
                          (FileDescriptor.inode_num desc) in
                      (Done (bytes_to_read, buffer), s)
                  end
              end
        end
  end.

(** [FileManager::write_file]. It calls the member
    [FileManager::write_data_to_blocks], which logs [ERROR_IO_ERROR] whenever
    [FileOperationsUtils::write_data_to_blocks] fails. *)
Definition write_file (now : Z) (s : FS.t) (fd : Z) (buffer : list Z)
    (size : Z) : outcome Z * FS.t :=
  match get_file_descriptor s fd with
  | Failed e => (Failed e, s)
  | Done desc =>
      if Z.land (FileDescriptor.mode desc) OPEN_MODE_WRITE =? 0
      then (Failed ERROR_INVALID_ARGUMENT, s)
      else
        let inode_num := FileDescriptor.inode_num desc in
        let position := FileDescriptor.position desc in
        match InodeMgr.read_inode (FS.disk s) (FS.inode_manager s)
                                  inode_num with
        | None => (Failed ERROR_IO_ERROR, s)
        | Some inode =>
            let current_blocks :=
              Z.quot (int32 (Inode.size inode + BLOCK_SIZE - 1)) BLOCK_SIZE in
            let required_blocks :=
              Z.quot (int32 (position + size + BLOCK_SIZE - 1)) BLOCK_SIZE in
            let additional_blocks := int32 (required_blocks - current_blocks) in
            match
              (if 0 <? additional_blocks then
                 match InodeMgr.allocate_data_blocks now (FS.disk s)
                         (FS.inode_manager s) inode_num additional_blocks with
                 | (None, d, m) =>
                     (Failed ERROR_NO_FREE_BLOCKS, FS.set_store d m s)
                 | (Some _, d, m) =>
                     match InodeMgr.read_inode d m inode_num with
                     | None => (Failed ERROR_IO_ERROR, FS.set_store d m s)
                     | Some inode => (Done inode, FS.set_store d m s)
                     end
                 end
               else (Done inode, s))
            with
            | (Failed e, s) => (Failed e, s)
            | (Done inode, s) =>
                let d := FS.disk s in
                let m := FS.inode_manager s in
                match InodeMgr.get_data_blocks d m inode_num with
                | None => (Failed ERROR_IO_ERROR, s)
                | Some blocks =>
                    match FileOperationsUtils.write_data_to_blocks d blocks
                            position buffer size with
                    | (false, d') => (Failed ERROR_IO_ERROR, FS.set_disk d' s)
                    | (true, d') =>
                        let new_size :=
                          Z.max (Inode.size inode) (int32 (position + size)) in
                        let inode := Inode.set_size new_size inode in
                        let inode := Inode.set_modification_time now inode in
                        match InodeMgr.write_inode d' m inode_num inode with
                        | (false, d'') =>
                            (Failed ERROR_IO_ERROR, FS.set_disk d'' s)
                        | (true, d'') =>
                            let s := FS.set_disk d'' s in
                            (Done size,
                             set_fd_position s fd (int32 (position + size)))
                        end
                    end
                end
            end
        end
  end.

(** [FileManager::seek_file]. *)
Definition seek_file (s : FS.t) (fd : Z) (position : Z)
  : outcome unit * FS.t :=
  match get_file_descriptor s fd with
  | Failed e => (Failed e, s)
  | Done desc =>
      match InodeMgr.read_inode (FS.disk s) (FS.inode_manager s)
                                (FileDescriptor.inode_num desc) with
      | None => (Failed ERROR_IO_ERROR, s)
      | Some inode =>
          if (position <? 0) || (Inode.size inode <? position)
          then (Failed ERROR_INVALID_ARGUMENT, s)
          else (Done tt, set_fd_position s fd position)
      end
  end.

End FileMgr.
(* ====================================================================== *)
(** * src/core/filesystem.cpp *)
(* ====================================================================== *)

Module FileSystem.

(** [FileSystem::FileSystem()]. *)
Definition init : FS.t :=
  {| FS.disk := Disk.init;
     FS.superblock :=
       {| Superblock.magic_number := 0; Superblock.total_blocks := 0;
          Superblock.free_blocks := 0; Superblock.total_inodes := 0;
          Superblock.free_inodes := 0; Superblock.block_size := 0;
          Superblock.inode_table_start := 0;
          Superblock.data_blocks_start := 0;
          Superblock.inode_bitmap_start := 0;
          Superblock.data_bitmap_start := 0;
          Superblock.mount_time := 0; Superblock.write_time := 0 |};
     FS.inode_manager := InodeMgr.init;
     FS.layout := layout InodeMgr.init;
     FS.mounted := false;
     FS.file_descriptors := ∅;
     FS.next_fd := 3 |}.

(** [FileSystem::ensure_mounted]. *)
Definition ensure_mounted (s : FS.t) : bool := FS.mounted s.

(** [FileSystem::load_superblock]. *)
Definition load_superblock (s : FS.t) : outcome unit * FS.t :=
  match Disk.read_block (FS.disk s) 0 with
  | None => (Failed ERROR_IO_ERROR, s)
  | Some buffer =>
      let s :=
        FS.set_superblock
          (decode_Superblock (slice buffer 0 sizeof_Superblock)) s in
      if negb (Superblock.magic_number (FS.superblock s) =? MAGIC_NUMBER)
      then (Failed ERROR_INVALID_ARGUMENT, s)
      else (Done tt, FS.set_layout (Disk.calculate_layout (FS.disk s)) s)
  end.

(** [FileSystem::read_directory]: the statements of
    [DirectoryManager::read_directory]. *)
Definition read_directory (s : FS.t) (inode_num : Z)
  : option (list DirectoryEntry.t) :=
  DirMgr.read_directory (FS.disk s) (FS.inode_manager s) inode_num.

(** [FileSystem::write_directory]: the statements of
    [DirectoryManager::write_directory]. *)
Definition write_directory (now : Z) (s : FS.t) (inode_num : Z)
    (entries : list DirectoryEntry.t) : bool * FS.t :=
  let '(ok, d, m) :=
    DirMgr.write_directory now (FS.disk s) (FS.inode_manager s) inode_num
                           entries in
  (ok, FS.set_store d m s).

Definition directory_mode : Z :=
  Z.lor (Z.lor (Z.lor FILE_TYPE_DIRECTORY FILE_PERMISSION_READ)
               FILE_PERMISSION_WRITE) FILE_PERMISSION_EXECUTE.

Definition required_permissions : Z :=
  Z.lor (Z.lor FILE_PERMISSION_READ FILE_PERMISSION_WRITE)
        FILE_PERMISSION_EXECUTE.

(** An entry built by [memset] to zero and [strncpy] of a short name. *)
Definition named_entry (name : list ascii) (inode_num : Z)
  : DirectoryEntry.t :=
  {| DirectoryEntry.inode_number := inode_num;
     DirectoryEntry.name := take 256 (name ++ repeat NUL 256);
     DirectoryEntry.name_length := Z.of_nat (length name) |}.

Definition set_entry_inode (v : Z) (e : DirectoryEntry.t) : DirectoryEntry.t :=
  {| DirectoryEntry.inode_number := v;
     DirectoryEntry.name := DirectoryEntry.name e;
     DirectoryEntry.name_length := DirectoryEntry.name_length e |}.

(** The loop of [ensure_root_directory] over the entries read:
    [(entries, has_dot, has_dotdot, needs_write)]. *)
Fixpoint repair_entries (root_inode_num : Z) (entries : list DirectoryEntry.t)
    (has_dot has_dotdot needs_write : bool)
  : list DirectoryEntry.t * bool * bool * bool :=
  match entries with
  | [] => ([], has_dot, has_dotdot, needs_write)
  | entry :: rest =>
      let '(entry, has_dot, has_dotdot, needs_write) :=
        if (DirectoryEntry.name_length entry =? 1)
           && strncmp_eq (DirectoryEntry.name entry) ["."%char] 1
        then
          if negb (DirectoryEntry.inode_number entry =? root_inode_num)
          then (set_entry_inode root_inode_num entry, true, has_dotdot, true)
          else (entry, true, has_dotdot, needs_write)
        else if (DirectoryEntry.name_length entry =? 2)
                && strncmp_eq (DirectoryEntry.name entry)
                              ["."%char; "."%char] 2
        then
          if negb (DirectoryEntry.inode_number entry =? root_inode_num)
          then (set_entry_inode root_inode_num entry, has_dot, true, true)
          else (entry, has_dot, true, needs_write)
        else (entry, has_dot, has_dotdot, needs_write) in
      let '(rest, has_dot, has_dotdot, needs_write) :=
        repair_entries root_inode_num rest has_dot has_dotdot needs_write in
      (entry :: rest, has_dot, has_dotdot, needs_write)
  end.

(** [FileSystem::ensure_root_directory]. *)
Definition ensure_root_directory (now : Z) (s : FS.t) : bool * FS.t :=
  let root_inode_num := 0 in
  match
    (if negb (InodeMgr.is_inode_allocated (FS.inode_manager s) root_inode_num)
     then
       match InodeMgr.allocate_inode now (FS.disk s) (FS.inode_manager s) with
       | (None, d, m) => (false, FS.set_store d m s)
       | (Some allocated_inode, d, m) =>
           (allocated_inode =? root_inode_num, FS.set_store d m s)
       end
     else (true, s))
  with
  | (false, s) => (false, s)
  | (true, s) =>
      match InodeMgr.read_inode (FS.disk s) (FS.inode_manager s)
                                root_inode_num with
      | None => (false, s)
      | Some root_inode =>
          let '(root_inode, inode_updated) :=
            if Z.land (Inode.mode root_inode) FILE_TYPE_DIRECTORY =? 0 then
              (FileOperationsUtils.initialize_new_inode now directory_mode 2,
               true)
            else
              let '(root_inode, inode_updated) :=
                if negb (Z.land (Inode.mode root_inode) required_permissions
                         =? required_permissions)
                then
                  (Inode.set_mode
                     (Z.lor (Inode.mode root_inode) required_permissions)
                     root_inode, true)
                else (root_inode, false) in
              if Inode.link_count root_inode <? 2
              then (Inode.set_link_count 2 root_inode, true)
              else (root_inode, inode_updated) in
          match
            (if inode_updated then
               let '(ok, d) :=
                 InodeMgr.write_inode (FS.disk s) (FS.inode_manager s)
                                      root_inode_num root_inode in
               (ok, FS.set_disk d s)
             else (true, s))
          with
          | (false, s) => (false, s)
          | (true, s) =>
              let '(entries, needs_write) :=
                match read_directory s root_inode_num with
                | Some entries => (entries, false)
                | None => ([], true)
                end in
              let '(entries, has_dot, has_dotdot, needs_write) :=
                repair_entries root_inode_num entries false false
                               needs_write in
              let '(entries, needs_write) :=
                if negb has_dot
                then (named_entry ["."%char] root_inode_num :: entries, true)
                else (entries, needs_write) in
              let '(entries, needs_write) :=
                if negb has_dotdot
                then
                  (take 1 entries
                   ++ named_entry ["."%char; "."%char] root_inode_num
                   :: drop 1 entries, true)
                else (entries, needs_write) in
              if negb needs_write then (true, s)
              else
                match InodeMgr.get_data_blocks (FS.disk s)
                        (FS.inode_manager s) root_inode_num with
                | None => (false, s)
                | Some blocks =>
                    match
                      (match blocks with
                       | [] =>
                           let '(r, d, m) :=
                             InodeMgr.allocate_data_blocks now (FS.disk s)
                               (FS.inode_manager s) root_inode_num 1 in
                           (bool_decide (is_Some r), FS.set_store d m s)
                       | _ => (true, s)
                       end)
                    with
                    | (false, s) => (false, s)
                    | (true, s) => write_directory now s root_inode_num entries
                    end
                end
          end
      end
  end.

(** [FileSystem::initialize_after_open]. *)
Definition initialize_after_open (now : Z) (s : FS.t) : bool * FS.t :=
  match load_superblock s with
  | (Failed _, s) => (false, s)
  | (Done _, s) =>
      match InodeMgr.initialize (FS.disk s) (FS.layout s)
                                (FS.inode_manager s) with
      | (false, m) => (false, FS.set_inode_manager m s)
      | (true, m) => ensure_root_directory now (FS.set_inode_manager m s)
      end
  end.

(** [FileSystem::mount]. *)
Definition mount (host : Host) (now : Z) (s : FS.t) (disk_path : list ascii)
  : bool * FS.t :=
  if FS.mounted s then (false, s)
  else
    match Disk.open_disk host disk_path (FS.disk s) with
    | (false, d) => (false, FS.set_disk d s)
    | (true, d) =>
        match initialize_after_open now (FS.set_disk d s) with
        | (false, s) => (false, FS.set_disk (Disk.close_disk (FS.disk s)) s)
        | (true, s) => (true, FS.set_mounted true s)
        end
    end.

(** [FileSystem::allocate_file_inode]: the statements of
    [FileManager::allocate_file_inode]. *)
Definition allocate_file_inode (now : Z) (s : FS.t) : outcome Z * FS.t :=
  FileMgr.allocate_file_inode now s.

(** [FileSystem::create_file]. *)
Definition create_file (now : Z) (s : FS.t) (path : list ascii) (mode : Z)
  : outcome Z * FS.t :=
  if negb (ensure_mounted s) then (Failed ERROR_NOT_MOUNTED, s)
  else
    let normalized_path := PathUtils.normalize_path path in
    if PathMgr.file_exists (FS.disk s) (FS.inode_manager s) normalized_path
    then (Failed ERROR_FILE_ALREADY_EXISTS, s)
    else
      match PathUtils.extract_filename_and_directory normalized_path with
      | None => (Failed ERROR_INVALID_PATH, s)
      | Some (filename, directory) =>
          let parent_inode :=
            PathMgr.find_inode (FS.disk s) (FS.inode_manager s) directory in
          if parent_inode =? -1 then (Failed ERROR_FILE_NOT_FOUND, s)
          else
            match allocate_file_inode now s with
            | (Failed e, s') => (Failed e, s')
            | (Done new_inode, s') =>
                FileMgr.finish_create now s' parent_inode filename new_inode
                                      mode
            end
      end.

(** [FileSystem::open_file]. *)
Definition open_file (fuel : nat) (now : Z) (s : FS.t) (path : list ascii)
    (mode : Z) : option (outcome Z * FS.t) :=
  if negb (ensure_mounted s) then Some (Failed ERROR_NOT_MOUNTED, s)
  else FileMgr.open_file fuel now s (PathUtils.normalize_path path) mode.

(** [FileSystem::close_file]. *)
Definition close_file (now : Z) (s : FS.t) (fd : Z) : outcome unit * FS.t :=
  if negb (ensure_mounted s) then (Failed ERROR_NOT_MOUNTED, s)
  else FileMgr.close_file now s fd.

(** [FileSystem::read_file]. *)
Definition read_file (now : Z) (s : FS.t) (fd : Z) (size : Z)
  : outcome (Z * list Z) * FS.t :=
  if negb (ensure_mounted s) then (Failed ERROR_NOT_MOUNTED, s)
  else FileMgr.read_file now s fd size.

(** [FileSystem::write_file]. *)
Definition write_file (now : Z) (s : FS.t) (fd : Z) (buffer : list Z)
    (size : Z) : outcome Z * FS.t :=
  if negb (ensure_mounted s) then (Failed ERROR_NOT_MOUNTED, s)
  else FileMgr.write_file now s fd buffer size.

(** [FileSystem::seek_file]. *)
Definition seek_file (s : FS.t) (fd : Z) (position : Z)
  : outcome unit * FS.t :=
  if negb (ensure_mounted s) then (Failed ERROR_NOT_MOUNTED, s)
  else FileMgr.seek_file s fd position.

(** [FileSystem::close_all_files]: the keys of the [std::map] are collected
    in their order, then the descriptors are closed one after the other;
    [clock fd] is the time at which [fd] is closed. *)
Definition close_all_files (clock : Z -> Z) (s : FS.t) : FS.t :=
  let open_fds := merge_sort Z.le (map_to_list (FS.file_descriptors s)).*1 in
  foldl (fun s fd => (FileMgr.close_file (clock fd) s fd).2) s open_fds.

(** [FileSystem::unmount]. *)
Definition unmount (clock : Z -> Z) (s : FS.t) : bool * FS.t :=
  if negb (ensure_mounted s) then (false, s)
  else
    let s := close_all_files clock s in
    let s := FS.set_disk (Disk.close_disk (FS.disk s)) s in
    (true, FS.set_mounted false s).

(** [FileSystem::is_mounted]. *)
Definition is_mounted (s : FS.t) : bool := FS.mounted s.

(** [FileSystem::file_exists]. *)
Definition file_exists (s : FS.t) (path : list ascii) : bool :=
  if negb (ensure_mounted s) then false
  else
    PathMgr.file_exists (FS.disk s) (FS.inode_manager s)
                        (PathUtils.normalize_path path).

(** [FileSystem::find_inode]. *)
Definition find_inode (s : FS.t) (path : list ascii) : Z :=
  if negb (ensure_mounted s) then -1
  else
    PathMgr.find_inode (FS.disk s) (FS.inode_manager s)
                       (PathUtils.normalize_path path).

(** [FileSystem::is_directory]. *)
Definition is_directory (s : FS.t) (path : list ascii) : bool :=
  if negb (ensure_mounted s) then false
  else
    let inode_num :=
      PathMgr.find_inode (FS.disk s) (FS.inode_manager s)
                         (PathUtils.normalize_path path) in
    if inode_num =? -1 then false
    else
      match InodeMgr.read_inode (FS.disk s) (FS.inode_manager s)
                                inode_num with
      | None => false
      | Some inode =>
          negb (Z.land (Inode.mode inode) FILE_TYPE_DIRECTORY =? 0)
      end.

(** [FileSystem::list_directory]. *)
Definition list_directory (s : FS.t) (path : list ascii)
  : option (list DirectoryEntry.t) :=
  if negb (ensure_mounted s) then None
  else
    DirMgr.list_directory (FS.disk s) (FS.inode_manager s)
                          (PathUtils.normalize_path path).

(** [FileSystem::create_directory]. *)
Definition create_directory (now : Z) (s : FS.t) (path : list ascii)
  : bool * FS.t :=
  if negb (ensure_mounted s) then (false, s)
  else
    let '(ok, d, m) :=
      DirMgr.create_directory now (FS.disk s) (FS.inode_manager s)
                              (PathUtils.normalize_path path) in
    (ok, FS.set_store d m s).

(** [FileSystem::remove_directory]. *)
Definition remove_directory (now : Z) (s : FS.t) (path : list ascii)
  : bool * FS.t :=
  if negb (ensure_mounted s) then (false, s)
  else
    let '(ok, d, m) :=
      DirMgr.remove_directory now (FS.disk s) (FS.inode_manager s)
                              (PathUtils.normalize_path path) in
    (ok, FS.set_store d m s).

(** [FileSystem::delete_file]. *)
Definition delete_file (now : Z) (s : FS.t) (path : list ascii)
  : bool * FS.t :=
  if negb (ensure_mounted s) then (false, s)
  else
    let normalized_path := PathUtils.normalize_path path in
    let inode_num :=
      PathMgr.find_inode (FS.disk s) (FS.inode_manager s) normalized_path in
    if inode_num =? -1 then (false, s)
    else
      match InodeMgr.read_inode (FS.disk s) (FS.inode_manager s)
                                inode_num with
      | None => (false, s)
      | Some inode =>
          if negb (Z.land (Inode.mode inode) FILE_TYPE_DIRECTORY =? 0)
          then (false, s)
          else
            match PathUtils.extract_filename_and_directory
                    normalized_path with
            | None => (false, s)
            | Some (basename, parent_path) =>
                let parent_inode :=
                  PathMgr.find_inode (FS.disk s) (FS.inode_manager s)
                                     parent_path in
                if parent_inode =? -1 then (false, s)
                else
                  match DirMgr.remove_directory_entry now (FS.disk s)
                          (FS.inode_manager s) parent_inode basename with
                  | (false, d, m) => (false, FS.set_store d m s)
                  | (true, d, m) =>
                      let '(ok, d', m') :=
                        InodeMgr.free_inode d m inode_num in
                      (ok, FS.set_store d' m' s)
                  end
            end
      end.

End FileSystem.
(* ====================================================================== *)
(** * Predicates of the specification *)
(* ====================================================================== *)

(** ** Paths *)

(** No two neighbours of [s] are both ['/']. *)
Fixpoint no_double_slash (s : list ascii) : Prop :=
  match s with
  | a :: (b :: _) as t =>
      PathUtils.both_slash a b = false /\ no_double_slash t
  | _ => True
  end.

(** The three properties of a normalised path. *)
Definition normal (s : list ascii) : Prop :=
  (PathUtils.backslash ∉ s) /\ no_double_slash s
  /\ (forall l, s = l ++ [PathUtils.slash] -> l = []).

(** ** The open-file table *)

(** [n] descriptors taken one after the other through
    [allocate_file_descriptor(inode_num, mode, fd)], as [open_file] does;
    one round of fuel is all the search loop gets. *)
Fixpoint open_many (n : nat) (s : FS.t) : option FS.t :=
  match n with
  | O => Some s
  | S n' =>
      match open_many n' s with
      | None => None
      | Some s' =>
          match FileMgr.allocate_file_descriptor_for 1 s' 0 OPEN_MODE_READ with
          | Some (Done _, s'') => Some s''
          | _ => None
          end
      end
  end.

(** Every descriptor of the table lies below [next_fd]. *)
Definition fds_below_next (s : FS.t) : Prop :=
  forall fd, is_Some (FS.file_descriptors s !! fd) -> fd < FS.next_fd s.
(** ** Bitmaps *)

(** The number of zero bits among the [total_bits] bits of the array, 0 for
    a bitmap without array. *)
Definition zero_bits (b : BitmapManager) : Z :=
  match bitmap_data b with
  | None => 0
  | Some data => Bitmap.count_free_from data 0 (Z.to_nat (total_bits b))
  end.

(** A bitmap as its constructor leaves it and its methods keep it: the
    array has [bitmap_size = ceil(total_bits / 8)] bytes, and there is an
    array exactly when there are bits. *)
Definition bitmap_shape (b : BitmapManager) : Prop :=
  0 <= total_bits b
  /\ bitmap_size b = (total_bits b + 7) / 8
  /\ match bitmap_data b with
     | Some data => 0 < total_bits b /\ Z.of_nat (length data) = bitmap_size b
     | None => total_bits b = 0
     end.

(** The cached counter tells the truth. *)
Definition counter_ok (b : BitmapManager) : Prop :=
  free_bits_count b = zero_bits b.

Definition bitmap_ok (b : BitmapManager) : Prop :=
  bitmap_shape b /\ counter_ok b.

(** The states a bitmap reaches from its constructor through the mutators
    that report success. *)
Inductive bitmap_reachable : BitmapManager -> Prop :=
| reach_create size :
    0 <= size -> bitmap_reachable (Bitmap.create size)
| reach_allocate b :
    bitmap_reachable b -> bitmap_reachable (Bitmap.allocate_bit b).2
| reach_free b bit_num :
    bitmap_reachable b -> bitmap_reachable (Bitmap.free_bit b bit_num).2
| reach_clear b :
    bitmap_reachable b -> bitmap_reachable (Bitmap.clear_all b)
| reach_load b d start_block_num num_blocks :
    bitmap_reachable b ->
    (Bitmap.load_from_disk d start_block_num num_blocks b).1 = true ->
    bitmap_reachable (Bitmap.load_from_disk d start_block_num num_blocks b).2.

(** ** Concrete images *)

(** A host whose every path leads to the same file. *)
Definition host_of (f : HostFile) : Host := fun _ => Some f.

(** An image of [n] blocks whose bytes are all zero. *)
Definition blank_image (n : nat) : HostFile :=
  {| contents := repeat 0 (n * Z.to_nat BLOCK_SIZE); lockable := true |}.

(** The disk opened on a blank image of [n] blocks. *)
Definition blank_disk (n : nat) : DiskSimulator :=
  (Disk.open_disk (host_of (blank_image n)) [] Disk.init).2.

(** A disk of one block whose first byte has all eight bits set. *)
Definition stale_disk : DiskSimulator :=
  (Disk.open_disk
     (host_of {| contents := 255 :: repeat 0 (Z.to_nat BLOCK_SIZE - 1);
                 lockable := true |}) [] Disk.init).2.

(** The bytes of a blank image of [n] blocks after [format_disk]. *)
Definition formatted_image (n : nat) : HostFile :=
  {| contents :=
       default [] (disk_file (Disk.format_disk 0 (blank_disk n)).2);
     lockable := true |}.

(** The file system mounted on a freshly formatted image of [n] blocks. *)
Definition fresh_fs (n : nat) : FS.t :=
  (FileSystem.mount (host_of (formatted_image n)) 0 FileSystem.init []).2.
(** ** The disk and the inode table *)

(** The values of an [int] and of a [time_t]. *)
Definition int_range (v : Z) : Prop := - 2^31 <= v < 2^31.
Definition time_range (v : Z) : Prop := - 2^63 <= v < 2^63.

(** An [Inode] as C++ holds it: ten direct pointers, every field within
    its type. *)
Definition inode_wf (i : Inode.t) : Prop :=
  int_range (Inode.mode i) /\ int_range (Inode.owner_id i)
  /\ int_range (Inode.group_id i) /\ int_range (Inode.size i)
  /\ time_range (Inode.access_time i)
  /\ time_range (Inode.modification_time i)
  /\ time_range (Inode.creation_time i)
  /\ int_range (Inode.link_count i)
  /\ length (Inode.direct_blocks i) = 10%nat
  /\ Forall int_range (Inode.direct_blocks i)
  /\ int_range (Inode.indirect_block i)
  /\ int_range (Inode.double_indirect_block i).

(** An open disk as [open_disk] leaves it: the host file holds all of its
    [total_blocks] blocks. *)
Definition disk_ok (d : DiskSimulator) : Prop :=
  disk_open d = true
  /\ 0 <= total_blocks d
  /\ match disk_file d with
     | Some data => total_blocks d * BLOCK_SIZE <= Z.of_nat (length data)
     | None => False
     end.

(** A run of [write_inode] calls, stopped by the first that fails. *)
Fixpoint write_inodes (d : DiskSimulator) (m : InodeManager)
    (ws : list (Z * Inode.t)) : bool * DiskSimulator :=
  match ws with
  | [] => (true, d)
  | (k, inode) :: rest =>
      match InodeMgr.write_inode d m k inode with
      | (false, d') => (false, d')
      | (true, d') => write_inodes d' m rest
      end
  end.

(** The disk and the inode manager of a mounted file system: the layout is
    the one [calculate_layout] gives for the disk, and the bitmaps are the
    ones [initialize] builds for it. *)
Definition store_ok (d : DiskSimulator) (m : InodeManager) : Prop :=
  disk_ok d
  /\ total_blocks d < 2^31
  /\ initialized m = true
  /\ layout m = Disk.calculate_layout d
  /\ bitmap_ok (inode_bitmap m)
  /\ total_bits (inode_bitmap m)
     = inode_table_blocks (layout m) * (BLOCK_SIZE / sizeof_Inode)
  /\ bitmap_ok (data_bitmap m)
  /\ total_bits (data_bitmap m) = data_blocks_count (layout m).

(** Block [b] is a data block that the data bitmap holds as taken. *)
Definition block_taken (m : InodeManager) (b : Z) : Prop :=
  Bitmap.is_allocated (data_bitmap m) (b - data_blocks_start (layout m))
  = true.
(** ** Images and files *)

(** The image has a block 0, and block 0 begins with the magic number. *)
Definition has_magic (f : HostFile) : Prop :=
  BLOCK_SIZE <= Z.of_nat (length (contents f))
  /\ get_int (contents f) 0 = MAGIC_NUMBER.

(** The bytes the blocks of a file hold, in the order of the list; [None]
    when a block cannot be read. *)
Fixpoint file_image (d : DiskSimulator) (blocks : list Z) : option (list Z) :=
  match blocks with
  | [] => Some []
  | block :: rest =>
      match Disk.read_block d block with
      | None => None
      | Some buffer =>
          match file_image d rest with
          | None => None
          | Some more => Some (buffer ++ more)
          end
      end
  end.
(** ** A file that reaches into the double-indirect tier *)

Definition path_a : list ascii := ["/"; "a"]%char.

(** The file system of 11 blocks after [create_file("/a", 0600)]: the file
    is inode 1. *)
Definition fs_with_file : FS.t :=
  (FileSystem.create_file 1 (fresh_fs 11) path_a 0x600).2.

(** Inode 1 after one data block has been taken from the bitmap and put at
    index 1034 of its block list by the refill step of
    [update_inode_block_pointers], the first index of the double-indirect
    tier: the step allocates the double-indirect block and one inner
    indirect block. The inode and the bitmap are then written back as
    [update_inode_block_pointers] and [allocate_data_blocks] do. *)
Definition fs_double_indirect : FS.t :=
  let s := fs_with_file in
  let d := FS.disk s in
  let m := FS.inode_manager s in
  match InodeMgr.read_inode d m 1, InodeMgr.allocate_single_block m with
  | Some inode, (Some block, m) =>
      let '(_, d, m, inode) := InodeMgr.place_block 1034 block d m inode in
      let inode := Inode.set_size BLOCK_SIZE inode in
      let d := (InodeMgr.write_inode d m 1 inode).2 in
      let '(_, d, m) := InodeMgr.save_data_bitmap d m in
      FS.set_store d m s
  | _, _ => s
  end.

(** ** An open file that holds three bytes *)

(** [open_file("/a", READ|WRITE)] on [fs_with_file]: descriptor 3. *)
Definition fs_opened : FS.t :=
  match FileSystem.open_file 1 2 fs_with_file path_a
          (Z.lor OPEN_MODE_READ OPEN_MODE_WRITE) with
  | Some (_, s) => s
  | None => fs_with_file
  end.

(** Then [write_file(3, "ABC", 3)] and [seek_file(3, 1)]. *)
Definition fs_written : FS.t :=
  (FileSystem.seek_file
     (FileSystem.write_file 3 fs_opened 3 [65; 66; 67] 3).2 3 1).2.

(** The descriptor and the inode of the file in [fs_written]. *)
Definition written_descriptor : FileDescriptor.t :=
  {| FileDescriptor.inode_num := 1; FileDescriptor.mode := 3;
     FileDescriptor.position := 1; FileDescriptor.open := true |}.

Definition written_inode : Inode.t :=
  {| Inode.mode := 34304; Inode.owner_id := 0; Inode.group_id := 0;
     Inode.size := 3; Inode.access_time := 2; Inode.modification_time := 3;
     Inode.creation_time := 1; Inode.link_count := 1;
     Inode.direct_blocks := [5; 0; 0; 0; 0; 0; 0; 0; 0; 0];
     Inode.indirect_block := -1; Inode.double_indirect_block := -1 |}.
(** ** The pool of data blocks *)

(** The indirect blocks a file of [n] data blocks needs: the single
    indirect block, the double-indirect block and its inner blocks. *)
Definition indirect_blocks_needed (n : Z) : Z :=
  (if 10 <? n then 1 else 0)
  + (if 1034 <? n then 1 + (n - 1034 + 1023) / 1024 else 0).

(** An entry that an indirect block can hold: not the terminator, and an
    [int]. *)
Definition entry_ok (b : Z) : Prop := b <> 0 /\ int_range b.

Definition in_data_region (m : InodeManager) (x : Z) : Prop :=
  data_blocks_start (layout m) <= x
  < data_blocks_start (layout m) + data_blocks_count (layout m).

(** What the block allocator relies on: a sound disk that holds the whole
    data region, and a truthful data bitmap of the size of the region. *)
Definition pool_ok (d : DiskSimulator) (m : InodeManager) : Prop :=
  disk_ok d
  /\ total_blocks d < 2^31
  /\ 0 < data_blocks_start (layout m)
  /\ 0 <= data_blocks_count (layout m)
  /\ (0 < data_blocks_count (layout m) ->
      data_blocks_start (layout m) + data_blocks_count (layout m)
      <= total_blocks d)
  /\ bitmap_ok (data_bitmap m)
  /\ total_bits (data_bitmap m) = data_blocks_count (layout m).

(** Two inode managers that see the same inode table. *)
Definition same_table (m m' : InodeManager) : Prop :=
  initialized m' = initialized m /\ layout m' = layout m
  /\ inode_bitmap m' = inode_bitmap m.

(** The block of the inode table that holds inode [n] lies outside the data
    region. *)
Definition table_outside (m : InodeManager) : Prop :=
  forall n, 0 <= n < InodeMgr.get_total_inodes m ->
            ~ in_data_region m (inode_table_start (layout m) + n / 42).

(** The inode table, then the data bitmap, then the data region. *)
Definition layout_ok (m : InodeManager) : Prop :=
  (forall n, 0 <= n < InodeMgr.get_total_inodes m ->
             0 < inode_table_start (layout m) + n / 42
             < data_bitmap_start (layout m))
  /\ 0 <= data_bitmap_start (layout m)
  /\ 0 <= data_bitmap_blocks (layout m)
  /\ data_bitmap_start (layout m) + data_bitmap_blocks (layout m)
     <= data_blocks_start (layout m).

(** Inode [n] has a slot in the inode table, in a block of the disk. *)
Definition slot_ok (d : DiskSimulator) (m : InodeManager) (n : Z) : Prop :=
  initialized m = true /\ 0 <= n < InodeMgr.get_total_inodes m
  /\ 0 <= inode_table_start (layout m) + n / 42 < total_blocks d.

(** [m'] is [m] with the free block [y] taken. *)
Definition takes_block (m : InodeManager) (y : Z) (m' : InodeManager)
  : Prop :=
  same_table m m' /\ in_data_region m y /\ ~ block_taken m y
  /\ block_taken m' y
  /\ (forall x, block_taken m x -> block_taken m' x)
  /\ free_bits_count (data_bitmap m') = free_bits_count (data_bitmap m) - 1.

(** A block of the data region that has been taken since [m0]. *)
Definition owned (m0 m : InodeManager) (x : Z) : Prop :=
  in_data_region m x /\ block_taken m x /\ ~ block_taken m0 x.

(** From [(d, m)] to [(d', m')] no block has been released, and the blocks
    outside the data region and those taken in [m0] have been left as they
    were. *)
Definition grows (m0 : InodeManager) (d : DiskSimulator) (m : InodeManager)
    (d' : DiskSimulator) (m' : InodeManager) : Prop :=
  pool_ok d' m' /\ total_blocks d' = total_blocks d /\ same_table m m'
  /\ (forall x, block_taken m x -> block_taken m' x)
  /\ (forall x, ~ in_data_region m x \/ block_taken m0 x ->
                Disk.read_block d' x = Disk.read_block d x).

(** ** The block list of an inode *)

(** The inode as [create_file] leaves it: no byte, no block. *)
Definition fresh_file (inode : Inode.t) : Prop :=
  inode_wf inode /\ Inode.size inode = 0
  /\ Inode.direct_blocks inode = repeat 0 (Z.to_nat DIRECT_BLOCKS_COUNT)
  /\ Inode.indirect_block inode = -1
  /\ Inode.double_indirect_block inode = -1.

(** Two inodes that differ in their block pointers at most. *)
Definition same_meta (i i' : Inode.t) : Prop :=
  Inode.mode i' = Inode.mode i
  /\ Inode.owner_id i' = Inode.owner_id i
  /\ Inode.group_id i' = Inode.group_id i
  /\ Inode.size i' = Inode.size i
  /\ Inode.access_time i' = Inode.access_time i
  /\ Inode.modification_time i' = Inode.modification_time i
  /\ Inode.creation_time i' = Inode.creation_time i
  /\ Inode.link_count i' = Inode.link_count i.

(** Two inodes with the same block pointers. *)
Definition same_pointers (i i' : Inode.t) : Prop :=
  Inode.direct_blocks i' = Inode.direct_blocks i
  /\ Inode.indirect_block i' = Inode.indirect_block i
  /\ Inode.double_indirect_block i' = Inode.double_indirect_block i.

(** The [j]-th inner indirect block of the double-indirect tier holds
    these entries of the list [l3] of the tier. *)
Definition chunk (l3 : list Z) (j : nat) : list Z :=
  take 1024 (drop (1024 * j) l3).

(** The three tiers of a block list. *)
Definition tier1 (l : list Z) : list Z := take 10 l.
Definition tier2 (l : list Z) : list Z := take 1024 (drop 10 l).
Definition tier3 (l : list Z) : list Z := drop 1034 l.

(** The single indirect block of the inode holds [l2]. *)
Definition single_ok (d : DiskSimulator) (m0 m : InodeManager)
    (inode : Inode.t) (l2 : list Z) : Prop :=
  match l2 with
  | [] => Inode.indirect_block inode = -1
  | _ =>
      owned m0 m (Inode.indirect_block inode)
      /\ InodeMgr.read_indirect_block d (Inode.indirect_block inode)
         = Some l2
  end.

(** The double-indirect block of the inode holds [ptrs], whose inner
    blocks hold [l3] chunk by chunk. *)
Definition double_held (d : DiskSimulator) (m0 m : InodeManager)
    (inode : Inode.t) (l3 : list Z) (ptrs : list Z) : Prop :=
  owned m0 m (Inode.double_indirect_block inode)
  /\ InodeMgr.read_indirect_block d (Inode.double_indirect_block inode)
     = Some ptrs
  /\ NoDup (Inode.indirect_block inode
              :: Inode.double_indirect_block inode :: ptrs)
  /\ Forall (owned m0 m) ptrs
  /\ (forall (j : nat) (t : Z),
        ptrs !! j = Some t ->
        InodeMgr.read_indirect_block d t = Some (chunk l3 j)).

(** The double-indirect tier of the inode holds [l3]: no block for an
    empty tier, else as many inner blocks as [l3] fills. *)
Definition double_ok (d : DiskSimulator) (m0 m : InodeManager)
    (inode : Inode.t) (l3 : list Z) (ptrs : list Z) : Prop :=
  match l3 with
  | [] => Inode.double_indirect_block inode = -1 /\ ptrs = []
  | _ =>
      Z.of_nat (length ptrs) = (Z.of_nat (length l3) + 1023) / 1024
      /\ double_held d m0 m inode l3 ptrs
  end.

(** The pointers of the inode lead to the block list [l], through indirect
    blocks taken since [m0]. *)
Definition tree_ok (d : DiskSimulator) (m0 m : InodeManager)
    (inode : Inode.t) (l : list Z) : Prop :=
  Forall entry_ok l
  /\ (forall x, block_taken m0 x -> block_taken m x)
  /\ Inode.direct_blocks inode
     = tier1 l ++ repeat 0 (10 - length (tier1 l))
  /\ single_ok d m0 m inode (tier2 l)
  /\ exists ptrs, double_ok d m0 m inode (tier3 l) ptrs.

(** One round of the refill loop, on an inode that leads to [l]: the block
    [v] goes to index [length l], at the cost of the indirect blocks that
    the longer list needs. *)
Definition placed (m0 : InodeManager) (d : DiskSimulator) (m : InodeManager)
    (inode : Inode.t) (l : list Z) (v : Z) : Prop :=
  exists d' m' inode',
    InodeMgr.place_block (Z.of_nat (length l)) v d m inode
    = (true, d', m', inode')
    /\ tree_ok d' m0 m' inode' (l ++ [v])
    /\ grows m0 d m d' m'
    /\ same_meta inode inode'
    /\ free_bits_count (data_bitmap m')
       = free_bits_count (data_bitmap m)
         - (indirect_blocks_needed (Z.of_nat (length l) + 1)
            - indirect_blocks_needed (Z.of_nat (length l))).
(** ** The round trip through a file *)

(** The data blocks that [n] bytes fill. *)
Definition blocks_for (n : Z) : Z := (n + BLOCK_SIZE - 1) / BLOCK_SIZE.

(** The inode that [path] leads to, as [open_file] looks it up. *)
Definition inode_of (s : FS.t) (path : list ascii) : Z :=
  PathMgr.find_inode (FS.disk s) (FS.inode_manager s)
    (PathUtils.normalize_path path).

(** [write_file(fd, buf, |buf|); seek_file(fd, 0); read_file(fd, r, |buf|);
    close_file(fd)], the clock at [now_w], [now_r] and [now_c]: the four
    results. *)
Definition round_trip (now_w now_r now_c : Z) (s : FS.t) (fd : Z)
    (buf : list Z)
  : outcome Z * outcome unit * outcome (Z * list Z) * outcome unit :=
  let n := Z.of_nat (length buf) in
  let '(w, s) := FileSystem.write_file now_w s fd buf n in
  let '(k, s) := FileSystem.seek_file s fd 0 in
  let '(r, s) := FileSystem.read_file now_r s fd n in
  let '(c, _) := FileSystem.close_file now_c s fd in
  (w, k, r, c).

(** The descriptor that [open_file] enters for inode [k]. *)
Definition opened_descriptor (k mode : Z) : FileDescriptor.t :=
  {| FileDescriptor.inode_num := k; FileDescriptor.mode := mode;
     FileDescriptor.position := 0; FileDescriptor.open := true |}.

(** Inode 1 of [fs_with_file], the file that [create_file("/a", 0600)] has
    made at time 1. *)
Definition created_inode : Inode.t :=
  {| Inode.mode := 34304; Inode.owner_id := 0; Inode.group_id := 0;
     Inode.size := 0; Inode.access_time := 1; Inode.modification_time := 1;
     Inode.creation_time := 1; Inode.link_count := 1;
     Inode.direct_blocks := [0; 0; 0; 0; 0; 0; 0; 0; 0; 0];
     Inode.indirect_block := -1; Inode.double_indirect_block := -1 |}.

(** A buffer of seven blocks less 4095 bytes: it needs seven data blocks,
    all of them direct. *)
Definition seven_blocks : list Z := repeat 7 (Z.to_nat 24577).
(** ** Indirect blocks *)

(** The entries of a list up to its first zero. *)
Fixpoint until_zero (l : list Z) : list Z :=
  match l with
  | [] => []
  | v :: rest => if v =? 0 then [] else v :: until_zero rest
  end.

(** ** Paths *)

(** The absolute path with the components [cs]: each one behind a ['/']. *)
Definition join_path (cs : list (list ascii)) : list ascii :=
  concat (map (cons PathUtils.slash) cs).

(** A component of a path: not empty, and without ['/']. *)
Definition component_ok (c : list ascii) : Prop :=
  c <> [] /\ (PathUtils.slash ∉ c).

(** The components that are not empty, as [parse_path] keeps them. *)
Definition nonempty (l : list (list ascii)) : list (list ascii) :=
  filter (fun component => component <> []) l.

(** ** Directories *)

(** A [DirectoryEntry] as C++ holds it: two [int]s around an array of
    [MAX_FILENAME_LENGTH] characters. *)
Definition entry_wf (e : DirectoryEntry.t) : Prop :=
  int_range (DirectoryEntry.inode_number e)
  /\ length (DirectoryEntry.name e) = Z.to_nat MAX_FILENAME_LENGTH
  /\ int_range (DirectoryEntry.name_length e).

(** An entry that [read_directory] does not skip. *)
Definition entry_listed (e : DirectoryEntry.t) : Prop :=
  entry_wf e /\ 0 < DirectoryEntry.name_length e.

(** The entries a directory block has room for. *)
Definition entries_per_block : Z := BLOCK_SIZE / sizeof_DirectoryEntry.

(** The inode number of the first entry of the list whose name is [name],
    -1 when there is none. *)
Fixpoint lookup_entry (entries : list DirectoryEntry.t) (name : list ascii)
  : Z :=
  match entries with
  | [] => -1
  | e :: rest =>
      if strcmp_eq (DirectoryEntry.name e) name
      then DirectoryEntry.inode_number e
      else lookup_entry rest name
  end.

(** A name that fits a directory entry: not empty, without NUL, shorter
    than [MAX_FILENAME_LENGTH]. *)
Definition name_ok (name : list ascii) : Prop :=
  name <> [] /\ (NUL ∉ name)
  /\ Z.of_nat (length name) < MAX_FILENAME_LENGTH.

(** A directory of a mounted store that [write_directory] can write in
    place: its inode [inode] is a directory without indirect blocks, and
    its blocks [blocks] are distinct blocks of the data region, below the
    bound of [is_valid_block_index]. *)
Definition directory_ok (d : DiskSimulator) (m : InodeManager) (dir : Z)
    (inode : Inode.t) (blocks : list Z) : Prop :=
  store_ok d m
  /\ total_blocks d <= DISK_SIZE / BLOCK_SIZE
  /\ InodeMgr.read_inode d m dir = Some inode
  /\ inode_wf inode
  /\ Z.land (Inode.mode inode) FILE_TYPE_DIRECTORY <> 0
  /\ Inode.indirect_block inode = -1
  /\ Inode.double_indirect_block inode = -1
  /\ InodeMgr.get_data_blocks d m dir = Some blocks
  /\ NoDup blocks
  /\ Forall (in_data_region m) blocks.

(** The inode of a directory after [write_directory] has written [n]
    entries at time [now]. *)
Definition written_directory (now : Z) (n : nat) (inode : Inode.t)
  : Inode.t :=
  Inode.set_modification_time now
    (Inode.set_size (Z.of_nat n * sizeof_DirectoryEntry) inode).

(** ** The root directory of [fs_with_file] and the file of [fs_written] *)

(** The inode of the root directory in [fs_with_file]. *)
Definition root_inode_with_file : Inode.t :=
  {| Inode.mode := 18176; Inode.owner_id := 0; Inode.group_id := 0;
     Inode.size := 792; Inode.access_time := 0; Inode.modification_time := 1;
     Inode.creation_time := 0; Inode.link_count := 2;
     Inode.direct_blocks := [4; 0; 0; 0; 0; 0; 0; 0; 0; 0];
     Inode.indirect_block := -1; Inode.double_indirect_block := -1 |}.

(** Its entries: [.], [..] and [a]. *)
Definition root_entries_with_file : list DirectoryEntry.t :=
  [DirMgr.make_entry ["."%char] 0; DirMgr.make_entry ["."; "."]%char 0;
   DirMgr.make_entry ["a"%char] 1].

(** The bytes of block 5 in [fs_written], the one block of the file. *)
Definition written_image : list Z :=
  [65; 66; 67] ++ repeat 0 (Z.to_nat BLOCK_SIZE - 3).

(** ** A subdirectory *)

Definition path_d : list ascii := ["/"; "d"]%char.

(** [fs_with_file] after [create_directory("/d")]: the directory is
    inode 2 and holds block 5. *)
Definition fs_with_directory : FS.t :=
  (FileSystem.create_directory 2 fs_with_file path_d).2.

(** The inodes of the root and of [/d] in [fs_with_directory]. *)
Definition root_inode_with_directory : Inode.t :=
  {| Inode.mode := 18176; Inode.owner_id := 0; Inode.group_id := 0;
     Inode.size := 1056; Inode.access_time := 0;
     Inode.modification_time := 2; Inode.creation_time := 0;
     Inode.link_count := 2;
     Inode.direct_blocks := [4; 0; 0; 0; 0; 0; 0; 0; 0; 0];
     Inode.indirect_block := -1; Inode.double_indirect_block := -1 |}.

Definition directory_inode : Inode.t :=
  {| Inode.mode := 18176; Inode.owner_id := 0; Inode.group_id := 0;
     Inode.size := 528; Inode.access_time := 2;
     Inode.modification_time := 2; Inode.creation_time := 2;
     Inode.link_count := 2;
     Inode.direct_blocks := [5; 0; 0; 0; 0; 0; 0; 0; 0; 0];
     Inode.indirect_block := -1; Inode.double_indirect_block := -1 |}.

(** The entries of the root in [fs_with_directory]. *)
Definition root_entries_with_directory : list DirectoryEntry.t :=
  root_entries_with_file ++ [DirMgr.make_entry ["d"%char] 2].

(** ** A bitmap with a hole *)

(** Eight bits of which bits 0 and 2 are taken: three bits are handed out,
    then bit 1 is given back. *)
Definition holed_bitmap : BitmapManager :=
  (Bitmap.free_bit
     (Bitmap.allocate_bit
        (Bitmap.allocate_bit (Bitmap.allocate_bit (Bitmap.create 8)).2).2).2
     1).2.

(** ** The file of three bytes read to its end *)

(** [fs_opened] after [write_file(3, "ABC", 3)]: the offset of descriptor 3
    is at the end of the file. *)
Definition fs_at_end : FS.t :=
  (FileSystem.write_file 3 fs_opened 3 [65; 66; 67] 3).2.

Definition end_descriptor : FileDescriptor.t :=
  {| FileDescriptor.inode_num := 1; FileDescriptor.mode := 3;
     FileDescriptor.position := 3; FileDescriptor.open := true |}.

(** ** A root directory with sixteen entries *)

Definition letter_path (c : ascii) : list ascii := ["/"%char; c].

(** [create_file("/c", 0600)] for each letter [c], one after the other. *)
Definition create_all (now : Z) (s : FS.t) (names : list ascii) : FS.t :=
  foldl (fun s c => (FileSystem.create_file now s (letter_path c) 0x600).2)
        s names.

(** The file system of 11 blocks after thirteen files have been made in
    the root: with [.] and [..] the one block of the root is full. *)
Definition fs_thirteen : FS.t :=
  create_all 1 (fresh_fs 11) (list_ascii_of_string "abcdefghijklm").

(** Then [create_file("/n", 0600)]. *)
Definition fs_fourteen : FS.t :=
  (FileSystem.create_file 1 fs_thirteen (letter_path "n") 0x600).2.

(** Then [open_file("/", READ)]: descriptor 3. *)
Definition fs_root_open : FS.t :=
  match FileSystem.open_file 1 2 fs_fourteen ["/"%char] OPEN_MODE_READ with
  | Some (_, s) => s
  | None => fs_fourteen
  end.

Definition root_descriptor : FileDescriptor.t :=
  {| FileDescriptor.inode_num := 0; FileDescriptor.mode := OPEN_MODE_READ;
     FileDescriptor.position := 0; FileDescriptor.open := true |}.

(** The inode of the root in [fs_root_open]: sixteen entries by its size,
    one block by its pointers. *)
Definition crowded_root_inode : Inode.t :=
  {| Inode.mode := 18176; Inode.owner_id := 0; Inode.group_id := 0;
     Inode.size := 4224; Inode.access_time := 2;
     Inode.modification_time := 1; Inode.creation_time := 0;
     Inode.link_count := 2;
     Inode.direct_blocks := [4; 0; 0; 0; 0; 0; 0; 0; 0; 0];
     Inode.indirect_block := -1; Inode.double_indirect_block := -1 |}.

(** ** The round trip from [create_file] on *)

(** [create_file(p, mode); fd = open_file(p, READ|WRITE);
    write_file(fd, buf, |buf|); seek_file(fd, 0); read_file(fd, r, |buf|);
    close_file(fd)], the clock at [now_m], [now_o], [now_w], [now_r] and
    [now_c]: the six results, of which the last four are those of
    [round_trip] on the [int] that [open_file] has returned. [None] when
    the search of [open_file] for a descriptor number has not ended within
    [fuel] rounds. *)
Definition create_round_trip (fuel : nat) (now_m now_o now_w now_r now_c : Z)
    (s : FS.t) (p : list ascii) (mode : Z) (buf : list Z)
  : option (outcome Z * outcome Z
            * (outcome Z * outcome unit * outcome (Z * list Z)
               * outcome unit)) :=
  let '(c, s) := FileSystem.create_file now_m s p mode in
  match FileSystem.open_file fuel now_o s p
          (Z.lor OPEN_MODE_READ OPEN_MODE_WRITE) with
  | None => None
  | Some (o, s) => Some (c, o, round_trip now_w now_r now_c s (ret_int o) buf)
  end.

(** The directories that [descend] searches: one for each component, up
    to the first that is not found. *)
Fixpoint way (d : DiskSimulator) (m : InodeManager) (current_inode : Z)
    (components : list (list ascii)) : list Z :=
  match components with
  | [] => []
  | component :: rest =>
      let next :=
        PathMgr.find_inode_in_directory d m current_inode component in
      current_inode :: (if next =? -1 then [] else way d m next rest)
  end.

(** The directories that [find_inode] searches to resolve [path]. *)
Definition way_to (d : DiskSimulator) (m : InodeManager) (path : list ascii)
  : list Z :=
  match PathMgr.parse_path path with
  | None => []
  | Some components => way d m 0 components
  end.

(** ** A file in a subdirectory *)

Definition path_f : list ascii := ["/"; "d"; "/"; "f"]%char.

(** ** A full root directory, a name too long *)

(** The fourteenth file of [fs_thirteen]. *)
Definition path_n : list ascii := letter_path "n".

(** A name of 256 characters behind a ['/']. *)
Definition path_long : list ascii := "/"%char :: repeat "x"%char 256.
(* ====================================================================== *)
(** * Buffers: [slice] and [splice] *)
(* ====================================================================== *)

Section Buffers.
Context {A : Type}.
Implicit Types (l dest src : list A).

Lemma length_slice l off len :
  0 <= off -> 0 <= len -> off + len <= Z.of_nat (length l) ->
  length (slice l off len) = Z.to_nat len.
Proof.
  intros. unfold slice. rewrite length_take, length_drop. lia.
Qed.

Lemma length_slice_le l off len :
  (length (slice l off len) <= Z.to_nat len)%nat.
Proof. unfold slice. rewrite length_take. lia. Qed.

Lemma length_splice dest off src :
  0 <= off -> off + Z.of_nat (length src) <= Z.of_nat (length dest) ->
  length (splice dest off src) = length dest.
Proof.
  intros. unfold splice. rewrite !length_app, length_take, length_drop. lia.
Qed.

(** Reading back what [memcpy] has put. *)
Lemma slice_splice_same dest off src :
  0 <= off -> off <= Z.of_nat (length dest) ->
  slice (splice dest off src) off (Z.of_nat (length src)) = src.
Proof.
  intros. unfold slice, splice.
  rewrite drop_app_length' by (rewrite length_take; lia).
  rewrite Nat2Z.id. apply take_app_length.
Qed.

(** A range before the bytes [memcpy] has put. *)
Lemma slice_splice_before dest off src off' len' :
  0 <= off' -> 0 <= len' -> off' + len' <= off ->
  off <= Z.of_nat (length dest) ->
  slice (splice dest off src) off' len' = slice dest off' len'.
Proof.
  intros. unfold slice, splice.
  rewrite !take_drop_commute. f_equal.
  rewrite take_app_le by (rewrite length_take; lia).
  rewrite take_take. f_equal. lia.
Qed.

(** A range after the bytes [memcpy] has put. *)
Lemma slice_splice_after dest off src off' len' :
  0 <= off -> off + Z.of_nat (length src) <= off' ->
  off <= Z.of_nat (length dest) ->
  slice (splice dest off src) off' len' = slice dest off' len'.
Proof.
  intros. unfold slice, splice. f_equal.
  rewrite app_assoc.
  rewrite drop_app_ge by (rewrite length_app, length_take; lia).
  rewrite length_app, length_take, drop_drop. f_equal. lia.
Qed.

Lemma slice_0_all l : slice l 0 (Z.of_nat (length l)) = l.
Proof. unfold slice. simpl. rewrite Nat2Z.id. apply firstn_all. Qed.

Lemma slice_slice l off len off' len' :
  0 <= off -> 0 <= off' -> 0 <= len' -> off' + len' <= len ->
  slice (slice l off len) off' len' = slice l (off + off') len'.
Proof.
  intros. unfold slice.
  rewrite !take_drop_commute, drop_drop, take_take.
  replace (Z.to_nat (off + off')) with (Z.to_nat off + Z.to_nat off')%nat by lia.
  f_equal. f_equal. lia.
Qed.

Lemma slice_app l off len1 len2 :
  0 <= off -> 0 <= len1 -> 0 <= len2 ->
  slice l off len1 ++ slice l (off + len1) len2 = slice l off (len1 + len2).
Proof.
  intros. unfold slice.
  replace (Z.to_nat (off + len1)) with (Z.to_nat off + Z.to_nat len1)%nat by lia.
  rewrite <- drop_drop, take_take_drop. f_equal. lia.
Qed.

Lemma splice_0_all dest src :
  length src = length dest -> splice dest 0 src = src.
Proof.
  intros H. unfold splice. simpl. rewrite drop_ge by lia. apply app_nil_r.
Qed.

End Buffers.

Lemma int32_small_range v : - 2^31 <= v < 2^31 -> int32 v = v.
Proof.
  intros H. unfold int32. rewrite Z.mod_small; lia.
Qed.

(* ====================================================================== *)
(** * The block device (src/core/disk_simulator.cpp) *)
(* ====================================================================== *)

Section DiskFacts.
Import Disk.

Lemma BLOCK_SIZE_eq : BLOCK_SIZE = 4096.
Proof. reflexivity. Qed.

Lemma BLOCK_SIZE_pos : 0 < BLOCK_SIZE.
Proof. reflexivity. Qed.

(** A block that has been read has [BLOCK_SIZE] bytes and a number in
    range. *)
Lemma read_block_Some d n buffer :
  read_block d n = Some buffer ->
  disk_open d = true /\ 0 <= n < total_blocks d
  /\ Z.of_nat (length buffer) = BLOCK_SIZE
  /\ exists data, disk_file d = Some data
                  /\ buffer = slice data (n * BLOCK_SIZE) BLOCK_SIZE.
Proof.
  unfold read_block, is_ready_for_io.
  destruct (disk_open d); simpl; [|discriminate].
  destruct (Z.ltb_spec n 0); simpl; [discriminate|].
  destruct (Z.leb_spec (total_blocks d) n); simpl; [discriminate|].
  destruct (disk_file d) as [data|]; [|discriminate].
  destruct (Z.eqb_spec (Z.of_nat (length (slice data (n * BLOCK_SIZE) BLOCK_SIZE)))
                       BLOCK_SIZE); [|discriminate].
  intros [= <-]. repeat split; try lia; eauto.
Qed.

Lemma write_block_true d n buffer d' :
  write_block d n buffer = (true, d') ->
  disk_open d = true /\ 0 <= n < total_blocks d
  /\ exists data,
       disk_file d = Some data
       /\ d' = set_file (splice data (n * BLOCK_SIZE)
                                (take (Z.to_nat BLOCK_SIZE) buffer)) d.
Proof.
  unfold write_block, is_ready_for_io.
  destruct (disk_open d); simpl; [|discriminate].
  destruct (Z.ltb_spec n 0); simpl; [discriminate|].
  destruct (Z.leb_spec (total_blocks d) n); simpl; [discriminate|].
  destruct (disk_file d) as [data|]; [|discriminate].
  intros [= <-]. repeat split; try lia; eauto.
Qed.

Lemma write_block_false d n buffer d' :
  write_block d n buffer = (false, d') -> d' = d.
Proof.
  unfold write_block.
  destruct (is_ready_for_io d n); simpl; [|congruence].
  destruct (disk_file d); congruence.
Qed.

End DiskFacts.
Section DiskOk.
Import Disk.

Lemma disk_ok_data d :
  disk_ok d ->
  exists data, disk_file d = Some data
               /\ total_blocks d * BLOCK_SIZE <= Z.of_nat (length data).
Proof.
  intros (_ & _ & H). destruct (disk_file d) as [data|]; [eauto|tauto].
Qed.

(** [open_disk] leaves a disk that holds all of its blocks. *)
Lemma open_disk_ok host path d d' :
  open_disk host path d = (true, d') -> disk_ok d'.
Proof.
  unfold open_disk. destruct (disk_open d); [discriminate|].
  destruct (host path) as [f|]; [|discriminate].
  destruct (lockable f); simpl; [|discriminate].
  intros [= <-]. unfold disk_ok. simpl.
  pose proof BLOCK_SIZE_pos.
  split; [reflexivity|]. split.
  - apply Z.div_pos; lia.
  - rewrite Z.mul_comm. apply Z.mul_div_le. lia.
Qed.

Lemma block_in_file (data : list Z) n total :
  0 <= n < total -> total * BLOCK_SIZE <= Z.of_nat (length data) ->
  0 <= n * BLOCK_SIZE
  /\ n * BLOCK_SIZE + BLOCK_SIZE <= Z.of_nat (length data).
Proof. unfold BLOCK_SIZE. intros. nia. Qed.

(** Every block of the disk can be read. *)
Lemma read_block_ok d n :
  disk_ok d -> 0 <= n < total_blocks d ->
  exists buffer, read_block d n = Some buffer
                 /\ Z.of_nat (length buffer) = BLOCK_SIZE.
Proof.
  intros Hd Hn. destruct (disk_ok_data d Hd) as (data & E & Hlen).
  destruct Hd as (Ho & _ & _).
  destruct (block_in_file data n _ Hn Hlen) as [H0 H1].
  unfold read_block, is_ready_for_io. rewrite Ho, E. simpl.
  destruct (Z.ltb_spec n 0); [lia|].
  destruct (Z.leb_spec (total_blocks d) n); [lia|]. simpl.
  assert (Hs : Z.of_nat (length (slice data (n * BLOCK_SIZE) BLOCK_SIZE))
               = BLOCK_SIZE).
  { rewrite length_slice by (unfold BLOCK_SIZE in *; lia).
    unfold BLOCK_SIZE. lia. }
  rewrite Hs, Z.eqb_refl. eauto.
Qed.

Lemma read_block_None d n :
  ~ (0 <= n < total_blocks d) -> read_block d n = None.
Proof.
  intros Hn. unfold read_block, is_ready_for_io.
  destruct (disk_open d); simpl; [|reflexivity].
  destruct (Z.ltb_spec n 0); [reflexivity|].
  destruct (Z.leb_spec (total_blocks d) n); [reflexivity|]. lia.
Qed.

(** What a successful [write_block] of a whole buffer has done: the block
    reads back as the buffer, every other block reads as before. *)
Lemma write_block_effect d n buffer d' :
  disk_ok d -> Z.of_nat (length buffer) = BLOCK_SIZE ->
  write_block d n buffer = (true, d') ->
  disk_ok d' /\ total_blocks d' = total_blocks d
  /\ 0 <= n < total_blocks d
  /\ read_block d' n = Some buffer
  /\ (forall k, k <> n -> read_block d' k = read_block d k).
Proof.
  intros Hd Hb Hw. destruct (disk_ok_data d Hd) as (data & E & Hlen).
  apply write_block_true in Hw as (Ho & Hn & data' & E' & ->).
  rewrite E in E'. injection E' as <-.
  destruct (block_in_file data n _ Hn Hlen) as [H0 H1].
  rewrite firstn_all2 by lia.
  assert (Hl : length (splice data (n * BLOCK_SIZE) buffer) = length data)
    by (apply length_splice; lia).
  destruct Hd as (_ & Ht & _).
  split; [|split; [reflexivity|split; [exact Hn|split]]].
  - unfold disk_ok. simpl. rewrite Hl. auto.
  - unfold read_block, is_ready_for_io. simpl. rewrite Ho. simpl.
    destruct (Z.ltb_spec n 0); [lia|].
    destruct (Z.leb_spec (total_blocks d) n); [lia|]. simpl.
    assert (Hs : slice (splice data (n * BLOCK_SIZE) buffer) (n * BLOCK_SIZE)
                       (Z.of_nat (length buffer)) = buffer)
      by (apply slice_splice_same; lia).
    rewrite Hb in Hs. rewrite Hs, Hb, Z.eqb_refl. reflexivity.
  - intros k Hk. unfold read_block, is_ready_for_io. simpl. rewrite Ho, E.
    simpl.
    destruct (Z.ltb_spec k 0); [reflexivity|].
    destruct (Z.leb_spec (total_blocks d) k); [reflexivity|]. simpl.
    assert (Hs : slice (splice data (n * BLOCK_SIZE) buffer)
                       (k * BLOCK_SIZE) BLOCK_SIZE
                 = slice data (k * BLOCK_SIZE) BLOCK_SIZE).
    { destruct (Z.lt_ge_cases k n).
      - apply slice_splice_before; unfold BLOCK_SIZE in *; lia.
      - apply slice_splice_after; unfold BLOCK_SIZE in *; lia. }
    rewrite Hs. reflexivity.
Qed.

(** Every block of the disk can be written. *)
Lemma write_block_ok d n buffer :
  disk_ok d -> 0 <= n < total_blocks d ->
  exists d', write_block d n buffer = (true, d').
Proof.
  intros Hd Hn. destruct (disk_ok_data d Hd) as (data & E & _).
  destruct Hd as (Ho & _ & _).
  unfold write_block, is_ready_for_io. rewrite Ho, E. simpl.
  destruct (Z.ltb_spec n 0); [lia|].
  destruct (Z.leb_spec (total_blocks d) n); [lia|]. simpl. eauto.
Qed.

Lemma length_create_block_buffer :
  Z.of_nat (length BlockUtils.create_block_buffer) = BLOCK_SIZE.
Proof. reflexivity. Qed.

End DiskOk.
(* ====================================================================== *)
(** * Object representations *)
(* ====================================================================== *)

Lemma length_encode_le n v : length (encode_le n v) = n.
Proof.
  revert v. induction n as [|n IH]; intros v; simpl; [reflexivity|].
  rewrite IH. reflexivity.
Qed.

Lemma decode_encode_le n v :
  decode_le (encode_le n v) = v mod 256 ^ Z.of_nat n.
Proof.
  revert v. induction n as [|n IH]; intros v.
  - simpl. rewrite Z.mod_1_r. reflexivity.
  - change (encode_le (S n) v) with (v mod 256 :: encode_le n (v / 256)).
    change (decode_le (v mod 256 :: encode_le n (v / 256)))
      with (v mod 256 + 256 * decode_le (encode_le n (v / 256))).
    rewrite IH, Nat2Z.inj_succ, Z.pow_succ_r by lia.
    rewrite Z.rem_mul_r by lia. reflexivity.
Qed.

Lemma to_signed_mod bytes v :
  0 < bytes ->
  - 2 ^ (8 * bytes - 1) <= v < 2 ^ (8 * bytes - 1) ->
  to_signed bytes (v mod 2 ^ (8 * bytes)) = v.
Proof.
  intros Hb Hv. unfold to_signed.
  assert (Hp : 2 ^ (8 * bytes) = 2 * 2 ^ (8 * bytes - 1)).
  { rewrite <- Z.pow_succ_r by lia. f_equal. lia. }
  destruct (Z.le_gt_cases 0 v).
  - rewrite Z.mod_small by lia.
    destruct (Z.ltb_spec v (2 ^ (8 * bytes - 1))); lia.
  - assert (Hm : v mod 2 ^ (8 * bytes) = v + 2 ^ (8 * bytes)).
    { symmetry. apply Z.mod_unique with (q := -1); lia. }
    rewrite Hm.
    destruct (Z.ltb_spec (v + 2 ^ (8 * bytes)) (2 ^ (8 * bytes - 1))); lia.
Qed.

Lemma length_encode_int v : length (encode_int v) = 4%nat.
Proof. apply length_encode_le. Qed.

Lemma length_encode_time v : length (encode_time v) = 8%nat.
Proof. apply length_encode_le. Qed.

Lemma decode_encode_int v :
  int_range v -> to_signed 4 (decode_le (encode_int v)) = v.
Proof.
  intros H. unfold encode_int. rewrite decode_encode_le.
  apply (to_signed_mod 4); [lia|exact H].
Qed.

Lemma decode_encode_time v :
  time_range v -> to_signed 8 (decode_le (encode_time v)) = v.
Proof.
  intros H. unfold encode_time. rewrite decode_encode_le.
  apply (to_signed_mod 8); [lia|exact H].
Qed.

(** ** Fields of a concatenation *)

Lemma slice_app_skip {A} (a rest : list A) off len :
  Z.of_nat (length a) <= off ->
  slice (a ++ rest) off len = slice rest (off - Z.of_nat (length a)) len.
Proof.
  intros H. unfold slice. f_equal.
  rewrite drop_app_ge by lia. f_equal. lia.
Qed.

Lemma slice_app_here {A} (a rest : list A) len :
  len = Z.of_nat (length a) -> slice (a ++ rest) 0 len = a.
Proof.
  intros ->. unfold slice. simpl. rewrite Nat2Z.id. apply take_app_length.
Qed.

Lemma get_int_skip a rest off :
  Z.of_nat (length a) <= off ->
  get_int (a ++ rest) off = get_int rest (off - Z.of_nat (length a)).
Proof. intros H. unfold get_int. rewrite slice_app_skip by exact H. reflexivity. Qed.

Lemma get_time_skip a rest off :
  Z.of_nat (length a) <= off ->
  get_time (a ++ rest) off = get_time rest (off - Z.of_nat (length a)).
Proof. intros H. unfold get_time. rewrite slice_app_skip by exact H. reflexivity. Qed.

Lemma get_int_here v rest :
  int_range v -> get_int (encode_int v ++ rest) 0 = v.
Proof.
  intros H. unfold get_int.
  rewrite slice_app_here by (rewrite length_encode_int; reflexivity).
  apply decode_encode_int, H.
Qed.

Lemma get_time_here v rest :
  time_range v -> get_time (encode_time v ++ rest) 0 = v.
Proof.
  intros H. unfold get_time.
  rewrite slice_app_here by (rewrite length_encode_time; reflexivity).
  apply decode_encode_time, H.
Qed.

(** ** struct Inode *)

Lemma length_encode_Inode i :
  length (Inode.direct_blocks i) = 10%nat ->
  Z.of_nat (length (encode_Inode i)) = sizeof_Inode.
Proof.
  intros H. unfold encode_Inode.
  destruct (Inode.direct_blocks i) as [|d0 [|d1 [|d2 [|d3 [|d4 [|d5 [|d6
    [|d7 [|d8 [|d9 [|]]]]]]]]]]]; try discriminate.
  reflexivity.
Qed.

Ltac field_skip :=
  repeat (first
    [ rewrite get_int_skip by (rewrite ?length_encode_int, ?length_encode_time; simpl; lia)
    | rewrite get_time_skip by (rewrite ?length_encode_int, ?length_encode_time; simpl; lia) ]);
  rewrite ?length_encode_int, ?length_encode_time; simpl Z.sub.

(** What [memcpy] brings back from the bytes of an inode is the inode. *)
Lemma decode_encode_Inode i : inode_wf i -> decode_Inode (encode_Inode i) = i.
Proof.
  intros (Hm & Ho & Hg & Hs & Ha & Hmt & Hc & Hl & Hlen & Hd & Hi & Hdi).
  destruct i as [m o g s a mt c l direct ind dind]. simpl in *.
  destruct direct as [|d0 [|d1 [|d2 [|d3 [|d4 [|d5 [|d6
    [|d7 [|d8 [|d9 [|]]]]]]]]]]]; try discriminate.
  repeat match goal with
         | H : Forall _ (_ :: _) |- _ => apply Forall_cons in H as [? H]
         end.
  unfold decode_Inode, encode_Inode. simpl Inode.mode. simpl Inode.owner_id.
  simpl Inode.group_id. simpl Inode.size. simpl Inode.access_time.
  simpl Inode.modification_time. simpl Inode.creation_time.
  simpl Inode.link_count. simpl Inode.direct_blocks.
  simpl Inode.indirect_block. simpl Inode.double_indirect_block.
  change (take 10 [d0; d1; d2; d3; d4; d5; d6; d7; d8; d9])
    with [d0; d1; d2; d3; d4; d5; d6; d7; d8; d9].
  cbn [map concat].
  rewrite <- !app_assoc. cbn [app].
  change (seqZ 0 DIRECT_BLOCKS_COUNT) with [0; 1; 2; 3; 4; 5; 6; 7; 8; 9].
  cbn [map]. simpl Z.add. simpl Z.mul.
  f_equal; [..|]; repeat f_equal;
    field_skip; first [apply get_int_here | apply get_time_here]; assumption.
Qed.

(* ====================================================================== *)
(** * The inode table (src/core/inode_manager.cpp) *)
(* ====================================================================== *)

Section InodeTable.
Import InodeMgr.

Lemma length_concat_encode_int l :
  length (concat (map encode_int l)) = (4 * length l)%nat.
Proof.
  induction l as [|x l IH]; [reflexivity|].
  change (concat (map encode_int (x :: l)))
    with (encode_int x ++ concat (map encode_int l)).
  rewrite length_app, length_encode_int, IH. simpl. lia.
Qed.

Lemma length_encode_Inode_le i :
  Z.of_nat (length (encode_Inode i)) <= sizeof_Inode.
Proof.
  unfold encode_Inode.
  rewrite !length_app, !length_encode_int, !length_encode_time.
  rewrite length_concat_encode_int, length_take.
  unfold sizeof_Inode. simpl length. lia.
Qed.

Lemma get_inode_position_Some m n block_num offset_in_block :
  get_inode_position m n = Some (block_num, offset_in_block) ->
  0 <= n < get_total_inodes m
  /\ block_num = inode_table_start (layout m) + n / 42
  /\ offset_in_block = (n mod 42) * sizeof_Inode
  /\ 0 <= offset_in_block
  /\ offset_in_block + sizeof_Inode <= BLOCK_SIZE.
Proof.
  unfold get_inode_position.
  destruct (Z.ltb_spec n 0); simpl; [discriminate|].
  destruct (Z.leb_spec (get_total_inodes m) n); [discriminate|].
  change (BLOCK_SIZE / sizeof_Inode) with 42.
  intros [= <- <-].
  pose proof (Z.mod_pos_bound n 42 ltac:(lia)).
  unfold sizeof_Inode, BLOCK_SIZE. repeat split; lia.
Qed.

(** What a successful [write_inode] has done to the disk. *)
Lemma write_inode_true d m n inode d' :
  write_inode d m n inode = (true, d') ->
  exists block_num offset_in_block buffer,
    initialized m = true
    /\ get_inode_position m n = Some (block_num, offset_in_block)
    /\ Disk.read_block d block_num = Some buffer
    /\ Disk.write_block d block_num
         (splice buffer offset_in_block (encode_Inode inode)) = (true, d').
Proof.
  unfold write_inode, check_initialized.
  destruct (initialized m); simpl; [|discriminate].
  destruct (get_inode_position m n) as [[bn off]|]; [|discriminate].
  destruct (Disk.read_block d bn) as [buffer|] eqn:E; [|discriminate].
  intros H. exists bn, off, buffer. auto.
Qed.

Lemma write_inode_false d m n inode d' :
  write_inode d m n inode = (false, d') -> d' = d.
Proof.
  unfold write_inode.
  destruct (negb (check_initialized m)); [congruence|].
  destruct (get_inode_position m n) as [[bn off]|]; [|congruence].
  destruct (Disk.read_block d bn) as [buffer|]; [|congruence].
  apply write_block_false.
Qed.

Lemma slot_buffer_length buffer off inode :
  Z.of_nat (length buffer) = BLOCK_SIZE ->
  0 <= off -> off + sizeof_Inode <= BLOCK_SIZE ->
  Z.of_nat (length (splice buffer off (encode_Inode inode))) = BLOCK_SIZE.
Proof.
  intros Hb H0 H1. pose proof (length_encode_Inode_le inode).
  rewrite length_splice by lia. exact Hb.
Qed.

(** The disk after [write_inode]: still sound, of the same size, and its
    blocks other than the one of the inode unchanged. *)
Lemma write_inode_disk d m n inode d' :
  disk_ok d -> write_inode d m n inode = (true, d') ->
  disk_ok d' /\ total_blocks d' = total_blocks d
  /\ (forall k, k <> inode_table_start (layout m) + n / 42 ->
                Disk.read_block d' k = Disk.read_block d k).
Proof.
  intros Hd Hw.
  apply write_inode_true in Hw as (bn & off & buffer & _ & Hp & Hr & Hw).
  apply get_inode_position_Some in Hp as (_ & -> & _ & H0 & H1).
  apply read_block_Some in Hr as (_ & _ & Hb & _).
  pose proof (slot_buffer_length buffer off inode Hb H0 H1) as Hl.
  destruct (write_block_effect _ _ _ _ Hd Hl Hw) as (Hd' & Ht & _ & _ & Hk).
  auto.
Qed.

(** The inode written is the inode read. *)
Lemma read_inode_write_inode d m n inode d' :
  disk_ok d -> inode_wf inode ->
  write_inode d m n inode = (true, d') ->
  read_inode d' m n = Some inode.
Proof.
  intros Hd Hwf Hw.
  apply write_inode_true in Hw as (bn & off & buffer & Hi & Hp & Hr & Hw).
  pose proof Hp as Hp'.
  apply get_inode_position_Some in Hp' as (_ & _ & _ & H0 & H1).
  apply read_block_Some in Hr as (_ & _ & Hb & _).
  pose proof (slot_buffer_length buffer off inode Hb H0 H1) as Hl.
  destruct (write_block_effect _ _ _ _ Hd Hl Hw) as (_ & _ & _ & Hr' & _).
  unfold read_inode, check_initialized. rewrite Hi, Hp, Hr'. simpl.
  assert (Hlen : Z.of_nat (length (encode_Inode inode)) = sizeof_Inode).
  { apply length_encode_Inode. apply Hwf. }
  rewrite <- Hlen, slice_splice_same by lia.
  rewrite decode_encode_Inode by exact Hwf. reflexivity.
Qed.

(** The read-modify-write leaves every other inode as it was. *)
Lemma read_inode_write_other d m n inode d' k :
  disk_ok d -> write_inode d m n inode = (true, d') -> k <> n ->
  read_inode d' m k = read_inode d m k.
Proof.
  intros Hd Hw Hk.
  apply write_inode_true in Hw as (bn & off & buffer & Hi & Hp & Hr & Hw).
  apply get_inode_position_Some in Hp as (Hn & -> & -> & H0 & H1).
  pose proof Hr as Hr0.
  apply read_block_Some in Hr as (_ & _ & Hb & _).
  pose proof (slot_buffer_length buffer _ inode Hb H0 H1) as Hl.
  destruct (write_block_effect _ _ _ _ Hd Hl Hw) as (_ & _ & _ & Hsame & Hother).
  unfold read_inode. destruct (negb (check_initialized m)); [reflexivity|].
  destruct (get_inode_position m k) as [[bk offk]|] eqn:Hpk; [|reflexivity].
  apply get_inode_position_Some in Hpk as (Hkr & -> & -> & Hk0 & Hk1).
  destruct (Z.eq_dec (k / 42) (n / 42)) as [Hq|Hq].
  - rewrite Hq, Hsame, Hr0. f_equal. f_equal.
    pose proof (length_encode_Inode_le inode).
    pose proof (Z.div_mod k 42 ltac:(lia)).
    pose proof (Z.div_mod n 42 ltac:(lia)).
    unfold sizeof_Inode in *.
    destruct (Z.lt_ge_cases (k mod 42) (n mod 42)).
    + apply slice_splice_before; lia.
    + apply slice_splice_after; lia.
  - rewrite Hother by lia. reflexivity.
Qed.

Lemma write_inodes_other d m ws n :
  disk_ok d -> Forall (fun w => w.1 <> n) ws ->
  (write_inodes d m ws).1 = true ->
  read_inode (write_inodes d m ws).2 m n = read_inode d m n.
Proof.
  revert d. induction ws as [|[k inode] ws IH]; intros d Hd Hne Hw;
    [reflexivity|].
  apply Forall_cons in Hne as [Hk Hne]. simpl in *.
  destruct (write_inode d m k inode) as [[] d'] eqn:E; [|discriminate].
  destruct (write_inode_disk d m k inode d' Hd E) as (Hd' & _).
  rewrite IH by assumption.
  eapply read_inode_write_other; eauto.
Qed.

(** C2. After a successful [write_inode(n, I)] and any run of successful
    [write_inode(m, J)] with [m <> n], [read_inode(n)] yields [I]; the
    read-modify-write of the block of [n] changes no other inode. *)
Theorem write_inode_isolation (d : DiskSimulator) (m : InodeManager) (n : Z)
    (inode : Inode.t) (ws : list (Z * Inode.t)) :
  disk_ok d -> inode_wf inode ->
  (write_inode d m n inode).1 = true ->
  Forall (fun w => w.1 <> n) ws ->
  (write_inodes (write_inode d m n inode).2 m ws).1 = true ->
  read_inode (write_inodes (write_inode d m n inode).2 m ws).2 m n
  = Some inode
  /\ (forall k, k <> n ->
                read_inode (write_inode d m n inode).2 m k = read_inode d m k).
Proof.
  intros Hd Hwf Hw Hne Hws.
  destruct (write_inode d m n inode) as [ok d'] eqn:E. simpl in *. subst ok.
  destruct (write_inode_disk d m n inode d' Hd E) as (Hd' & _).
  split.
  - rewrite write_inodes_other by assumption.
    exact (read_inode_write_inode d m n inode d' Hd Hwf E).
  - intros k Hk. exact (read_inode_write_other d m n inode d' k Hd E Hk).
Qed.

End InodeTable.
(* ====================================================================== *)
(** * Mounting (src/core/filesystem.cpp) *)
(* ====================================================================== *)

Section Mount.
Import FileSystem.

Lemma open_disk_Some host path d d' f :
  host path = Some f -> Disk.open_disk host path d = (true, d') ->
  disk_file d' = Some (contents f)
  /\ total_blocks d' = Z.of_nat (length (contents f)) / BLOCK_SIZE
  /\ disk_open d' = true.
Proof.
  intros Hf. unfold Disk.open_disk. rewrite Hf.
  destruct (disk_open d); [discriminate|].
  destruct (lockable f); simpl; [|discriminate].
  intros [= <-]. auto.
Qed.

Lemma open_disk_false host path d d' :
  Disk.open_disk host path d = (false, d') -> disk_open d' = disk_open d.
Proof.
  unfold Disk.open_disk. destruct (disk_open d) eqn:E; [intros [= <-]; auto|].
  destruct (host path) as [f|]; [|intros [= <-]; auto].
  destruct (lockable f); simpl; [discriminate|]. intros [= <-]. auto.
Qed.

(** The magic number [load_superblock] compares is the [int] at the start
    of the image. *)
Lemma load_superblock_Done s s' data :
  disk_file (FS.disk s) = Some data ->
  load_superblock s = (Done (), s') ->
  BLOCK_SIZE <= Z.of_nat (length data) /\ get_int data 0 = MAGIC_NUMBER.
Proof.
  intros Hd. unfold load_superblock.
  destruct (Disk.read_block (FS.disk s) 0) as [buffer|] eqn:E; [|discriminate].
  apply read_block_Some in E as (_ & _ & Hlen & data' & Hd' & ->).
  rewrite Hd in Hd'. injection Hd' as <-.
  simpl FS.superblock. unfold decode_Superblock at 1. simpl Superblock.magic_number.
  destruct (Z.eqb_spec (get_int (slice (slice data (0 * BLOCK_SIZE) BLOCK_SIZE)
                                       0 sizeof_Superblock) 0) MAGIC_NUMBER)
    as [Hm|]; [|discriminate].
  intros _. split.
  - unfold slice in Hlen. rewrite length_take, length_drop in Hlen.
    unfold BLOCK_SIZE in *. lia.
  - rewrite <- Hm. unfold get_int.
    rewrite !slice_slice by (unfold sizeof_Superblock, BLOCK_SIZE; lia).
    reflexivity.
Qed.

Lemma disk_open_close_disk d : disk_open (Disk.close_disk d) = false.
Proof. unfold Disk.close_disk. destruct (disk_file d); reflexivity. Qed.

(** A mount that succeeds has found the magic number. *)
Lemma mount_true_magic host now s path :
  (mount host now s path).1 = true ->
  exists f, host path = Some f /\ has_magic f.
Proof.
  unfold mount. destruct (FS.mounted s); [discriminate|].
  destruct (Disk.open_disk host path (FS.disk s)) as [[] d] eqn:Ho;
    [|discriminate].
  destruct (host path) as [f|] eqn:Hf.
  2:{ unfold Disk.open_disk in Ho. rewrite Hf in Ho.
      destruct (disk_open (FS.disk s)); discriminate. }
  destruct (open_disk_Some host path _ d f Hf Ho) as (Hd & _).
  unfold initialize_after_open.
  destruct (load_superblock (FS.set_disk d s)) as [[[]|e] s1] eqn:Hl.
  - intros _. exists f. split; [reflexivity|].
    eapply load_superblock_Done; [|exact Hl]. exact Hd.
  - simpl. discriminate.
Qed.

Lemma disk_file_close_disk d : disk_file (Disk.close_disk d) = None.
Proof. unfold Disk.close_disk. destruct (disk_file d); reflexivity. Qed.

Lemma lock_acquired_close_disk d :
  disk_file d <> None \/ lock_acquired d = false ->
  lock_acquired (Disk.close_disk d) = false.
Proof.
  unfold Disk.close_disk. destruct (disk_file d); cbn; [reflexivity|].
  intros [H|H]; [contradiction|exact H].
Qed.

(** What a failed [open_disk] leaves of a disk that was closed. *)
Lemma open_disk_refused host path d d' f :
  host path = Some f -> disk_open d = false ->
  Disk.open_disk host path d = (false, d') ->
  disk_open d' = false /\ disk_file d' = None
  /\ lock_acquired d' = lock_acquired d.
Proof.
  intros Hf Hd. unfold Disk.open_disk. rewrite Hd, Hf.
  destruct (lockable f); cbn [negb]; [discriminate|].
  intros [= <-]. cbn. auto.
Qed.

(** C6. Mounting an image whose block 0 does not begin with the magic
    number 0x4D494E44 returns [false]. A file system that was not mounted
    stays so, and the disk file opened during the attempt is closed
    again: when the disk was closed before the attempt, it is closed
    after it, it holds no open file, and the lock taken on the file has
    been released. *)
Theorem mount_rejects_bad_magic (host : Host) (now : Z) (s : FS.t)
    (path : list ascii) (f : HostFile) :
  host path = Some f -> ~ has_magic f ->
  (mount host now s path).1 = false
  /\ (FS.mounted s = false ->
      FS.mounted (mount host now s path).2 = false
      /\ (disk_open (FS.disk s) = false ->
          disk_open (FS.disk (mount host now s path).2) = false
          /\ disk_file (FS.disk (mount host now s path).2) = None
          /\ (lock_acquired (FS.disk s) = false ->
              lock_acquired (FS.disk (mount host now s path).2) = false))).
Proof.
  intros Hf Hm.
  assert (H1 : (mount host now s path).1 = false).
  { destruct (mount host now s path).1 eqn:E; [|reflexivity].
    destruct (mount_true_magic host now s path E) as (f' & Hf' & Hm').
    rewrite Hf in Hf'. injection Hf' as <-. contradiction. }
  split; [exact H1|]. intros Em. revert H1. unfold mount. rewrite Em.
  destruct (Disk.open_disk host path (FS.disk s)) as [[] d] eqn:Ho.
  - destruct (initialize_after_open now (FS.set_disk d s)) as [[] s1] eqn:Hi;
      [simpl; discriminate|].
    intros _. cbn [snd].
    destruct (open_disk_Some host path _ d f Hf Ho) as (Hd & _).
    assert (Hs1 : FS.mounted s1 = false /\ disk_file (FS.disk s1) <> None).
    { revert Hi. unfold initialize_after_open.
      destruct (load_superblock (FS.set_disk d s)) as [[[]|e] s2] eqn:Hl.
      - exfalso. apply Hm.
        eapply load_superblock_Done; [|exact Hl]. exact Hd.
      - intros [= <-]. revert Hl. unfold load_superblock.
        destruct (Disk.read_block _ 0);
          [destruct (negb _)|]; intros [= <- <-]; cbn;
          (split; [exact Em|rewrite Hd; discriminate]). }
    destruct Hs1 as [Hm1 Hf1].
    split; [exact Hm1|]. intros _. cbn [FS.disk FS.set_disk].
    split; [apply disk_open_close_disk|].
    split; [apply disk_file_close_disk|].
    intros _. apply lock_acquired_close_disk. left. exact Hf1.
  - intros _. cbn [snd]. split; [exact Em|].
    intros Hd. cbn [FS.disk FS.set_disk].
    destruct (open_disk_refused host path _ d f Hf Hd Ho) as (A & B & C).
    split; [exact A|]. split; [exact B|]. intros Hl. rewrite C. exact Hl.
Qed.

(** The blank image of two blocks has no magic number: the attempt opens
    and locks the file, reads block 0 and closes the file again. *)
Lemma mount_rejects_bad_magic_witness :
  (mount (host_of (blank_image 2)) 0 init []).1 = false
  /\ (FS.mounted init = false ->
      FS.mounted (mount (host_of (blank_image 2)) 0 init []).2 = false
      /\ (disk_open (FS.disk init) = false ->
          disk_open (FS.disk (mount (host_of (blank_image 2)) 0 init []).2)
          = false
          /\ disk_file (FS.disk (mount (host_of (blank_image 2)) 0 init []).2)
             = None
          /\ (lock_acquired (FS.disk init) = false ->
              lock_acquired
                (FS.disk (mount (host_of (blank_image 2)) 0 init []).2)
              = false))).
Proof.
  refine (mount_rejects_bad_magic (host_of (blank_image 2)) 0 init []
            (blank_image 2) _ _).
  - reflexivity.
  - intros [_ H]. vm_compute in H. discriminate.
Defined.

(** The run of the witness: [open_disk] opens the file, and after the
    failed mount nothing of it is left. *)
Example mount_blank_image_closed :
  (Disk.open_disk (host_of (blank_image 2)) [] (FS.disk init)).1 = true
  /\ (mount (host_of (blank_image 2)) 0 init []).1 = false
  /\ FS.mounted (mount (host_of (blank_image 2)) 0 init []).2 = false
  /\ disk_open (FS.disk (mount (host_of (blank_image 2)) 0 init []).2)
     = false
  /\ disk_file (FS.disk (mount (host_of (blank_image 2)) 0 init []).2)
     = None
  /\ lock_acquired (FS.disk (mount (host_of (blank_image 2)) 0 init []).2)
     = false.
Proof. repeat split; vm_compute; reflexivity. Qed.

End Mount.

(* ====================================================================== *)
(** * Seeking (src/core/file_manager.cpp) *)
(* ====================================================================== *)

Section Seek.
Import FileMgr.

Lemma get_file_descriptor_Done s fd desc :
  get_file_descriptor s fd = Done desc <->
  FS.file_descriptors s !! fd = Some desc /\ FileDescriptor.open desc = true.
Proof.
  unfold get_file_descriptor.
  destruct (FS.file_descriptors s !! fd) as [desc'|].
  - destruct (FileDescriptor.open desc') eqn:E; simpl.
    + split; [intros [= <-]; auto|]. intros [[= <-] _]. reflexivity.
    + split; [discriminate|]. intros [[= <-] H]. congruence.
  - split; [discriminate|]. intros [H _]. discriminate.
Qed.

(** C9. [seek_file(fd, pos)] succeeds exactly when [fd] is an open
    descriptor (of an inode that can be read) and
    [0 <= pos <= size]; on an open descriptor a position outside this
    range is refused with [ERROR_INVALID_ARGUMENT]; a seek that fails
    changes nothing, one that succeeds changes the position of [fd]
    only. *)
Theorem seek_file_iff (s : FS.t) (fd position : Z) :
  (ret_bool (seek_file s fd position).1 = true <->
   exists desc inode,
     FS.file_descriptors s !! fd = Some desc
     /\ FileDescriptor.open desc = true
     /\ InodeMgr.read_inode (FS.disk s) (FS.inode_manager s)
          (FileDescriptor.inode_num desc) = Some inode
     /\ 0 <= position <= Inode.size inode)
  /\ (forall desc inode,
        FS.file_descriptors s !! fd = Some desc ->
        FileDescriptor.open desc = true ->
        InodeMgr.read_inode (FS.disk s) (FS.inode_manager s)
          (FileDescriptor.inode_num desc) = Some inode ->
        position < 0 \/ Inode.size inode < position ->
        (seek_file s fd position).1 = Failed ERROR_INVALID_ARGUMENT)
  /\ (ret_bool (seek_file s fd position).1 = false ->
      (seek_file s fd position).2 = s)
  /\ (ret_bool (seek_file s fd position).1 = true ->
      (seek_file s fd position).2 = set_fd_position s fd position).
Proof.
  unfold seek_file.
  destruct (get_file_descriptor s fd) as [desc|e] eqn:Eg.
  - apply get_file_descriptor_Done in Eg as [Hfd Hop].
    destruct (InodeMgr.read_inode _ _ _) as [inode|] eqn:Er.
    + destruct (Z.ltb_spec position 0), (Z.ltb_spec (Inode.size inode) position);
        simpl.
      all: split; [split; [try discriminate; intros _
                          |intros (d' & i' & Hd' & _ & Hi' & Hr)]|].
      all: try (rewrite Hfd in Hd'; injection Hd' as <-;
                rewrite Er in Hi'; injection Hi' as <-; try lia).
      all: try (exists desc, inode; repeat split; auto; lia).
      all: try reflexivity.
      all: split; [intros d' i' Hd' _ Hi' Hr;
                   rewrite Hfd in Hd'; injection Hd' as <-;
                   rewrite Er in Hi'; injection Hi' as <-;
                   try reflexivity; lia|].
      all: split; intros; try reflexivity; discriminate.
    + simpl. split; [split; [discriminate|]|].
      * intros (d' & i' & Hd' & _ & Hi' & _).
        rewrite Hfd in Hd'. injection Hd' as <-. congruence.
      * split; [|split; [reflexivity|discriminate]].
        intros d' i' Hd' _ Hi' _.
        rewrite Hfd in Hd'. injection Hd' as <-. congruence.
  - simpl. split; [split; [discriminate|]|].
    + intros (d' & i' & Hd' & Ho' & _).
      assert (get_file_descriptor s fd = Done d')
        by (apply get_file_descriptor_Done; auto).
      congruence.
    + split; [|split; [reflexivity|discriminate]].
      intros d' i' Hd' Ho' _ _.
      assert (get_file_descriptor s fd = Done d')
        by (apply get_file_descriptor_Done; auto).
      congruence.
Qed.

End Seek.
(* ====================================================================== *)
(** * Reading a file (src/utils/file_operations_utils.cpp,
      src/core/file_manager.cpp) *)
(* ====================================================================== *)

Section ReadFile.
Import FileOperationsUtils FileMgr.

Lemma slice_app_l {A} (a b : list A) off len :
  0 <= off -> 0 <= len -> off + len <= Z.of_nat (length a) ->
  slice (a ++ b) off len = slice a off len.
Proof.
  intros. unfold slice. rewrite drop_app_le by lia.
  rewrite take_app_le by (rewrite length_drop; lia). reflexivity.
Qed.

Lemma slice_app_split {A} (a b : list A) off len :
  0 <= off <= Z.of_nat (length a) -> Z.of_nat (length a) - off <= len ->
  slice (a ++ b) off len
  = slice a off (Z.of_nat (length a) - off)
    ++ slice b 0 (len - (Z.of_nat (length a) - off)).
Proof.
  intros. unfold slice. rewrite drop_app_le by lia.
  rewrite take_app, length_drop. simpl drop.
  f_equal.
  - rewrite !take_ge by (rewrite length_drop; lia). reflexivity.
  - f_equal. lia.
Qed.

Lemma slice_nil {A} (l : list A) off : slice l off 0 = [].
Proof. reflexivity. Qed.

Lemma file_image_cons d block rest img :
  file_image d (block :: rest) = Some img ->
  exists buffer more,
    Disk.read_block d block = Some buffer
    /\ Z.of_nat (length buffer) = BLOCK_SIZE
    /\ file_image d rest = Some more /\ img = buffer ++ more.
Proof.
  simpl. destruct (Disk.read_block d block) as [buffer|] eqn:E; [|discriminate].
  destruct (file_image d rest) as [more|]; [|discriminate].
  intros [= <-]. exists buffer, more.
  apply read_block_Some in E as H. destruct H as (_ & _ & Hl & _). auto.
Qed.

Lemma file_image_length d blocks img :
  file_image d blocks = Some img ->
  Z.of_nat (length img) = BLOCK_SIZE * Z.of_nat (length blocks).
Proof.
  revert img. induction blocks as [|b rest IH]; intros img H.
  - injection H as <-. simpl. lia.
  - apply file_image_cons in H as (buffer & more & _ & Hl & Hm & ->).
    rewrite length_app, Nat2Z.inj_add, (IH more Hm), Hl. simpl length. lia.
Qed.

Lemma file_image_drop d blocks img k :
  file_image d blocks = Some img ->
  file_image d (drop k blocks)
  = Some (drop (k * Z.to_nat BLOCK_SIZE) img).
Proof.
  revert blocks img. induction k as [|k IH]; intros blocks img H.
  - simpl. rewrite !drop_0. exact H.
  - destruct blocks as [|b rest].
    + injection H as <-. rewrite !drop_nil. reflexivity.
    + apply file_image_cons in H as (buffer & more & _ & Hl & Hm & ->).
      simpl drop at 1. rewrite (IH rest more Hm). f_equal.
      rewrite drop_app_ge by lia. f_equal. lia.
Qed.

(** The loop of [read_data_from_blocks] copies out the bytes of the
    blocks from [start_offset] on. *)
Lemma read_loop_spec d blocks img start_offset size bytes_read buffer :
  file_image d blocks = Some img ->
  0 <= start_offset < BLOCK_SIZE -> bytes_read <= size ->
  start_offset + (size - bytes_read) <= Z.of_nat (length img) ->
  read_loop d blocks start_offset size bytes_read buffer
  = Some (size, buffer ++ slice img start_offset (size - bytes_read)).
Proof.
  pose proof BLOCK_SIZE_pos as HB.
  revert img start_offset bytes_read buffer.
  induction blocks as [|b rest IH]; intros img so br buf Hi Hso Hbr Hlen.
  - injection Hi as <-. simpl in *.
    assert (br = size) as -> by lia.
    rewrite Z.sub_diag, slice_nil, app_nil_r. reflexivity.
  - apply file_image_cons in Hi as (blk & more & Hr & Hl & Hm & ->).
    simpl. destruct (Z.ltb_spec br size); simpl.
    2:{ assert (br = size) as -> by lia.
        rewrite Z.sub_diag, slice_nil, app_nil_r. reflexivity. }
    rewrite Hr. rewrite length_app in Hlen.
    destruct (Z.le_gt_cases (size - br) (BLOCK_SIZE - so)) as [Hc|Hc].
    + rewrite Z.min_r by lia.
      rewrite (IH more 0 _ _ Hm) by lia.
      replace (size - (br + (size - br))) with 0 by lia.
      rewrite slice_nil, app_nil_r, slice_app_l by lia. reflexivity.
    + rewrite Z.min_l by lia.
      rewrite (IH more 0 _ _ Hm) by lia.
      rewrite <- app_assoc. f_equal.
      rewrite slice_app_split by lia. rewrite Hl.
      replace (size - (br + (BLOCK_SIZE - so)))
        with (size - br - (BLOCK_SIZE - so)) by lia.
      reflexivity.
Qed.

(** [read_data_from_blocks] delivers the [size] bytes of the file from
    [offset] on. *)
Lemma read_data_from_blocks_spec d blocks img offset size :
  file_image d blocks = Some img ->
  0 <= offset -> 0 <= size -> 0 < Z.of_nat (length img) ->
  offset + size <= Z.of_nat (length img) ->
  read_data_from_blocks d blocks offset size = Some (slice img offset size).
Proof.
  intros Hi Ho Hs Hne Hlen. unfold read_data_from_blocks.
  destruct blocks as [|b0 rest0] eqn:Eb.
  { injection Hi as <-. simpl in Hne. lia. }
  rewrite <- Eb in *. clear Eb b0 rest0.
  rewrite Z.quot_div_nonneg, Z.rem_mod_nonneg by (unfold BLOCK_SIZE; lia).
  pose proof (Z.div_mod offset BLOCK_SIZE ltac:(unfold BLOCK_SIZE; lia)) as Hdm.
  pose proof (Z.mod_pos_bound offset BLOCK_SIZE ltac:(unfold BLOCK_SIZE; lia)).
  pose proof (Z.div_pos offset BLOCK_SIZE Ho ltac:(unfold BLOCK_SIZE; lia)).
  rewrite (read_loop_spec d _ _ _ _ _ _
             (file_image_drop d blocks img _ Hi)).
  - rewrite Z.eqb_refl, Z.sub_0_r. simpl app. f_equal.
    unfold slice. rewrite drop_drop. f_equal. f_equal.
    unfold BLOCK_SIZE in *. lia.
  - lia.
  - lia.
  - rewrite length_drop. unfold BLOCK_SIZE in *. lia.
Qed.

Lemma set_fd_position_lookup s fd v desc :
  FS.file_descriptors s !! fd = Some desc ->
  FS.file_descriptors (set_fd_position s fd v) !! fd
  = Some (FileDescriptor.set_position v desc).
Proof.
  intros H. unfold set_fd_position. simpl.
  rewrite lookup_alter_eq, H. reflexivity.
Qed.

Lemma update_file_access_time_fds now s inode_num :
  FS.file_descriptors (update_file_access_time now s inode_num)
  = FS.file_descriptors s.
Proof.
  unfold update_file_access_time.
  destruct (InodeMgr.read_inode _ _ _); reflexivity.
Qed.

(** A read that starts before the end of the file. *)
Lemma read_file_within now s fd n desc inode blocks img :
  FS.file_descriptors s !! fd = Some desc ->
  FileDescriptor.open desc = true ->
  Z.land (FileDescriptor.mode desc) OPEN_MODE_READ <> 0 ->
  0 <= n ->
  InodeMgr.read_inode (FS.disk s) (FS.inode_manager s)
    (FileDescriptor.inode_num desc) = Some inode ->
  FileDescriptor.position desc < Inode.size inode ->
  0 <= FileDescriptor.position desc ->
  int_range (Inode.size inode) ->
  InodeMgr.get_data_blocks (FS.disk s) (FS.inode_manager s)
    (FileDescriptor.inode_num desc) = Some blocks ->
  file_image (FS.disk s) blocks = Some img ->
  Inode.size inode <= Z.of_nat (length img) ->
  let count := Z.min n (Inode.size inode - FileDescriptor.position desc) in
  (read_file now s fd n).1
  = Done (count, slice img (FileDescriptor.position desc) count)
  /\ Z.of_nat (length (slice img (FileDescriptor.position desc) count))
     = count
  /\ FS.file_descriptors (read_file now s fd n).2 !! fd
     = Some (FileDescriptor.set_position
               (FileDescriptor.position desc + count) desc).
Proof.
  intros Hfd Hop Hmode Hn Hin Hlt Hpos Hsz Hb Himg Hlen.
  assert (Hg : get_file_descriptor s fd = Done desc)
    by (apply get_file_descriptor_Done; auto).
  unfold read_file. rewrite Hg.
  destruct (Z.eqb_spec (Z.land (FileDescriptor.mode desc) OPEN_MODE_READ) 0)
    as [|_]; [contradiction|].
  rewrite Hin.
  destruct (Z.leb_spec (Inode.size inode) (FileDescriptor.position desc));
    [lia|].
  rewrite Hb.
  set (count := Z.min n (Inode.size inode - FileDescriptor.position desc)).
  assert (Hc : 0 <= count <= Inode.size inode - FileDescriptor.position desc)
    by (unfold count; lia).
  rewrite (read_data_from_blocks_spec _ blocks img) by (auto; lia).
  simpl fst. simpl snd. split; [reflexivity|]. split.
  + rewrite length_slice by lia. lia.
  + rewrite update_file_access_time_fds.
    rewrite int32_small_range by (unfold int_range in Hsz; lia).
    apply set_fd_position_lookup, Hfd.
Qed.

(** C7, amended. On a descriptor open for reading whose inode can be
    read, [read_file(fd, buf, n)] with [n >= 0] returns 0 and changes
    nothing when the offset is at or past the size of the inode.
    Otherwise, when the blocks that [get_data_blocks] lists for the inode
    can be read and hold at least [size] bytes, it delivers the
    [min(n, size - offset)] bytes of the file from the offset on, returns
    their number and advances the offset by it. *)
Theorem read_file_clamped (now : Z) (s : FS.t) (fd n : Z)
    (desc : FileDescriptor.t) (inode : Inode.t) :
  FS.file_descriptors s !! fd = Some desc ->
  FileDescriptor.open desc = true ->
  Z.land (FileDescriptor.mode desc) OPEN_MODE_READ <> 0 ->
  0 <= n ->
  InodeMgr.read_inode (FS.disk s) (FS.inode_manager s)
    (FileDescriptor.inode_num desc) = Some inode ->
  (Inode.size inode <= FileDescriptor.position desc ->
   read_file now s fd n = (Done (0, []), s))
  /\ (forall blocks img,
        FileDescriptor.position desc < Inode.size inode ->
        0 <= FileDescriptor.position desc ->
        int_range (Inode.size inode) ->
        InodeMgr.get_data_blocks (FS.disk s) (FS.inode_manager s)
          (FileDescriptor.inode_num desc) = Some blocks ->
        file_image (FS.disk s) blocks = Some img ->
        Inode.size inode <= Z.of_nat (length img) ->
        let count :=
          Z.min n (Inode.size inode - FileDescriptor.position desc) in
        (read_file now s fd n).1
        = Done (count, slice img (FileDescriptor.position desc) count)
        /\ Z.of_nat (length (slice img (FileDescriptor.position desc) count))
           = count
        /\ FS.file_descriptors (read_file now s fd n).2 !! fd
           = Some (FileDescriptor.set_position
                     (FileDescriptor.position desc + count) desc)).
Proof.
  intros Hfd Hop Hmode Hn Hin. split.
  - intros Heof.
    assert (Hg : get_file_descriptor s fd = Done desc)
      by (apply get_file_descriptor_Done; auto).
    unfold read_file. rewrite Hg.
    destruct (Z.eqb_spec (Z.land (FileDescriptor.mode desc) OPEN_MODE_READ)
                0) as [|_]; [contradiction|].
    rewrite Hin.
    destruct (Z.leb_spec (Inode.size inode) (FileDescriptor.position desc));
      [reflexivity|lia].
  - intros blocks img Hlt Hpos Hsz Hb Himg Hlen.
    exact (read_file_within now s fd n desc inode blocks img
             Hfd Hop Hmode Hn Hin Hlt Hpos Hsz Hb Himg Hlen).
Qed.

End ReadFile.
(* ====================================================================== *)
(** * Releasing the blocks of an inode (src/core/inode_manager.cpp) *)
(* ====================================================================== *)

(** C3. Inode 1 holds one data block, block 5, in the double-indirect
    tier: block 6 is its double-indirect block and block 7 the inner
    indirect block. [free_data_blocks(1)] succeeds, clears the pointers and
    the size and releases block 6, but block 5, which [get_data_blocks]
    returned, stays taken in the data bitmap, and so does block 7. *)
Theorem free_data_blocks_leaks_double_indirect :
  let d := FS.disk fs_double_indirect in
  let m := FS.inode_manager fs_double_indirect in
  let r := InodeMgr.free_data_blocks d m 1 in
  InodeMgr.get_data_blocks d m 1 = Some [5]
  /\ Inode.double_indirect_block <$> InodeMgr.read_inode d m 1 = Some 6
  /\ InodeMgr.read_indirect_block d 6 = Some [7]
  /\ InodeMgr.read_indirect_block d 7 = Some [5]
  /\ block_taken m 5
  /\ r.1.1 = true
  /\ block_taken r.2 5
  /\ block_taken r.2 7
  /\ ~ block_taken r.2 6
  /\ InodeMgr.get_data_blocks r.1.2 r.2 1 = Some []
  /\ Inode.size <$> InodeMgr.read_inode r.1.2 r.2 1 = Some 0
  /\ Inode.double_indirect_block <$> InodeMgr.read_inode r.1.2 r.2 1
     = Some (-1).
Proof.
  cbv zeta. unfold block_taken.
  repeat split; try (vm_compute; reflexivity).
  vm_compute. discriminate.
Qed.
(* ====================================================================== *)
(** * The bitmap (src/core/bitmap_manager.cpp) *)
(* ====================================================================== *)

Section BitmapFacts.
Import Bitmap.

(** ** One bit of one byte *)

Lemma mask_test a k :
  0 <= k -> negb (Z.land a (Z.shiftl 1 k) =? 0) = Z.testbit a k.
Proof.
  intros Hk. rewrite Z.shiftl_1_l.
  destruct (Z.testbit a k) eqn:E.
  - apply negb_true_iff, Z.eqb_neq. intros H.
    assert (Hb : Z.testbit (Z.land a (2 ^ k)) k = false)
      by (rewrite H; apply Z.bits_0).
    rewrite Z.land_spec, E, Z.pow2_bits_eqb, Z.eqb_refl in Hb by lia.
    discriminate.
  - apply negb_false_iff, Z.eqb_eq, Z.bits_inj'. intros n Hn.
    rewrite Z.land_spec, Z.bits_0, Z.pow2_bits_eqb by lia.
    destruct (Z.eqb_spec k n) as [->|_]; [rewrite E|]; apply andb_false_r || reflexivity.
Qed.

Lemma test_bit_testbit data bit :
  test_bit data bit = Z.testbit (data !!! Z.to_nat (bit / 8)) (bit mod 8).
Proof.
  unfold test_bit. apply mask_test. apply Z.mod_pos_bound. lia.
Qed.

Lemma same_byte_same_bit j bit :
  j / 8 = bit / 8 -> (bit mod 8 =? j mod 8) = (j =? bit).
Proof.
  intros Hq.
  pose proof (Z.div_mod j 8 ltac:(lia)).
  pose proof (Z.div_mod bit 8 ltac:(lia)).
  destruct (Z.eqb_spec (bit mod 8) (j mod 8)), (Z.eqb_spec j bit);
    try reflexivity; lia.
Qed.

Lemma byte_index_inj j bit :
  0 <= j -> 0 <= bit ->
  Z.to_nat (j / 8) = Z.to_nat (bit / 8) -> j / 8 = bit / 8.
Proof.
  intros Hj Hb H.
  pose proof (Z.div_pos j 8 Hj ltac:(lia)).
  pose proof (Z.div_pos bit 8 Hb ltac:(lia)).
  lia.
Qed.

(** [bitmap_data[bit / 8] |= (1 << (bit % 8))] sets bit [bit] and no
    other. *)
Lemma test_bit_set data bit j :
  0 <= bit -> 0 <= j -> (Z.to_nat (bit / 8) < length data)%nat ->
  test_bit (<[Z.to_nat (bit / 8) :=
                Z.lor (data !!! Z.to_nat (bit / 8)) (Z.shiftl 1 (bit mod 8))]>
              data) j
  = (j =? bit) || test_bit data j.
Proof.
  intros Hb Hj Hlen. rewrite !test_bit_testbit.
  destruct (decide (Z.to_nat (j / 8) = Z.to_nat (bit / 8))) as [E|E].
  - rewrite E, list_lookup_total_insert_eq by exact Hlen.
    rewrite Z.lor_spec, Z.shiftl_1_l, Z.pow2_bits_eqb
      by (apply Z.mod_pos_bound; lia).
    rewrite same_byte_same_bit by (apply byte_index_inj; auto).
    apply orb_comm.
  - rewrite list_lookup_total_insert_ne by congruence.
    destruct (Z.eqb_spec j bit) as [->|_]; [congruence|reflexivity].
Qed.

(** [bitmap_data[bit / 8] &= ~(1 << (bit % 8))] clears bit [bit] and no
    other. *)
Lemma test_bit_clear data bit j :
  0 <= bit -> 0 <= j -> (Z.to_nat (bit / 8) < length data)%nat ->
  test_bit (<[Z.to_nat (bit / 8) :=
                Z.land (data !!! Z.to_nat (bit / 8))
                       (Z.lnot (Z.shiftl 1 (bit mod 8)))]> data) j
  = negb (j =? bit) && test_bit data j.
Proof.
  intros Hb Hj Hlen. rewrite !test_bit_testbit.
  pose proof (Z.mod_pos_bound j 8 ltac:(lia)) as Hm.
  destruct (decide (Z.to_nat (j / 8) = Z.to_nat (bit / 8))) as [E|E].
  - rewrite E, list_lookup_total_insert_eq by exact Hlen.
    rewrite Z.land_spec, Z.lnot_spec, Z.shiftl_1_l, Z.pow2_bits_eqb
      by (try apply Z.mod_pos_bound; lia).
    rewrite same_byte_same_bit by (apply byte_index_inj; auto).
    apply andb_comm.
  - rewrite list_lookup_total_insert_ne by congruence.
    destruct (Z.eqb_spec j bit) as [->|_]; [congruence|reflexivity].
Qed.

Lemma test_bit_zeros n j :
  (Z.to_nat (j / 8) < n)%nat -> test_bit (repeat 0 n) j = false.
Proof.
  intros Hj. rewrite test_bit_testbit.
  assert (H : forall k : nat, (k < n)%nat -> repeat 0 n !!! k = 0).
  { clear. induction n as [|n IH]; intros k Hk; [lia|].
    destruct k as [|k]; [reflexivity|]. apply (IH k). lia. }
  rewrite H by exact Hj. apply Z.bits_0.
Qed.

(** ** The scan for the first free bit *)

Lemma find_free_from_spec data s n :
  let r := find_free_from data s n in
  (r = -1 /\ (forall j, s <= j < s + Z.of_nat n -> test_bit data j = true))
  \/ (s <= r < s + Z.of_nat n /\ test_bit data r = false
      /\ (forall j, s <= j < r -> test_bit data j = true)).
Proof.
  revert s. induction n as [|n IH]; intros s; simpl.
  - left. split; [reflexivity|]. intros j Hj. lia.
  - destruct (test_bit data s) eqn:E; simpl.
    + destruct (IH (s + 1)) as [[Hr Hall]|(Hr & Hf & Hall)].
      * left. split; [exact Hr|]. intros j Hj.
        destruct (decide (j = s)) as [->|]; [exact E|apply Hall; lia].
      * right. split; [lia|]. split; [exact Hf|]. intros j Hj.
        destruct (decide (j = s)) as [->|]; [exact E|apply Hall; lia].
    + right. split; [lia|]. split; [exact E|]. intros j Hj. lia.
Qed.

(** ** Counting the free bits *)

Lemma count_free_ext d1 d2 s n :
  (forall j, s <= j < s + Z.of_nat n -> test_bit d1 j = test_bit d2 j) ->
  count_free_from d1 s n = count_free_from d2 s n.
Proof.
  revert s. induction n as [|n IH]; intros s H; simpl; [reflexivity|].
  rewrite (H s) by lia. rewrite (IH (s + 1)); [reflexivity|].
  intros j Hj. apply H. lia.
Qed.

Lemma count_free_bounds data s n :
  0 <= count_free_from data s n <= Z.of_nat n.
Proof.
  revert s. induction n as [|n IH]; intros s; simpl; [lia|].
  specialize (IH (s + 1)). destruct (test_bit data s); simpl; lia.
Qed.

Lemma count_free_zero data s n :
  count_free_from data s n = 0 ->
  forall j, s <= j < s + Z.of_nat n -> test_bit data j = true.
Proof.
  revert s. induction n as [|n IH]; intros s H j Hj; simpl in *; [lia|].
  pose proof (count_free_bounds data (s + 1) n).
  destruct (test_bit data s) eqn:E; simpl in H; [|lia].
  destruct (decide (j = s)) as [->|]; [exact E|].
  apply (IH (s + 1)); lia.
Qed.

Lemma count_free_full data s n :
  (forall j, s <= j < s + Z.of_nat n -> test_bit data j = false) ->
  count_free_from data s n = Z.of_nat n.
Proof.
  revert s. induction n as [|n IH]; intros s H; simpl; [reflexivity|].
  rewrite (H s) by lia. simpl. rewrite IH; [lia|].
  intros j Hj. apply H. lia.
Qed.

Lemma count_free_full_taken data s n :
  (forall j, s <= j < s + Z.of_nat n -> test_bit data j = true) ->
  count_free_from data s n = 0.
Proof.
  revert s. induction n as [|n IH]; intros s H; simpl; [reflexivity|].
  rewrite (H s) by lia. simpl. rewrite IH; [lia|].
  intros j Hj. apply H. lia.
Qed.

(** Two arrays that differ in bit [bit] only, free in the first and taken
    in the second: the second has one free bit less. *)
Lemma count_free_flip d1 d2 bit s n :
  s <= bit < s + Z.of_nat n ->
  test_bit d1 bit = false -> test_bit d2 bit = true ->
  (forall j, s <= j < s + Z.of_nat n -> j <> bit ->
             test_bit d2 j = test_bit d1 j) ->
  count_free_from d2 s n = count_free_from d1 s n - 1.
Proof.
  revert s. induction n as [|n IH]; intros s Hr H1 H2 Hd; simpl; [lia|].
  destruct (decide (s = bit)) as [->|Hne].
  - rewrite H1, H2. simpl.
    rewrite (count_free_ext d2 d1); [lia|].
    intros j Hj. apply Hd; lia.
  - rewrite (Hd s) by lia.
    rewrite (IH (s + 1)); [lia|lia|exact H1|exact H2|].
    intros j Hj. apply Hd. lia.
Qed.

(** ** The shape of a bitmap *)

Lemma shape_byte_index b data bit :
  bitmap_shape b -> bitmap_data b = Some data ->
  0 <= bit < total_bits b ->
  (Z.to_nat (bit / 8) < length data)%nat.
Proof.
  intros (Ht & Hs & Hd) E Hb. rewrite E in Hd. destruct Hd as [_ Hl].
  rewrite Hs in Hl.
  assert (bit / 8 < (total_bits b + 7) / 8).
  { apply Z.div_lt_upper_bound; [lia|].
    pose proof (Z.mul_div_le (total_bits b + 7) 8 ltac:(lia)).
    pose proof (Z.mod_pos_bound (total_bits b + 7) 8 ltac:(lia)).
    pose proof (Z.div_mod (total_bits b + 7) 8 ltac:(lia)). lia. }
  pose proof (Z.div_pos bit 8 ltac:(lia) ltac:(lia)). lia.
Qed.

Lemma shape_initialized b data :
  bitmap_shape b -> bitmap_data b = Some data -> check_initialized b = true.
Proof.
  intros (Ht & Hs & Hd) E. unfold check_initialized. rewrite E in *.
  destruct Hd as [Hpos _]. apply Z.ltb_lt. rewrite Hs.
  apply Z.div_str_pos. lia.
Qed.

Lemma create_shape size : 0 <= size -> bitmap_shape (create size).
Proof.
  intros H. unfold create, bitmap_shape.
  destruct (Z.ltb_spec 0 size); simpl.
  - split; [lia|]. split; [reflexivity|]. split; [lia|].
    unfold BlockUtils.clear_buffer. rewrite repeat_length.
    pose proof (Z.div_pos (size + 7) 8 ltac:(lia) ltac:(lia)). lia.
  - split; [lia|]. split; [|lia].
    assert (size = 0) as -> by lia. reflexivity.
Qed.

Lemma create_counter size : 0 <= size -> counter_ok (create size).
Proof.
  intros H. unfold create, counter_ok, zero_bits.
  destruct (Z.ltb_spec 0 size); simpl; [|lia].
  unfold BlockUtils.clear_buffer.
  rewrite count_free_full; [lia|]. intros j Hj. apply test_bit_zeros.
  assert (j / 8 < (size + 7) / 8).
  { apply Z.div_lt_upper_bound; [lia|].
    pose proof (Z.mod_pos_bound (size + 7) 8 ltac:(lia)).
    pose proof (Z.div_mod (size + 7) 8 ltac:(lia)). lia. }
  pose proof (Z.div_pos j 8 ltac:(lia) ltac:(lia)). lia.
Qed.

End BitmapFacts.
Section BitmapOperations.
Import Bitmap.

(** ** allocate_bit *)

Lemma find_free_bit_valid b data :
  bitmap_data b = Some data -> 0 <= total_bits b ->
  find_free_bit b <> -1 ->
  0 <= find_free_bit b < total_bits b
  /\ test_bit data (find_free_bit b) = false
  /\ (forall j, 0 <= j < find_free_bit b -> test_bit data j = true).
Proof.
  intros E Ht. unfold find_free_bit. rewrite E.
  destruct (free_bits_count b =? 0); [congruence|].
  pose proof (find_free_from_spec data 0 (Z.to_nat (total_bits b))) as H.
  simpl in H. intros Hne.
  destruct H as [[Hr _]|(Hr & Hf & Hall)]; [congruence|].
  split; [lia|]. split; assumption.
Qed.

(** What a successful [allocate_bit] has done. *)
Lemma allocate_bit_Some b bit b' :
  bitmap_shape b -> allocate_bit b = (Some bit, b') ->
  exists data,
    bitmap_data b = Some data
    /\ 0 <= bit < total_bits b
    /\ test_bit data bit = false
    /\ (forall j, 0 <= j < bit -> test_bit data j = true)
    /\ b' = set_free_bits_count (free_bits_count b - 1)
              (set_data (<[Z.to_nat (bit / 8) :=
                             Z.lor (data !!! Z.to_nat (bit / 8))
                                   (Z.shiftl 1 (bit mod 8))]> data) b).
Proof.
  intros Hs. unfold allocate_bit.
  destruct (check_initialized b) eqn:Hi; simpl; [|discriminate].
  destruct (Z.eqb_spec (find_free_bit b) (-1)) as [|Hne]; [discriminate|].
  intros [= <- <-].
  unfold check_initialized in Hi.
  destruct (bitmap_data b) as [data|] eqn:E; [|discriminate].
  destruct Hs as (Ht & _).
  destruct (find_free_bit_valid b data E Ht Hne) as (Hr & Hf & Hall).
  exists data. repeat split; try assumption; try lia.
  unfold set_bit, is_valid_bit. rewrite E.
  destruct (Z.leb_spec 0 (find_free_bit b)); [|lia].
  destruct (Z.ltb_spec (find_free_bit b) (total_bits b)); [|lia].
  reflexivity.
Qed.

Lemma allocate_bit_None b b' : allocate_bit b = (None, b') -> b' = b.
Proof.
  unfold allocate_bit.
  destruct (check_initialized b); simpl; [|congruence].
  destruct (find_free_bit b =? -1); congruence.
Qed.

Lemma allocate_bit_shape b bit b' :
  bitmap_shape b -> allocate_bit b = (Some bit, b') -> bitmap_shape b'.
Proof.
  intros Hs Ha.
  destruct (allocate_bit_Some b bit b' Hs Ha) as (data & E & Hr & _ & _ & ->).
  destruct Hs as (Ht & Hz & Hd). rewrite E in Hd.
  unfold bitmap_shape. simpl. rewrite length_insert. auto.
Qed.

(** The bits after [allocate_bit]: the one taken, and the old ones. *)
Lemma allocate_bit_is_allocated b bit b' j :
  bitmap_shape b -> allocate_bit b = (Some bit, b') ->
  is_allocated b' j = (j =? bit) && is_valid_bit b j || is_allocated b j.
Proof.
  intros Hs Ha.
  destruct (allocate_bit_Some b bit b' Hs Ha) as (data & E & Hr & _ & _ & ->).
  unfold is_allocated, is_valid_bit. simpl. rewrite E.
  destruct (Z.leb_spec 0 j), (Z.ltb_spec j (total_bits b)); simpl;
    rewrite ?andb_false_r, ?andb_true_r; try reflexivity.
  rewrite test_bit_set; [reflexivity|lia|lia|eapply shape_byte_index; eauto].
Qed.

Lemma allocate_bit_zero_bits b bit b' :
  bitmap_shape b -> allocate_bit b = (Some bit, b') ->
  zero_bits b' = zero_bits b - 1 /\ free_bits_count b' = free_bits_count b - 1
  /\ total_bits b' = total_bits b.
Proof.
  intros Hs Ha.
  destruct (allocate_bit_Some b bit b' Hs Ha)
    as (data & E & Hr & Hf & _ & ->).
  unfold zero_bits. simpl. rewrite E. split; [|auto].
  pose proof (shape_byte_index b data bit Hs E Hr) as Hlen.
  apply (count_free_flip data _ bit); [lia|exact Hf| |].
  - rewrite test_bit_set by lia. rewrite Z.eqb_refl. reflexivity.
  - intros j Hj Hne. rewrite test_bit_set by lia.
    destruct (Z.eqb_spec j bit); [congruence|reflexivity].
Qed.

Lemma allocate_bit_ok b : bitmap_ok b -> bitmap_ok (allocate_bit b).2.
Proof.
  intros [Hs Hc]. destruct (allocate_bit b) as [[bit|] b'] eqn:Ha; simpl.
  - split; [eapply allocate_bit_shape; eauto|].
    destruct (allocate_bit_zero_bits b bit b' Hs Ha) as (Hz & Hf & _).
    unfold counter_ok in *. lia.
  - apply allocate_bit_None in Ha as ->. split; assumption.
Qed.

(** With a truthful counter that is not zero, [allocate_bit] succeeds. *)
Lemma allocate_bit_succeeds b :
  bitmap_ok b -> 0 < free_bits_count b ->
  exists bit b', allocate_bit b = (Some bit, b').
Proof.
  intros [Hs Hc] Hpos. unfold counter_ok, zero_bits in Hc.
  destruct (bitmap_data b) as [data|] eqn:E; [|lia].
  unfold allocate_bit. rewrite (shape_initialized b data Hs E). simpl.
  destruct (Z.eqb_spec (find_free_bit b) (-1)) as [Hm|Hne];
    [|eexists _, _; reflexivity].
  exfalso. unfold find_free_bit in Hm. rewrite E in Hm.
  destruct (Z.eqb_spec (free_bits_count b) 0); [lia|].
  pose proof (find_free_from_spec data 0 (Z.to_nat (total_bits b))) as H.
  simpl in H. destruct H as [[_ Hall]|(Hr & _)]; [|lia].
  rewrite (count_free_full_taken data 0 _ Hall) in Hc. lia.
Qed.

(** ** free_bit *)

Lemma free_bit_cases b bit :
  bitmap_shape b ->
  (free_bit b bit = (false, b) /\ is_allocated b bit = false)
  \/ (free_bit b bit = (true, b) /\ is_allocated b bit = false
      /\ 0 <= bit < total_bits b)
  \/ (exists data,
        bitmap_data b = Some data /\ 0 <= bit < total_bits b
        /\ test_bit data bit = true
        /\ free_bit b bit
           = (true,
              set_free_bits_count (free_bits_count b + 1)
                (set_data (<[Z.to_nat (bit / 8) :=
                               Z.land (data !!! Z.to_nat (bit / 8))
                                      (Z.lnot (Z.shiftl 1 (bit mod 8)))]> data)
                          b))).
Proof.
  intros Hs. unfold free_bit, is_allocated.
  destruct (check_initialized b) eqn:Hi; simpl.
  - unfold check_initialized in Hi.
    destruct (bitmap_data b) as [data|] eqn:E; [|discriminate].
    destruct (is_valid_bit b bit) eqn:Hv; simpl; [|left; auto].
    unfold is_valid_bit in Hv. apply andb_true_iff in Hv as [H1 H2].
    apply Z.leb_le in H1. apply Z.ltb_lt in H2.
    destruct (test_bit data bit) eqn:Ht.
    + right. right. exists data. repeat split; try assumption.
      unfold clear_bit, is_valid_bit. rewrite E.
      destruct (Z.leb_spec 0 bit); [|lia].
      destruct (Z.ltb_spec bit (total_bits b)); [|lia]. reflexivity.
    + right. left. repeat split; auto.
  - left. split; [reflexivity|].
    destruct (negb (is_valid_bit b bit)); [reflexivity|].
    destruct (bitmap_data b) as [data|] eqn:E; [|reflexivity].
    rewrite (shape_initialized b data Hs E) in Hi. discriminate.
Qed.

Lemma free_bit_shape b bit :
  bitmap_shape b -> bitmap_shape (free_bit b bit).2.
Proof.
  intros Hs.
  destruct (free_bit_cases b bit Hs)
    as [[-> _]|[(-> & _)|(data & E & Hr & Ht & ->)]]; try exact Hs.
  destruct Hs as (H0 & Hz & Hd). rewrite E in Hd.
  unfold bitmap_shape. simpl. rewrite length_insert. auto.
Qed.

Lemma free_bit_total_bits b bit :
  total_bits (free_bit b bit).2 = total_bits b.
Proof.
  unfold free_bit.
  destruct (negb (check_initialized b) || negb (is_valid_bit b bit));
    [reflexivity|].
  destruct (bitmap_data b) as [data|] eqn:E; [|reflexivity].
  destruct (test_bit data bit); [|reflexivity].
  unfold clear_bit. destruct (negb (is_valid_bit b bit)); [reflexivity|].
  rewrite E. reflexivity.
Qed.

(** The bits after [free_bit]: all the old ones but [bit]. *)
Lemma free_bit_is_allocated b bit j :
  bitmap_shape b ->
  is_allocated (free_bit b bit).2 j = negb (j =? bit) && is_allocated b j.
Proof.
  intros Hs.
  destruct (free_bit_cases b bit Hs)
    as [[-> Hf]|[(-> & Hf & _)|(data & E & Hr & Ht & ->)]]; simpl.
  - destruct (Z.eqb_spec j bit) as [->|]; [rewrite Hf|]; reflexivity.
  - destruct (Z.eqb_spec j bit) as [->|]; [rewrite Hf|]; reflexivity.
  - unfold is_allocated, is_valid_bit. simpl. rewrite E.
    destruct (Z.leb_spec 0 j), (Z.ltb_spec j (total_bits b)); simpl;
      rewrite ?andb_false_r; try reflexivity.
    rewrite test_bit_clear;
      [reflexivity|lia|lia|eapply shape_byte_index; eauto].
Qed.

Lemma free_bit_ok b bit : bitmap_ok b -> bitmap_ok (free_bit b bit).2.
Proof.
  intros [Hs Hc]. split; [apply free_bit_shape, Hs|].
  destruct (free_bit_cases b bit Hs)
    as [[-> _]|[(-> & _)|(data & E & Hr & Ht & ->)]]; try exact Hc.
  unfold counter_ok, zero_bits in *. simpl. rewrite E in Hc.
  pose proof (shape_byte_index b data bit Hs E Hr) as Hlen.
  rewrite Hc.
  set (data' := <[Z.to_nat (bit / 8) :=
                    Z.land (data !!! Z.to_nat (bit / 8))
                           (Z.lnot (Z.shiftl 1 (bit mod 8)))]> data).
  assert (Hf : count_free_from data 0 (Z.to_nat (total_bits b))
               = count_free_from data' 0 (Z.to_nat (total_bits b)) - 1).
  { apply (count_free_flip data' data bit); [lia| |exact Ht|].
    - unfold data'. rewrite test_bit_clear by lia.
      rewrite Z.eqb_refl. reflexivity.
    - intros j Hj Hne. unfold data'. rewrite test_bit_clear by lia.
      destruct (Z.eqb_spec j bit); [congruence|reflexivity]. }
  lia.
Qed.

(** A taken bit that is freed is counted. *)
Lemma free_bit_count b bit :
  bitmap_shape b -> is_allocated b bit = true ->
  free_bits_count (free_bit b bit).2 = free_bits_count b + 1.
Proof.
  intros Hs Ha.
  destruct (free_bit_cases b bit Hs)
    as [[_ Hf]|[(_ & Hf & _)|(data & E & Hr & Ht & ->)]];
    [congruence|congruence|reflexivity].
Qed.

(** ** clear_all and load_from_disk *)

Lemma clear_all_ok b : bitmap_ok b -> bitmap_ok (clear_all b).
Proof.
  intros [Hs Hc]. unfold clear_all.
  destruct (check_initialized b) eqn:Hi.
  - unfold check_initialized in Hi.
    destruct (bitmap_data b) as [data|] eqn:E; [|discriminate].
    destruct Hs as (H0 & Hz & Hd). rewrite E in Hd. destruct Hd as [Hp Hl].
    pose proof (Z.div_pos (total_bits b + 7) 8 ltac:(lia) ltac:(lia)).
    split.
    + unfold bitmap_shape. simpl. unfold BlockUtils.clear_buffer.
      rewrite repeat_length. repeat split; auto; lia.
    + unfold counter_ok, zero_bits. simpl. unfold BlockUtils.clear_buffer.
      rewrite count_free_full; [lia|]. intros j Hj. apply test_bit_zeros.
      rewrite Hz.
      assert (j / 8 < (total_bits b + 7) / 8).
      { apply Z.div_lt_upper_bound; [lia|].
        pose proof (Z.mod_pos_bound (total_bits b + 7) 8 ltac:(lia)).
        pose proof (Z.div_mod (total_bits b + 7) 8 ltac:(lia)). lia. }
      pose proof (Z.div_pos j 8 ltac:(lia) ltac:(lia)). lia.
  - split; assumption.
Qed.

End BitmapOperations.
Section FirstFit.
Import Bitmap.

Lemma load_loop_length d n block data ptr remaining_bytes :
  0 <= ptr -> 0 <= remaining_bytes ->
  ptr + remaining_bytes = Z.of_nat (length data) ->
  length (load_loop d n block data ptr remaining_bytes).2 = length data.
Proof.
  revert block data ptr remaining_bytes.
  induction n as [|n IH]; intros block data ptr rem Hp Hr Hl; simpl;
    [reflexivity|].
  destruct (Disk.read_block d block) as [buffer|] eqn:E; [|reflexivity].
  apply read_block_Some in E as (_ & _ & Hb & _).
  destruct (Z.leb_spec (Z.min BLOCK_SIZE rem) 0); [reflexivity|].
  assert (Hs : length (slice buffer 0 (Z.min BLOCK_SIZE rem))
               = Z.to_nat (Z.min BLOCK_SIZE rem))
    by (apply length_slice; lia).
  assert (Hsp : length (splice data ptr (slice buffer 0 (Z.min BLOCK_SIZE rem)))
                = length data)
    by (apply length_splice; lia).
  rewrite IH; [exact Hsp|lia|lia|lia].
Qed.

Lemma load_from_disk_ok d start_block_num num_blocks b :
  bitmap_shape b ->
  (load_from_disk d start_block_num num_blocks b).1 = true ->
  bitmap_ok (load_from_disk d start_block_num num_blocks b).2.
Proof.
  intros Hs. unfold load_from_disk.
  destruct (check_initialized b) eqn:Hi; simpl; [|discriminate].
  unfold check_initialized in Hi.
  destruct (bitmap_data b) as [data|] eqn:E; [|discriminate].
  destruct (load_loop d (Z.to_nat num_blocks) start_block_num data 0
                      (bitmap_size b)) as [ok data'] eqn:El.
  destruct ok; simpl; [intros _|discriminate].
  destruct Hs as (H0 & Hz & Hd). rewrite E in Hd. destruct Hd as [Hp Hl].
  assert (Hlen : length data' = length data).
  { change data' with (true, data').2. rewrite <- El.
    apply load_loop_length; lia. }
  unfold recalculate_free_bits. simpl.
  destruct (Z.leb_spec (total_bits b) 0); [lia|].
  split.
  - unfold bitmap_shape. simpl. rewrite Hlen. auto.
  - reflexivity.
Qed.

(** In every state a bitmap reaches from its constructor (with a size that
    is not negative) through [allocate_bit], [free_bit], [clear_all] and
    the [load_from_disk] calls that return [true], the cached counter is the
    number of zero bits. *)
Lemma bitmap_reachable_ok b : bitmap_reachable b -> bitmap_ok b.
Proof.
  induction 1 as [size Hs|b _ IH|b bit _ IH|b _ IH|b d s n _ IH Hl].
  - split; [apply create_shape|apply create_counter]; exact Hs.
  - apply allocate_bit_ok, IH.
  - apply free_bit_ok, IH.
  - apply clear_all_ok, IH.
  - apply load_from_disk_ok; [apply IH|exact Hl].
Qed.

Lemma is_allocated_test_bit b data j :
  bitmap_data b = Some data -> 0 <= j < total_bits b ->
  is_allocated b j = test_bit data j.
Proof.
  intros E Hj. unfold is_allocated, is_valid_bit. rewrite E.
  destruct (Z.leb_spec 0 j); [|lia].
  destruct (Z.ltb_spec j (total_bits b)); [|lia]. reflexivity.
Qed.

(** The bit [allocate_bit] hands out is free and no bit below it is. *)
Lemma allocate_bit_smallest b bit :
  (allocate_bit b).1 = Some bit ->
  0 <= bit < total_bits b /\ is_allocated b bit = false
  /\ (forall j, 0 <= j < bit -> is_allocated b j = true).
Proof.
  unfold allocate_bit.
  destruct (check_initialized b) eqn:Hi; simpl; [|discriminate].
  destruct (Z.eqb_spec (find_free_bit b) (-1)) as [|Hne]; [discriminate|].
  simpl. intros [= <-].
  unfold check_initialized in Hi.
  destruct (bitmap_data b) as [data|] eqn:E; [|discriminate].
  assert (Hr : 0 <= find_free_bit b < total_bits b
               /\ test_bit data (find_free_bit b) = false
               /\ (forall j, 0 <= j < find_free_bit b -> test_bit data j = true)).
  { revert Hne. unfold find_free_bit. rewrite E.
    destruct (free_bits_count b =? 0); [congruence|].
    pose proof (find_free_from_spec data 0 (Z.to_nat (total_bits b))) as H.
    simpl in H. intros Hne.
    destruct H as [[Hr _]|(Hr & Hf & Hall)]; [congruence|].
    split; [lia|]. split; assumption. }
  destruct Hr as (Hr & Hf & Hall).
  split; [exact Hr|]. split.
  - rewrite (is_allocated_test_bit b data) by auto. exact Hf.
  - intros j Hj. rewrite (is_allocated_test_bit b data) by (auto; lia).
    apply Hall, Hj.
Qed.

Lemma allocate_inode_bit now d m n :
  (InodeMgr.allocate_inode now d m).1.1 = Some n ->
  (allocate_bit (inode_bitmap m)).1 = Some n.
Proof.
  unfold InodeMgr.allocate_inode.
  destruct (negb (InodeMgr.check_initialized m)); [discriminate|].
  destruct (allocate_bit (inode_bitmap m)) as [[bit|] ib]; [|discriminate].
  destruct (InodeMgr.write_inode _ _ _ _) as [[] d']; [|discriminate].
  destruct (InodeMgr.save_inode_bitmap _ _) as [[[] d''] m']; [|discriminate].
  simpl. trivial.
Qed.


End FirstFit.
(** C4. A [load_from_disk] whose second block cannot be read returns
    [false] after the first block has been copied into the array, and the
    counter is not recomputed: all 8 bits of the bitmap are set, the
    counter still says 8 free bits, and [get_used_bits] says 0. *)
Theorem load_from_disk_failure_stale_counter :
  let r := Bitmap.load_from_disk stale_disk 0 2 (Bitmap.create 8) in
  r.1 = false
  /\ bitmap_data r.2 = Some [255]
  /\ (forall j, 0 <= j < 8 -> Bitmap.is_allocated r.2 j = true)
  /\ zero_bits r.2 = 0
  /\ Bitmap.get_free_bits r.2 = 8
  /\ Bitmap.get_used_bits r.2 = 0.
Proof.
  assert (E : Bitmap.load_from_disk stale_disk 0 2 (Bitmap.create 8)
              = (false,
                 Bitmap.set_data [255]
                   (Bitmap.set_blocks 0 2 (Bitmap.create 8))))
    by (vm_compute; reflexivity).
  rewrite E. cbv zeta. simpl.
  split; [reflexivity|]. split; [reflexivity|]. split; [|auto].
  intros j Hj.
  assert (j = 0 \/ j = 1 \/ j = 2 \/ j = 3 \/ j = 4 \/ j = 5 \/ j = 6 \/ j = 7)
    as [->|[->|[->|[->|[->|[->|[->| ->]]]]]]] by lia; reflexivity.
Qed.
(* ====================================================================== *)
(** * Path normalisation (src/utils/path_utils.cpp) *)
(* ====================================================================== *)

Section NormalizePath.
Import PathUtils.

Lemma both_slash_true a b : both_slash a b = true <-> a = slash /\ b = slash.
Proof.
  unfold both_slash. rewrite andb_true_iff, !Ascii.eqb_eq. tauto.
Qed.

Lemma replace_no_backslash s : backslash ∉ replace backslash slash s.
Proof.
  induction s as [|c s IH]; simpl.
  - apply not_elem_of_nil.
  - rewrite not_elem_of_cons. split; [|exact IH].
    destruct (Ascii.eqb c backslash) eqn:E.
    + discriminate.
    + apply Ascii.eqb_neq in E. congruence.
Qed.

Lemma replace_id old new s : old ∉ s -> replace old new s = s.
Proof.
  induction s as [|c s IH]; simpl; intros H; [reflexivity|].
  apply not_elem_of_cons in H as [Hc Hs].
  destruct (Ascii.eqb c old) eqn:E.
  - apply Ascii.eqb_eq in E. congruence.
  - f_equal. auto.
Qed.

Lemma unique_from_subset p r s c : c ∈ unique_from p r s -> c ∈ s.
Proof.
  revert r. induction s as [|a s IH]; simpl; intros r H.
  - exact H.
  - destruct (p r a).
    + right. eauto.
    + apply elem_of_cons in H as [->|H]; [left|right; eauto].
Qed.

Lemma unique_subset p s c : c ∈ unique p s -> c ∈ s.
Proof.
  destruct s as [|a s]; simpl; [trivial|].
  intros H. apply elem_of_cons in H as [->|H]; [left|right].
  eapply unique_from_subset; eauto.
Qed.

Lemma unique_from_no_double r s :
  no_double_slash (r :: unique_from both_slash r s).
Proof.
  revert r. induction s as [|a s IH]; intros r; simpl; [exact I|].
  destruct (both_slash r a) eqn:E.
  - apply IH.
  - split; [exact E|apply IH].
Qed.

Lemma unique_no_double s : no_double_slash (unique both_slash s).
Proof.
  destruct s as [|a s]; simpl; [exact I|apply unique_from_no_double].
Qed.

Lemma unique_from_id r s :
  no_double_slash (r :: s) -> unique_from both_slash r s = s.
Proof.
  revert r. induction s as [|a s IH]; intros r H; simpl; [reflexivity|].
  destruct H as [E H]. rewrite E. f_equal. auto.
Qed.

Lemma unique_id s : no_double_slash s -> unique both_slash s = s.
Proof.
  destruct s as [|a s]; simpl; intros H; [reflexivity|].
  f_equal. apply unique_from_id, H.
Qed.

Lemma no_double_slash_app s a b t :
  no_double_slash (s ++ a :: b :: t) -> both_slash a b = false.
Proof.
  induction s as [|c s IH]; simpl.
  - tauto.
  - destruct (s ++ a :: b :: t) eqn:E.
    + destruct s; discriminate.
    + intros [_ H]. auto.
Qed.

Lemma no_double_slash_prefix s t :
  no_double_slash (s ++ t) -> no_double_slash s.
Proof.
  induction s as [|a s IH]; [intros _; exact I|].
  destruct s as [|b s]; [intros _; exact I|].
  intros H.
  change (both_slash a b = false /\ no_double_slash ((b :: s) ++ t)) in H.
  change (both_slash a b = false /\ no_double_slash (b :: s)).
  destruct H as [E H]. split; [exact E|apply IH, H].
Qed.

(** A non-empty list is its [pop_back] followed by its [back]. *)
Lemma pop_back_back s : s <> [] -> s = pop_back s ++ [back s].
Proof. intros H. apply app_removelast_last, H. Qed.

Lemma back_snoc s c : back (s ++ [c]) = c.
Proof. apply last_last. Qed.

Lemma pop_back_snoc s c : pop_back (s ++ [c]) = s.
Proof. apply removelast_last. Qed.

Lemma normalize_path_normal p : normal (normalize_path p).
Proof.
  unfold normalize_path. destruct p as [|c0 p0].
  { repeat split; [apply not_elem_of_nil|].
    intros l H. destruct l; discriminate. }
  set (p := c0 :: p0).
  set (u := unique both_slash (replace backslash slash p)).
  assert (Hb : backslash ∉ u).
  { intros H. apply unique_subset in H. revert H. apply replace_no_backslash. }
  assert (Hd : no_double_slash u) by apply unique_no_double.
  destruct ((1 <? Z.of_nat (length u)) && Ascii.eqb (back u) slash) eqn:E.
  - apply andb_true_iff in E as [Hlen Hlast].
    apply Z.ltb_lt in Hlen. apply Ascii.eqb_eq in Hlast.
    assert (Hne : u <> []) by (intros ->; simpl in Hlen; lia).
    pose proof (pop_back_back u Hne) as Hu. rewrite Hlast in Hu.
    repeat split.
    + intros H. apply Hb. rewrite Hu. apply elem_of_app. left. exact H.
    + rewrite Hu in Hd. eapply no_double_slash_prefix, Hd.
    + intros l Hl. rewrite Hl in Hu. rewrite Hu in Hd.
      rewrite <- app_assoc in Hd. simpl in Hd.
      apply no_double_slash_app in Hd. unfold both_slash in Hd.
      rewrite Ascii.eqb_refl in Hd. discriminate.
  - repeat split; [exact Hb|exact Hd|].
    intros l Hl. rewrite Hl in E.
    rewrite back_snoc, Ascii.eqb_refl, andb_true_r in E.
    apply Z.ltb_ge in E. rewrite length_app in E. simpl in E.
    destruct l; [reflexivity|simpl in E; lia].
Qed.

Lemma normalize_path_fixed s : normal s -> normalize_path s = s.
Proof.
  intros (Hb & Hd & Hl). unfold normalize_path.
  destruct s as [|c0 s0]; [reflexivity|].
  rewrite replace_id by exact Hb. rewrite unique_id by exact Hd.
  destruct ((1 <? Z.of_nat (length (c0 :: s0)))
            && Ascii.eqb (back (c0 :: s0)) slash) eqn:E; [|reflexivity].
  apply andb_true_iff in E as [Hlen Hlast].
  apply Z.ltb_lt in Hlen. apply Ascii.eqb_eq in Hlast.
  assert (Hne : c0 :: s0 <> []) by discriminate.
  pose proof (pop_back_back _ Hne) as Hu. rewrite Hlast in Hu.
  apply Hl in Hu. rewrite <- (length_zero_iff_nil (pop_back (c0 :: s0))) in Hu.
  pose proof (pop_back_back _ Hne) as Hu'.
  apply (f_equal (@length ascii)) in Hu'. rewrite length_app in Hu'.
  simpl in Hu', Hlen. simpl in Hu. lia.
Qed.

(** C10. [normalize_path] is idempotent; its result holds no backslash and
    no two consecutive ['/'], and ends with ['/'] only when it is ["/"]. *)
Theorem normalize_path_idempotent (p : list ascii) :
  normalize_path (normalize_path p) = normalize_path p
  /\ (backslash ∉ normalize_path p)
  /\ (forall l1 l2, normalize_path p <> l1 ++ slash :: slash :: l2)
  /\ (forall l, normalize_path p = l ++ [slash] ->
                normalize_path p = [slash]).
Proof.
  pose proof (normalize_path_normal p) as Hn.
  split; [apply normalize_path_fixed, Hn|].
  destruct Hn as (Hb & Hd & Hl).
  split; [exact Hb|]. split.
  - intros l1 l2 H. rewrite H in Hd. apply no_double_slash_app in Hd.
    unfold both_slash in Hd. rewrite Ascii.eqb_refl in Hd. discriminate.
  - intros l H. rewrite H. rewrite (Hl l H). reflexivity.
Qed.

End NormalizePath.
(* ====================================================================== *)
(** * The descriptor allocator (src/core/file_manager.cpp) *)
(* ====================================================================== *)

Lemma int32_small v : - 2^31 <= v < 2^31 -> int32 v = v.
Proof.
  intros H. unfold int32. rewrite Z.mod_small; lia.
Qed.

Lemma fd_search_fresh fuel fds next fd :
  FileMgr.fd_search fuel fds next = Some fd -> fds !! fd = None.
Proof.
  revert next. induction fuel as [|fuel IH]; simpl; intros next H.
  - discriminate.
  - destruct (fds !! next) eqn:E.
    + eapply IH, H.
    + congruence.
Qed.

(** The descriptor handed out is not a key of the table. *)
Lemma allocate_file_descriptor_fresh fuel s fd s' :
  FileMgr.allocate_file_descriptor fuel s = Some (fd, s') ->
  FS.file_descriptors s !! fd = None.
Proof.
  unfold FileMgr.allocate_file_descriptor.
  destruct (FileMgr.fd_search fuel _ _) eqn:E; [|discriminate].
  intros [= <- _]. eapply fd_search_fresh, E.
Qed.

(** With every key below [next_fd] the loop body never runs: the
    descriptor is [next_fd] itself, whatever its value. *)
Lemma allocate_file_descriptor_next fuel s :
  fds_below_next s ->
  FileMgr.allocate_file_descriptor (S fuel) s
  = Some (FS.next_fd s, FS.set_next_fd (int32 (FS.next_fd s + 1)) s).
Proof.
  intros Hb. unfold FileMgr.allocate_file_descriptor. simpl.
  destruct (FS.file_descriptors s !! FS.next_fd s) eqn:E; [|reflexivity].
  specialize (Hb (FS.next_fd s)). rewrite E in Hb.
  specialize (Hb (ltac:(eauto))). lia.
Qed.

Lemma open_many_state k :
  3 + Z.of_nat k < 2^31 ->
  exists s, open_many k FileSystem.init = Some s
            /\ FS.next_fd s = 3 + Z.of_nat k
            /\ fds_below_next s.
Proof.
  induction k as [|k IH]; intros Hk.
  - exists FileSystem.init. split; [reflexivity|]. split; [reflexivity|].
    intros fd [x Hx]. simpl in Hx. rewrite lookup_empty in Hx. discriminate.
  - destruct IH as (s & Hs & Hn & Hb); [lia|].
    simpl. rewrite Hs. unfold FileMgr.allocate_file_descriptor_for.
    rewrite (allocate_file_descriptor_next 0 s Hb).
    rewrite Hn, int32_small by lia.
    destruct (3 + Z.of_nat k =? -1) eqn:E; [lia|].
    eexists. split; [reflexivity|]. split; [simpl; lia|].
    intros fd [x Hx]. simpl in *.
    destruct (decide (fd = 3 + Z.of_nat k)) as [->|Hne]; [lia|].
    rewrite lookup_insert_ne in Hx by congruence.
    specialize (Hb fd (ltac:(eauto))). lia.
Qed.

(** C8. After 1022 descriptors have been handed out to a fresh file system
    (3 up to 1024), the allocator returns 1025: [return next_fd++] carries
    [next_fd] past 1024, and the wrap to 3 sits in a loop body that does not
    run. *)
Theorem allocate_file_descriptor_leaves_range :
  exists s s',
    open_many 1022 FileSystem.init = Some s
    /\ FileMgr.allocate_file_descriptor 1 s = Some (1025, s')
    /\ FS.file_descriptors s !! 1025 = None.
Proof.
  destruct (open_many_state 1022) as (s & Hs & Hn & Hb); [lia|].
  exists s, (FS.set_next_fd (int32 (FS.next_fd s + 1)) s).
  split; [exact Hs|].
  pose proof (allocate_file_descriptor_next 0 s Hb) as Ha.
  rewrite Hn in Ha at 1. split; [exact Ha|].
  eapply allocate_file_descriptor_fresh. exact Ha.
Qed.
(* ====================================================================== *)
(** * The block pool (src/core/inode_manager.cpp) *)
(* ====================================================================== *)

Section Pool.
Import InodeMgr.

(** ** The layout *)

Lemma calculate_layout_facts d :
  0 <= total_blocks d ->
  inode_table_start (Disk.calculate_layout d) = 1
  /\ 0 <= inode_table_blocks (Disk.calculate_layout d)
  /\ 1 + inode_table_blocks (Disk.calculate_layout d)
     <= data_bitmap_start (Disk.calculate_layout d)
  /\ 0 <= data_bitmap_blocks (Disk.calculate_layout d)
  /\ data_blocks_start (Disk.calculate_layout d)
     = data_bitmap_start (Disk.calculate_layout d)
       + data_bitmap_blocks (Disk.calculate_layout d)
  /\ 0 <= data_blocks_count (Disk.calculate_layout d)
  /\ (0 < data_blocks_count (Disk.calculate_layout d) ->
      data_blocks_start (Disk.calculate_layout d)
      + data_blocks_count (Disk.calculate_layout d) = total_blocks d).
Proof.
  intros HT. unfold Disk.calculate_layout. cbn [inode_table_start
    inode_table_blocks data_bitmap_start data_bitmap_blocks data_blocks_start
    data_blocks_count].
  change Disk.inodes_per_block with 42. change BITS_PER_BLOCK with 32768.
  set (ic0 := (total_blocks d / 10 + 42 - 1) / 42 * 42).
  set (ic := if (ic0 =? 0) && (10 <? total_blocks d) then 42 else ic0).
  assert (Hic0 : 0 <= ic0).
  { unfold ic0. pose proof (Z.div_pos (total_blocks d) 10 HT ltac:(lia)).
    pose proof (Z.div_pos (total_blocks d / 10 + 42 - 1) 42
                  ltac:(lia) ltac:(lia)). lia. }
  assert (Hic : 0 <= ic) by (unfold ic; destruct (_ && _); lia).
  pose proof (Z.div_pos ic 42 Hic ltac:(lia)).
  pose proof (Z.div_pos (ic + 32768 - 1) 32768 ltac:(lia) ltac:(lia)).
  pose proof (Z.div_pos (total_blocks d + 32768 - 1) 32768
                ltac:(lia) ltac:(lia)).
  repeat split; try lia;
    match goal with
    | |- context [?a <? total_blocks d] =>
        destruct (Z.ltb_spec a (total_blocks d)); lia
    end.
Qed.

Lemma in_data_region_range d m x :
  pool_ok d m -> in_data_region m x -> 0 < x < total_blocks d.
Proof.
  intros (_ & _ & Hs & Hc & Hle & _) Hx. unfold in_data_region in Hx. lia.
Qed.

Lemma in_data_region_int d m x :
  pool_ok d m -> in_data_region m x -> entry_ok x.
Proof.
  intros Hp Hx. pose proof (in_data_region_range _ _ _ Hp Hx).
  destruct Hp as (_ & Ht & _). unfold entry_ok, int_range. lia.
Qed.

Lemma store_pool d m : store_ok d m -> pool_ok d m.
Proof.
  intros (Hd & Ht & Hi & Hl & Hib & Hibn & Hdb & Hdbn).
  pose proof (calculate_layout_facts d (proj1 (proj2 Hd)))
    as (H1 & H2 & H3 & H4 & H5 & H6 & H7).
  rewrite <- Hl in *.
  unfold pool_ok. split; [exact Hd|]. split; [exact Ht|].
  split; [lia|]. split; [lia|]. split; [lia|].
  split; [exact Hdb|exact Hdbn].
Qed.

Lemma store_table_outside d m : store_ok d m -> table_outside m.
Proof.
  intros (Hd & Ht & Hi & Hl & Hib & Hibn & Hdb & Hdbn) n Hn.
  pose proof (calculate_layout_facts d (proj1 (proj2 Hd)))
    as (H1 & H2 & H3 & H4 & H5 & H6 & H7).
  rewrite <- Hl in *.
  unfold get_total_inodes, Bitmap.get_total_bits in Hn.
  rewrite Hi, Hibn in Hn. change (BLOCK_SIZE / sizeof_Inode) with 42 in Hn.
  assert (n / 42 < inode_table_blocks (layout m))
    by (apply Z.div_lt_upper_bound; lia).
  unfold in_data_region. lia.
Qed.

Lemma same_table_refl m : same_table m m.
Proof. repeat split. Qed.

Lemma same_table_trans m1 m2 m3 :
  same_table m1 m2 -> same_table m2 m3 -> same_table m1 m3.
Proof.
  intros (A1 & A2 & A3) (B1 & B2 & B3). repeat split; congruence.
Qed.

Lemma same_table_set_data_bitmap b m : same_table m (set_data_bitmap b m).
Proof. repeat split. Qed.

Lemma same_table_total m m' :
  same_table m m' -> get_total_inodes m' = get_total_inodes m.
Proof.
  intros (A1 & A2 & A3). unfold get_total_inodes. rewrite A1, A3. reflexivity.
Qed.

Lemma same_table_position m m' n :
  same_table m m' -> get_inode_position m' n = get_inode_position m n.
Proof.
  intros H. unfold get_inode_position.
  rewrite (same_table_total _ _ H). destruct H as (_ & -> & _). reflexivity.
Qed.

Lemma same_table_read_inode d m m' n :
  same_table m m' -> read_inode d m' n = read_inode d m n.
Proof.
  intros H. unfold read_inode, check_initialized.
  rewrite (same_table_position _ _ _ H). destruct H as (-> & _). reflexivity.
Qed.

Lemma same_table_write_inode d m m' n inode :
  same_table m m' -> write_inode d m' n inode = write_inode d m n inode.
Proof.
  intros H. unfold write_inode, check_initialized.
  rewrite (same_table_position _ _ _ H). destruct H as (-> & _). reflexivity.
Qed.

Lemma same_table_region m m' x :
  same_table m m' -> in_data_region m' x <-> in_data_region m x.
Proof. intros (_ & H & _). unfold in_data_region. rewrite H. tauto. Qed.

Lemma same_table_outside m m' :
  same_table m m' -> table_outside m -> table_outside m'.
Proof.
  intros H Ho n Hn. rewrite (same_table_total _ _ H) in Hn.
  rewrite (same_table_region _ _ _ H).
  destruct H as (_ & -> & _). apply Ho, Hn.
Qed.

(** ** Growth *)

Lemma grows_refl m0 d m : pool_ok d m -> grows m0 d m d m.
Proof.
  intros H. unfold grows. split; [exact H|]. split; [reflexivity|].
  split; [apply same_table_refl|]. split; auto.
Qed.

Lemma grows_trans m0 d1 m1 d2 m2 d3 m3 :
  grows m0 d1 m1 d2 m2 -> grows m0 d2 m2 d3 m3 -> grows m0 d1 m1 d3 m3.
Proof.
  intros (P2 & T2 & S2 & K2 & R2) (P3 & T3 & S3 & K3 & R3).
  unfold grows. split; [exact P3|]. split; [congruence|].
  split; [eapply same_table_trans; eauto|].
  split; [auto|].
  intros x Hx. rewrite R3, R2; auto.
  destruct Hx as [Hx|Hx]; [left|right; auto].
  rewrite (same_table_region _ _ _ S2). exact Hx.
Qed.

Lemma owned_range m0 d m x :
  pool_ok d m -> owned m0 m x ->
  0 <= x < total_blocks d /\ entry_ok x /\ x <> -1 /\ x <> 0.
Proof.
  intros Hp (Hr & _).
  pose proof (in_data_region_range _ _ _ Hp Hr).
  pose proof (in_data_region_int _ _ _ Hp Hr) as He.
  split; [lia|]. split; [exact He|]. lia.
Qed.

Lemma owned_mono m0 m m' x :
  same_table m m' -> (forall y, block_taken m y -> block_taken m' y) ->
  owned m0 m x -> owned m0 m' x.
Proof.
  intros S K (Hr & Ht & Hn). split; [|split; auto].
  rewrite (same_table_region _ _ _ S). exact Hr.
Qed.

Lemma read_indirect_frame d d' x :
  Disk.read_block d' x = Disk.read_block d x ->
  read_indirect_block d' x = read_indirect_block d x.
Proof. intros H. unfold read_indirect_block. rewrite H. reflexivity. Qed.

End Pool.
Section IndirectBlocks.
Import InodeMgr.

(** ** The entries of an indirect block *)

Lemma drop_repeat {A} (x : A) k n : drop k (repeat x n) = repeat x (n - k).
Proof.
  revert k. induction n as [|n IH]; intros [|k]; simpl; auto.
Qed.

Lemma take_repeat {A} (x : A) k n :
  (k <= n)%nat -> take k (repeat x n) = repeat x k.
Proof.
  revert k. induction n as [|n IH]; intros [|k] H; simpl; auto; try lia.
  f_equal. apply IH. lia.
Qed.

Lemma write_entries_spec l :
  forall (pre : list Z) (k : Z),
    0 <= k -> Z.of_nat (length pre) = 4 * k ->
    k + Z.of_nat (length l) <= 1024 ->
    write_entries (pre ++ repeat 0 (Z.to_nat (4096 - 4 * k))) k l
    = pre ++ concat (map encode_int l)
          ++ repeat 0 (Z.to_nat (4096 - 4 * k - 4 * Z.of_nat (length l))).
Proof.
  induction l as [|v l IH]; intros pre k Hk Hpre Hlen.
  - simpl. do 2 f_equal. lia.
  - cbn [write_entries]. change (BLOCK_SIZE / sizeof_int) with 1024.
    cbn [length] in Hlen.
    destruct (Z.ltb_spec k 1024) as [_|]; [|lia].
    assert (Hs : splice (pre ++ repeat 0 (Z.to_nat (4096 - 4 * k))) (4 * k)
                   (encode_int v)
                 = (pre ++ encode_int v)
                     ++ repeat 0 (Z.to_nat (4096 - 4 * (k + 1)))).
    { unfold splice. rewrite length_encode_int.
      replace (Z.to_nat (4 * k)) with (length pre) by lia.
      rewrite take_app_length.
      rewrite drop_app_ge by lia.
      rewrite drop_repeat. rewrite <- app_assoc. do 3 f_equal. lia. }
    rewrite Hs. rewrite IH.
    + cbn [map concat]. rewrite <- !app_assoc. do 3 f_equal.
      f_equal. cbn [length]. lia.
    + lia.
    + rewrite length_app, length_encode_int. lia.
    + lia.
Qed.

Lemma get_int_zeros z : (4 <= z)%nat -> get_int (repeat 0 z) 0 = 0.
Proof.
  intros H. do 4 (destruct z as [|z]; [lia|]). reflexivity.
Qed.

Lemma read_entries_spec l :
  forall (pre : list Z) (k : Z) (n z : nat),
    Forall entry_ok l ->
    0 <= k -> Z.of_nat (length pre) = 4 * k ->
    n = length l \/ ((length l < n)%nat /\ (4 <= z)%nat) ->
    read_entries (pre ++ concat (map encode_int l) ++ repeat 0 z) k n = l.
Proof.
  induction l as [|v l IH]; intros pre k n z Hl Hk Hpre Hn.
  - destruct n as [|n]; [reflexivity|]. cbn [read_entries].
    destruct Hn as [Hn|[_ Hz]]; [discriminate|].
    unfold int_at. cbn [map concat app].
    rewrite get_int_skip by lia.
    replace (4 * k - Z.of_nat (length pre)) with 0 by lia.
    rewrite get_int_zeros by exact Hz. reflexivity.
  - destruct n as [|n]; [cbn [length] in Hn; lia|].
    inversion Hl as [|? ? [Hv0 Hvr] Hl']; subst.
    cbn [read_entries]. unfold int_at. cbn [map concat].
    rewrite get_int_skip by lia.
    replace (4 * k - Z.of_nat (length pre)) with 0 by lia.
    rewrite <- app_assoc. rewrite get_int_here by exact Hvr.
    destruct (Z.eqb_spec v 0) as [|_]; [contradiction|].
    f_equal.
    replace (pre ++ encode_int v ++ concat (map encode_int l) ++ repeat 0 z)
      with ((pre ++ encode_int v) ++ concat (map encode_int l) ++ repeat 0 z)
      by (rewrite <- app_assoc; reflexivity).
    apply IH.
    + exact Hl'.
    + lia.
    + rewrite length_app, length_encode_int. lia.
    + cbn [length] in Hn. lia.
Qed.

(** What [write_indirect_block] puts in the block, read back by
    [read_indirect_block]. *)
Lemma entries_roundtrip l :
  Forall entry_ok l -> Z.of_nat (length l) <= 1024 ->
  Z.of_nat (length (write_entries BlockUtils.create_block_buffer 0 l))
  = BLOCK_SIZE
  /\ read_entries (write_entries BlockUtils.create_block_buffer 0 l) 0
       (Z.to_nat (BLOCK_SIZE / sizeof_int)) = l.
Proof.
  intros Hl Hlen.
  pose proof (write_entries_spec l [] 0 ltac:(lia) ltac:(simpl; lia)
                ltac:(lia)) as Hw.
  cbn [app] in Hw. change (Z.to_nat (4096 - 4 * 0)) with (Z.to_nat BLOCK_SIZE) in Hw.
  unfold BlockUtils.create_block_buffer. rewrite Hw. split.
  - rewrite length_app, length_concat_encode_int, repeat_length.
    rewrite BLOCK_SIZE_eq. lia.
  - change (BLOCK_SIZE / sizeof_int) with 1024.
    apply (read_entries_spec l [] 0); [exact Hl|lia|simpl; lia|].
    destruct (decide (Z.of_nat (length l) = 1024)); [left; lia|right; lia].
Qed.

Lemma write_indirect_block_spec d x l :
  disk_ok d -> 0 <= x < total_blocks d ->
  Forall entry_ok l -> Z.of_nat (length l) <= 1024 ->
  exists d',
    write_indirect_block d x l = (true, d')
    /\ disk_ok d' /\ total_blocks d' = total_blocks d
    /\ read_indirect_block d' x = Some l
    /\ (forall k, k <> x -> Disk.read_block d' k = Disk.read_block d k).
Proof.
  intros Hd Hx Hl Hlen.
  destruct (entries_roundtrip l Hl Hlen) as [Hb Hr].
  unfold write_indirect_block.
  destruct (write_block_ok d x
              (write_entries BlockUtils.create_block_buffer 0 l) Hd Hx)
    as [d' Hw].
  exists d'. split; [exact Hw|].
  destruct (write_block_effect _ _ _ _ Hd Hb Hw) as (Hd' & Ht & _ & Hrd & Hfr).
  split; [exact Hd'|]. split; [exact Ht|]. split; [|exact Hfr].
  unfold read_indirect_block. rewrite Hrd. cbv zeta. rewrite Hr. reflexivity.
Qed.

(** ** Taking one block *)

Lemma block_taken_set_data_bitmap m b x :
  block_taken (set_data_bitmap b m) x
  <-> Bitmap.is_allocated b (x - data_blocks_start (layout m)) = true.
Proof. reflexivity. Qed.

Lemma allocate_single_block_spec d m :
  pool_ok d m -> 0 < free_bits_count (data_bitmap m) ->
  exists y m',
    allocate_single_block m = (Some y, m')
    /\ takes_block m y m' /\ pool_ok d m'.
Proof.
  intros Hp Hfree.
  destruct Hp as (Hd & Ht & Hs & Hc & Hle & Hbo & Htb).
  destruct (allocate_bit_succeeds _ Hbo Hfree) as (bit & b' & Ha).
  unfold allocate_single_block. rewrite Ha.
  exists (data_blocks_start (layout m) + bit), (set_data_bitmap b' m).
  split; [reflexivity|].
  assert (Hsm : (Bitmap.allocate_bit (data_bitmap m)).1 = Some bit)
    by (rewrite Ha; reflexivity).
  destruct (allocate_bit_smallest _ _ Hsm) as (Hbit & Hfreebit & _).
  destruct (allocate_bit_zero_bits _ _ _ (proj1 Hbo) Ha) as (_ & Hcnt & Htot).
  assert (Hall : forall j,
             Bitmap.is_allocated b' j
             = (j =? bit) && Bitmap.is_valid_bit (data_bitmap m) j
               || Bitmap.is_allocated (data_bitmap m) j)
    by (intros j; apply (allocate_bit_is_allocated _ _ _ j (proj1 Hbo) Ha)).
  assert (Hok' : bitmap_ok b').
  { pose proof (allocate_bit_ok _ Hbo) as H. rewrite Ha in H. exact H. }
  split.
  - unfold takes_block. split; [apply same_table_set_data_bitmap|].
    split; [unfold in_data_region; lia|].
    split.
    { unfold block_taken.
      replace (data_blocks_start (layout m) + bit
               - data_blocks_start (layout m)) with bit by lia.
      rewrite Hfreebit. discriminate. }
    split.
    { apply block_taken_set_data_bitmap.
      replace (data_blocks_start (layout m) + bit
               - data_blocks_start (layout m)) with bit by lia.
      rewrite Hall, Z.eqb_refl. unfold Bitmap.is_valid_bit.
      destruct (Z.leb_spec 0 bit); [|lia].
      destruct (Z.ltb_spec bit (total_bits (data_bitmap m))); [|lia].
      reflexivity. }
    split.
    { intros x Hx. apply block_taken_set_data_bitmap. rewrite Hall.
      unfold block_taken in Hx. rewrite Hx. apply orb_true_r. }
    exact Hcnt.
  - unfold pool_ok. cbn [set_data_bitmap layout data_bitmap].
    split; [exact Hd|]. split; [exact Ht|]. split; [exact Hs|].
    split; [exact Hc|]. split; [exact Hle|]. split; [exact Hok'|].
    congruence.
Qed.

Lemma takes_block_owned m0 m y m' :
  takes_block m y m' -> (forall x, block_taken m0 x -> block_taken m x) ->
  owned m0 m' y.
Proof.
  intros (Hs & Hr & Hn & Ht & _) H0. split; [|split; [exact Ht|]].
  - apply (same_table_region _ _ _ Hs). exact Hr.
  - intros H. apply Hn, H0, H.
Qed.

Lemma takes_block_fresh m y m' x :
  takes_block m y m' -> ~ in_data_region m x \/ block_taken m x -> x <> y.
Proof.
  intros (_ & Hr & Hn & _) [Hx|Hx] ->; contradiction.
Qed.

Lemma takes_block_neq m0 m y m' x :
  takes_block m y m' -> owned m0 m x -> x <> y.
Proof.
  intros H (_ & Ht & _). eapply takes_block_fresh; eauto.
Qed.

(** [allocate_indirect_block] takes a free block and leaves it without
    entries. *)
Lemma allocate_indirect_block_spec d m :
  pool_ok d m -> 0 < free_bits_count (data_bitmap m) ->
  exists y d' m',
    allocate_indirect_block d m = (Some y, d', m')
    /\ takes_block m y m' /\ pool_ok d' m'
    /\ total_blocks d' = total_blocks d
    /\ read_indirect_block d' y = Some []
    /\ (forall k, k <> y -> Disk.read_block d' k = Disk.read_block d k).
Proof.
  intros Hp Hfree.
  destruct (allocate_single_block_spec d m Hp Hfree)
    as (y & m' & Ha & Htk & Hp').
  unfold allocate_single_block in Ha. unfold allocate_indirect_block.
  destruct (Bitmap.allocate_bit (data_bitmap m)) as [[bit|] b'];
    [|discriminate].
  injection Ha as <- <-.
  set (y := data_blocks_start (layout m) + bit) in *.
  set (m' := set_data_bitmap b' m) in *.
  change (data_blocks_start (layout m') + bit) with y.
  assert (Hy : 0 <= y < total_blocks d).
  { destruct Htk as (_ & Hr & _).
    pose proof (in_data_region_range _ _ _ Hp Hr). lia. }
  destruct (write_indirect_block_spec d y [] (proj1 Hp) Hy
              ltac:(constructor) ltac:(simpl; lia))
    as (d' & Hw & Hd' & Ht' & Hrd & Hfr).
  unfold write_indirect_block in Hw. cbn [write_entries] in Hw.
  rewrite Hw. exists y, d', m'. split; [reflexivity|].
  split; [exact Htk|]. split.
  { destruct Hp' as (_ & P2 & P3 & P4 & P5 & P6 & P7).
    unfold pool_ok. rewrite Ht'. auto 10. }
  auto.
Qed.

(** A block written through [write_indirect_block], for a pool. *)
Lemma write_indirect_block_pool d m x l :
  pool_ok d m -> 0 <= x < total_blocks d ->
  Forall entry_ok l -> Z.of_nat (length l) <= 1024 ->
  exists d',
    write_indirect_block d x l = (true, d')
    /\ pool_ok d' m /\ total_blocks d' = total_blocks d
    /\ read_indirect_block d' x = Some l
    /\ (forall k, k <> x -> Disk.read_block d' k = Disk.read_block d k).
Proof.
  intros Hp Hx Hl Hlen.
  destruct (write_indirect_block_spec d x l (proj1 Hp) Hx Hl Hlen)
    as (d' & Hw & Hd' & Ht' & Hrd & Hfr).
  exists d'. split; [exact Hw|]. split; [|auto].
  destruct Hp as (_ & P2 & P3 & P4 & P5 & P6 & P7).
  unfold pool_ok. rewrite Ht'. auto 10.
Qed.

End IndirectBlocks.
(* ====================================================================== *)
(** * The block pointers of an inode
      ([InodeManager::update_inode_block_pointers]) *)
(* ====================================================================== *)

Section Tree.
Import InodeMgr.

(** ** The tiers of a block list *)

Lemma tiers_direct l v :
  (length l < 10)%nat ->
  tier1 (l ++ [v]) = l ++ [v] /\ tier1 l = l
  /\ tier2 (l ++ [v]) = [] /\ tier2 l = []
  /\ tier3 (l ++ [v]) = [] /\ tier3 l = [].
Proof.
  intros H. unfold tier1, tier2, tier3.
  assert (Hl : (length (l ++ [v]) <= 10)%nat)
    by (rewrite length_app; simpl; lia).
  rewrite (take_ge (l ++ [v])) by exact Hl.
  rewrite (take_ge l) by lia.
  rewrite (drop_ge (l ++ [v]) 10) by exact Hl.
  rewrite (drop_ge l 10) by lia.
  rewrite (drop_ge (l ++ [v]) 1034) by lia.
  rewrite (drop_ge l 1034) by lia.
  auto 10.
Qed.

Lemma tiers_single l v :
  (10 <= length l < 1034)%nat ->
  tier1 (l ++ [v]) = tier1 l /\ length (tier1 l) = 10%nat
  /\ tier2 l = drop 10 l /\ tier2 (l ++ [v]) = drop 10 l ++ [v]
  /\ tier3 (l ++ [v]) = [] /\ tier3 l = [].
Proof.
  intros H. unfold tier1, tier2, tier3.
  assert (Hl : length (l ++ [v]) = S (length l))
    by (rewrite length_app; simpl; lia).
  rewrite (take_app_le l [v]) by lia.
  rewrite (drop_app_le l [v] 10) by lia.
  rewrite (take_ge (drop 10 l)) by (rewrite length_drop; lia).
  rewrite (take_ge (drop 10 l ++ [v]))
    by (rewrite length_app, length_drop; simpl; lia).
  rewrite (drop_ge (l ++ [v]) 1034) by lia.
  rewrite (drop_ge l 1034) by lia.
  rewrite length_take. repeat split; lia.
Qed.

Lemma tiers_double l v :
  (1034 <= length l)%nat ->
  tier1 (l ++ [v]) = tier1 l /\ length (tier1 l) = 10%nat
  /\ tier2 (l ++ [v]) = tier2 l /\ length (tier2 l) = 1024%nat
  /\ tier3 (l ++ [v]) = tier3 l ++ [v]
  /\ length (tier3 l) = (length l - 1034)%nat.
Proof.
  intros H. unfold tier1, tier2, tier3.
  rewrite (take_app_le l [v]) by lia.
  rewrite (drop_app_le l [v] 10) by lia.
  rewrite (drop_app_le l [v] 1034) by lia.
  rewrite (take_app_le (drop 10 l) [v]) by (rewrite length_drop; lia).
  rewrite !length_take, !length_drop. repeat split; lia.
Qed.

Lemma chunk_app_full l3 v j :
  (1024 * j + 1024 <= length l3)%nat -> chunk (l3 ++ [v]) j = chunk l3 j.
Proof.
  intros H. unfold chunk.
  rewrite drop_app_le by lia.
  rewrite take_app_le by (rewrite length_drop; lia). reflexivity.
Qed.

Lemma chunk_app_last l3 v q :
  (1024 * q <= length l3 < 1024 * q + 1024)%nat ->
  chunk (l3 ++ [v]) q = chunk l3 q ++ [v]
  /\ length (chunk l3 q) = (length l3 - 1024 * q)%nat.
Proof.
  intros H. unfold chunk.
  rewrite drop_app_le by lia.
  rewrite (take_ge (drop (1024 * q) l3)) by (rewrite length_drop; lia).
  rewrite take_ge by (rewrite length_app, length_drop; simpl; lia).
  rewrite length_drop. auto.
Qed.

Lemma same_meta_refl i : same_meta i i.
Proof. repeat split. Qed.

Lemma same_meta_trans i1 i2 i3 :
  same_meta i1 i2 -> same_meta i2 i3 -> same_meta i1 i3.
Proof.
  unfold same_meta. intros H1 H2.
  repeat match goal with H : _ /\ _ |- _ => destruct H end.
  repeat split; congruence.
Qed.

Lemma needed_direct n :
  0 <= n < 10 -> indirect_blocks_needed (n + 1) - indirect_blocks_needed n = 0.
Proof.
  intros H. unfold indirect_blocks_needed.
  destruct (Z.ltb_spec 10 (n + 1)), (Z.ltb_spec 10 n),
    (Z.ltb_spec 1034 (n + 1)), (Z.ltb_spec 1034 n); lia.
Qed.

Lemma needed_single n :
  10 <= n < 1034 ->
  indirect_blocks_needed (n + 1) - indirect_blocks_needed n
  = if n =? 10 then 1 else 0.
Proof.
  intros H. unfold indirect_blocks_needed.
  destruct (Z.ltb_spec 10 (n + 1)), (Z.ltb_spec 10 n),
    (Z.ltb_spec 1034 (n + 1)), (Z.ltb_spec 1034 n), (Z.eqb_spec n 10); lia.
Qed.

Lemma needed_double n :
  1034 <= n ->
  indirect_blocks_needed (n + 1) - indirect_blocks_needed n
  = (if n =? 1034 then 1 else 0) + (if (n - 1034) mod 1024 =? 0 then 1 else 0).
Proof.
  intros H. unfold indirect_blocks_needed.
  destruct (Z.ltb_spec 10 (n + 1)), (Z.ltb_spec 10 n),
    (Z.ltb_spec 1034 (n + 1)), (Z.ltb_spec 1034 n), (Z.eqb_spec n 1034),
    (Z.eqb_spec ((n - 1034) mod 1024) 0); try lia;
    Z.div_mod_to_equations; lia.
Qed.

(** ** A block for a direct pointer *)

Lemma place_block_direct m0 d m inode l v :
  pool_ok d m -> tree_ok d m0 m inode l -> entry_ok v ->
  (length l < 10)%nat ->
  placed m0 d m inode l v.
Proof.
  intros Hp (Hall & Hsub & Hdir & Hsing & ptrs & Hdbl) Hv Hlen.
  destruct (tiers_direct l v Hlen) as (E1 & E2 & E3 & E4 & E5 & E6).
  unfold placed, place_block. change DIRECT_BLOCKS_COUNT with 10.
  destruct (Z.ltb_spec (Z.of_nat (length l)) 10); [|lia].
  eexists d, m, _. split; [reflexivity|]. split.
  { unfold tree_ok. rewrite E1, E3, E5.
    split; [apply Forall_app; split; [exact Hall|repeat constructor; apply Hv]|].
    split; [exact Hsub|]. split.
    - cbn [Inode.direct_blocks Inode.set_direct_blocks].
      rewrite Hdir, E2, Nat2Z.id.
      rewrite insert_app_r_alt by lia.
      replace (length l - length l)%nat with 0%nat by lia.
      destruct (10 - length l)%nat as [|k] eqn:E; [lia|].
      cbn [repeat]. rewrite <- app_assoc. cbn [app].
      replace (10 - length (l ++ [v]))%nat with k
        by (rewrite length_app; simpl; lia).
      reflexivity.
    - split.
      + rewrite E4 in Hsing. exact Hsing.
      + exists ptrs. rewrite E6 in Hdbl. exact Hdbl. }
  split; [apply grows_refl, Hp|]. split; [repeat split|].
  rewrite needed_direct by lia. lia.
Qed.

(** ** A block for the single indirect block *)

Lemma single_ok_keep d m0 m inode l2 d' m' inode' :
  single_ok d m0 m inode l2 ->
  same_table m m' -> (forall y, block_taken m y -> block_taken m' y) ->
  Inode.indirect_block inode' = Inode.indirect_block inode ->
  (owned m0 m (Inode.indirect_block inode) ->
   Disk.read_block d' (Inode.indirect_block inode)
   = Disk.read_block d (Inode.indirect_block inode)) ->
  single_ok d' m0 m' inode' l2.
Proof.
  intros Hs St K Hi Hr. destruct l2 as [|a l2]; cbn in *.
  - congruence.
  - destruct Hs as [Ho Hrd]. rewrite Hi. split.
    + eapply owned_mono; eauto.
    + rewrite (read_indirect_frame d d') by auto. exact Hrd.
Qed.

Lemma place_block_single m0 d m inode l v :
  pool_ok d m -> tree_ok d m0 m inode l -> entry_ok v ->
  (10 <= length l < 1034)%nat ->
  indirect_blocks_needed (Z.of_nat (length l) + 1)
  - indirect_blocks_needed (Z.of_nat (length l))
  <= free_bits_count (data_bitmap m) ->
  placed m0 d m inode l v.
Proof.
  intros Hp (Hall & Hsub & Hdir & Hsing & ptrs & Hdbl) Hv Hlen Hfree.
  destruct (tiers_single l v Hlen) as (E1 & E1' & E2 & E3 & E4 & E5).
  rewrite E5 in Hdbl. destruct Hdbl as [Hdbl ->]. rewrite E2 in Hsing.
  rewrite needed_single in Hfree by lia.
  unfold placed. rewrite needed_single by lia.
  unfold place_block. change DIRECT_BLOCKS_COUNT with 10.
  change (BLOCK_SIZE / sizeof_int) with 1024. cbv zeta.
  destruct (Z.ltb_spec (Z.of_nat (length l)) 10); [lia|].
  destruct (Z.ltb_spec (Z.of_nat (length l) - 10) 1024); [|lia].
  assert (Hall' : Forall entry_ok (drop 10 l ++ [v])).
  { apply Forall_app. split; [apply Forall_drop, Hall|].
    repeat constructor; apply Hv. }
  destruct (Z.eqb_spec (Z.of_nat (length l)) 10) as [E10|N10].
  - (* the first entry: the indirect block is taken *)
    assert (Hd10 : drop 10 l = []) by (apply drop_ge; lia).
    rewrite Hd10 in *. cbn in Hsing. rewrite Hsing.
    replace (Z.of_nat (length l) - 10 =? 0) with true
      by (symmetry; apply Z.eqb_eq; lia).
    change (-1 =? -1) with true. cbn [andb].
    destruct (allocate_indirect_block_spec d m Hp ltac:(lia))
      as (X & d1 & m1 & Ha & Htk & Hp1 & Ht1 & Hr1 & Hf1).
    rewrite Ha. cbv beta iota.
    cbn [Inode.indirect_block Inode.set_indirect_block].
    pose proof (takes_block_owned m0 _ _ _ Htk Hsub) as HoX.
    destruct (owned_range _ _ _ _ Hp1 HoX) as (HX & HeX & HX1 & HX0).
    destruct (Z.eqb_spec X (-1)); [contradiction|].
    rewrite Hr1. cbn [default from_option]. unfold id. cbn [app].
    destruct (write_indirect_block_pool d1 m1 X [v] Hp1 HX Hall'
                ltac:(simpl; lia)) as (d2 & Hw & Hp2 & Ht2 & Hr2 & Hf2).
    rewrite Hw. eexists d2, m1, _. split; [reflexivity|]. split.
    { unfold tree_ok. rewrite E1, E3, E4. cbn [app].
      split; [apply Forall_app; split;
                [exact Hall|repeat constructor; apply Hv]|].
      split; [intros x Hx; apply Htk, Hsub, Hx|].
      split; [exact Hdir|]. split.
      - cbn. split; [exact HoX|exact Hr2].
      - exists []. split; [exact Hdbl|reflexivity]. }
    split.
    { unfold grows. split; [exact Hp2|]. split; [congruence|].
      split; [apply Htk|]. split; [apply Htk|].
      intros x Hx.
      assert (x <> X).
      { eapply takes_block_fresh; [exact Htk|].
        destruct Hx as [Hx|Hx]; [left; exact Hx|right; apply Hsub, Hx]. }
      rewrite Hf2, Hf1 by assumption. reflexivity. }
    split; [repeat split|].
    destruct Htk as (_ & _ & _ & _ & _ & Hc). rewrite Hc. reflexivity.
  - (* a further entry *)
    assert (Hne : drop 10 l <> []).
    { intros E. apply (f_equal length) in E. rewrite length_drop in E.
      simpl in E. lia. }
    destruct (drop 10 l) as [|a l2] eqn:El2; [contradiction|].
    cbn in Hsing. destruct Hsing as [HoX Hrd].
    destruct (owned_range _ _ _ _ Hp HoX) as (HX & HeX & HX1 & HX0).
    replace (Z.of_nat (length l) - 10 =? 0) with false
      by (symmetry; apply Z.eqb_neq; lia).
    cbn [andb]. cbv beta iota.
    destruct (Z.eqb_spec (Inode.indirect_block inode) (-1)); [contradiction|].
    rewrite Hrd. cbn [default from_option]. unfold id.
    assert (Hl2 : Z.of_nat (length ((a :: l2) ++ [v])) <= 1024).
    { rewrite <- El2, length_app, length_drop. simpl. lia. }
    destruct (write_indirect_block_pool d m _ _ Hp HX Hall' Hl2)
      as (d2 & Hw & Hp2 & Ht2 & Hr2 & Hf2).
    rewrite Hw. eexists d2, m, _. split; [reflexivity|]. split.
    { unfold tree_ok. rewrite E1, E3, E4.
      split; [apply Forall_app; split;
                [exact Hall|repeat constructor; apply Hv]|].
      split; [exact Hsub|]. split; [exact Hdir|]. split.
      - cbn. split; [exact HoX|exact Hr2].
      - exists []. split; [exact Hdbl|reflexivity]. }
    split.
    { unfold grows. split; [exact Hp2|]. split; [congruence|].
      split; [apply same_table_refl|]. split; [auto|].
      intros x Hx. apply Hf2. intros ->.
      destruct HoX as (Hr & _ & Hn). destruct Hx; contradiction. }
    split; [repeat split|]. lia.
Qed.

(** ** A block for the double-indirect tier *)

Lemma new_pointer_list (ptrs : list Z) q t :
  Z.of_nat (length ptrs) = q ->
  <[Z.to_nat q := t]>
    (if Z.of_nat (length ptrs) <=? q
     then ptrs ++ repeat 0 (Z.to_nat q + 1 - length ptrs)%nat else ptrs)
  = ptrs ++ [t].
Proof.
  intros <-. rewrite Z.leb_refl, Nat2Z.id.
  replace (length ptrs + 1 - length ptrs)%nat with 1%nat by lia.
  cbn [repeat]. rewrite insert_app_r_alt by lia.
  replace (length ptrs - length ptrs)%nat with 0%nat by lia. reflexivity.
Qed.

Lemma owned_entries d m0 m l :
  pool_ok d m -> Forall (owned m0 m) l -> Forall entry_ok l.
Proof.
  intros Hp H. eapply Forall_impl; [exact H|]. intros x Hx.
  apply (owned_range _ _ _ _ Hp Hx).
Qed.

(** The double-indirect block is taken. *)
Lemma double_new_outer m0 d m inode :
  pool_ok d m -> (forall x, block_taken m0 x -> block_taken m x) ->
  owned m0 m (Inode.indirect_block inode) ->
  0 < free_bits_count (data_bitmap m) ->
  exists D d1 m1,
    allocate_indirect_block d m = (Some D, d1, m1)
    /\ takes_block m D m1 /\ pool_ok d1 m1
    /\ total_blocks d1 = total_blocks d
    /\ double_held d1 m0 m1 (Inode.set_double_indirect_block D inode) [] []
    /\ (forall k, k <> D -> Disk.read_block d1 k = Disk.read_block d k).
Proof.
  intros Hp Hsub HoX Hfree.
  destruct (allocate_indirect_block_spec d m Hp Hfree)
    as (D & d1 & m1 & Ha & Htk & Hp1 & Ht1 & Hr1 & Hf1).
  exists D, d1, m1. split; [exact Ha|]. split; [exact Htk|].
  split; [exact Hp1|]. split; [exact Ht1|]. split; [|exact Hf1].
  unfold double_held.
  cbn [Inode.double_indirect_block Inode.indirect_block
       Inode.set_double_indirect_block].
  split; [eapply takes_block_owned; eauto|]. split; [exact Hr1|].
  split.
  { apply NoDup_cons. split; [|apply NoDup_singleton].
    intros Hin. apply list_elem_of_singleton in Hin.
    exact (takes_block_neq _ _ _ _ _ Htk HoX Hin). }
  split; [constructor|]. intros j t Hj. discriminate.
Qed.

(** A new inner indirect block is taken and entered in the
    double-indirect block. *)
Lemma double_new_inner m0 d m inode l3 ptrs (q : nat) :
  pool_ok d m -> (forall x, block_taken m0 x -> block_taken m x) ->
  owned m0 m (Inode.indirect_block inode) ->
  double_held d m0 m inode l3 ptrs ->
  length ptrs = q -> length l3 = (1024 * q)%nat -> (q < 1024)%nat ->
  0 < free_bits_count (data_bitmap m) ->
  exists t d1 m1 d2,
    allocate_indirect_block d m = (Some t, d1, m1)
    /\ write_indirect_block d1 (Inode.double_indirect_block inode)
         (ptrs ++ [t]) = (true, d2)
    /\ takes_block m t m1 /\ pool_ok d2 m1
    /\ total_blocks d2 = total_blocks d
    /\ double_held d2 m0 m1 inode l3 (ptrs ++ [t])
    /\ (forall k, k <> t -> k <> Inode.double_indirect_block inode ->
                  Disk.read_block d2 k = Disk.read_block d k).
Proof.
  intros Hp Hsub HoX (HoD & HrD & Hnd & Hop & Hch) Hlen Hl3 Hq Hfree.
  destruct (allocate_indirect_block_spec d m Hp Hfree)
    as (t & d1 & m1 & Ha & Htk & Hp1 & Ht1 & Hr1 & Hf1).
  pose proof (takes_block_owned m0 _ _ _ Htk Hsub) as Hot.
  assert (Hmono : forall x, owned m0 m x -> owned m0 m1 x).
  { intros x. apply owned_mono; apply Htk. }
  assert (Hop1 : Forall (owned m0 m1) (ptrs ++ [t])).
  { apply Forall_app. split; [|apply Forall_singleton; exact Hot].
    eapply Forall_impl; [exact Hop|exact Hmono]. }
  destruct (owned_range _ _ _ _ Hp1 (Hmono _ HoD)) as (HD & _).
  destruct (write_indirect_block_pool d1 m1 _ (ptrs ++ [t]) Hp1 HD
              (owned_entries _ _ _ _ Hp1 Hop1)
              ltac:(rewrite length_app; simpl; lia))
    as (d2 & Hw & Hp2 & Ht2 & Hr2 & Hf2).
  exists t, d1, m1, d2. split; [exact Ha|]. split; [exact Hw|].
  split; [exact Htk|]. split; [exact Hp2|]. split; [congruence|].
  assert (HtD : t <> Inode.double_indirect_block inode).
  { intros E. exact (takes_block_neq _ _ _ _ _ Htk HoD (eq_sym E)). }
  split.
  - unfold double_held. split; [apply Hmono, HoD|]. split; [exact Hr2|].
    split.
    { change (NoDup ((Inode.indirect_block inode
                        :: Inode.double_indirect_block inode :: ptrs)
                       ++ [t])).
      apply NoDup_app. split; [exact Hnd|]. split; [|apply NoDup_singleton].
      intros x Hx Hin. apply list_elem_of_singleton in Hin. subst x.
      apply elem_of_cons in Hx. destruct Hx as [Hx|Hx].
      { exact (takes_block_neq _ _ _ _ _ Htk HoX (eq_sym Hx)). }
      apply elem_of_cons in Hx. destruct Hx as [Hx|Hx].
      { exact (HtD Hx). }
      rewrite Forall_forall in Hop.
      exact (takes_block_neq _ _ _ _ _ Htk (Hop _ Hx) eq_refl). }
    split; [exact Hop1|].
    intros j x Hj. apply lookup_app_Some in Hj.
    destruct Hj as [Hj|[Hj1 Hj2]].
    + assert (Hin : x ∈ ptrs) by (eapply list_elem_of_lookup_2; eauto).
      assert (x <> Inode.double_indirect_block inode).
      { intros ->. apply NoDup_cons in Hnd. destruct Hnd as [_ Hnd].
        apply NoDup_cons in Hnd. destruct Hnd as [Hnd _]. contradiction. }
      assert (x <> t).
      { rewrite Forall_forall in Hop.
        exact (takes_block_neq _ _ _ _ _ Htk (Hop _ Hin)). }
      rewrite (read_indirect_frame d1 d2) by (apply Hf2; assumption).
      rewrite (read_indirect_frame d d1) by (apply Hf1; assumption).
      apply Hch, Hj.
    + apply list_lookup_singleton_Some in Hj2. destruct Hj2 as [Hj2 <-].
      rewrite (read_indirect_frame d1 d2) by (apply Hf2; assumption).
      rewrite Hr1. f_equal. unfold chunk.
      rewrite drop_ge by lia. reflexivity.
  - intros k Hk1 Hk2. rewrite Hf2, Hf1 by assumption. reflexivity.
Qed.

Lemma double_ok_intro d m0 m inode l3 ptrs :
  l3 <> [] ->
  Z.of_nat (length ptrs) = (Z.of_nat (length l3) + 1023) / 1024 ->
  double_held d m0 m inode l3 ptrs -> double_ok d m0 m inode l3 ptrs.
Proof. destruct l3; [contradiction|]. intros _ H1 H2. split; assumption. Qed.

(** The block number goes to the end of the last inner indirect block. *)
Lemma double_finish m0 d m inode l3 ptrs (q : nat) t v :
  pool_ok d m -> double_held d m0 m inode l3 ptrs ->
  length ptrs = S q -> ptrs !! q = Some t ->
  (1024 * q <= length l3 < 1024 * q + 1024)%nat ->
  Forall entry_ok (l3 ++ [v]) ->
  exists d',
    write_indirect_block d t (chunk l3 q ++ [v]) = (true, d')
    /\ pool_ok d' m /\ total_blocks d' = total_blocks d
    /\ double_ok d' m0 m inode (l3 ++ [v]) ptrs
    /\ (forall k, k <> t -> Disk.read_block d' k = Disk.read_block d k).
Proof.
  intros Hp (HoD & HrD & Hnd & Hop & Hch) Hlen Hq Hl3 Hall.
  destruct (chunk_app_last l3 v q Hl3) as [Ec Elc].
  assert (Hin : t ∈ ptrs) by (eapply list_elem_of_lookup_2; eauto).
  assert (Hot : owned m0 m t) by (rewrite Forall_forall in Hop; auto).
  destruct (owned_range _ _ _ _ Hp Hot) as (Ht & _).
  assert (Hce : Forall entry_ok (chunk l3 q ++ [v])).
  { rewrite <- Ec. unfold chunk. apply Forall_take, Forall_drop, Hall. }
  destruct (write_indirect_block_pool d m t _ Hp Ht Hce
              ltac:(rewrite length_app, Elc; simpl; lia))
    as (d' & Hw & Hp' & Ht' & Hr' & Hf').
  exists d'. split; [exact Hw|]. split; [exact Hp'|]. split; [exact Ht'|].
  split; [|exact Hf'].
  apply double_ok_intro; [destruct l3; discriminate| |].
  { rewrite Hlen, length_app. cbn [length].
    Z.div_mod_to_equations. lia. }
  apply NoDup_cons in Hnd. destruct Hnd as [HX Hnd].
  assert (Hnd' := Hnd).
  apply NoDup_cons in Hnd'. destruct Hnd' as [HD Hndp].
  unfold double_held. split; [exact HoD|]. split.
  { rewrite (read_indirect_frame d d'); [exact HrD|].
    apply Hf'. intros E'. rewrite E' in HD. contradiction. }
  split; [apply NoDup_cons; split; assumption|]. split; [exact Hop|].
  intros j x Hj. destruct (decide (j = q)) as [->|Hjq].
  - assert (x = t) by congruence. subst x. rewrite Hr', Ec. reflexivity.
  - assert (x <> t).
    { intros ->. apply Hjq. eapply NoDup_lookup; eauto. }
    rewrite (read_indirect_frame d d') by (apply Hf'; assumption).
    rewrite (Hch j x Hj). f_equal. symmetry. apply chunk_app_full.
    apply lookup_lt_Some in Hj. lia.
Qed.

Lemma snoc_nonempty (l : list Z) v : l ++ [v] <> [].
Proof. intros E. destruct l; discriminate E. Qed.

Lemma single_ok_nonempty d m0 m inode l2 :
  l2 <> [] -> single_ok d m0 m inode l2 ->
  owned m0 m (Inode.indirect_block inode)
  /\ read_indirect_block d (Inode.indirect_block inode) = Some l2.
Proof. destruct l2; [contradiction|]. intros _ H. exact H. Qed.

Lemma single_ok_intro d m0 m inode l2 :
  owned m0 m (Inode.indirect_block inode) ->
  read_indirect_block d (Inode.indirect_block inode) = Some l2 ->
  l2 <> [] -> single_ok d m0 m inode l2.
Proof. destruct l2; [contradiction|]. intros H1 H2 _. split; assumption. Qed.

Lemma double_ok_nonempty d m0 m inode l3 ptrs :
  l3 <> [] -> double_ok d m0 m inode l3 ptrs ->
  Z.of_nat (length ptrs) = (Z.of_nat (length l3) + 1023) / 1024
  /\ double_held d m0 m inode l3 ptrs.
Proof. destruct l3; [contradiction|]. intros _ H. exact H. Qed.

(** What a round in the double-indirect tier has to leave behind. *)
Lemma placed_double_assemble m0 d m inode l v d' m' inode' ptrs' :
  Forall entry_ok l -> (forall x, block_taken m0 x -> block_taken m x) ->
  Inode.direct_blocks inode = tier1 l ++ repeat 0 (10 - length (tier1 l)) ->
  owned m0 m (Inode.indirect_block inode) ->
  read_indirect_block d (Inode.indirect_block inode) = Some (tier2 l) ->
  entry_ok v -> (1034 <= length l)%nat ->
  pool_ok d' m' -> total_blocks d' = total_blocks d ->
  same_table m m' -> (forall x, block_taken m x -> block_taken m' x) ->
  Inode.direct_blocks inode' = Inode.direct_blocks inode ->
  Inode.indirect_block inode' = Inode.indirect_block inode ->
  double_ok d' m0 m' inode' (tier3 l ++ [v]) ptrs' ->
  (forall k, k <> Inode.double_indirect_block inode' -> k ∉ ptrs' ->
             Disk.read_block d' k = Disk.read_block d k) ->
  tree_ok d' m0 m' inode' (l ++ [v]) /\ grows m0 d m d' m'.
Proof.
  intros Hall Hsub Hdir HoX HrX Hv Hlen Hp' Ht' St K Hd Hi Hdbl Hfr.
  destruct (tiers_double l v Hlen) as (E1 & E1' & E2 & E2' & E3 & E3').
  destruct (double_ok_nonempty _ _ _ _ _ _
              (snoc_nonempty (tier3 l) v) Hdbl)
    as (Hlp & HoD & HrD & Hnd & Hop & Hch).
  rewrite Hi in Hnd.
  apply NoDup_cons in Hnd. destruct Hnd as [HXn Hnd].
  assert (HXD : Inode.indirect_block inode
                <> Inode.double_indirect_block inode').
  { intros E. apply HXn. rewrite E. apply elem_of_cons. left. reflexivity. }
  assert (HXp : Inode.indirect_block inode ∉ ptrs').
  { intros E. apply HXn. apply elem_of_cons. right. exact E. }
  split.
  - unfold tree_ok. rewrite E1, E2, E3.
    split; [apply Forall_app; split;
              [exact Hall|apply Forall_singleton, Hv]|].
    split; [auto|]. split; [congruence|]. split.
    + apply single_ok_intro.
      * rewrite Hi. eapply owned_mono; eauto.
      * rewrite Hi, (read_indirect_frame d d') by (apply Hfr; assumption).
        exact HrX.
      * intros E. rewrite E in E2'. discriminate.
    + exists ptrs'. exact Hdbl.
  - unfold grows. split; [exact Hp'|]. split; [exact Ht'|].
    split; [exact St|]. split; [exact K|].
    intros x Hx. apply Hfr.
    + intros ->. destruct HoD as (Hr & _ & Hn).
      apply (same_table_region _ _ _ St) in Hr.
      destruct Hx; contradiction.
    + intros Hin. rewrite Forall_forall in Hop.
      destruct (Hop _ Hin) as (Hr & _ & Hn).
      apply (same_table_region _ _ _ St) in Hr.
      destruct Hx; contradiction.
Qed.

Lemma place_block_double m0 d m inode l v :
  pool_ok d m -> tree_ok d m0 m inode l -> entry_ok v ->
  (1034 <= length l)%nat ->
  Z.of_nat (length l) < 10 + 1024 + 1024 * 1024 ->
  indirect_blocks_needed (Z.of_nat (length l) + 1)
  - indirect_blocks_needed (Z.of_nat (length l))
  <= free_bits_count (data_bitmap m) ->
  placed m0 d m inode l v.
Proof.
  intros Hp (Hall & Hsub & Hdir & Hsing & ptrs & Hdbl) Hv Hlen Hcap Hfree.
  destruct (tiers_double l v Hlen) as (E1 & E1' & E2 & E2' & E3 & E3').
  destruct (single_ok_nonempty _ _ _ _ _
              ltac:(intros E; rewrite E in E2'; discriminate E2') Hsing)
    as [HoX HrX].
  assert (Hall3 : Forall entry_ok (tier3 l ++ [v])).
  { apply Forall_app. split; [apply Forall_drop, Hall|].
    apply Forall_singleton, Hv. }
  pose (zq := (Z.of_nat (length l) - 10 - 1024) / 1024).
  pose (q := Z.to_nat zq).
  assert (Hzq : 0 <= zq < 1024)
    by (unfold zq; Z.div_mod_to_equations; lia).
  assert (Hq : (1024 * q <= length (tier3 l) < 1024 * q + 1024)%nat)
    by (unfold q, zq; rewrite E3'; Z.div_mod_to_equations; lia).
  rewrite needed_double in Hfree by lia.
  unfold placed. rewrite needed_double by lia.
  unfold place_block. change DIRECT_BLOCKS_COUNT with 10.
  change (BLOCK_SIZE / sizeof_int) with 1024. cbv zeta.
  destruct (Z.ltb_spec (Z.of_nat (length l)) 10); [lia|].
  destruct (Z.ltb_spec (Z.of_nat (length l) - 10) 1024); [lia|].
  fold zq.
  destruct (Z.leb_spec 1024 zq); [lia|].
  destruct (decide (tier3 l = [])) as [El3|Nl3].
  - (* the first block of the tier: two indirect blocks are taken *)
    rewrite El3 in *. destruct Hdbl as [HD ->].
    cbn [length] in E3', Hq.
    assert (Hz0 : zq = 0) by (unfold zq; Z.div_mod_to_equations; lia).
    assert (Hq0 : q = 0%nat) by (unfold q; lia).
    replace (Z.of_nat (length l) =? 1034) with true in *
      by (symmetry; apply Z.eqb_eq; lia).
    replace ((Z.of_nat (length l) - 1034) mod 1024 =? 0) with true in *
      by (symmetry; apply Z.eqb_eq; Z.div_mod_to_equations; lia).
    rewrite HD. change (-1 =? -1) with true. cbv iota.
    destruct (double_new_outer m0 d m inode Hp Hsub HoX ltac:(lia))
      as (D & d1 & m1 & Ha1 & Htk1 & Hp1 & Ht1 & Hh1 & Hf1).
    rewrite Ha1. cbv beta iota.
    cbn [Inode.double_indirect_block Inode.set_double_indirect_block].
    assert (HrD1 := proj1 (proj2 Hh1)).
    cbn [Inode.double_indirect_block Inode.set_double_indirect_block]
      in HrD1.
    rewrite HrD1. cbn [default from_option]. unfold id.
    assert (Hl0 : Z.of_nat (length (@nil Z)) = 0) by reflexivity.
    destruct (Z.ltb_spec zq (Z.of_nat (length (@nil Z)))); [lia|].
    change (0 =? 0) with true. cbv iota.
    assert (Hsub1 : forall x, block_taken m0 x -> block_taken m1 x)
      by (intros x Hx; apply Htk1, Hsub, Hx).
    assert (HoX1 : owned m0 m1 (Inode.indirect_block inode))
      by (eapply owned_mono; [apply Htk1|apply Htk1|exact HoX]).
    destruct (double_new_inner m0 d1 m1
                (Inode.set_double_indirect_block D inode) [] [] 0
                Hp1 Hsub1 HoX1 Hh1 eq_refl eq_refl ltac:(lia)
                ltac:(destruct Htk1 as (_ & _ & _ & _ & _ & Hc); lia))
      as (t & d2 & m2 & d3 & Ha2 & Hw2 & Htk2 & Hp3 & Ht3 & Hh3 & Hf3).
    cbn [Inode.double_indirect_block Inode.set_double_indirect_block]
      in Hw2, Hf3.
    rewrite Ha2. cbv beta iota.
    rewrite (new_pointer_list [] zq t) by lia.
    rewrite Hw2. cbv beta iota.
    assert (Hlk : ([] ++ [t]) !! 0%nat = Some t) by reflexivity.
    rewrite (proj2 (proj2 (proj2 (proj2 Hh3))) 0%nat t Hlk).
    cbn [default from_option]. unfold id.
    destruct (double_finish m0 d3 m2 _ [] _ 0 t v Hp3 Hh3 eq_refl Hlk
                ltac:(simpl; lia) Hall3)
      as (d4 & Hw4 & Hp4 & Ht4 & Hd4 & Hf4).
    rewrite Hw4. eexists d4, m2, _. split; [reflexivity|].
    assert (St : same_table m m2)
      by (eapply same_table_trans; [apply Htk1|apply Htk2]).
    assert (K : forall x, block_taken m x -> block_taken m2 x)
      by (intros x Hx; apply Htk2, Htk1, Hx).
    destruct (placed_double_assemble m0 d m inode l v d4 m2
                (Inode.set_double_indirect_block D inode) ([] ++ [t])
                Hall Hsub Hdir HoX HrX Hv Hlen Hp4 ltac:(congruence) St K
                eq_refl eq_refl ltac:(rewrite El3; exact Hd4))
      as [Htree Hgrows].
    { cbn [Inode.double_indirect_block Inode.set_double_indirect_block].
      intros k HkD Hkt.
      assert (k <> t) by (intros ->; apply Hkt, list_elem_of_here).
      rewrite Hf4, Hf3, Hf1 by assumption. reflexivity. }
    split; [exact Htree|]. split; [exact Hgrows|].
    split; [repeat split|].
    destruct Htk1 as (_ & _ & _ & _ & _ & Hc1).
    destruct Htk2 as (_ & _ & _ & _ & _ & Hc2). lia.
  - destruct (double_ok_nonempty _ _ _ _ _ _ Nl3 Hdbl) as (Hlp & Hh).
    assert (Hh' := Hh). destruct Hh' as (HoD & HrD & Hnd & Hop & Hch).
    destruct (owned_range _ _ _ _ Hp HoD) as (HDr & _ & HD1 & HD0).
    assert (Hl3pos : (0 < length (tier3 l))%nat)
      by (destruct (tier3 l); [contradiction|simpl; lia]).
    replace (Z.of_nat (length l) =? 1034) with false in *
      by (symmetry; apply Z.eqb_neq; lia).
    destruct (Z.eqb_spec (Inode.double_indirect_block inode) (-1));
      [contradiction|].
    cbv beta iota. rewrite HrD. cbn [default from_option]. unfold id.
    destruct (Z.eqb_spec ((Z.of_nat (length l) - 1034) mod 1024) 0)
      as [Hr0|Hr1].
    + (* a new inner indirect block *)
      assert (Hlq : Z.of_nat (length ptrs) = zq)
        by (rewrite Hlp, E3'; unfold zq; Z.div_mod_to_equations; lia).
      destruct (Z.ltb_spec zq (Z.of_nat (length ptrs))); [lia|].
      change (0 =? 0) with true. cbv iota.
      destruct (double_new_inner m0 d m inode (tier3 l) ptrs q
                  Hp Hsub HoX Hh ltac:(unfold q; lia)
                  ltac:(unfold q, zq; rewrite E3';
                        Z.div_mod_to_equations; lia)
                  ltac:(lia) ltac:(lia))
        as (t & d2 & m2 & d3 & Ha2 & Hw2 & Htk2 & Hp3 & Ht3 & Hh3 & Hf3).
      rewrite Ha2. cbv beta iota.
      rewrite (new_pointer_list ptrs zq t) by exact Hlq.
      rewrite Hw2. cbv beta iota.
      assert (Hlk : (ptrs ++ [t]) !! q = Some t).
      { rewrite lookup_app_r by (unfold q; lia).
        replace (q - length ptrs)%nat with 0%nat by (unfold q; lia).
        reflexivity. }
      rewrite (proj2 (proj2 (proj2 (proj2 Hh3))) q t Hlk).
      cbn [default from_option]. unfold id.
      destruct (double_finish m0 d3 m2 _ (tier3 l) _ q t v Hp3 Hh3
                  ltac:(rewrite length_app; simpl; unfold q; lia) Hlk
                  Hq Hall3)
        as (d4 & Hw4 & Hp4 & Ht4 & Hd4 & Hf4).
      rewrite Hw4. eexists d4, m2, _. split; [reflexivity|].
      destruct (placed_double_assemble m0 d m inode l v d4 m2
                  inode (ptrs ++ [t])
                  Hall Hsub Hdir HoX HrX Hv Hlen Hp4 ltac:(congruence)
                  ltac:(apply Htk2) ltac:(apply Htk2)
                  eq_refl eq_refl Hd4)
        as [Htree Hgrows].
      { intros k HkD Hkt.
        assert (k <> t).
        { intros ->. apply Hkt, elem_of_app. right.
          apply list_elem_of_here. }
        rewrite Hf4, Hf3 by assumption. reflexivity. }
      split; [exact Htree|]. split; [exact Hgrows|].
      split; [repeat split|].
      destruct Htk2 as (_ & _ & _ & _ & _ & Hc2). lia.
    + (* room in the last inner indirect block *)
      assert (Hlq : Z.of_nat (length ptrs) = zq + 1)
        by (rewrite Hlp, E3'; unfold zq; Z.div_mod_to_equations; lia).
      destruct (Z.ltb_spec zq (Z.of_nat (length ptrs))); [|lia].
      destruct (lookup_lt_is_Some_2 ptrs q ltac:(unfold q; lia))
        as [t Hlk].
      fold q. rewrite (list_lookup_total_correct _ _ _ Hlk).
      assert (Hot : owned m0 m t).
      { rewrite Forall_forall in Hop. apply Hop.
        eapply list_elem_of_lookup_2; eauto. }
      destruct (owned_range _ _ _ _ Hp Hot) as (_ & _ & _ & Ht0).
      destruct (Z.eqb_spec t 0); [contradiction|].
      rewrite (Hch q t Hlk). cbn [default from_option]. unfold id.
      destruct (double_finish m0 d m _ (tier3 l) _ q t v Hp Hh
                  ltac:(unfold q; lia) Hlk Hq Hall3)
        as (d4 & Hw4 & Hp4 & Ht4 & Hd4 & Hf4).
      rewrite Hw4. eexists d4, m, _. split; [reflexivity|].
      destruct (placed_double_assemble m0 d m inode l v d4 m
                  inode ptrs
                  Hall Hsub Hdir HoX HrX Hv Hlen Hp4 Ht4
                  (same_table_refl m) ltac:(auto)
                  eq_refl eq_refl Hd4)
        as [Htree Hgrows].
      { intros k HkD Hkt.
        assert (k <> t).
        { intros ->. apply Hkt. eapply list_elem_of_lookup_2; eauto. }
        apply Hf4. assumption. }
      split; [exact Htree|]. split; [exact Hgrows|].
      split; [repeat split|]. lia.
Qed.

(** One round of the refill loop, whatever the tier. *)
Lemma place_block_step m0 d m inode l v :
  pool_ok d m -> tree_ok d m0 m inode l -> entry_ok v ->
  Z.of_nat (length l) < 10 + 1024 + 1024 * 1024 ->
  indirect_blocks_needed (Z.of_nat (length l) + 1)
  - indirect_blocks_needed (Z.of_nat (length l))
  <= free_bits_count (data_bitmap m) ->
  placed m0 d m inode l v.
Proof.
  intros Hp Ht Hv Hcap Hfree.
  destruct (decide (length l < 10)%nat).
  - apply place_block_direct; assumption.
  - destruct (decide (length l < 1034)%nat).
    + apply place_block_single; try assumption. lia.
    + apply place_block_double; try assumption. lia.
Qed.

End Tree.
Section Refill.
Import InodeMgr.

(** ** The refill loop *)

Lemma needed_mono a b :
  a <= b -> indirect_blocks_needed a <= indirect_blocks_needed b.
Proof.
  intros H. unfold indirect_blocks_needed.
  destruct (Z.ltb_spec 10 a), (Z.ltb_spec 10 b),
    (Z.ltb_spec 1034 a), (Z.ltb_spec 1034 b); try lia;
    Z.div_mod_to_equations; lia.
Qed.

Lemma place_blocks_spec rest :
  forall m0 d m inode l,
    pool_ok d m -> tree_ok d m0 m inode l -> Forall entry_ok rest ->
    Z.of_nat (length l) + Z.of_nat (length rest) <= 10 + 1024 + 1024 * 1024 ->
    indirect_blocks_needed (Z.of_nat (length l) + Z.of_nat (length rest))
    - indirect_blocks_needed (Z.of_nat (length l))
    <= free_bits_count (data_bitmap m) ->
    exists d' m' inode',
      place_blocks (Z.of_nat (length l)) rest d m inode
      = (true, d', m', inode')
      /\ tree_ok d' m0 m' inode' (l ++ rest)
      /\ grows m0 d m d' m'
      /\ same_meta inode inode'
      /\ free_bits_count (data_bitmap m')
         = free_bits_count (data_bitmap m)
           - (indirect_blocks_needed
                (Z.of_nat (length l) + Z.of_nat (length rest))
              - indirect_blocks_needed (Z.of_nat (length l))).
Proof.
  induction rest as [|v rest IH]; intros m0 d m inode l Hp Ht Hr Hcap Hfree.
  - exists d, m, inode. split; [reflexivity|]. rewrite app_nil_r.
    split; [exact Ht|]. split; [apply grows_refl, Hp|].
    split; [apply same_meta_refl|]. cbn [length].
    replace (Z.of_nat (length l) + Z.of_nat 0) with (Z.of_nat (length l))
      by lia. lia.
  - inversion Hr as [|? ? Hv Hr']; subst. cbn [length] in Hcap, Hfree |- *.
    pose proof (needed_mono (Z.of_nat (length l) + 1)
                  (Z.of_nat (length l) + Z.of_nat (S (length rest)))
                  ltac:(lia)) as Hm.
    destruct (place_block_step m0 d m inode l v Hp Ht Hv ltac:(lia)
                ltac:(lia))
      as (d1 & m1 & inode1 & He & Ht1 & Hg1 & Hs1 & Hc1).
    cbn [place_blocks]. rewrite He.
    assert (El : Z.of_nat (length l) + 1 = Z.of_nat (length (l ++ [v])))
      by (rewrite length_app; simpl; lia).
    rewrite El.
    destruct (IH m0 d1 m1 inode1 (l ++ [v]) (proj1 Hg1) Ht1 Hr'
                ltac:(rewrite <- El; lia)
                ltac:(rewrite <- El;
                      replace (Z.of_nat (length l) + 1
                               + Z.of_nat (length rest))
                        with (Z.of_nat (length l)
                              + Z.of_nat (S (length rest))) by lia; lia))
      as (d2 & m2 & inode2 & He2 & Ht2 & Hg2 & Hs2 & Hc2).
    exists d2, m2, inode2. split; [exact He2|].
    rewrite <- app_assoc in Ht2. split; [exact Ht2|].
    split; [eapply grows_trans; eauto|].
    split; [eapply same_meta_trans; eauto|].
    rewrite Hc2, Hc1, <- El.
    replace (Z.of_nat (length l) + 1 + Z.of_nat (length rest))
      with (Z.of_nat (length l) + Z.of_nat (S (length rest))) by lia.
    lia.
Qed.

(** ** Reading the block list back *)

Lemma filter_nonzero (l : list Z) k :
  Forall entry_ok l ->
  filter (fun p => p <> 0) (l ++ repeat 0 k) = l.
Proof.
  intros H. rewrite filter_app.
  assert (Hz : filter (fun p : Z => p <> 0) (repeat 0 k) = []).
  { induction k as [|k IH]; [reflexivity|]. cbn [repeat].
    rewrite filter_cons_False by (intros E; apply E; reflexivity).
    exact IH. }
  rewrite Hz, app_nil_r.
  induction H as [|x l [Hx _] Hl IH]; [reflexivity|].
  rewrite filter_cons_True by exact Hx. f_equal. exact IH.
Qed.

Lemma collect_chunks d ptrs :
  forall l3,
    (forall (j : nat) (t : Z),
       ptrs !! j = Some t -> read_indirect_block d t = Some (chunk l3 j)) ->
    (length l3 <= 1024 * length ptrs)%nat ->
    collect_indirect d ptrs = Some l3.
Proof.
  induction ptrs as [|t ptrs IH]; intros l3 Hch Hlen.
  - destruct l3; [reflexivity|simpl in Hlen; lia].
  - cbn [collect_indirect]. rewrite (Hch 0%nat t eq_refl).
    rewrite (IH (drop 1024 l3)).
    + unfold chunk. rewrite Nat.mul_0_r, drop_0, take_drop. reflexivity.
    + intros j x Hj. rewrite (Hch (S j) x Hj). unfold chunk.
      rewrite drop_drop. do 3 f_equal. lia.
    + rewrite length_drop. cbn [length] in Hlen. lia.
Qed.

Lemma tiers_join l : tier1 l ++ tier2 l ++ tier3 l = l.
Proof.
  unfold tier1, tier2, tier3.
  replace (drop 1034 l) with (drop 1024 (drop 10 l))
    by (rewrite drop_drop; reflexivity).
  rewrite take_drop, take_drop. reflexivity.
Qed.

(** [get_data_blocks] finds the block list that the pointers lead to. *)
Lemma tree_blocks d m0 m inode l :
  pool_ok d m -> tree_ok d m0 m inode l -> data_blocks_of d inode = Some l.
Proof.
  intros Hp (Hall & Hsub & Hdir & Hsing & ptrs & Hdbl).
  unfold data_blocks_of. rewrite Hdir.
  rewrite filter_nonzero by (apply Forall_take, Hall).
  replace (Some l) with (Some (tier1 l ++ tier2 l ++ tier3 l))
    by (rewrite tiers_join; reflexivity).
  unfold single_ok in Hsing. unfold double_ok in Hdbl.
  assert (H1 : (if Inode.indirect_block inode =? -1 then Some (tier1 l)
                else match read_indirect_block d (Inode.indirect_block inode)
                     with
                     | Some indirect_blocks =>
                         Some (tier1 l ++ indirect_blocks)
                     | None => None
                     end) = Some (tier1 l ++ tier2 l)).
  { destruct (tier2 l) as [|a l2].
    - rewrite Hsing. rewrite app_nil_r. reflexivity.
    - destruct Hsing as [Ho Hr].
      destruct (owned_range _ _ _ _ Hp Ho) as (_ & _ & Hn & _).
      destruct (Z.eqb_spec (Inode.indirect_block inode) (-1));
        [contradiction|].
      rewrite Hr. reflexivity. }
  rewrite H1.
  destruct (tier3 l) as [|a l3] eqn:E3.
  - destruct Hdbl as [-> _]. rewrite app_nil_r. reflexivity.
  - destruct Hdbl as (Hlen & Ho & Hr & _ & _ & Hch).
    destruct (owned_range _ _ _ _ Hp Ho) as (_ & _ & Hn & _).
    destruct (Z.eqb_spec (Inode.double_indirect_block inode) (-1));
      [contradiction|].
    rewrite Hr. rewrite (collect_chunks d ptrs (a :: l3) Hch).
    + rewrite <- app_assoc. reflexivity.
    + revert Hlen. generalize (length (a :: l3)). intros len3 Hlen.
      Z.div_mod_to_equations. lia.
Qed.

(** The block list stays when the indirect blocks stay. *)
Lemma tree_ok_transfer d m0 m inode l d' inode' :
  tree_ok d m0 m inode l ->
  (forall x, owned m0 m x -> Disk.read_block d' x = Disk.read_block d x) ->
  same_pointers inode inode' ->
  tree_ok d' m0 m inode' l.
Proof.
  intros (Hall & Hsub & Hdir & Hsing & ptrs & Hdbl) Hfr (Pd & Pi & Pdd).
  unfold tree_ok. split; [exact Hall|]. split; [exact Hsub|].
  split; [congruence|]. split.
  - eapply single_ok_keep; eauto using same_table_refl.
  - exists ptrs. unfold double_ok in *.
    destruct (tier3 l) as [|a l3]; [rewrite Pdd; exact Hdbl|].
    destruct Hdbl as (Hlen & Ho & Hr & Hnd & Hop & Hch).
    split; [exact Hlen|]. unfold double_held. rewrite Pi, Pdd.
    split; [exact Ho|]. split.
    { rewrite (read_indirect_frame d d') by (apply Hfr, Ho). exact Hr. }
    split; [exact Hnd|]. split; [exact Hop|].
    intros j t Hj. rewrite (read_indirect_frame d d'); [apply Hch, Hj|].
    apply Hfr. rewrite Forall_forall in Hop. apply Hop.
    eapply list_elem_of_lookup_2; eauto.
Qed.

End Refill.
Section Allocate.
Import InodeMgr.

(** ** The layout of a mounted file system *)

Lemma store_layout d m : store_ok d m -> layout_ok m.
Proof.
  intros (Hd & Ht & Hi & Hl & Hib & Hibn & Hdb & Hdbn).
  pose proof (calculate_layout_facts d (proj1 (proj2 Hd)))
    as (H1 & H2 & H3 & H4 & H5 & H6 & H7).
  rewrite <- Hl in *. unfold layout_ok. split; [|lia].
  intros n Hn.
  unfold get_total_inodes, Bitmap.get_total_bits in Hn.
  rewrite Hi, Hibn in Hn. change (BLOCK_SIZE / sizeof_Inode) with 42 in Hn.
  assert (n / 42 < inode_table_blocks (layout m))
    by (apply Z.div_lt_upper_bound; lia).
  assert (0 <= n / 42) by (apply Z.div_pos; lia).
  lia.
Qed.

Lemma layout_ok_same m m' : same_table m m' -> layout_ok m -> layout_ok m'.
Proof.
  intros H (L1 & L2). unfold layout_ok.
  rewrite (same_table_total _ _ H). destruct H as (_ & -> & _).
  split; assumption.
Qed.

Lemma layout_table_outside m : layout_ok m -> table_outside m.
Proof.
  intros (L1 & L0 & L2 & L3) n Hn. specialize (L1 n Hn).
  unfold in_data_region. lia.
Qed.

(** ** The slot of an inode *)

Lemma read_inode_slot d m n inode :
  read_inode d m n = Some inode -> slot_ok d m n.
Proof.
  unfold read_inode, check_initialized. intros H.
  destruct (initialized m) eqn:Hi; [|discriminate]. cbn [negb] in H.
  destruct (get_inode_position m n) as [[bn off]|] eqn:Hpos; [|discriminate].
  destruct (get_inode_position_Some _ _ _ _ Hpos) as (Hn & -> & _).
  destruct (Disk.read_block d _) as [buffer|] eqn:Hr; [|discriminate].
  destruct (read_block_Some _ _ _ Hr) as (_ & Hb & _).
  unfold slot_ok. auto.
Qed.

Lemma slot_ok_same d m n d' m' :
  slot_ok d m n -> same_table m m' -> total_blocks d' = total_blocks d ->
  slot_ok d' m' n.
Proof.
  intros (S1 & S2 & S3) H Ht. unfold slot_ok.
  rewrite (same_table_total _ _ H), Ht. destruct H as (-> & -> & _). auto.
Qed.

Lemma write_inode_ok d m n inode :
  disk_ok d -> slot_ok d m n ->
  exists d', write_inode d m n inode = (true, d').
Proof.
  intros Hd (Hi & Hn & Hb). unfold write_inode, check_initialized.
  rewrite Hi. cbn [negb]. unfold get_inode_position.
  destruct (Z.ltb_spec n 0); [lia|].
  destruct (Z.leb_spec (get_total_inodes m) n); [lia|]. cbn [orb].
  change (BLOCK_SIZE / sizeof_Inode) with 42.
  destruct (read_block_ok d _ Hd Hb) as (buffer & Hr & _). rewrite Hr.
  apply write_block_ok; assumption.
Qed.

(** ** Taking several blocks *)

Lemma free_le_total b : bitmap_ok b -> free_bits_count b <= total_bits b.
Proof.
  intros [(Ht & _) Hc]. rewrite Hc. unfold zero_bits.
  destruct (bitmap_data b) as [data|]; [|lia].
  pose proof (count_free_bounds data 0 (Z.to_nat (total_bits b))). lia.
Qed.

Lemma allocate_multiple_loop_spec d k :
  forall m acc,
    pool_ok d m -> Z.of_nat k <= free_bits_count (data_bitmap m) ->
    exists bs m',
      allocate_multiple_loop k acc m = (Some (acc ++ bs), m')
      /\ length bs = k /\ NoDup bs
      /\ Forall (fun b => in_data_region m b /\ ~ block_taken m b
                          /\ block_taken m' b) bs
      /\ pool_ok d m' /\ same_table m m'
      /\ (forall x, block_taken m x -> block_taken m' x)
      /\ free_bits_count (data_bitmap m')
         = free_bits_count (data_bitmap m) - Z.of_nat k.
Proof.
  induction k as [|k IH]; intros m acc Hp Hfree.
  - exists [], m. rewrite app_nil_r. split; [reflexivity|].
    split; [reflexivity|]. split; [constructor|]. split; [constructor|].
    split; [exact Hp|]. split; [apply same_table_refl|].
    split; [auto|]. simpl. lia.
  - destruct (allocate_single_block_spec d m Hp ltac:(lia))
      as (y & m1 & Ha & Htk & Hp1).
    assert (Htk' := Htk).
    destruct Htk' as (St & Hr & Hn & Hy & K & Hc).
    destruct (IH m1 (acc ++ [y]) Hp1 ltac:(lia))
      as (bs & m' & He & Hl & Hnd & Hall & Hp' & St' & K' & Hc').
    cbn [allocate_multiple_loop]. rewrite Ha, He.
    exists (y :: bs), m'. rewrite <- app_assoc. split; [reflexivity|].
    split; [simpl; lia|]. split.
    { apply NoDup_cons. split; [|exact Hnd]. intros Hin.
      rewrite Forall_forall in Hall. destruct (Hall _ Hin) as (_ & H & _).
      contradiction. }
    split.
    { constructor; [auto|].
      eapply Forall_impl; [exact Hall|]. intros b (B1 & B2 & B3).
      split; [apply (same_table_region _ _ _ St), B1|]. split; [|exact B3].
      intros H. apply B2, K, H. }
    split; [exact Hp'|]. split; [eapply same_table_trans; eauto|].
    split; [auto|]. lia.
Qed.

(** ** Saving the data bitmap *)

Lemma save_loop_spec data n :
  forall block ptr remaining_bytes d,
    disk_ok d -> 0 <= block -> block + Z.of_nat n <= total_blocks d ->
    exists d',
      Bitmap.save_loop n block data ptr remaining_bytes d = (true, d')
      /\ disk_ok d' /\ total_blocks d' = total_blocks d
      /\ (forall k, ~ (block <= k < block + Z.of_nat n) ->
                    Disk.read_block d' k = Disk.read_block d k).
Proof.
  induction n as [|n IH]; intros block ptr rem d Hd Hb Hn.
  - exists d. cbn [Bitmap.save_loop]. auto.
  - cbn [Bitmap.save_loop]. cbv zeta.
    set (buffer := if 0 <? Z.min BLOCK_SIZE rem
                   then splice BlockUtils.create_block_buffer 0
                          (slice data ptr (Z.min BLOCK_SIZE rem))
                   else BlockUtils.create_block_buffer).
    assert (Hlen : Z.of_nat (length buffer) = BLOCK_SIZE).
    { unfold buffer. destruct (Z.ltb_spec 0 (Z.min BLOCK_SIZE rem));
        [|apply length_create_block_buffer].
      pose proof (length_slice_le data ptr (Z.min BLOCK_SIZE rem)).
      pose proof length_create_block_buffer.
      rewrite length_splice; [assumption|lia|lia]. }
    destruct (write_block_ok d block buffer Hd ltac:(lia)) as [d1 Hw].
    rewrite Hw.
    destruct (write_block_effect _ _ _ _ Hd Hlen Hw)
      as (Hd1 & Ht1 & _ & _ & Hf1).
    destruct (IH (block + 1)
                (if 0 <? Z.min BLOCK_SIZE rem
                 then ptr + Z.min BLOCK_SIZE rem else ptr)
                (if 0 <? Z.min BLOCK_SIZE rem
                 then rem - Z.min BLOCK_SIZE rem else rem)
                d1 Hd1 ltac:(lia) ltac:(lia))
      as (d' & He & Hd' & Ht' & Hf').
    exists d'. split; [exact He|]. split; [exact Hd'|].
    split; [congruence|]. intros k Hk.
    rewrite Hf' by lia. apply Hf1. lia.
Qed.

Lemma save_data_bitmap_spec d m :
  pool_ok d m -> layout_ok m -> 0 < data_blocks_count (layout m) ->
  exists d' m',
    save_data_bitmap d m = (true, d', m')
    /\ pool_ok d' m' /\ total_blocks d' = total_blocks d
    /\ same_table m m'
    /\ (forall x, block_taken m x -> block_taken m' x)
    /\ (forall k, in_data_region m k \/ k < data_bitmap_start (layout m) ->
                  Disk.read_block d' k = Disk.read_block d k).
Proof.
  intros Hp (L1 & L0 & L2 & L3) Hcount.
  assert (Hp' := Hp).
  destruct Hp' as (Hd & Ht & Hs & Hc & Hle & Hbo & Htb).
  unfold save_data_bitmap, Bitmap.save_to_disk.
  assert (Hdata : exists data, bitmap_data (data_bitmap m) = Some data).
  { destruct Hbo as [(_ & _ & Hsh) _].
    destruct (bitmap_data (data_bitmap m)) as [data|]; [eauto|lia]. }
  destruct Hdata as [data Hdata].
  rewrite (shape_initialized _ _ (proj1 Hbo) Hdata). cbn [negb].
  cbn [bitmap_data Bitmap.set_blocks]. rewrite Hdata.
  destruct (save_loop_spec data (Z.to_nat (data_bitmap_blocks (layout m)))
              (data_bitmap_start (layout m)) 0
              (bitmap_size
                 (Bitmap.set_blocks (data_bitmap_start (layout m))
                    (data_bitmap_blocks (layout m)) (data_bitmap m)))
              d Hd L0 ltac:(lia))
    as (d' & He & Hd' & Ht' & Hf').
  rewrite He. eexists d', _. split; [reflexivity|].
  split.
  { unfold pool_ok. cbn [layout data_bitmap set_data_bitmap]. rewrite Ht'.
    split; [exact Hd'|]. split; [exact Ht|]. split; [exact Hs|].
    split; [exact Hc|]. split; [exact Hle|]. split; [exact Hbo|exact Htb]. }
  split; [exact Ht'|]. split; [apply same_table_set_data_bitmap|].
  split; [intros x Hx; exact Hx|].
  intros k Hk. apply Hf'. unfold in_data_region in Hk. lia.
Qed.

(** ** The pointers of a new file *)

Lemma pool_ok_disk d m d' :
  pool_ok d m -> disk_ok d' -> total_blocks d' = total_blocks d ->
  pool_ok d' m.
Proof.
  intros (_ & P2 & P3 & P4 & P5 & P6 & P7) Hd Ht.
  unfold pool_ok. rewrite Ht. auto 10.
Qed.

Lemma read_inode_frame d d' m n :
  (forall block_num offset_in_block,
     get_inode_position m n = Some (block_num, offset_in_block) ->
     Disk.read_block d' block_num = Disk.read_block d block_num) ->
  read_inode d' m n = read_inode d m n.
Proof.
  intros H. unfold read_inode.
  destruct (negb (check_initialized m)); [reflexivity|].
  destruct (get_inode_position m n) as [[bn off]|]; [|reflexivity].
  rewrite (H bn off eq_refl). reflexivity.
Qed.

Lemma tree_ok_manager d m0 m inode l m' :
  tree_ok d m0 m inode l -> same_table m m' ->
  (forall x, block_taken m x -> block_taken m' x) ->
  tree_ok d m0 m' inode l.
Proof.
  intros (Hall & Hsub & Hdir & Hsing & ptrs & Hdbl) St K.
  unfold tree_ok. split; [exact Hall|]. split; [auto|].
  split; [exact Hdir|]. split.
  - eapply single_ok_keep; eauto.
  - exists ptrs. unfold double_ok in *.
    destruct (tier3 l) as [|a l3]; [exact Hdbl|].
    destruct Hdbl as (Hlen & Ho & Hr & Hnd & Hop & Hch).
    split; [exact Hlen|]. split; [eapply owned_mono; eauto|].
    split; [exact Hr|]. split; [exact Hnd|]. split; [|exact Hch].
    eapply Forall_impl; [exact Hop|]. intros x. apply owned_mono; auto.
Qed.

Lemma tree_inode_wf d m0 m inode inode' l :
  pool_ok d m -> tree_ok d m0 m inode' l -> same_meta inode inode' ->
  inode_wf inode -> inode_wf inode'.
Proof.
  intros Hp (Hall & Hsub & Hdir & Hsing & ptrs & Hdbl)
    (M1 & M2 & M3 & M4 & M5 & M6 & M7 & M8)
    (W1 & W2 & W3 & W4 & W5 & W6 & W7 & W8 & W9 & W10 & W11 & W12).
  unfold inode_wf. rewrite M1, M2, M3, M4, M5, M6, M7, M8.
  split; [exact W1|]. split; [exact W2|]. split; [exact W3|].
  split; [exact W4|]. split; [exact W5|]. split; [exact W6|].
  split; [exact W7|]. split; [exact W8|].
  split.
  { rewrite Hdir, length_app, repeat_length. unfold tier1.
    rewrite length_take. lia. }
  split.
  { rewrite Hdir. apply Forall_app. split.
    - eapply Forall_impl; [apply Forall_take, Hall|].
      intros x [_ H]. exact H.
    - generalize (10 - length (tier1 l))%nat. intros k.
      induction k as [|k IH]; constructor;
        [unfold int_range; lia|exact IH]. }
  split.
  - unfold single_ok in Hsing. destruct (tier2 l) as [|a l2].
    + rewrite Hsing. unfold int_range. lia.
    + destruct Hsing as [Ho _].
      apply (owned_range _ _ _ _ Hp Ho).
  - unfold double_ok in Hdbl. destruct (tier3 l) as [|a l3].
    + destruct Hdbl as [-> _]. unfold int_range. lia.
    + destruct Hdbl as (_ & Ho & _).
      apply (owned_range _ _ _ _ Hp Ho).
Qed.

Lemma fresh_tree d m inode :
  pool_ok d m -> fresh_file inode -> tree_ok d m m inode [].
Proof.
  intros Hp (Hw & Hs & Hd & Hi & Hdd). unfold tree_ok.
  split; [constructor|]. split; [auto|]. split; [exact Hd|].
  split; [exact Hi|]. exists []. split; [exact Hdd|reflexivity].
Qed.

(** [update_inode_block_pointers] on a file without blocks. *)
Lemma update_pointers_fresh now d m n inode bs :
  pool_ok d m -> layout_ok m ->
  read_inode d m n = Some inode -> fresh_file inode -> time_range now ->
  Forall entry_ok bs ->
  Z.of_nat (length bs) <= 10 + 1024 + 1024 * 1024 ->
  indirect_blocks_needed (Z.of_nat (length bs))
  <= free_bits_count (data_bitmap m) ->
  exists d' m' inode',
    update_inode_block_pointers now d m n bs = (true, d', m')
    /\ pool_ok d' m' /\ total_blocks d' = total_blocks d
    /\ same_table m m'
    /\ (forall x, block_taken m x -> block_taken m' x)
    /\ read_inode d' m' n = Some inode'
    /\ inode_wf inode' /\ Inode.size inode' = 0
    /\ tree_ok d' m m' inode' bs.
Proof.
  intros Hp Hly Hread Hfresh Hnow Hbs Hcap Hfree.
  pose proof (read_inode_slot _ _ _ _ Hread) as Hslot.
  pose proof (fresh_tree d m inode Hp Hfresh) as Ht0.
  assert (Hfresh' := Hfresh).
  destruct Hfresh' as (Hw & Hsz & Hdir & Hind & Hdbl).
  unfold update_inode_block_pointers. rewrite Hread.
  unfold get_data_blocks, check_initialized.
  rewrite (proj1 Hslot), Hread. cbn [negb].
  rewrite (tree_blocks d m m inode [] Hp Ht0). cbn [app].
  cbn [Inode.indirect_block Inode.set_direct_blocks].
  rewrite Hind. change (-1 =? -1) with true. cbv iota.
  set (inode0 := Inode.set_direct_blocks
                   (repeat 0 (Z.to_nat DIRECT_BLOCKS_COUNT)) inode).
  assert (Ht00 : tree_ok d m m inode0 []).
  { unfold tree_ok. split; [constructor|]. split; [auto|].
    split; [reflexivity|]. split; [exact Hind|].
    exists []. split; [exact Hdbl|reflexivity]. }
  destruct (place_blocks_spec bs m d m inode0 [] Hp Ht00 Hbs
              ltac:(simpl; lia)
              ltac:(change (Z.of_nat (length (@nil Z))) with 0;
                    replace (0 + Z.of_nat (length bs))
                      with (Z.of_nat (length bs)) by lia;
                    change (indirect_blocks_needed 0) with 0; lia))
    as (d1 & m1 & inode1 & He & Ht1 & Hg1 & Hs1 & Hc1).
  change (Z.of_nat (length (@nil Z))) with 0 in He. cbn [app] in Ht1.
  rewrite He.
  destruct Hg1 as (Hp1 & Htot1 & St1 & K1 & Hf1).
  set (inode2 := Inode.set_modification_time now inode1).
  assert (Hslot1 : slot_ok d1 m1 n) by (eapply slot_ok_same; eauto).
  destruct (write_inode_ok d1 m1 n inode2 (proj1 Hp1) Hslot1) as [d2 Hwr].
  rewrite Hwr.
  destruct (write_inode_disk _ _ _ _ _ (proj1 Hp1) Hwr)
    as (Hd2 & Htot2 & Hf2).
  assert (Hwf1 : inode_wf inode1).
  { apply (tree_inode_wf d1 m m1 inode0 inode1 bs Hp1 Ht1 Hs1).
    destruct Hw as (W1 & W2 & W3 & W4 & W5 & W6 & W7 & W8 & W9 & W10
                    & W11 & W12).
    unfold inode_wf, inode0.
    cbn [Inode.set_direct_blocks Inode.mode Inode.owner_id Inode.group_id
         Inode.size Inode.access_time Inode.modification_time
         Inode.creation_time Inode.link_count Inode.direct_blocks
         Inode.indirect_block Inode.double_indirect_block].
    rewrite <- Hdir. auto 20. }
  assert (Hwf2 : inode_wf inode2).
  { destruct Hwf1 as (W1 & W2 & W3 & W4 & W5 & W6 & W7 & W8 & W9 & W10
                      & W11 & W12).
    unfold inode_wf, inode2.
    cbn [Inode.set_modification_time Inode.mode Inode.owner_id
         Inode.group_id Inode.size Inode.access_time
         Inode.modification_time Inode.creation_time Inode.link_count
         Inode.direct_blocks Inode.indirect_block
         Inode.double_indirect_block].
    auto 20. }
  exists d2, m1, inode2. split; [reflexivity|].
  split; [eapply pool_ok_disk; eauto|]. split; [congruence|].
  split; [exact St1|]. split; [exact K1|].
  split; [exact (read_inode_write_inode d1 m1 n inode2 d2 (proj1 Hp1)
                   Hwf2 Hwr)|].
  split; [exact Hwf2|]. split.
  { destruct Hs1 as (_ & _ & _ & Hsz1 & _). unfold inode2.
    cbn [Inode.set_modification_time Inode.size]. rewrite Hsz1.
    exact Hsz. }
  apply (tree_ok_transfer d1 m m1 inode1 bs d2 inode2 Ht1).
  - intros x (Hr & _). apply Hf2. intros ->.
    apply (same_table_region _ _ _ St1) in Hr.
    destruct Hslot as (_ & Hn & _).
    exact (layout_table_outside m Hly n Hn
             ltac:(destruct St1 as (_ & <- & _); exact Hr)).
  - repeat split.
Qed.

(** [allocate_data_blocks] on a file without blocks: [k] distinct blocks
    taken at [m1], and a block list that leads to them through indirect
    blocks taken after [m1]. *)
Lemma allocate_data_blocks_fresh now d m n inode k :
  pool_ok d m -> layout_ok m ->
  read_inode d m n = Some inode -> fresh_file inode -> time_range now ->
  0 < k <= 10 + 1024 + 1024 * 1024 ->
  k + indirect_blocks_needed k <= free_bits_count (data_bitmap m) ->
  exists bs d' m' m1 inode',
    allocate_data_blocks now d m n k = (Some bs, d', m')
    /\ pool_ok d' m' /\ total_blocks d' = total_blocks d
    /\ same_table m m'
    /\ read_inode d' m' n = Some inode'
    /\ inode_wf inode' /\ Inode.size inode' = 0
    /\ tree_ok d' m1 m' inode' bs
    /\ Z.of_nat (length bs) = k /\ NoDup bs
    /\ Forall (fun b => in_data_region m' b /\ block_taken m1 b) bs.
Proof.
  intros Hp Hly Hread Hfresh Hnow Hk Hfree.
  pose proof (read_inode_slot _ _ _ _ Hread) as Hslot.
  unfold allocate_data_blocks, check_initialized.
  rewrite (proj1 Hslot). cbn [negb orb].
  destruct (Z.leb_spec k 0); [lia|].
  pose proof (needed_mono 0 k ltac:(lia)) as Hn0.
  change (indirect_blocks_needed 0) with 0 in Hn0.
  unfold allocate_multiple_blocks.
  destruct (allocate_multiple_loop_spec d (Z.to_nat k) m [] Hp ltac:(lia))
    as (bs & m1 & Ha & Hlen & Hnd & Hall & Hp1 & St1 & K1 & Hc1).
  cbn [app] in Ha. rewrite Ha.
  assert (Hbs : Forall entry_ok bs).
  { eapply Forall_impl; [exact Hall|]. intros b (Hr & _).
    exact (in_data_region_int _ _ _ Hp Hr). }
  destruct (update_pointers_fresh now d m1 n inode bs Hp1
              (layout_ok_same _ _ St1 Hly)
              ltac:(rewrite (same_table_read_inode _ _ _ _ St1); exact Hread)
              Hfresh Hnow Hbs ltac:(lia)
              ltac:(rewrite Hlen, Hc1, Z2Nat.id by lia; lia))
    as (d2 & m2 & inode' & Hu & Hp2 & Ht2 & St2 & K2 & Hr2 & Hw2 & Hs2
        & Htree2).
  rewrite Hu.
  assert (St12 : same_table m m2) by (eapply same_table_trans; eauto).
  assert (Hcount : 0 < data_blocks_count (layout m2)).
  { destruct St12 as (_ & -> & _).
    destruct Hp as (_ & _ & _ & _ & _ & Hbo & Htb).
    pose proof (free_le_total _ Hbo). lia. }
  assert (Hly2 : layout_ok m2) by (eapply layout_ok_same; eauto).
  destruct (save_data_bitmap_spec d2 m2 Hp2 Hly2 Hcount)
    as (d3 & m3 & Hsv & Hp3 & Ht3 & St3 & K3 & Hf3).
  rewrite Hsv. exists bs, d3, m3, m1, inode'. split; [reflexivity|].
  split; [exact Hp3|]. split; [congruence|].
  split; [eapply same_table_trans; eauto|].
  split.
  { rewrite (same_table_read_inode _ _ _ _ St3), <- Hr2.
    apply read_inode_frame. intros bn off Hpos.
    destruct (get_inode_position_Some _ _ _ _ Hpos) as (Hn & -> & _).
    apply Hf3. right. destruct Hly2 as (L1 & _). apply L1, Hn. }
  split; [exact Hw2|]. split; [exact Hs2|].
  split.
  { apply (tree_ok_transfer d2 m1 m3 inode' bs d3 inode').
    - eapply tree_ok_manager; eauto.
    - intros x (Hr & _). apply Hf3. left.
      apply (same_table_region _ _ _ St3). exact Hr.
    - repeat split. }
  split; [lia|]. split; [exact Hnd|].
  eapply Forall_impl; [exact Hall|]. intros b (B1 & B2 & B3).
  split; [|exact B3].
  apply (same_table_region _ _ _ St3), (same_table_region _ _ _ St12).
  exact B1.
Qed.

End Allocate.
(* ====================================================================== *)
(** * Writing a file from its first byte
      (src/utils/file_operations_utils.cpp) *)
(* ====================================================================== *)

Section WriteBlocks.
Import FileOperationsUtils.

Lemma file_image_total d blocks :
  disk_ok d -> Forall (fun b => 0 <= b < total_blocks d) blocks ->
  exists img, file_image d blocks = Some img.
Proof.
  intros Hd. induction 1 as [|b rest Hb _ [img IH]].
  - exists []. reflexivity.
  - destruct (read_block_ok d b Hd Hb) as (buffer & Hr & _).
    exists (buffer ++ img). cbn [file_image]. rewrite Hr, IH. reflexivity.
Qed.

Lemma file_image_frame d d' blocks :
  (forall k, k ∈ blocks -> Disk.read_block d' k = Disk.read_block d k) ->
  file_image d' blocks = file_image d blocks.
Proof.
  induction blocks as [|b rest IH]; intros H; [reflexivity|].
  cbn [file_image]. rewrite (H b) by apply list_elem_of_here.
  rewrite IH; [reflexivity|]. intros k Hk. apply H.
  apply elem_of_cons. right. exact Hk.
Qed.

(** The loop of [write_data_to_blocks] from the start of a block: the
    blocks hold the buffer, followed by what the last block held. *)
Lemma write_loop_spec blocks :
  forall buffer bytes_written d size,
    disk_ok d -> NoDup blocks ->
    Forall (fun b => 0 <= b < total_blocks d) blocks ->
    Z.of_nat (length buffer) = size - bytes_written ->
    size - bytes_written <= BLOCK_SIZE * Z.of_nat (length blocks) ->
    exists d' tail,
      write_loop blocks 0 size bytes_written buffer d = (Some size, d')
      /\ disk_ok d' /\ total_blocks d' = total_blocks d
      /\ file_image d' blocks = Some (buffer ++ tail)
      /\ (forall k, k ∉ blocks ->
                    Disk.read_block d' k = Disk.read_block d k).
Proof.
  pose proof BLOCK_SIZE_pos as HB.
  induction blocks as [|b rest IH];
    intros buffer bw d size Hd Hnd Hr Hlen Hfit.
  - cbn [length] in Hfit. assert (size = bw) by lia. subst size.
    assert (buffer = []) by (destruct buffer; [reflexivity|simpl in Hlen; lia]).
    subst buffer. exists d, []. cbn [write_loop file_image].
    auto 10.
  - cbn [write_loop].
    apply NoDup_cons in Hnd. destruct Hnd as [Hb Hnd].
    inversion Hr as [|? ? Hbr Hr']; subst.
    destruct (Z.ltb_spec bw size) as [Hlt|Hge]; cbn [negb].
    + (* bytes remain *)
      set (rem := size - bw) in *.
      set (copy := Z.min (BLOCK_SIZE - 0) rem).
      assert (Hcopy : 0 < copy <= rem /\ copy <= BLOCK_SIZE)
        by (unfold copy; lia).
      destruct (read_block_ok d b Hd Hbr) as (old & Hold & Hlold).
      assert (Hsrc : exists block_buffer,
                 (if (0 <? 0) || (rem <? BLOCK_SIZE)
                  then Disk.read_block d b
                  else Some BlockUtils.create_block_buffer)
                 = Some block_buffer
                 /\ Z.of_nat (length block_buffer) = BLOCK_SIZE).
      { destruct ((0 <? 0) || (rem <? BLOCK_SIZE)).
        - exists old. auto.
        - exists BlockUtils.create_block_buffer.
          split; [reflexivity|apply length_create_block_buffer]. }
      destruct Hsrc as (blk & Hsrc & Hlblk). rewrite Hsrc. cbv zeta.
      fold copy.
      assert (Hlsl : Z.of_nat (length (slice buffer 0 copy)) = copy)
        by (rewrite length_slice by lia; lia).
      set (new_block := splice blk 0 (slice buffer 0 copy)).
      assert (Hlnew : Z.of_nat (length new_block) = BLOCK_SIZE).
      { unfold new_block. rewrite length_splice; lia. }
      destruct (write_block_ok d b new_block Hd Hbr) as [d1 Hw].
      rewrite Hw.
      destruct (write_block_effect _ _ _ _ Hd Hlnew Hw)
        as (Hd1 & Ht1 & _ & Hr1 & Hf1).
      destruct (IH (drop (Z.to_nat copy) buffer) (bw + copy) d1 size Hd1 Hnd
                  ltac:(rewrite Ht1; exact Hr')
                  ltac:(rewrite length_drop; lia)
                  ltac:(cbn [length] in Hfit; lia))
        as (d' & tail & He & Hd' & Ht' & Himg & Hf').
      rewrite He.
      exists d', (drop (Z.to_nat copy) blk ++ tail).
      split; [reflexivity|]. split; [exact Hd'|]. split; [congruence|].
      split.
      * cbn [file_image]. rewrite (Hf' b Hb), Hr1, Himg. f_equal.
        unfold new_block, splice, slice.
        change (Z.to_nat 0) with 0%nat. cbn [take drop app Nat.add].
        rewrite length_take, length_drop.
        replace (Z.to_nat copy `min` (length buffer - 0))%nat
          with (Z.to_nat copy) by lia.
        rewrite drop_0, take_0. cbn [app].
        destruct (decide (copy = BLOCK_SIZE)) as [E|E].
        -- rewrite (drop_ge blk) by lia. rewrite app_nil_r. cbn [app].
           rewrite app_assoc, take_drop. reflexivity.
        -- assert (copy = rem) by (unfold copy; lia).
           rewrite (take_ge buffer) by lia.
           rewrite (drop_ge buffer) by lia. cbn [app].
           rewrite <- app_assoc. reflexivity.
      * intros k Hk. rewrite Hf', Hf1; [reflexivity| |].
        -- intros ->. apply Hk, list_elem_of_here.
        -- intros Hin. apply Hk, elem_of_cons. right. exact Hin.
    + (* nothing remains *)
      assert (size = bw) by lia. subst size.
      assert (buffer = [])
        by (destruct buffer; [reflexivity|simpl in Hlen; lia]).
      subst buffer.
      destruct (file_image_total d (b :: rest) Hd Hr) as [img Himg].
      exists d, img. cbn [app]. auto 10.
Qed.

(** [write_data_to_blocks] from offset 0. *)
Lemma write_data_to_blocks_start d blocks buffer :
  disk_ok d -> blocks <> [] -> NoDup blocks ->
  Forall (fun b => 0 <= b < total_blocks d) blocks ->
  Z.of_nat (length buffer) <= BLOCK_SIZE * Z.of_nat (length blocks) ->
  exists d' tail,
    write_data_to_blocks d blocks 0 buffer (Z.of_nat (length buffer))
    = (true, d')
    /\ disk_ok d' /\ total_blocks d' = total_blocks d
    /\ file_image d' blocks = Some (buffer ++ tail)
    /\ (forall k, k ∉ blocks -> Disk.read_block d' k = Disk.read_block d k).
Proof.
  intros Hd Hne Hnd Hr Hfit.
  destruct (write_loop_spec blocks buffer 0 d (Z.of_nat (length buffer))
              Hd Hnd Hr ltac:(lia) ltac:(lia))
    as (d' & tail & He & Hd' & Ht' & Himg & Hf').
  unfold write_data_to_blocks.
  destruct blocks as [|b rest]; [contradiction|].
  change (Z.quot 0 BLOCK_SIZE) with 0. change (Z.rem 0 BLOCK_SIZE) with 0.
  change (Z.to_nat 0) with 0%nat. rewrite drop_0. cbv zeta. rewrite He.
  rewrite Z.eqb_refl. exists d', tail. auto 10.
Qed.

End WriteBlocks.
(* ====================================================================== *)
(** * The round trip through a new file (src/core/file_manager.cpp) *)
(* ====================================================================== *)

Section RoundTrip.

Lemma store_ok_disk d m d' :
  store_ok d m -> disk_ok d' -> total_blocks d' = total_blocks d ->
  store_ok d' m.
Proof.
  intros (Hd & Ht & Hi & Hl & Hrest) Hd' Htot. unfold store_ok.
  rewrite Htot. split; [exact Hd'|]. split; [exact Ht|].
  split; [exact Hi|]. split; [|exact Hrest].
  rewrite Hl. unfold Disk.calculate_layout. rewrite Htot. reflexivity.
Qed.

Lemma fresh_file_access_time now inode :
  fresh_file inode -> time_range now ->
  fresh_file (Inode.set_access_time now inode).
Proof.
  intros (Hw & Hrest) Hn. unfold fresh_file. split; [|exact Hrest].
  destruct Hw as (W1 & W2 & W3 & W4 & W5 & W6 & W7 & W8 & W9 & W10
                  & W11 & W12).
  unfold inode_wf.
  cbn [Inode.set_access_time Inode.mode Inode.owner_id Inode.group_id
       Inode.size Inode.access_time Inode.modification_time
       Inode.creation_time Inode.link_count Inode.direct_blocks
       Inode.indirect_block Inode.double_indirect_block].
  auto 20.
Qed.

(** ** After [open_file] *)

Lemma update_file_access_time_fresh now s k inode :
  store_ok (FS.disk s) (FS.inode_manager s) ->
  InodeMgr.read_inode (FS.disk s) (FS.inode_manager s) k = Some inode ->
  fresh_file inode -> time_range now ->
  store_ok (FS.disk (FileMgr.update_file_access_time now s k))
           (FS.inode_manager (FileMgr.update_file_access_time now s k))
  /\ FS.inode_manager (FileMgr.update_file_access_time now s k)
     = FS.inode_manager s
  /\ FS.mounted (FileMgr.update_file_access_time now s k) = FS.mounted s
  /\ FS.file_descriptors (FileMgr.update_file_access_time now s k)
     = FS.file_descriptors s
  /\ exists inode',
       InodeMgr.read_inode
         (FS.disk (FileMgr.update_file_access_time now s k))
         (FS.inode_manager (FileMgr.update_file_access_time now s k)) k
       = Some inode'
       /\ fresh_file inode'.
Proof.
  intros Hst Hr Hf Hn. unfold FileMgr.update_file_access_time. rewrite Hr.
  destruct (write_inode_ok (FS.disk s) (FS.inode_manager s) k
              (Inode.set_access_time now inode) (proj1 Hst)
              (read_inode_slot _ _ _ _ Hr)) as [d' Hw].
  rewrite Hw. cbn [snd FS.disk FS.inode_manager FS.mounted
                   FS.file_descriptors FS.set_disk].
  destruct (write_inode_disk _ _ _ _ _ (proj1 Hst) Hw) as (Hd' & Ht' & _).
  pose proof (fresh_file_access_time now inode Hf Hn) as Hf'.
  split; [eapply store_ok_disk; eauto|]. split; [reflexivity|].
  split; [reflexivity|]. split; [reflexivity|].
  exists (Inode.set_access_time now inode). split; [|exact Hf'].
  exact (read_inode_write_inode _ _ _ _ _ (proj1 Hst) (proj1 Hf') Hw).
Qed.

Lemma open_file_Done fuel now s0 p fd s :
  FileSystem.open_file fuel now s0 p (Z.lor OPEN_MODE_READ OPEN_MODE_WRITE)
  = Some (Done fd, s) ->
  FS.mounted s0 = true
  /\ exists s1,
       FS.disk s1 = FS.disk s0
       /\ FS.inode_manager s1 = FS.inode_manager s0
       /\ FS.mounted s1 = true
       /\ FS.file_descriptors s1 !! fd
          = Some (opened_descriptor (inode_of s0 p)
                    (Z.lor OPEN_MODE_READ OPEN_MODE_WRITE))
       /\ s = FileMgr.update_file_access_time now s1 (inode_of s0 p).
Proof.
  unfold FileSystem.open_file, FileSystem.ensure_mounted. intros H.
  destruct (FS.mounted s0) eqn:Hm; [|discriminate H]. cbn [negb] in H.
  split; [reflexivity|].
  unfold FileMgr.open_file in H. cbv zeta in H.
  fold (inode_of s0 p) in H.
  change (Z.land (Z.lor OPEN_MODE_READ OPEN_MODE_WRITE) OPEN_MODE_CREATE
          =? 0) with true in H.
  change (Z.land (Z.lor OPEN_MODE_READ OPEN_MODE_WRITE) OPEN_MODE_APPEND
          =? 0) with true in H.
  cbn [negb] in H.
  destruct (inode_of s0 p =? -1); [discriminate H|].
  unfold FileMgr.allocate_file_descriptor_for,
    FileMgr.allocate_file_descriptor in H.
  destruct (FileMgr.fd_search fuel (FS.file_descriptors s0) (FS.next_fd s0))
    as [fd'|]; [|discriminate H].
  destruct (fd' =? -1); [discriminate H|].
  injection H as <- <-.
  eexists. split; [|split; [|split; [|split; [|reflexivity]]]].
  - reflexivity.
  - reflexivity.
  - exact Hm.
  - cbn [FS.file_descriptors FS.set_file_descriptors FS.set_next_fd].
    apply lookup_insert_eq.
Qed.

(** ** The first write to a new file *)

Lemma blocks_for_facts n :
  0 < n -> n + BLOCK_SIZE - 1 < 2^31 ->
  0 < blocks_for n <= 10 + 1024 + 1024 * 1024
  /\ n <= BLOCK_SIZE * blocks_for n.
Proof.
  intros H1 H2. unfold blocks_for. rewrite BLOCK_SIZE_eq in *.
  change (2^31) with 2147483648 in H2.
  Z.div_mod_to_equations. lia.
Qed.

Lemma write_file_fresh now s fd desc inode buf :
  store_ok (FS.disk s) (FS.inode_manager s) ->
  FS.file_descriptors s !! fd = Some desc ->
  FileDescriptor.open desc = true ->
  Z.land (FileDescriptor.mode desc) OPEN_MODE_WRITE <> 0 ->
  FileDescriptor.position desc = 0 ->
  InodeMgr.read_inode (FS.disk s) (FS.inode_manager s)
    (FileDescriptor.inode_num desc) = Some inode ->
  fresh_file inode -> time_range now ->
  buf <> [] -> Z.of_nat (length buf) + BLOCK_SIZE - 1 < 2^31 ->
  blocks_for (Z.of_nat (length buf))
  + indirect_blocks_needed (blocks_for (Z.of_nat (length buf)))
  <= free_bits_count (data_bitmap (FS.inode_manager s)) ->
  exists s' inode' blocks tail,
    FileMgr.write_file now s fd buf (Z.of_nat (length buf))
    = (Done (Z.of_nat (length buf)), s')
    /\ FS.mounted s' = FS.mounted s
    /\ FS.file_descriptors s' !! fd
       = Some (FileDescriptor.set_position (Z.of_nat (length buf)) desc)
    /\ InodeMgr.read_inode (FS.disk s') (FS.inode_manager s')
         (FileDescriptor.inode_num desc) = Some inode'
    /\ Inode.size inode' = Z.of_nat (length buf)
    /\ InodeMgr.get_data_blocks (FS.disk s') (FS.inode_manager s')
         (FileDescriptor.inode_num desc) = Some blocks
    /\ file_image (FS.disk s') blocks = Some (buf ++ tail).
Proof.
  intros Hst Hfd Hop Hmode Hpos Hread Hfresh Hnow Hne Hsize Hfree.
  assert (HL : 0 < Z.of_nat (length buf))
    by (destruct buf; [contradiction|simpl; lia]).
  destruct (blocks_for_facts _ HL Hsize) as (HK & Hfit).
  pose proof (store_pool _ _ Hst) as Hp.
  pose proof (store_layout _ _ Hst) as Hly.
  pose proof BLOCK_SIZE_eq as HB.
  destruct (allocate_data_blocks_fresh now (FS.disk s) (FS.inode_manager s)
              (FileDescriptor.inode_num desc) inode
              (blocks_for (Z.of_nat (length buf)))
              Hp Hly Hread Hfresh Hnow HK Hfree)
    as (bs & d3 & m3 & m1 & inode3 & Ha & Hp3 & Ht3 & St3 & Hr3 & Hw3
        & Hs3 & Htree3 & Hlen3 & Hnd3 & Hall3).
  pose proof (read_inode_slot _ _ _ _ Hr3) as Hslot3.
  pose proof (layout_table_outside m3 (layout_ok_same _ _ St3 Hly)
                _ (proj1 (proj2 Hslot3))) as Htb.
  assert (Hrange3 : Forall (fun b => 0 <= b < total_blocks d3) bs).
  { eapply Forall_impl; [exact Hall3|]. intros b (Hr & _).
    pose proof (in_data_region_range _ _ _ Hp3 Hr). lia. }
  assert (Hgb3 : InodeMgr.get_data_blocks d3 m3
                   (FileDescriptor.inode_num desc) = Some bs).
  { unfold InodeMgr.get_data_blocks, InodeMgr.check_initialized.
    rewrite (proj1 Hslot3), Hr3. cbn [negb].
    exact (tree_blocks d3 m1 m3 inode3 bs Hp3 Htree3). }
  destruct (write_data_to_blocks_start d3 bs buf (proj1 Hp3)
              ltac:(intros E; rewrite E in Hlen3; simpl in Hlen3; lia)
              Hnd3 Hrange3 ltac:(rewrite Hlen3; exact Hfit))
    as (d4 & tail & Hwd & Hd4 & Ht4 & Himg4 & Hf4).
  set (inode4 := Inode.set_modification_time now
                   (Inode.set_size (Z.of_nat (length buf)) inode3)).
  assert (Hwf4 : inode_wf inode4).
  { destruct Hw3 as (W1 & W2 & W3 & W4 & W5 & W6 & W7 & W8 & W9 & W10
                     & W11 & W12).
    unfold inode_wf, inode4.
    cbn [Inode.set_modification_time Inode.set_size Inode.mode
         Inode.owner_id Inode.group_id Inode.size Inode.access_time
         Inode.modification_time Inode.creation_time Inode.link_count
         Inode.direct_blocks Inode.indirect_block
         Inode.double_indirect_block].
    assert (int_range (Z.of_nat (length buf)))
      by (unfold int_range; lia).
    auto 20. }
  assert (Hslot4 : slot_ok d4 m3 (FileDescriptor.inode_num desc))
    by (eapply slot_ok_same; [exact Hslot3|apply same_table_refl|exact Ht4]).
  destruct (write_inode_ok d4 m3 (FileDescriptor.inode_num desc) inode4
              Hd4 Hslot4) as [d5 Hwi].
  destruct (write_inode_disk _ _ _ _ _ Hd4 Hwi) as (Hd5 & Ht5 & Hf5).
  assert (Hbs_tb : forall b, b ∈ bs ->
            b <> inode_table_start (layout m3)
                 + FileDescriptor.inode_num desc / 42).
  { intros b Hb ->. rewrite Forall_forall in Hall3.
    destruct (Hall3 _ Hb) as (Hr & _). contradiction. }
  assert (Hg : FileMgr.get_file_descriptor s fd = Done desc)
    by (apply get_file_descriptor_Done; auto).
  unfold FileMgr.write_file. rewrite Hg.
  destruct (Z.eqb_spec (Z.land (FileDescriptor.mode desc) OPEN_MODE_WRITE) 0);
    [contradiction|].
  cbv zeta. rewrite Hread, Hpos, (proj1 (proj2 Hfresh)).
  change (Z.quot (int32 (0 + BLOCK_SIZE - 1)) BLOCK_SIZE) with 0.
  replace (Z.quot (int32 (0 + Z.of_nat (length buf) + BLOCK_SIZE - 1))
             BLOCK_SIZE)
    with (blocks_for (Z.of_nat (length buf))).
  2:{ rewrite int32_small_range by lia.
      rewrite Z.quot_div_nonneg by lia. unfold blocks_for.
      f_equal; lia. }
  replace (int32 (blocks_for (Z.of_nat (length buf)) - 0))
    with (blocks_for (Z.of_nat (length buf)))
    by (rewrite int32_small_range; lia).
  destruct (Z.ltb_spec 0 (blocks_for (Z.of_nat (length buf)))); [|lia].
  rewrite Ha. cbv beta iota. rewrite Hr3. cbv beta iota.
  cbn [FS.disk FS.inode_manager FS.set_store FS.set_inode_manager
       FS.set_disk].
  rewrite Hgb3, Hwd. cbv beta iota.
  rewrite Hs3.
  replace (int32 (0 + Z.of_nat (length buf))) with (Z.of_nat (length buf))
    by (rewrite int32_small_range; lia).
  rewrite Z.max_r by lia. fold inode4. rewrite Hwi. cbv beta iota.
  eexists _, inode4, bs, tail. split; [reflexivity|].
  split; [reflexivity|].
  split; [apply set_fd_position_lookup; exact Hfd|].
  cbn [FS.disk FS.inode_manager FileMgr.set_fd_position FS.set_store
       FS.set_inode_manager FS.set_disk FS.set_file_descriptors].
  split; [exact (read_inode_write_inode _ _ _ _ _ Hd4 Hwf4 Hwi)|].
  split; [reflexivity|].
  assert (Hp5 : pool_ok d5 m3)
    by (apply (pool_ok_disk d3 m3 d5 Hp3 Hd5); congruence).
  split.
  - unfold InodeMgr.get_data_blocks, InodeMgr.check_initialized.
    rewrite (proj1 Hslot3).
    rewrite (read_inode_write_inode _ _ _ _ _ Hd4 Hwf4 Hwi). cbn [negb].
    apply (tree_blocks d5 m1 m3 inode4 bs Hp5).
    apply (tree_ok_transfer d3 m1 m3 inode3 bs d5 inode4 Htree3).
    + intros x (Hr & _ & Hn).
      rewrite Hf5 by (intros ->; contradiction).
      apply Hf4. intros Hin. rewrite Forall_forall in Hall3.
      destruct (Hall3 _ Hin) as (_ & Htk). contradiction.
    + repeat split.
  - rewrite (file_image_frame d4 d5); [exact Himg4|].
    intros k Hk. apply Hf5, Hbs_tb, Hk.
Qed.

(** ** Seeking, reading and closing *)

Lemma seek_file_start s fd desc inode :
  FS.file_descriptors s !! fd = Some desc ->
  FileDescriptor.open desc = true ->
  InodeMgr.read_inode (FS.disk s) (FS.inode_manager s)
    (FileDescriptor.inode_num desc) = Some inode ->
  0 <= Inode.size inode ->
  FileMgr.seek_file s fd 0 = (Done tt, FileMgr.set_fd_position s fd 0).
Proof.
  intros Hfd Hop Hr Hs. unfold FileMgr.seek_file.
  rewrite (proj2 (get_file_descriptor_Done s fd desc) (conj Hfd Hop)), Hr.
  change (0 <? 0) with false.
  destruct (Z.ltb_spec (Inode.size inode) 0); [lia|]. reflexivity.
Qed.

Lemma update_file_access_time_mounted now s k :
  FS.mounted (FileMgr.update_file_access_time now s k) = FS.mounted s.
Proof.
  unfold FileMgr.update_file_access_time.
  destruct (InodeMgr.read_inode _ _ _); reflexivity.
Qed.

Lemma read_file_mounted now s fd n :
  FS.mounted (FileMgr.read_file now s fd n).2 = FS.mounted s.
Proof.
  unfold FileMgr.read_file.
  destruct (FileMgr.get_file_descriptor s fd) as [desc|e]; [|reflexivity].
  destruct (_ =? 0); [reflexivity|]. cbv zeta.
  destruct (InodeMgr.read_inode _ _ _) as [inode|]; [|reflexivity].
  destruct (_ <=? _); [reflexivity|].
  destruct (InodeMgr.get_data_blocks _ _ _) as [blocks|]; [|reflexivity].
  destruct (FileOperationsUtils.read_data_from_blocks _ _ _ _);
    [|reflexivity].
  cbn [snd]. rewrite update_file_access_time_mounted. reflexivity.
Qed.

Lemma close_file_Done now s fd desc :
  FS.file_descriptors s !! fd = Some desc ->
  (FileMgr.close_file now s fd).1 = Done tt.
Proof.
  intros H. unfold FileMgr.close_file. rewrite H. reflexivity.
Qed.

End RoundTrip.

Section RoundTripTheorem.

(** The round trip through a descriptor that [open_file] has returned.
    In a file system with a sound store, let [p] lead to an inode that
    holds no byte and no block, and let [open_file(p, READ|WRITE)] return
    the descriptor [fd]. Then for every buffer [buf] that is not empty,
    whose length plus a block stays an [int], and for whose data blocks and
    indirect blocks the data bitmap has free bits:
    [write_file(fd, buf, |buf|)] returns [|buf|], [seek_file(fd, 0)]
    succeeds, [read_file(fd, r, |buf|)] returns [|buf|] with [r = buf], and
    [close_file(fd)] succeeds. *)
Lemma round_trip_after_open (fuel : nat) (now_o now_w now_r now_c : Z)
    (s0 s : FS.t) (p : list ascii) (fd : Z) (inode : Inode.t)
    (buf : list Z) :
  store_ok (FS.disk s0) (FS.inode_manager s0) ->
  InodeMgr.read_inode (FS.disk s0) (FS.inode_manager s0) (inode_of s0 p)
  = Some inode ->
  fresh_file inode ->
  FileSystem.open_file fuel now_o s0 p (Z.lor OPEN_MODE_READ OPEN_MODE_WRITE)
  = Some (Done fd, s) ->
  time_range now_o -> time_range now_w ->
  buf <> [] ->
  Z.of_nat (length buf) + BLOCK_SIZE - 1 < 2^31 ->
  blocks_for (Z.of_nat (length buf))
  + indirect_blocks_needed (blocks_for (Z.of_nat (length buf)))
  <= free_bits_count (data_bitmap (FS.inode_manager s0)) ->
  round_trip now_w now_r now_c s fd buf
  = (Done (Z.of_nat (length buf)), Done tt,
     Done (Z.of_nat (length buf), buf), Done tt).
Proof.
  intros Hst0 Hread0 Hfresh0 Hopen Hno Hnw Hne Hsize Hfree.
  destruct (open_file_Done _ _ _ _ _ _ Hopen)
    as (Hm0 & s1 & Hd1 & Hmg1 & Hmt1 & Hfd1 & ->).
  set (k := inode_of s0 p) in *.
  set (desc := opened_descriptor k (Z.lor OPEN_MODE_READ OPEN_MODE_WRITE))
    in *.
  destruct (update_file_access_time_fresh now_o s1 k inode
              ltac:(rewrite Hd1, Hmg1; exact Hst0)
              ltac:(rewrite Hd1, Hmg1; exact Hread0) Hfresh0 Hno)
    as (Hst & Hmgr & Hmnt & Hfds & inode1 & Hr1 & Hf1).
  set (s := FileMgr.update_file_access_time now_o s1 k) in *.
  assert (HL : 0 < Z.of_nat (length buf))
    by (destruct buf; [contradiction|simpl; lia]).
  destruct (write_file_fresh now_w s fd desc inode1 buf Hst
              ltac:(rewrite Hfds; exact Hfd1) eq_refl
              ltac:(vm_compute; discriminate) eq_refl Hr1 Hf1 Hnw Hne Hsize
              ltac:(rewrite Hmgr, Hmg1; exact Hfree))
    as (sw & inodew & blocks & tail & Hw & Hmw & Hfdw & Hrw & Hszw & Hgbw
        & Himgw).
  assert (Hms : FS.mounted s = true) by congruence.
  unfold round_trip. cbv zeta.
  unfold FileSystem.write_file, FileSystem.ensure_mounted.
  rewrite Hms. cbn [negb]. rewrite Hw. cbv beta iota.
  unfold FileSystem.seek_file, FileSystem.ensure_mounted.
  rewrite Hmw, Hms. cbn [negb].
  rewrite (seek_file_start sw fd _ inodew Hfdw eq_refl Hrw ltac:(lia)).
  cbv beta iota.
  set (sk := FileMgr.set_fd_position sw fd 0).
  set (desck := FileDescriptor.set_position 0
                  (FileDescriptor.set_position (Z.of_nat (length buf))
                     desc)).
  assert (Hfdk : FS.file_descriptors sk !! fd = Some desck)
    by (apply set_fd_position_lookup; exact Hfdw).
  pose proof (read_file_within now_r sk fd (Z.of_nat (length buf)) desck
                inodew blocks (buf ++ tail) Hfdk eq_refl
                ltac:(vm_compute; discriminate) ltac:(lia) Hrw
                ltac:(rewrite Hszw; exact HL) ltac:(reflexivity)
                ltac:(rewrite Hszw; unfold int_range;
                      pose proof BLOCK_SIZE_pos; lia)
                Hgbw Himgw
                ltac:(rewrite Hszw, length_app; lia))
    as (Hres & _ & Hfdr).
  cbv zeta in Hres, Hfdr.
  pose proof (read_file_mounted now_r sk fd (Z.of_nat (length buf))) as Hmr.
  unfold FileSystem.read_file, FileSystem.ensure_mounted.
  replace (FS.mounted sk) with true by (symmetry; rewrite <- Hms, <- Hmw;
                                        reflexivity).
  cbn [negb].
  destruct (FileMgr.read_file now_r sk fd (Z.of_nat (length buf)))
    as [r sr] eqn:Er.
  cbn [fst snd] in Hres, Hfdr, Hmr.
  unfold FileSystem.close_file, FileSystem.ensure_mounted.
  replace (FS.mounted sr) with true
    by (rewrite Hmr; symmetry; rewrite <- Hms, <- Hmw; reflexivity).
  cbn [negb].
  pose proof (close_file_Done now_c sr fd _ Hfdr) as Hc.
  destruct (FileMgr.close_file now_c sr fd) as [c sc].
  cbn [fst] in Hc. subst c r.
  rewrite Hszw.
  change (FileDescriptor.position desck) with 0.
  replace (Z.min (Z.of_nat (length buf)) (Z.of_nat (length buf) - 0))
    with (Z.of_nat (length buf)) by lia.
  rewrite slice_app_here by reflexivity. reflexivity.
Qed.

End RoundTripTheorem.
(** C1 as the specification states it does not hold.

    A full directory block. In [fs_thirteen] the root holds fifteen
    entries in its one block; ["/n"] does not exist, its parent does, and
    there are free inodes and free data blocks. [create_file("/n", 0600)]
    returns inode 14, but [write_directory] has written back the inode of
    the root that it had read before the second block was allocated: the
    root has size 4224 and still the one block, the sixteenth entry is in
    no block of it, and [open_file("/n", READ|WRITE)] fails with
    [ERROR_FILE_NOT_FOUND]; so do the four calls on the descriptor -1.

    The empty buffer. On the freshly formatted image of 11 blocks
    [create_file("/a", 0600)] makes inode 1 and [open_file] returns
    descriptor 3; [write_file] of no bytes fails, since
    [write_data_to_blocks] refuses an empty block list.

    More blocks than are free. [write_file] of 24577 bytes, seven direct
    blocks where the data bitmap has six free, fails with
    [ERROR_NO_FREE_BLOCKS].

    A name of 256 characters. [create_file] enters its first 255
    characters, and [open_file] does not find the file. *)
Lemma round_trip_fails :
  (FS.mounted fs_thirteen = true
   /\ PathMgr.file_exists (FS.disk fs_thirteen)
        (FS.inode_manager fs_thirteen) (PathUtils.normalize_path path_n)
      = false
   /\ PathMgr.find_inode (FS.disk fs_thirteen)
        (FS.inode_manager fs_thirteen) ["/"%char] = 0
   /\ option_map length
        (DirMgr.read_directory (FS.disk fs_thirteen)
           (FS.inode_manager fs_thirteen) 0) = Some 15%nat
   /\ InodeMgr.get_data_blocks (FS.disk fs_thirteen)
        (FS.inode_manager fs_thirteen) 0 = Some [4]
   /\ InodeMgr.get_free_inodes (FS.inode_manager fs_thirteen) = 28
   /\ free_bits_count (data_bitmap (FS.inode_manager fs_thirteen)) = 6
   /\ create_round_trip 1 1 2 3 4 5 fs_thirteen path_n 0x600 [65; 66; 67]
      = Some (Done 14, Failed ERROR_FILE_NOT_FOUND,
              (Failed ERROR_INVALID_FILE_DESCRIPTOR,
               Failed ERROR_INVALID_FILE_DESCRIPTOR,
               Failed ERROR_INVALID_FILE_DESCRIPTOR,
               Failed ERROR_INVALID_FILE_DESCRIPTOR))
   /\ PathMgr.find_inode (FS.disk fs_fourteen)
        (FS.inode_manager fs_fourteen) path_n = -1
   /\ option_map Inode.size
        (InodeMgr.read_inode (FS.disk fs_fourteen)
           (FS.inode_manager fs_fourteen) 0) = Some 4224
   /\ InodeMgr.get_data_blocks (FS.disk fs_fourteen)
        (FS.inode_manager fs_fourteen) 0 = Some [4]
   /\ free_bits_count (data_bitmap (FS.inode_manager fs_fourteen)) = 5)
  /\ (FS.mounted (fresh_fs 11) = true
      /\ PathMgr.file_exists (FS.disk (fresh_fs 11))
           (FS.inode_manager (fresh_fs 11)) (PathUtils.normalize_path path_a)
         = false
      /\ PathMgr.find_inode (FS.disk (fresh_fs 11))
           (FS.inode_manager (fresh_fs 11)) ["/"%char] = 0
      /\ create_round_trip 1 1 2 3 4 5 (fresh_fs 11) path_a 0x600 []
         = Some (Done 1, Done 3,
                 (Failed ERROR_IO_ERROR, Done tt, Done (0, []), Done tt)))
  /\ (blocks_for (Z.of_nat (length seven_blocks)) = 7
      /\ free_bits_count (data_bitmap (FS.inode_manager (fresh_fs 11))) = 6
      /\ option_map (fun r => (r.1, r.2.1.1.1))
           (create_round_trip 1 1 2 3 4 5 (fresh_fs 11) path_a 0x600
              seven_blocks)
         = Some (Done 1, Done 3, Failed ERROR_NO_FREE_BLOCKS))
  /\ (PathMgr.file_exists (FS.disk (fresh_fs 11))
        (FS.inode_manager (fresh_fs 11)) (PathUtils.normalize_path path_long)
      = false
      /\ length (PathUtils.extract_filename
                   (PathUtils.normalize_path path_long)) = 256%nat
      /\ create_round_trip 1 1 2 3 4 5 (fresh_fs 11) path_long 0x600
           [65; 66; 67]
         = Some (Done 1, Failed ERROR_FILE_NOT_FOUND,
                 (Failed ERROR_INVALID_FILE_DESCRIPTOR,
                  Failed ERROR_INVALID_FILE_DESCRIPTOR,
                  Failed ERROR_INVALID_FILE_DESCRIPTOR,
                  Failed ERROR_INVALID_FILE_DESCRIPTOR))).
Proof.
  split.
  { split; [vm_compute; reflexivity|].
    split; [vm_compute; reflexivity|].
    split; [vm_compute; reflexivity|].
    split; [vm_compute; reflexivity|].
    split; [vm_compute; reflexivity|].
    split; [vm_compute; reflexivity|].
    split; [vm_compute; reflexivity|].
    split; [vm_compute; reflexivity|].
    split; [vm_compute; reflexivity|].
    split; [vm_compute; reflexivity|].
    split; vm_compute; reflexivity. }
  split.
  { split; [vm_compute; reflexivity|].
    split; [vm_compute; reflexivity|].
    split; vm_compute; reflexivity. }
  split.
  { split; [vm_compute; reflexivity|].
    split; vm_compute; reflexivity. }
  split; [vm_compute; reflexivity|].
  split; vm_compute; reflexivity.
Qed.
Lemma fresh_fs_disk_ok : disk_ok (FS.disk (fresh_fs 11)).
Proof.
  unfold disk_ok. split; [vm_compute; reflexivity|].
  split; vm_compute; discriminate.
Defined.

Lemma initialize_new_inode_wf now :
  time_range now -> inode_wf (InodeMgr.initialize_new_inode now).
Proof.
  intros H. unfold inode_wf, int_range. simpl.
  repeat split; try lia; try apply H.
  repeat constructor; lia.
Defined.

Lemma write_inode_isolation_witness :
  InodeMgr.read_inode
    (write_inodes
       (InodeMgr.write_inode (FS.disk (fresh_fs 11))
          (FS.inode_manager (fresh_fs 11)) 1
          (InodeMgr.initialize_new_inode 7)).2
       (FS.inode_manager (fresh_fs 11))
       [(2, InodeMgr.initialize_new_inode 9)]).2
    (FS.inode_manager (fresh_fs 11)) 1
  = Some (InodeMgr.initialize_new_inode 7).
Proof.
  refine (proj1 (write_inode_isolation (FS.disk (fresh_fs 11))
                   (FS.inode_manager (fresh_fs 11)) 1
                   (InodeMgr.initialize_new_inode 7)
                   [(2, InodeMgr.initialize_new_inode 9)] _ _ _ _ _)).
  - exact fresh_fs_disk_ok.
  - apply initialize_new_inode_wf. unfold time_range. lia.
  - vm_compute. reflexivity.
  - repeat constructor; simpl; lia.
  - vm_compute. reflexivity.
Defined.
(** ** Reads of the file of three bytes *)

Lemma fs_written_descriptor :
  FS.file_descriptors fs_written !! 3 = Some written_descriptor.
Proof. vm_compute. reflexivity. Qed.

Lemma fs_written_inode :
  InodeMgr.read_inode (FS.disk fs_written) (FS.inode_manager fs_written)
    (FileDescriptor.inode_num written_descriptor) = Some written_inode.
Proof. vm_compute. reflexivity. Qed.

Lemma fs_written_blocks :
  InodeMgr.get_data_blocks (FS.disk fs_written) (FS.inode_manager fs_written)
    (FileDescriptor.inode_num written_descriptor) = Some [5].
Proof. vm_compute. reflexivity. Qed.

Lemma fs_written_image :
  file_image (FS.disk fs_written) [5] = Some written_image.
Proof. vm_compute. reflexivity. Qed.

Lemma written_descriptor_reads :
  Z.land (FileDescriptor.mode written_descriptor) OPEN_MODE_READ <> 0.
Proof. vm_compute. discriminate. Qed.

Lemma written_image_covers :
  Inode.size written_inode <= Z.of_nat (length written_image).
Proof. vm_compute. discriminate. Qed.

Lemma fs_at_end_descriptor :
  FS.file_descriptors fs_at_end !! 3 = Some end_descriptor.
Proof. vm_compute. reflexivity. Qed.

Lemma fs_at_end_inode :
  InodeMgr.read_inode (FS.disk fs_at_end) (FS.inode_manager fs_at_end)
    (FileDescriptor.inode_num end_descriptor) = Some written_inode.
Proof. vm_compute. reflexivity. Qed.

Lemma end_descriptor_reads :
  Z.land (FileDescriptor.mode end_descriptor) OPEN_MODE_READ <> 0.
Proof. vm_compute. discriminate. Qed.

(** In [fs_written] the offset is 1 and the size 3: ten bytes asked for
    are the two bytes behind the offset, and the offset moves to 3. In
    [fs_at_end] the offset is 3: nothing is read and nothing changes. *)
Lemma read_file_clamped_witness :
  (let count :=
     Z.min 10 (Inode.size written_inode
               - FileDescriptor.position written_descriptor) in
   (FileMgr.read_file 4 fs_written 3 10).1
   = Done (count,
           slice written_image (FileDescriptor.position written_descriptor)
                 count)
   /\ Z.of_nat
        (length (slice written_image
                       (FileDescriptor.position written_descriptor) count))
      = count
   /\ FS.file_descriptors (FileMgr.read_file 4 fs_written 3 10).2 !! 3
      = Some (FileDescriptor.set_position
                (FileDescriptor.position written_descriptor + count)
                written_descriptor))
  /\ FileMgr.read_file 4 fs_at_end 3 10 = (Done (0, []), fs_at_end).
Proof.
  split.
  - refine (proj2 (read_file_clamped 4 fs_written 3 10 written_descriptor
                     written_inode fs_written_descriptor eq_refl
                     written_descriptor_reads _ fs_written_inode)
              [5] written_image _ _ _ fs_written_blocks fs_written_image
              written_image_covers).
    + lia.
    + vm_compute. reflexivity.
    + vm_compute. discriminate.
    + vm_compute. split; [discriminate|reflexivity].
  - refine (proj1 (read_file_clamped 4 fs_at_end 3 10 end_descriptor
                     written_inode fs_at_end_descriptor eq_refl
                     end_descriptor_reads _ fs_at_end_inode) _).
    + lia.
    + vm_compute. discriminate.
Defined.

(** The run of the witness: ten bytes asked for are two bytes read. *)
Example read_file_two_of_ten :
  (FileMgr.read_file 4 fs_written 3 10).1 = Done (2, [66; 67]).
Proof. vm_compute. reflexivity. Qed.

(** ** A read that is not clamped *)

(** C7 as the specification states it does not hold. In [fs_root_open]
    descriptor 3 is open for reading on the root directory, whose inode
    has size 4224 and one block: the fourteenth [create_file] has made
    [write_directory] allocate a second block and then write back the
    inode it had read before, with the new size and the old pointers.
    The offset 0 is before the size, and [read_file] of 5000 bytes
    returns -1 where the claim has [min(5000, 4224 - 0) = 4224]; the
    offset stays 0. *)
Lemma read_file_not_clamped :
  FS.mounted fs_root_open = true
  /\ FS.file_descriptors fs_root_open !! 3 = Some root_descriptor
  /\ FileDescriptor.open root_descriptor = true
  /\ Z.land (FileDescriptor.mode root_descriptor) OPEN_MODE_READ <> 0
  /\ 0 <= 5000
  /\ InodeMgr.read_inode (FS.disk fs_root_open)
       (FS.inode_manager fs_root_open)
       (FileDescriptor.inode_num root_descriptor) = Some crowded_root_inode
  /\ FileDescriptor.position root_descriptor < Inode.size crowded_root_inode
  /\ Z.min 5000 (Inode.size crowded_root_inode
                 - FileDescriptor.position root_descriptor) = 4224
  /\ InodeMgr.get_data_blocks (FS.disk fs_root_open)
       (FS.inode_manager fs_root_open)
       (FileDescriptor.inode_num root_descriptor) = Some [4]
  /\ (FileMgr.read_file 4 fs_root_open 3 5000).1 = Failed ERROR_IO_ERROR
  /\ (FileSystem.read_file 4 fs_root_open 3 5000).1 = Failed ERROR_IO_ERROR
  /\ FS.file_descriptors (FileSystem.read_file 4 fs_root_open 3 5000).2 !! 3
     = Some root_descriptor.
Proof.
  split; [vm_compute; reflexivity|].
  split; [vm_compute; reflexivity|].
  split; [reflexivity|].
  split; [vm_compute; discriminate|].
  split; [lia|].
  split; [vm_compute; reflexivity|].
  split; [vm_compute; reflexivity|].
  split; [vm_compute; reflexivity|].
  split; [vm_compute; reflexivity|].
  split; [vm_compute; reflexivity|].
  split; vm_compute; reflexivity.
Qed.
(** The round trip of ["ABC"] through ["/a"] on the image of 11 blocks. *)

Lemma fs_with_file_store :
  store_ok (FS.disk fs_with_file) (FS.inode_manager fs_with_file).
Proof.
  unfold store_ok, disk_ok, bitmap_ok, bitmap_shape, counter_ok.
  split; [split; [vm_compute; reflexivity|];
          split; vm_compute; discriminate|].
  split; [vm_compute; reflexivity|].
  split; [vm_compute; reflexivity|].
  split; [vm_compute; reflexivity|].
  split.
  { split; [|vm_compute; reflexivity].
    split; [vm_compute; discriminate|].
    split; [vm_compute; reflexivity|].
    vm_compute. split; reflexivity. }
  split; [vm_compute; reflexivity|].
  split.
  { split; [|vm_compute; reflexivity].
    split; [vm_compute; discriminate|].
    split; [vm_compute; reflexivity|].
    vm_compute. split; reflexivity. }
  vm_compute. reflexivity.
Qed.

Lemma fs_with_file_inode :
  InodeMgr.read_inode (FS.disk fs_with_file) (FS.inode_manager fs_with_file)
    (inode_of fs_with_file path_a) = Some created_inode.
Proof. vm_compute. reflexivity. Qed.

Lemma created_inode_fresh : fresh_file created_inode.
Proof.
  unfold fresh_file, inode_wf, int_range, time_range. cbn.
  repeat split; try reflexivity; try lia.
  repeat constructor; lia.
Qed.

Lemma fs_opened_result :
  option_map fst
    (FileSystem.open_file 1 2 fs_with_file path_a
       (Z.lor OPEN_MODE_READ OPEN_MODE_WRITE)) = Some (Done 3).
Proof. vm_compute. reflexivity. Qed.

Lemma fs_opened_eq :
  FileSystem.open_file 1 2 fs_with_file path_a
    (Z.lor OPEN_MODE_READ OPEN_MODE_WRITE) = Some (Done 3, fs_opened).
Proof.
  pose proof fs_opened_result as H. unfold fs_opened.
  destruct (FileSystem.open_file 1 2 fs_with_file path_a
              (Z.lor OPEN_MODE_READ OPEN_MODE_WRITE)) as [[r s]|].
  - injection H as ->. reflexivity.
  - discriminate H.
Qed.

Lemma fs_with_file_room :
  blocks_for (Z.of_nat (length [65; 66; 67]))
  + indirect_blocks_needed (blocks_for (Z.of_nat (length [65; 66; 67])))
  <= free_bits_count (data_bitmap (FS.inode_manager fs_with_file)).
Proof. vm_compute. discriminate. Qed.

(* ====================================================================== *)
(** * Block input and output (src/core/disk_simulator.cpp) *)
(* ====================================================================== *)

Section BlockDevice.
Import Disk.

Lemma blank_disk_ok : disk_ok (blank_disk 2).
Proof.
  unfold disk_ok. split; [vm_compute; reflexivity|].
  split; vm_compute; discriminate.
Qed.

Lemma is_ready_for_io_false d n :
  disk_open d = false \/ n < 0 \/ total_blocks d <= n ->
  is_ready_for_io d n = false.
Proof.
  intros H. unfold is_ready_for_io.
  destruct (disk_open d); cbn [negb]; [|reflexivity].
  destruct (Z.ltb_spec n 0); cbn [orb]; [reflexivity|].
  destruct (Z.leb_spec (total_blocks d) n); [reflexivity|].
  destruct H as [H|[H|H]]; [discriminate|lia|lia].
Qed.

(** X1. On an open disk, a block written with [write_block] at a block
    number of the disk is the block that [read_block] returns there, and
    every other block reads as before. *)
Theorem write_block_read_back (d : DiskSimulator) (n : Z) (buffer : list Z) :
  disk_ok d -> 0 <= n < total_blocks d ->
  Z.of_nat (length buffer) = BLOCK_SIZE ->
  exists d',
    write_block d n buffer = (true, d')
    /\ read_block d' n = Some buffer
    /\ (forall k, k <> n -> read_block d' k = read_block d k)
    /\ total_blocks d' = total_blocks d
    /\ disk_ok d'.
Proof.
  intros Hd Hn Hlen.
  destruct (write_block_ok d n buffer Hd Hn) as [d' Hw].
  destruct (write_block_effect d n buffer d' Hd Hlen Hw)
    as (Hd' & Ht & _ & Hr & Hf).
  exists d'. split; [exact Hw|]. split; [exact Hr|].
  split; [exact Hf|]. split; [exact Ht|exact Hd'].
Qed.

Lemma write_block_read_back_witness :
  exists d',
    write_block (blank_disk 2) 1 (repeat 7 4096) = (true, d')
    /\ read_block d' 1 = Some (repeat 7 4096)
    /\ (forall k, k <> 1 -> read_block d' k = read_block (blank_disk 2) k)
    /\ total_blocks d' = total_blocks (blank_disk 2)
    /\ disk_ok d'.
Proof.
  refine (write_block_read_back (blank_disk 2) 1 (repeat 7 4096) _ _ _).
  - exact blank_disk_ok.
  - vm_compute. split; [discriminate|reflexivity].
  - vm_compute. reflexivity.
Defined.

(** X2. [read_block] and [write_block] refuse a closed disk and a block
    number outside [0, total_blocks): nothing is read, and the disk is
    left as it was. After [close_disk] this holds for every block
    number. *)
Theorem block_io_rejected (d : DiskSimulator) (n : Z) (buffer : list Z) :
  (disk_open d = false \/ n < 0 \/ total_blocks d <= n ->
   read_block d n = None /\ write_block d n buffer = (false, d))
  /\ read_block (close_disk d) n = None
  /\ write_block (close_disk d) n buffer = (false, close_disk d).
Proof.
  assert (G : forall d', disk_open d' = false \/ n < 0 \/ total_blocks d' <= n ->
                         read_block d' n = None
                         /\ write_block d' n buffer = (false, d')).
  { intros d' H. unfold read_block, write_block.
    rewrite (is_ready_for_io_false d' n H). split; reflexivity. }
  split; [apply G|].
  apply G. left. unfold close_disk. destruct (disk_file d); reflexivity.
Qed.

(** X3. [calculate_layout] lays the regions out one after the other from
    block 0: superblock, inode table, inode bitmap, data bitmap, data
    region. Each bitmap has a bit for every inode, respectively for every
    data block, there is an inode for every ten blocks, and the data region
    ends where the disk ends. *)
Theorem calculate_layout_regions (d : DiskSimulator) :
  0 <= total_blocks d < 2^31 - BITS_PER_BLOCK ->
  let l := calculate_layout d in
  superblock_start l = 0 /\ superblock_blocks l = 1
  /\ inode_table_start l = superblock_start l + superblock_blocks l
  /\ inode_bitmap_start l = inode_table_start l + inode_table_blocks l
  /\ data_bitmap_start l = inode_bitmap_start l + inode_bitmap_blocks l
  /\ data_blocks_start l = data_bitmap_start l + data_bitmap_blocks l
  /\ 0 <= inode_table_blocks l /\ 0 <= inode_bitmap_blocks l
  /\ 0 <= data_bitmap_blocks l /\ 0 <= data_blocks_count l
  /\ total_blocks d <= 10 * (inode_table_blocks l * inodes_per_block) + 9
  /\ inode_table_blocks l * inodes_per_block
     <= inode_bitmap_blocks l * BITS_PER_BLOCK
  /\ data_blocks_count l <= total_blocks d
     <= data_bitmap_blocks l * BITS_PER_BLOCK
  /\ (data_blocks_start l < total_blocks d ->
      data_blocks_start l + data_blocks_count l = total_blocks d)
  /\ (total_blocks d <= data_blocks_start l -> data_blocks_count l = 0).
Proof.
  intros [HT _]. unfold calculate_layout. cbn zeta. cbn [superblock_start
    superblock_blocks inode_bitmap_start inode_bitmap_blocks
    inode_table_start inode_table_blocks data_bitmap_start data_bitmap_blocks
    data_blocks_start data_blocks_count].
  change inodes_per_block with 42. change BITS_PER_BLOCK with 32768.
  set (ic0 := (total_blocks d / 10 + 42 - 1) / 42 * 42).
  set (ic := if (ic0 =? 0) && (10 <? total_blocks d) then 42 else ic0).
  assert (Hic0 : 0 <= ic0 /\ total_blocks d / 10 <= ic0 /\ ic0 mod 42 = 0).
  { unfold ic0. split; [|split].
    - pose proof (Z.div_pos (total_blocks d) 10 HT ltac:(lia)).
      pose proof (Z.div_pos (total_blocks d / 10 + 42 - 1) 42
                    ltac:(lia) ltac:(lia)). lia.
    - Z.div_mod_to_equations. lia.
    - apply Z.mod_mul. lia. }
  assert (Hic : 0 <= ic /\ total_blocks d / 10 <= ic /\ ic mod 42 = 0).
  { unfold ic. destruct (Z.eqb_spec ic0 0) as [E|E]; cbn [andb];
      [|exact Hic0].
    destruct (10 <? total_blocks d); [|exact Hic0].
    split; [lia|]. split; [|reflexivity].
    destruct Hic0 as (_ & H & _). lia. }
  clearbody ic. clear ic0 Hic0. destruct Hic as (Hic & Hten & Hmod).
  assert (Hfull : ic / 42 * 42 = ic) by (Z.div_mod_to_equations; lia).
  rewrite Hfull.
  set (dbs := 0 + 1 + ic / 42 + (ic + 32768 - 1) / 32768
              + (total_blocks d + 32768 - 1) / 32768).
  assert (H1 : 0 <= ic / 42) by (Z.div_mod_to_equations; lia).
  assert (H2 : 0 <= (ic + 32768 - 1) / 32768
               /\ ic <= (ic + 32768 - 1) / 32768 * 32768)
    by (Z.div_mod_to_equations; lia).
  assert (H3 : 0 <= (total_blocks d + 32768 - 1) / 32768
               /\ total_blocks d
                  <= (total_blocks d + 32768 - 1) / 32768 * 32768)
    by (Z.div_mod_to_equations; lia).
  assert (H4 : total_blocks d <= 10 * ic + 9)
    by (Z.div_mod_to_equations; lia).
  assert (Hdbs : 0 <= dbs) by (unfold dbs; lia).
  destruct (Z.ltb_spec dbs (total_blocks d)); repeat split; lia.
Qed.

Lemma calculate_layout_regions_witness :
  let l := calculate_layout (blank_disk 2) in
  superblock_start l = 0 /\ superblock_blocks l = 1
  /\ inode_table_start l = superblock_start l + superblock_blocks l
  /\ inode_bitmap_start l = inode_table_start l + inode_table_blocks l
  /\ data_bitmap_start l = inode_bitmap_start l + inode_bitmap_blocks l
  /\ data_blocks_start l = data_bitmap_start l + data_bitmap_blocks l
  /\ 0 <= inode_table_blocks l /\ 0 <= inode_bitmap_blocks l
  /\ 0 <= data_bitmap_blocks l /\ 0 <= data_blocks_count l
  /\ total_blocks (blank_disk 2)
     <= 10 * (inode_table_blocks l * inodes_per_block) + 9
  /\ inode_table_blocks l * inodes_per_block
     <= inode_bitmap_blocks l * BITS_PER_BLOCK
  /\ data_blocks_count l <= total_blocks (blank_disk 2)
     <= data_bitmap_blocks l * BITS_PER_BLOCK
  /\ (data_blocks_start l < total_blocks (blank_disk 2) ->
      data_blocks_start l + data_blocks_count l = total_blocks (blank_disk 2))
  /\ (total_blocks (blank_disk 2) <= data_blocks_start l ->
      data_blocks_count l = 0).
Proof.
  refine (calculate_layout_regions (blank_disk 2) _).
  vm_compute. split; [discriminate|reflexivity].
Defined.

End BlockDevice.

(* ====================================================================== *)
(** * Bitmaps (src/core/bitmap_manager.cpp) *)
(* ====================================================================== *)

Section BitmapEffects.
Import Bitmap.

Lemma bitmap_ok_create size : 0 <= size -> bitmap_ok (create size).
Proof. intros H. split; [apply create_shape|apply create_counter]; exact H. Qed.

Lemma valid_bit_initialized b bit :
  bitmap_shape b -> is_valid_bit b bit = true ->
  check_initialized b = true
  /\ 0 <= bit < total_bits b
  /\ exists data, bitmap_data b = Some data.
Proof.
  intros Hs Hv. unfold is_valid_bit in Hv.
  apply andb_true_iff in Hv as [H1 H2].
  apply Z.leb_le in H1. apply Z.ltb_lt in H2.
  pose proof Hs as (_ & _ & Hd).
  destruct (bitmap_data b) as [data|] eqn:E; [|lia].
  split; [eapply shape_initialized; eauto|].
  split; [lia|]. exists data. reflexivity.
Qed.

Lemma all_taken b :
  bitmap_ok b -> free_bits_count b <= 0 ->
  forall j, 0 <= j < total_bits b -> is_allocated b j = true.
Proof.
  intros [Hs Hc] Hz j Hj. unfold counter_ok, zero_bits in Hc.
  pose proof Hs as (_ & _ & Hd).
  destruct (bitmap_data b) as [data|] eqn:E; [|lia].
  rewrite (is_allocated_test_bit b data j E Hj).
  pose proof (count_free_bounds data 0 (Z.to_nat (total_bits b))).
  apply (count_free_zero data 0 (Z.to_nat (total_bits b))); lia.
Qed.

Lemma is_allocated_valid b j : is_allocated b j = true -> is_valid_bit b j = true.
Proof.
  unfold is_allocated. destruct (is_valid_bit b j); [reflexivity|discriminate].
Qed.

(** X4. [allocate_bit] on a bitmap with a truthful counter: when it hands
    out a bit, that bit was free and is now allocated, no other bit has
    changed and the free counter has gone down by one; when it fails, the
    bitmap is unchanged and had no free bit. *)
Theorem allocate_bit_effect (b : BitmapManager) :
  bitmap_ok b ->
  match allocate_bit b with
  | (Some bit, b') =>
      is_allocated b bit = false /\ is_allocated b' bit = true
      /\ (forall j, j <> bit -> is_allocated b' j = is_allocated b j)
      /\ get_free_bits b' = get_free_bits b - 1
      /\ get_total_bits b' = get_total_bits b
      /\ bitmap_ok b'
  | (None, b') =>
      b' = b
      /\ forall j, 0 <= j < get_total_bits b -> is_allocated b j = true
  end.
Proof.
  intros Hok. pose proof Hok as [Hs Hc].
  destruct (allocate_bit b) as [[bit|] b'] eqn:Ha.
  - pose proof (allocate_bit_smallest b bit) as Hsm.
    rewrite Ha in Hsm. destruct (Hsm eq_refl) as (Hr & Hfree & _).
    pose proof (allocate_bit_is_allocated b bit b') as Hia.
    destruct (allocate_bit_zero_bits b bit b' Hs Ha) as (_ & Hf & Ht).
    pose proof (allocate_bit_ok b Hok) as Hok'. rewrite Ha in Hok'.
    split; [exact Hfree|]. split.
    { rewrite (Hia bit Hs Ha), Z.eqb_refl. unfold is_valid_bit.
      destruct (Z.leb_spec 0 bit); [|lia].
      destruct (Z.ltb_spec bit (total_bits b)); [|lia]. reflexivity. }
    split.
    { intros j Hj. rewrite (Hia j Hs Ha).
      destruct (Z.eqb_spec j bit); [contradiction|]. reflexivity. }
    split; [exact Hf|]. split; [exact Ht|exact Hok'].
  - split; [eapply allocate_bit_None; eauto|].
    apply all_taken; [exact Hok|].
    destruct (Z.le_gt_cases (free_bits_count b) 0) as [H|H]; [exact H|].
    destruct (allocate_bit_succeeds b Hok ltac:(lia)) as (x & y & E).
    congruence.
Qed.

Lemma allocate_bit_effect_witness :
  match allocate_bit (create 8) with
  | (Some bit, b') =>
      is_allocated (create 8) bit = false /\ is_allocated b' bit = true
      /\ (forall j, j <> bit -> is_allocated b' j = is_allocated (create 8) j)
      /\ get_free_bits b' = get_free_bits (create 8) - 1
      /\ get_total_bits b' = get_total_bits (create 8)
      /\ bitmap_ok b'
  | (None, b') =>
      b' = create 8
      /\ forall j, 0 <= j < get_total_bits (create 8) ->
                   is_allocated (create 8) j = true
  end.
Proof.
  refine (allocate_bit_effect (create 8) _).
  apply bitmap_ok_create. lia.
Defined.

(** X5. [free_bit] on a bitmap with a truthful counter: a bit number
    outside [0, total_bits) is refused and nothing changes; a bit number
    inside succeeds, leaves that bit free and every other bit as it was,
    and raises the free counter by one exactly when the bit was allocated,
    so that freeing a bit twice counts it once. *)
Theorem free_bit_effect (b : BitmapManager) (bit : Z) :
  bitmap_ok b ->
  (is_valid_bit b bit = false -> free_bit b bit = (false, b))
  /\ (is_valid_bit b bit = true -> (free_bit b bit).1 = true)
  /\ (forall j, is_allocated (free_bit b bit).2 j
                = negb (j =? bit) && is_allocated b j)
  /\ get_free_bits (free_bit b bit).2
     = get_free_bits b + (if is_allocated b bit then 1 else 0)
  /\ get_total_bits (free_bit b bit).2 = get_total_bits b
  /\ bitmap_ok (free_bit b bit).2
  /\ (free_bit (free_bit b bit).2 bit).2 = (free_bit b bit).2.
Proof.
  intros Hok. pose proof Hok as [Hs Hc].
  assert (Hno : forall b0, bitmap_shape b0 -> is_allocated b0 bit = false ->
                           (free_bit b0 bit).2 = b0).
  { intros b0 Hs0 Hn.
    destruct (free_bit_cases b0 bit Hs0)
      as [[E _]|[[E _]|(data & Ed & Hr & Ht & E)]];
      try (rewrite E; reflexivity).
    rewrite (is_allocated_test_bit b0 data bit Ed Hr) in Hn. congruence. }
  split.
  { intros Hv. unfold free_bit. rewrite Hv.
    rewrite orb_true_r. reflexivity. }
  split.
  { intros Hv.
    destruct (valid_bit_initialized b bit Hs Hv) as (Hi & Hr & data & Ed).
    unfold free_bit. rewrite Hi, Hv, Ed. cbn [negb orb].
    destruct (test_bit data bit); reflexivity. }
  split; [intros j; apply free_bit_is_allocated; exact Hs|].
  split.
  { unfold get_free_bits.
    destruct (is_allocated b bit) eqn:Ea.
    - apply free_bit_count; assumption.
    - rewrite (Hno b Hs Ea). lia. }
  split; [apply free_bit_total_bits|].
  split; [apply free_bit_ok; exact Hok|].
  apply Hno; [apply free_bit_shape; exact Hs|].
  rewrite (free_bit_is_allocated b bit bit Hs), Z.eqb_refl. reflexivity.
Qed.

Lemma free_bit_effect_witness :
  (is_valid_bit (allocate_bit (create 8)).2 0 = false ->
   free_bit (allocate_bit (create 8)).2 0
   = (false, (allocate_bit (create 8)).2))
  /\ (is_valid_bit (allocate_bit (create 8)).2 0 = true ->
      (free_bit (allocate_bit (create 8)).2 0).1 = true)
  /\ (forall j, is_allocated (free_bit (allocate_bit (create 8)).2 0).2 j
                = negb (j =? 0) && is_allocated (allocate_bit (create 8)).2 j)
  /\ get_free_bits (free_bit (allocate_bit (create 8)).2 0).2
     = get_free_bits (allocate_bit (create 8)).2
       + (if is_allocated (allocate_bit (create 8)).2 0 then 1 else 0)
  /\ get_total_bits (free_bit (allocate_bit (create 8)).2 0).2
     = get_total_bits (allocate_bit (create 8)).2
  /\ bitmap_ok (free_bit (allocate_bit (create 8)).2 0).2
  /\ (free_bit (free_bit (allocate_bit (create 8)).2 0).2 0).2
     = (free_bit (allocate_bit (create 8)).2 0).2.
Proof.
  refine (free_bit_effect (allocate_bit (create 8)).2 0 _).
  apply allocate_bit_ok, bitmap_ok_create. lia.
Defined.

Lemma land_lor_lnot a m : Z.land a m = 0 -> Z.land (Z.lor a m) (Z.lnot m) = a.
Proof.
  intros H. apply Z.bits_inj'. intros k Hk.
  rewrite Z.land_spec, Z.lor_spec, Z.lnot_spec by exact Hk.
  pose proof (f_equal (fun v => Z.testbit v k) H) as Hb. cbn beta in Hb.
  rewrite Z.land_spec, Z.bits_0 in Hb.
  destruct (Z.testbit a k), (Z.testbit m k); try reflexivity; discriminate.
Qed.

(** X6. [free_bit] undoes [allocate_bit]: freeing the bit that
    [allocate_bit] has just handed out succeeds and gives back the bitmap
    as it was before, array and counter. *)
Theorem free_bit_undoes_allocate_bit (b b' : BitmapManager) (bit : Z) :
  bitmap_shape b -> allocate_bit b = (Some bit, b') ->
  free_bit b' bit = (true, b)
  /\ allocate_bit (free_bit b' bit).2 = (Some bit, b').
Proof.
  intros Hs Ha.
  assert (G : free_bit b' bit = (true, b)); [|rewrite G; split; [reflexivity|exact Ha]].
  pose proof (allocate_bit_shape b bit b' Hs Ha) as Hs'.
  destruct (allocate_bit_Some b bit b' Hs Ha)
    as (data & Ed & Hr & Hfree & _ & Eb').
  pose proof (shape_byte_index b data bit Hs Ed Hr) as Hidx.
  set (i := Z.to_nat (bit / 8)) in *.
  set (m := Z.shiftl 1 (bit mod 8)) in *.
  assert (Hbyte : Z.land (data !!! i) m = 0).
  { unfold test_bit in Hfree. fold i m in Hfree.
    destruct (Z.eqb_spec (Z.land (data !!! i) m) 0); [assumption|discriminate]. }
  assert (Hset : is_allocated b' bit = true).
  { rewrite (allocate_bit_is_allocated b bit b' bit Hs Ha), Z.eqb_refl.
    unfold is_valid_bit.
    destruct (Z.leb_spec 0 bit); [|lia].
    destruct (Z.ltb_spec bit (total_bits b)); [|lia]. reflexivity. }
  destruct (free_bit_cases b' bit Hs')
    as [[E Hn]|[[E [Hn _]]|(data' & Ed' & Hr' & Ht' & E)]].
  - congruence.
  - congruence.
  - rewrite E. f_equal. rewrite Eb' in Ed'. cbn in Ed'.
    injection Ed' as <-. fold i m.
    rewrite list_lookup_total_insert_eq by exact Hidx.
    rewrite land_lor_lnot by exact Hbyte.
    rewrite list_insert_insert_eq.
    rewrite list_insert_id
      by (apply list_lookup_lookup_total_lt; exact Hidx).
    rewrite Eb'. destruct b; cbn in *. subst.
    unfold set_free_bits_count, set_data. cbn. f_equal. lia.
Qed.

Lemma free_bit_undoes_allocate_bit_witness :
  free_bit (allocate_bit (create 8)).2 0 = (true, create 8)
  /\ allocate_bit (free_bit (allocate_bit (create 8)).2 0).2
     = (Some 0, (allocate_bit (create 8)).2).
Proof.
  refine (free_bit_undoes_allocate_bit (create 8) (allocate_bit (create 8)).2
            0 _ _).
  - apply create_shape. lia.
  - vm_compute. reflexivity.
Defined.

(** X7. On every bitmap reached from the constructor through
    [allocate_bit], [free_bit], [clear_all] and loads that succeed, the
    cached free counter is the number of zero bits of the array; it lies
    between 0 and [total_bits], and [allocate_bit] fails exactly when it
    is 0. *)
Theorem bitmap_counter_truthful (b : BitmapManager) :
  bitmap_reachable b ->
  get_free_bits b = zero_bits b
  /\ 0 <= get_free_bits b <= get_total_bits b
  /\ get_used_bits b + zero_bits b = get_total_bits b
  /\ ((allocate_bit b).1 = None <-> get_free_bits b = 0).
Proof.
  intros Hr. pose proof (bitmap_reachable_ok b Hr) as Hok.
  pose proof Hok as [Hs Hc]. unfold counter_ok in Hc.
  unfold get_free_bits, get_total_bits, get_used_bits.
  assert (Hb : 0 <= zero_bits b <= total_bits b).
  { unfold zero_bits. destruct Hs as (Ht & _).
    destruct (bitmap_data b); [|lia].
    pose proof (count_free_bounds l 0 (Z.to_nat (total_bits b))). lia. }
  split; [exact Hc|]. split; [lia|]. split; [lia|].
  split.
  - intros Hn.
    destruct (Z.le_gt_cases (free_bits_count b) 0) as [H|H]; [lia|].
    destruct (allocate_bit_succeeds b Hok H) as (x & y & E).
    rewrite E in Hn. discriminate.
  - intros Hz. unfold allocate_bit.
    destruct (check_initialized b); cbn [negb]; [|reflexivity].
    unfold find_free_bit. destruct (bitmap_data b); [|reflexivity].
    rewrite Hz. reflexivity.
Qed.

Lemma bitmap_counter_truthful_witness :
  get_free_bits (free_bit (allocate_bit (create 8)).2 0).2
  = zero_bits (free_bit (allocate_bit (create 8)).2 0).2
  /\ 0 <= get_free_bits (free_bit (allocate_bit (create 8)).2 0).2
     <= get_total_bits (free_bit (allocate_bit (create 8)).2 0).2
  /\ get_used_bits (free_bit (allocate_bit (create 8)).2 0).2
     + zero_bits (free_bit (allocate_bit (create 8)).2 0).2
     = get_total_bits (free_bit (allocate_bit (create 8)).2 0).2
  /\ ((allocate_bit (free_bit (allocate_bit (create 8)).2 0).2).1 = None
      <-> get_free_bits (free_bit (allocate_bit (create 8)).2 0).2 = 0).
Proof.
  refine (bitmap_counter_truthful _ _).
  apply reach_free, reach_allocate, reach_create. lia.
Defined.

End BitmapEffects.
(* ====================================================================== *)
(** * Blocks and inodes (src/core/inode_manager.cpp) *)
(* ====================================================================== *)

Section IndirectReadBack.
Import InodeMgr.

Lemma write_entries_cut l1 l2 :
  forall buffer i,
    i + Z.of_nat (length l1) = 1024 ->
    write_entries buffer i (l1 ++ l2) = write_entries buffer i l1.
Proof.
  induction l1 as [|v l1 IH]; intros buffer i Hi.
  - cbn [app write_entries length] in *.
    destruct l2 as [|w l2]; [reflexivity|]. cbn [write_entries].
    change (BLOCK_SIZE / sizeof_int) with 1024.
    destruct (Z.ltb_spec i 1024); [lia|reflexivity].
  - cbn [app write_entries]. destruct (i <? BLOCK_SIZE / sizeof_int);
      [|reflexivity].
    apply IH. cbn [length] in Hi. lia.
Qed.

Lemma write_entries_take l :
  write_entries BlockUtils.create_block_buffer 0 l
  = write_entries BlockUtils.create_block_buffer 0 (take 1024 l).
Proof.
  destruct (decide (length l <= 1024)%nat) as [H|H].
  - rewrite take_ge by exact H. reflexivity.
  - rewrite <- (take_drop 1024 l) at 1.
    apply write_entries_cut. rewrite length_take. lia.
Qed.

Lemma read_entries_until_zero l :
  forall (pre : list Z) (k : Z) (n z : nat),
    Forall int_range l ->
    0 <= k -> Z.of_nat (length pre) = 4 * k ->
    n = length l \/ ((length l < n)%nat /\ (4 <= z)%nat) ->
    read_entries (pre ++ concat (map encode_int l) ++ repeat 0 z) k n
    = until_zero l.
Proof.
  induction l as [|v l IH]; intros pre k n z Hl Hk Hpre Hn.
  - destruct n as [|n]; [reflexivity|]. cbn [read_entries until_zero].
    destruct Hn as [Hn|[_ Hz]]; [discriminate|].
    unfold int_at. cbn [map concat app].
    rewrite get_int_skip by lia.
    replace (4 * k - Z.of_nat (length pre)) with 0 by lia.
    rewrite get_int_zeros by exact Hz. reflexivity.
  - destruct n as [|n]; [cbn [length] in Hn; lia|].
    inversion Hl as [|? ? Hvr Hl']; subst.
    cbn [read_entries until_zero]. unfold int_at. cbn [map concat].
    rewrite get_int_skip by lia.
    replace (4 * k - Z.of_nat (length pre)) with 0 by lia.
    rewrite <- app_assoc. rewrite get_int_here by exact Hvr.
    destruct (Z.eqb_spec v 0) as [|_]; [reflexivity|].
    f_equal.
    replace (pre ++ encode_int v ++ concat (map encode_int l) ++ repeat 0 z)
      with ((pre ++ encode_int v) ++ concat (map encode_int l) ++ repeat 0 z)
      by (rewrite <- app_assoc; reflexivity).
    apply IH.
    + exact Hl'.
    + lia.
    + rewrite length_app, length_encode_int. lia.
    + cbn [length] in Hn. lia.
Qed.

Lemma until_zero_id l : Forall entry_ok l -> until_zero l = l.
Proof.
  induction 1 as [|v l [Hv _] _ IH]; [reflexivity|].
  cbn [until_zero]. destruct (Z.eqb_spec v 0); [contradiction|].
  rewrite IH. reflexivity.
Qed.

(** X8. An indirect block written with [write_indirect_block] and read
    back with [read_indirect_block] gives the first 1024 entries of the
    list up to their first zero, so a list of at most 1024 block numbers
    other than zero comes back whole; no other block of the disk
    changes. *)
Theorem indirect_block_read_back (d : DiskSimulator) (x : Z) (l : list Z) :
  disk_ok d -> 0 <= x < total_blocks d -> Forall int_range l ->
  exists d',
    write_indirect_block d x l = (true, d')
    /\ read_indirect_block d' x = Some (until_zero (take 1024 l))
    /\ (Forall (fun v => v <> 0) l -> Z.of_nat (length l) <= 1024 ->
        read_indirect_block d' x = Some l)
    /\ (forall k, k <> x -> Disk.read_block d' k = Disk.read_block d k).
Proof.
  intros Hd Hx Hl.
  set (l' := take 1024 l).
  assert (Hl' : Forall int_range l') by (apply Forall_take; exact Hl).
  assert (Hlen' : Z.of_nat (length l') <= 1024)
    by (unfold l'; rewrite length_take; lia).
  pose proof (write_entries_spec l' [] 0 ltac:(lia) ltac:(simpl; lia)
                ltac:(lia)) as Hw.
  cbn [app] in Hw.
  change (Z.to_nat (4096 - 4 * 0)) with (Z.to_nat BLOCK_SIZE) in Hw.
  fold BlockUtils.create_block_buffer in Hw.
  assert (Hb : Z.of_nat (length (write_entries BlockUtils.create_block_buffer
                                   0 l)) = BLOCK_SIZE).
  { rewrite write_entries_take. fold l'. rewrite Hw.
    rewrite length_app, length_concat_encode_int, repeat_length.
    rewrite BLOCK_SIZE_eq. lia. }
  unfold write_indirect_block.
  destruct (write_block_ok d x
              (write_entries BlockUtils.create_block_buffer 0 l) Hd Hx)
    as [d' Hwr].
  destruct (write_block_effect _ _ _ _ Hd Hb Hwr) as (_ & _ & _ & Hrd & Hfr).
  assert (Hread : read_indirect_block d' x = Some (until_zero l')).
  { unfold read_indirect_block. rewrite Hrd. cbv zeta.
    rewrite write_entries_take. fold l'. rewrite Hw.
    change (BLOCK_SIZE / sizeof_int) with 1024. f_equal.
    apply (read_entries_until_zero l' [] 0); [exact Hl'|lia|simpl; lia|].
    destruct (decide (Z.of_nat (length l') = 1024)); [left; lia|right; lia]. }
  exists d'. split; [exact Hwr|]. split; [exact Hread|].
  split; [|exact Hfr].
  intros Hnz Hlen. rewrite Hread. f_equal. unfold l'.
  rewrite take_ge by lia. apply until_zero_id.
  rewrite Forall_forall in *. intros v Hv. split; auto.
Qed.

Lemma indirect_block_read_back_witness :
  exists d',
    write_indirect_block (blank_disk 2) 1 [5; 0; 6] = (true, d')
    /\ read_indirect_block d' 1 = Some (until_zero (take 1024 [5; 0; 6]))
    /\ (Forall (fun v => v <> 0) [5; 0; 6] ->
        Z.of_nat (length [5; 0; 6]) <= 1024 ->
        read_indirect_block d' 1 = Some [5; 0; 6])
    /\ (forall k, k <> 1 ->
          Disk.read_block d' k = Disk.read_block (blank_disk 2) k).
Proof.
  refine (indirect_block_read_back (blank_disk 2) 1 [5; 0; 6] _ _ _).
  - exact blank_disk_ok.
  - vm_compute. split; [discriminate|reflexivity].
  - repeat constructor; vm_compute; discriminate.
Defined.

End IndirectReadBack.

Section BlockAllocation.
Import InodeMgr.

Lemma set_data_bitmap_same m : set_data_bitmap (data_bitmap m) m = m.
Proof. destruct m; reflexivity. Qed.

Lemma pool_free_nonneg d m : pool_ok d m -> 0 <= free_bits_count (data_bitmap m).
Proof.
  intros (_ & _ & _ & _ & _ & [Hs Hc] & _). unfold counter_ok in Hc.
  rewrite Hc. unfold zero_bits. destruct (bitmap_data (data_bitmap m)); [|lia].
  pose proof (count_free_bounds l 0 (Z.to_nat (total_bits (data_bitmap m)))).
  lia.
Qed.

(** One call of [allocate_single_block]. *)
Lemma allocate_single_block_cases d m :
  pool_ok d m ->
  match allocate_single_block m with
  | (Some y, m') =>
      takes_block m y m' /\ pool_ok d m'
      /\ (forall x, block_taken m' x -> block_taken m x \/ x = y)
  | (None, m') => m' = m /\ free_bits_count (data_bitmap m) = 0
  end.
Proof.
  intros Hp. pose proof (pool_free_nonneg d m Hp) as Hnn.
  pose proof Hp as (_ & _ & _ & _ & _ & Hbo & _).
  destruct (Z.eq_dec (free_bits_count (data_bitmap m)) 0) as [Hz|Hz].
  - unfold allocate_single_block, Bitmap.allocate_bit.
    destruct (Bitmap.check_initialized (data_bitmap m)); cbn [negb].
    + unfold Bitmap.find_free_bit.
      destruct (bitmap_data (data_bitmap m));
        [rewrite Hz|]; cbn; rewrite set_data_bitmap_same; auto.
    + rewrite set_data_bitmap_same. auto.
  - destruct (allocate_single_block_spec d m Hp ltac:(lia))
      as (y & m' & E & Ht & Hp').
    rewrite E. split; [exact Ht|]. split; [exact Hp'|].
    unfold allocate_single_block in E.
    destruct (Bitmap.allocate_bit (data_bitmap m)) as [[bit|] b'] eqn:Ha;
      [|discriminate].
    injection E as <- <-. intros x Hx.
    unfold block_taken in *. cbn [set_data_bitmap data_bitmap layout] in Hx.
    rewrite (allocate_bit_is_allocated _ _ _ _ (proj1 Hbo) Ha) in Hx.
    destruct (Z.eqb_spec (x - data_blocks_start (layout m)) bit) as [E|E].
    + right. lia.
    + left. exact Hx.
Qed.

(** The roll-back loop: the blocks of [bs] are released. *)
Lemma release_blocks d bs :
  forall m,
    pool_ok d m -> NoDup bs -> Forall (block_taken m) bs ->
    pool_ok d (foldl free_block_bit m bs)
    /\ same_table m (foldl free_block_bit m bs)
    /\ (forall x, block_taken (foldl free_block_bit m bs) x
                  <-> block_taken m x /\ x ∉ bs)
    /\ free_bits_count (data_bitmap (foldl free_block_bit m bs))
       = free_bits_count (data_bitmap m) + Z.of_nat (length bs).
Proof.
  induction bs as [|b bs IH]; intros m Hp Hnd Ht.
  - cbn [foldl length]. split; [exact Hp|]. split; [apply same_table_refl|].
    split; [|lia]. intros x. split; [intros H; split; [exact H|]|tauto].
    apply not_elem_of_nil.
  - cbn [foldl]. apply NoDup_cons in Hnd as [Hnb Hnd].
    inversion Ht as [|? ? Hb Ht']; subst.
    pose proof Hp as (Hd & Htot & Hs & Hc & Hle & Hbo & Htb).
    set (m1 := free_block_bit m b).
    assert (Hall : forall x, block_taken m1 x <-> block_taken m x /\ x <> b).
    { intros x. unfold m1, free_block_bit, block_taken.
      cbn [set_data_bitmap data_bitmap layout].
      rewrite (free_bit_is_allocated _ _ _ (proj1 Hbo)).
      destruct (Z.eqb_spec (x - data_blocks_start (layout m))
                           (b - data_blocks_start (layout m))) as [E|E];
        cbn [negb andb].
      - split; [discriminate|]. intros [_ H]. lia.
      - split; [intros H; split; [exact H|lia]|tauto]. }
    assert (Hp1 : pool_ok d m1).
    { unfold m1, free_block_bit, pool_ok.
      cbn [set_data_bitmap data_bitmap layout].
      split; [exact Hd|]. split; [exact Htot|]. split; [exact Hs|].
      split; [exact Hc|]. split; [exact Hle|].
      split; [apply free_bit_ok; exact Hbo|].
      rewrite free_bit_total_bits. exact Htb. }
    assert (Hc1 : free_bits_count (data_bitmap m1)
                  = free_bits_count (data_bitmap m) + 1).
    { unfold m1, free_block_bit. cbn [set_data_bitmap data_bitmap].
      apply free_bit_count; [exact (proj1 Hbo)|exact Hb]. }
    assert (Ht1 : Forall (block_taken m1) bs).
    { rewrite Forall_forall in *. intros x Hx. apply Hall.
      split; [apply Ht', Hx|]. intros ->. contradiction. }
    destruct (IH m1 Hp1 Hnd Ht1) as (Hp2 & Hs2 & Hall2 & Hc2).
    split; [exact Hp2|].
    split.
    { eapply same_table_trans; [|exact Hs2].
      unfold m1, free_block_bit. apply same_table_set_data_bitmap. }
    split.
    { intros x. rewrite Hall2, Hall, elem_of_cons. tauto. }
    rewrite Hc2, Hc1. cbn [length]. lia.
Qed.

Lemma allocate_multiple_loop_cases d k :
  forall m acc,
    pool_ok d m ->
    match allocate_multiple_loop k acc m with
    | (Some r, m') =>
        Z.of_nat k <= free_bits_count (data_bitmap m)
        /\ exists bs,
             r = acc ++ bs /\ length bs = k /\ NoDup bs
             /\ Forall (fun b => in_data_region m b /\ ~ block_taken m b) bs
             /\ (forall x, block_taken m' x <-> block_taken m x \/ x ∈ bs)
             /\ pool_ok d m' /\ same_table m m'
             /\ free_bits_count (data_bitmap m')
                = free_bits_count (data_bitmap m) - Z.of_nat k
    | (None, m') =>
        free_bits_count (data_bitmap m) < Z.of_nat k
        /\ exists bs m1,
             m' = foldl free_block_bit m1 (acc ++ bs)
             /\ NoDup bs
             /\ Forall (fun b => in_data_region m b /\ ~ block_taken m b) bs
             /\ (forall x, block_taken m1 x <-> block_taken m x \/ x ∈ bs)
             /\ pool_ok d m1 /\ same_table m m1
             /\ free_bits_count (data_bitmap m1)
                = free_bits_count (data_bitmap m) - Z.of_nat (length bs)
    end.
Proof.
  induction k as [|k IH]; intros m acc Hp.
  - cbn [allocate_multiple_loop]. split; [apply (pool_free_nonneg d m Hp)|].
    exists []. rewrite app_nil_r. split; [reflexivity|].
    split; [reflexivity|]. split; [constructor|]. split; [constructor|].
    split.
    { intros x. split; [auto|]. intros [H|H]; [exact H|].
      apply elem_of_nil in H. contradiction. }
    split; [exact Hp|]. split; [apply same_table_refl|]. cbn. lia.
  - cbn [allocate_multiple_loop].
    pose proof (allocate_single_block_cases d m Hp) as Hc.
    destruct (allocate_single_block m) as [[y|] m1].
    + destruct Hc as (Ht & Hp1 & Honly).
      pose proof Ht as (Hst & Hry & Hny & Hty & Hmono & Hcnt).
      specialize (IH m1 (acc ++ [y]) Hp1).
      assert (Hreg : forall b, in_data_region m1 b /\ ~ block_taken m1 b ->
                               in_data_region m b /\ ~ block_taken m b).
      { intros b [H1 H2]. split; [apply (same_table_region _ _ _ Hst), H1|].
        intros H. apply H2, Hmono, H. }
      destruct (allocate_multiple_loop k (acc ++ [y]) m1) as [[r|] m'].
      * destruct IH as (Hle & bs & -> & Hlen & Hnd & Hf & Hall & Hp' & Hs' & Hc').
        split; [lia|]. exists (y :: bs).
        split; [rewrite <- app_assoc; reflexivity|].
        split; [cbn [length]; lia|].
        split.
        { apply NoDup_cons. split; [|exact Hnd]. intros Hin.
          rewrite Forall_forall in Hf. destruct (Hf y Hin) as [_ H].
          contradiction. }
        split.
        { constructor; [split; assumption|].
          eapply Forall_impl; [exact Hf|]. exact Hreg. }
        split.
        { intros x. rewrite Hall, elem_of_cons. split.
          - intros [H|H]; [|tauto].
            destruct (Honly x H) as [H'|H']; tauto.
          - intros [H|[->|H]]; [left; apply Hmono, H|left; exact Hty|tauto]. }
        split; [exact Hp'|].
        split; [eapply same_table_trans; eauto|]. lia.
      * destruct IH as (Hlt & bs & m2 & -> & Hnd & Hf & Hall & Hp2 & Hs2 & Hc2).
        split; [lia|]. exists (y :: bs), m2.
        split; [rewrite <- app_assoc; reflexivity|].
        split.
        { apply NoDup_cons. split; [|exact Hnd]. intros Hin.
          rewrite Forall_forall in Hf. destruct (Hf y Hin) as [_ H].
          contradiction. }
        split.
        { constructor; [split; assumption|].
          eapply Forall_impl; [exact Hf|]. exact Hreg. }
        split.
        { intros x. rewrite Hall, elem_of_cons. split.
          - intros [H|H]; [|tauto].
            destruct (Honly x H) as [H'|H']; tauto.
          - intros [H|[->|H]]; [left; apply Hmono, H|left; exact Hty|tauto]. }
        split; [exact Hp2|].
        split; [eapply same_table_trans; eauto|]. cbn [length]. lia.
    + destruct Hc as [-> Hz]. split; [lia|]. exists [], m.
      rewrite app_nil_r. split; [reflexivity|]. split; [constructor|].
      split; [constructor|].
      split.
      { intros x. split; [auto|]. intros [H|H]; [exact H|].
        apply elem_of_nil in H. contradiction. }
      split; [exact Hp|]. split; [apply same_table_refl|]. cbn. lia.
Qed.

Lemma allocate_multiple_blocks_cases d m count :
  pool_ok d m -> 0 <= count ->
  match allocate_multiple_blocks count m with
  | (Some bs, m') =>
      count <= free_bits_count (data_bitmap m)
      /\ Z.of_nat (length bs) = count /\ NoDup bs
      /\ Forall (fun b => in_data_region m b /\ ~ block_taken m b) bs
      /\ (forall x, block_taken m' x <-> block_taken m x \/ x ∈ bs)
      /\ free_bits_count (data_bitmap m')
         = free_bits_count (data_bitmap m) - count
      /\ pool_ok d m' /\ same_table m m'
  | (None, m') =>
      free_bits_count (data_bitmap m) < count
      /\ (forall x, block_taken m' x <-> block_taken m x)
      /\ free_bits_count (data_bitmap m') = free_bits_count (data_bitmap m)
      /\ pool_ok d m' /\ same_table m m'
  end.
Proof.
  intros Hp Hc. unfold allocate_multiple_blocks.
  pose proof (allocate_multiple_loop_cases d (Z.to_nat count) m [] Hp) as H.
  destruct (allocate_multiple_loop (Z.to_nat count) [] m) as [[r|] m'].
  - destruct H as (Hle & bs & -> & Hlen & Hnd & Hf & Hall & Hp' & Hs' & Hcnt).
    cbn [app]. split; [lia|]. split; [lia|]. split; [exact Hnd|].
    split; [exact Hf|]. split; [exact Hall|]. split; [lia|].
    split; assumption.
  - destruct H as (Hlt & bs & m1 & -> & Hnd & Hf & Hall & Hp1 & Hs1 & Hc1).
    cbn [app].
    assert (Ht : Forall (block_taken m1) bs).
    { rewrite Forall_forall. intros x Hx. apply Hall. right. exact Hx. }
    destruct (release_blocks d bs m1 Hp1 Hnd Ht) as (Hp2 & Hs2 & Hall' & Hc').
    split; [lia|]. split; [|split; [lia|]].
    + intros x. rewrite Hall', Hall. split.
      * intros [[H|H] Hn]; [exact H|contradiction].
      * intros H. split; [left; exact H|]. intros Hin.
        rewrite Forall_forall in Hf. destruct (Hf x Hin) as [_ Hn].
        contradiction.
    + split; [exact Hp2|]. eapply same_table_trans; eauto.
Qed.

(** X9. [allocate_multiple_blocks] takes all the blocks asked for or none:
    with enough free blocks it returns that many distinct blocks of the
    data region, free before and the only ones taken by the call; with
    too few, it fails and its roll-back leaves every block and the free
    counter as they were. *)
Theorem allocate_multiple_blocks_all_or_nothing (d : DiskSimulator)
    (m : InodeManager) (count : Z) :
  pool_ok d m -> 0 <= count ->
  (count <= free_bits_count (data_bitmap m) ->
   exists bs m',
     allocate_multiple_blocks count m = (Some bs, m')
     /\ Z.of_nat (length bs) = count /\ NoDup bs
     /\ Forall (fun b => in_data_region m b /\ ~ block_taken m b) bs
     /\ (forall x, block_taken m' x <-> block_taken m x \/ x ∈ bs)
     /\ free_bits_count (data_bitmap m')
        = free_bits_count (data_bitmap m) - count)
  /\ (free_bits_count (data_bitmap m) < count ->
      exists m',
        allocate_multiple_blocks count m = (None, m')
        /\ (forall x, block_taken m' x <-> block_taken m x)
        /\ free_bits_count (data_bitmap m')
           = free_bits_count (data_bitmap m)).
Proof.
  intros Hp Hc.
  pose proof (allocate_multiple_blocks_cases d m count Hp Hc) as H.
  destruct (allocate_multiple_blocks count m) as [[bs|] m'].
  - destruct H as (H1 & H2 & H3 & H4 & H5 & H6 & _).
    split; [|intros Hlt; lia]. intros _. exists bs, m'.
    split; [reflexivity|]. auto.
  - destruct H as (H1 & H2 & H3 & _).
    split; [intros Hle; lia|]. intros _. exists m'.
    split; [reflexivity|]. auto.
Qed.

End BlockAllocation.

Section DataBlocks.
Import InodeMgr.

Lemma store_initialized d m : store_ok d m -> initialized m = true.
Proof. intros (_ & _ & H & _). exact H. Qed.

(** X10. [allocate_data_blocks] on an inode without blocks: with room for
    the [k] blocks and the indirect blocks they need, it returns [k]
    distinct blocks of the data region, now taken, and [get_data_blocks]
    lists exactly these blocks in the same order, through direct, single
    and double indirection; with fewer than [k] free blocks it fails,
    and the disk, the taken blocks and the free counter stay as they
    were. *)
Theorem allocate_data_blocks_listed (now : Z) (d : DiskSimulator)
    (m : InodeManager) (n : Z) (inode : Inode.t) (k : Z) :
  store_ok d m ->
  read_inode d m n = Some inode -> fresh_file inode -> time_range now ->
  0 < k <= 10 + 1024 + 1024 * 1024 ->
  (k + indirect_blocks_needed k <= free_bits_count (data_bitmap m) ->
   exists bs d' m' inode',
     allocate_data_blocks now d m n k = (Some bs, d', m')
     /\ get_data_blocks d' m' n = Some bs
     /\ Z.of_nat (length bs) = k /\ NoDup bs
     /\ Forall (fun b => in_data_region m b /\ block_taken m' b) bs
     /\ read_inode d' m' n = Some inode' /\ Inode.size inode' = 0)
  /\ (free_bits_count (data_bitmap m) < k ->
      exists m',
        allocate_data_blocks now d m n k = (None, d, m')
        /\ (forall x, block_taken m' x <-> block_taken m x)
        /\ free_bits_count (data_bitmap m')
           = free_bits_count (data_bitmap m)).
Proof.
  intros Hst Hread Hfresh Hnow Hk.
  pose proof (store_pool _ _ Hst) as Hp.
  pose proof (store_layout _ _ Hst) as Hly.
  split.
  - intros Hfree.
    destruct (allocate_data_blocks_fresh now d m n inode k
                Hp Hly Hread Hfresh Hnow Hk Hfree)
      as (bs & d3 & m3 & m1 & inode3 & Ha & Hp3 & Ht3 & St3 & Hr3 & Hw3
          & Hs3 & Htree3 & Hlen3 & Hnd3 & Hall3).
    exists bs, d3, m3, inode3. split; [exact Ha|].
    split.
    { unfold get_data_blocks, check_initialized.
      rewrite (proj1 (read_inode_slot _ _ _ _ Hr3)), Hr3. cbn [negb].
      exact (tree_blocks d3 m1 m3 inode3 bs Hp3 Htree3). }
    split; [exact Hlen3|]. split; [exact Hnd3|].
    split; [|split; [exact Hr3|exact Hs3]].
    eapply Forall_impl; [exact Hall3|]. intros b [Hr Hb].
    split; [apply (same_table_region _ _ _ St3), Hr|].
    destruct Htree3 as (_ & Hmono & _). apply Hmono, Hb.
  - intros Hfew. unfold allocate_data_blocks, check_initialized.
    rewrite (store_initialized _ _ Hst). cbn [negb orb].
    destruct (Z.leb_spec k 0); [lia|].
    pose proof (allocate_multiple_blocks_cases d m k Hp ltac:(lia)) as Hc.
    destruct (allocate_multiple_blocks k m) as [[bs|] m'].
    + lia.
    + destruct Hc as (_ & H2 & H3 & _). exists m'.
      split; [reflexivity|]. split; assumption.
Qed.

End DataBlocks.

Section Release.
Import InodeMgr.

Lemma save_data_bitmap_taken d m :
  (forall x, block_taken (save_data_bitmap d m).2 x <-> block_taken m x)
  /\ free_bits_count (data_bitmap (save_data_bitmap d m).2)
     = free_bits_count (data_bitmap m).
Proof.
  unfold save_data_bitmap, Bitmap.save_to_disk.
  destruct (Bitmap.check_initialized (data_bitmap m)); cbn [negb].
  - cbn [bitmap_data Bitmap.set_blocks].
    destruct (bitmap_data (data_bitmap m)) eqn:E.
    + destruct (Bitmap.save_loop _ _ _ _ _ _) as [ok d'].
      split; [|reflexivity]. intros x. unfold block_taken. cbn.
      unfold Bitmap.is_allocated, Bitmap.is_valid_bit. cbn. reflexivity.
    + split; [|reflexivity]. intros x. unfold block_taken. cbn.
      unfold Bitmap.is_allocated, Bitmap.is_valid_bit. cbn. reflexivity.
  - cbn. rewrite set_data_bitmap_same. split; [tauto|reflexivity].
Qed.

Lemma free_direct_blocks_filter direct :
  forall m,
    free_direct_blocks m direct
    = foldl free_block_bit m (filter (fun p => p <> 0) direct).
Proof.
  unfold free_direct_blocks.
  induction direct as [|p direct IH]; intros m; [reflexivity|].
  cbn [foldl]. destruct (Z.eqb_spec p 0) as [E|E].
  - rewrite filter_cons_False by (intros H; apply H; exact E). apply IH.
  - rewrite filter_cons_True by exact E. cbn [foldl]. apply IH.
Qed.

Lemma filter_zeros (l : list Z) :
  filter (fun p => p <> 0) (map (fun _ => 0) l) = [].
Proof.
  induction l as [|p l IH]; [reflexivity|]. cbn [map].
  rewrite filter_cons_False by (intros H; apply H; reflexivity). exact IH.
Qed.

(** The blocks an inode holds when it has no double-indirect block: its
    data blocks, and its indirect block when there is one. *)
Lemma free_all_held d m inode l :
  Inode.double_indirect_block inode = -1 ->
  data_blocks_of d inode = Some l ->
  exists inode',
    free_all_data_blocks_for_inode d m inode
    = (foldl free_block_bit m
         (l ++ (if Inode.indirect_block inode =? -1 then []
                else [Inode.indirect_block inode])), inode')
    /\ Inode.direct_blocks inode'
       = map (fun _ => 0) (Inode.direct_blocks inode)
    /\ Inode.indirect_block inode' = -1
    /\ Inode.double_indirect_block inode' = -1
    /\ same_meta inode inode'.
Proof.
  intros Hdbl Hl. unfold data_blocks_of in Hl. rewrite Hdbl in Hl.
  unfold free_all_data_blocks_for_inode.
  rewrite free_direct_blocks_filter.
  cbn [Inode.set_direct_blocks Inode.indirect_block
       Inode.double_indirect_block].
  destruct (Z.eqb_spec (Inode.indirect_block inode) (-1)) as [E|E].
  - cbn [Z.eqb] in Hl. change (-1 =? -1) with true in Hl. cbv iota in Hl.
    injection Hl as <-. rewrite app_nil_r.
    cbn [Inode.set_direct_blocks Inode.double_indirect_block]. rewrite Hdbl.
    change (-1 =? -1) with true. cbv iota.
    eexists. split; [reflexivity|].
    cbn. split; [reflexivity|]. split; [exact E|]. split; [exact Hdbl|].
    repeat split.
  - destruct (read_indirect_block d (Inode.indirect_block inode))
      as [ib|] eqn:Er; [|discriminate].
    change (-1 =? -1) with true in Hl. cbv iota in Hl.
    injection Hl as <-.
    cbn [Inode.set_direct_blocks Inode.set_indirect_block
         Inode.double_indirect_block Inode.indirect_block].
    rewrite Hdbl. change (-1 =? -1) with true. cbv iota.
    eexists. split.
    { f_equal. rewrite !foldl_app. cbn [foldl].
      unfold free_indirect_block.
      destruct (Z.eqb_spec (Inode.indirect_block inode) (-1));
        [contradiction|].
      unfold free_block_bit.
      destruct (Bitmap.free_bit _ _) as [ok db]. reflexivity. }
    cbn. split; [reflexivity|]. split; [reflexivity|].
    split; [exact Hdbl|]. repeat split.
Qed.

Lemma free_data_blocks_spec (d : DiskSimulator) (m : InodeManager)
    (n : Z) (inode : Inode.t) (l : list Z) :
  store_ok d m -> 0 < data_blocks_count (layout m) ->
  read_inode d m n = Some inode -> inode_wf inode ->
  Inode.double_indirect_block inode = -1 ->
  get_data_blocks d m n = Some l ->
  let held :=
    l ++ (if Inode.indirect_block inode =? -1 then []
          else [Inode.indirect_block inode]) in
  NoDup held -> Forall (block_taken m) held ->
  exists d' m' inode',
    free_data_blocks d m n = (true, d', m')
    /\ (forall x, block_taken m' x <-> block_taken m x /\ x ∉ held)
    /\ free_bits_count (data_bitmap m')
       = free_bits_count (data_bitmap m) + Z.of_nat (length held)
    /\ get_data_blocks d' m' n = Some []
    /\ read_inode d' m' n = Some inode'
    /\ Inode.size inode' = 0 /\ Inode.indirect_block inode' = -1
    /\ Inode.mode inode' = Inode.mode inode
    /\ (forall j, j <> n -> read_inode d' m' j = read_inode d m j)
    /\ store_ok d' m' /\ same_table m m'
    /\ (forall k, in_data_region m k ->
                  Disk.read_block d' k = Disk.read_block d k).
Proof.
  intros Hst Hcount Hread Hwf Hdbl Hblocks held Hnd Htaken.
  pose proof (store_pool _ _ Hst) as Hp.
  pose proof (store_layout _ _ Hst) as Hly.
  pose proof (store_initialized _ _ Hst) as Hinit.
  assert (Hl : data_blocks_of d inode = Some l).
  { unfold get_data_blocks, check_initialized in Hblocks.
    rewrite Hinit, Hread in Hblocks. exact Hblocks. }
  destruct (free_all_held d m inode l Hdbl Hl)
    as (inode1 & Hfa & Hdir1 & Hind1 & Hdbl1 & Hmeta).
  fold held in Hfa.
  destruct (release_blocks d held m Hp Hnd Htaken)
    as (Hp1 & Hs1 & Hall1 & Hc1).
  set (m1 := foldl free_block_bit m held) in *.
  set (inode2 := Inode.set_size 0 inode1).
  assert (Hwf2 : inode_wf inode2).
  { destruct Hwf as (W1 & W2 & W3 & W4 & W5 & W6 & W7 & W8 & W9 & W10
                     & W11 & W12).
    destruct Hmeta as (M1 & M2 & M3 & M4 & M5 & M6 & M7 & M8).
    unfold inode_wf, inode2.
    cbn [Inode.set_size Inode.mode Inode.owner_id Inode.group_id Inode.size
         Inode.access_time Inode.modification_time Inode.creation_time
         Inode.link_count Inode.direct_blocks Inode.indirect_block
         Inode.double_indirect_block].
    rewrite M1, M2, M3, M5, M6, M7, M8, Hdir1, Hind1, Hdbl1.
    assert (int_range 0) by (unfold int_range; lia).
    assert (int_range (-1)) by (unfold int_range; lia).
    repeat (split; [assumption|]).
    split; [rewrite length_map; exact W9|].
    split; [|split; assumption].
    apply Forall_map. apply Forall_forall. intros. assumption. }
  pose proof (read_inode_slot _ _ _ _ Hread) as Hslot.
  assert (Hslot1 : slot_ok d m1 n)
    by (eapply slot_ok_same; [exact Hslot|exact Hs1|reflexivity]).
  destruct (write_inode_ok d m1 n inode2 (proj1 Hp) Hslot1) as [d1 Hwi].
  destruct (write_inode_disk _ _ _ _ _ (proj1 Hp) Hwi) as (Hd1 & Ht1 & Hf1).
  assert (Hp1' : pool_ok d1 m1) by (eapply pool_ok_disk; eauto).
  pose proof (layout_ok_same _ _ Hs1 Hly) as Hly1.
  assert (Hcount1 : 0 < data_blocks_count (layout m1))
    by (destruct Hs1 as (_ & -> & _); exact Hcount).
  destruct (save_data_bitmap_spec d1 m1 Hp1' Hly1 Hcount1)
    as (d2 & m2 & Hsave & Hp2 & Ht2 & Hs2 & _ & Hf2).
  pose proof (save_data_bitmap_taken d1 m1) as [Hsame Hcnt].
  rewrite Hsave in Hsame, Hcnt. cbn [snd] in Hsame, Hcnt.
  assert (Htable : forall j bn off,
            get_inode_position m1 j = Some (bn, off) ->
            Disk.read_block d2 bn = Disk.read_block d1 bn).
  { intros j bn off Hpos.
    destruct (get_inode_position_Some _ _ _ _ Hpos) as (Hj & -> & _).
    apply Hf2. right. destruct Hly1 as (L1 & _). apply L1, Hj. }
  assert (Hreadj : forall j, read_inode d2 m2 j = read_inode d1 m1 j).
  { intros j. rewrite (same_table_read_inode d2 m1 m2 j Hs2).
    apply read_inode_frame. apply Htable. }
  assert (Hr2 : read_inode d2 m2 n = Some inode2).
  { rewrite Hreadj.
    exact (read_inode_write_inode _ _ _ _ _ (proj1 Hp) Hwf2 Hwi). }
  unfold free_data_blocks, check_initialized. rewrite Hinit. cbn [negb].
  rewrite Hread, Hfa. fold inode2. rewrite Hwi. rewrite Hsave.
  exists d2, m2, inode2. split; [reflexivity|].
  split; [intros x; rewrite Hsame; apply Hall1|].
  split; [rewrite Hcnt; exact Hc1|].
  split.
  { unfold get_data_blocks, check_initialized.
    rewrite (proj1 (read_inode_slot _ _ _ _ Hr2)), Hr2. cbn [negb].
    unfold data_blocks_of, inode2.
    cbn [Inode.set_size Inode.direct_blocks Inode.indirect_block
         Inode.double_indirect_block].
    rewrite Hdir1, Hind1, Hdbl1, filter_zeros. reflexivity. }
  split; [exact Hr2|]. split; [reflexivity|]. split; [exact Hind1|].
  split; [exact (proj1 Hmeta)|].
  split.
  { intros j Hj. rewrite Hreadj.
    rewrite (read_inode_write_other _ _ _ _ _ j (proj1 Hp) Hwi Hj).
    apply same_table_read_inode. exact Hs1. }
  pose proof (same_table_trans _ _ _ Hs1 Hs2) as Hs.
  split; [|split; [exact Hs|]].
  2: { intros k Hk.
       assert (Hk1 : in_data_region m1 k).
       { destruct Hs1 as (_ & Sl1 & _). unfold in_data_region.
         rewrite Sl1. exact Hk. }
       rewrite Hf2 by (left; exact Hk1). apply Hf1. intros ->.
       exact (layout_table_outside m1 Hly1 n (proj1 (proj2 Hslot1)) Hk1). }
  destruct Hs as (Si & Sl & Sb).
  destruct Hp2 as (Hd2 & Hlt2 & _ & _ & _ & Hdb2 & Hdn2).
  destruct Hst as (_ & _ & _ & Hlay & Hib & Hibn & _ & _).
  unfold store_ok. rewrite Si, Sl, Sb.
  split; [exact Hd2|]. split; [exact Hlt2|]. split; [exact Hinit|].
  split.
  { rewrite Hlay. unfold Disk.calculate_layout. rewrite Ht2, Ht1.
    reflexivity. }
  split; [exact Hib|]. split; [exact Hibn|]. split; [exact Hdb2|].
  rewrite <- Sl. exact Hdn2.
Qed.

(** X11. [free_data_blocks] on an inode without double-indirect block:
    every data block of the inode and its indirect block are released,
    no other block changes its state, the free counter grows by their
    number, the inode is left with size 0 and an empty block list, and
    the other inodes read as before. *)
Theorem free_data_blocks_releases (d : DiskSimulator) (m : InodeManager)
    (n : Z) (inode : Inode.t) (l : list Z) :
  store_ok d m -> 0 < data_blocks_count (layout m) ->
  read_inode d m n = Some inode -> inode_wf inode ->
  Inode.double_indirect_block inode = -1 ->
  get_data_blocks d m n = Some l ->
  let held :=
    l ++ (if Inode.indirect_block inode =? -1 then []
          else [Inode.indirect_block inode]) in
  NoDup held -> Forall (block_taken m) held ->
  exists d' m' inode',
    free_data_blocks d m n = (true, d', m')
    /\ (forall x, block_taken m' x <-> block_taken m x /\ x ∉ held)
    /\ free_bits_count (data_bitmap m')
       = free_bits_count (data_bitmap m) + Z.of_nat (length held)
    /\ get_data_blocks d' m' n = Some []
    /\ read_inode d' m' n = Some inode'
    /\ Inode.size inode' = 0 /\ Inode.indirect_block inode' = -1
    /\ Inode.mode inode' = Inode.mode inode
    /\ (forall j, j <> n -> read_inode d' m' j = read_inode d m j).
Proof.
  intros Hst Hcount Hread Hwf Hdbl Hblocks held Hnd Htaken.
  destruct (free_data_blocks_spec d m n inode l Hst Hcount Hread Hwf Hdbl
              Hblocks Hnd Htaken)
    as (d' & m' & inode' & H1 & H2 & H3 & H4 & H5 & H6 & H7 & H8 & H9 & _).
  exists d', m', inode'. auto 10.
Qed.

End Release.

Section InodeAllocation.
Import InodeMgr.

Lemma set_inode_bitmap_same m : set_inode_bitmap (inode_bitmap m) m = m.
Proof. destruct m; reflexivity. Qed.

(** Where the layout of a mounted store puts the inode bitmap. *)
Lemma store_inode_bitmap_region d m :
  store_ok d m ->
  inode_table_start (layout m) = 1
  /\ 0 <= inode_table_blocks (layout m)
  /\ inode_bitmap_start (layout m)
     = inode_table_start (layout m) + inode_table_blocks (layout m)
  /\ 0 <= inode_bitmap_blocks (layout m)
  /\ inode_bitmap_start (layout m) + inode_bitmap_blocks (layout m)
     = data_bitmap_start (layout m)
  /\ get_total_inodes m = inode_table_blocks (layout m) * 42.
Proof.
  intros Hst. pose proof (store_layout _ _ Hst) as (L1 & L0 & L2 & L3).
  destruct Hst as (Hd & Ht & Hi & Hl & Hib & Hibn & Hdb & Hdbn).
  pose proof (calculate_layout_facts d (proj1 (proj2 Hd)))
    as (H1 & H2 & H3 & H4 & H5 & H6 & H7).
  unfold get_total_inodes, Bitmap.get_total_bits. rewrite Hi, Hibn.
  change (BLOCK_SIZE / sizeof_Inode) with 42.
  rewrite Hl in *. split; [exact H1|]. split; [exact H2|].
  split; [reflexivity|]. split; [|split; reflexivity].
  unfold Disk.calculate_layout. cbn [inode_bitmap_blocks].
  apply Z.div_pos; [|reflexivity].
  change Disk.inodes_per_block with 42. change BITS_PER_BLOCK with 32768.
  assert (0 <= (total_blocks d / 10 + 42 - 1) / 42 * 42).
  { pose proof (Z.div_pos (total_blocks d) 10 (proj1 (proj2 Hd)) ltac:(lia)).
    pose proof (Z.div_pos (total_blocks d / 10 + 42 - 1) 42
                  ltac:(lia) ltac:(lia)). lia. }
  destruct (_ && _); lia.
Qed.

Lemma allocate_inode_spec now d m :
  store_ok d m -> 0 < data_blocks_count (layout m) -> time_range now ->
  0 < get_free_inodes m ->
  exists n d' m',
    allocate_inode now d m = (Some n, d', m')
    /\ is_inode_allocated m n = false /\ is_inode_allocated m' n = true
    /\ (forall j, j <> n -> is_inode_allocated m' j = is_inode_allocated m j)
    /\ get_free_inodes m' = get_free_inodes m - 1
    /\ read_inode d' m' n = Some (initialize_new_inode now)
    /\ (forall j, j <> n -> read_inode d' m' j = read_inode d m j)
    /\ (Bitmap.allocate_bit (inode_bitmap m)).1 = Some n
    /\ store_ok d' m'
    /\ initialized m' = initialized m /\ layout m' = layout m
    /\ data_bitmap m' = data_bitmap m
    /\ total_blocks d' = total_blocks d
    /\ (forall k, data_bitmap_start (layout m) <= k ->
                  Disk.read_block d' k = Disk.read_block d k).
Proof.
  intros Hst Hcount Hnow Hfree.
  pose proof (store_pool _ _ Hst) as Hp.
  pose proof (store_layout _ _ Hst) as Hly.
  pose proof (store_initialized _ _ Hst) as Hinit.
  pose proof (store_inode_bitmap_region _ _ Hst)
    as (R1 & R2 & R3 & R4 & R5 & R6).
  pose proof Hst as (Hd & Ht & _ & Hl & Hib & Hibn & Hdb & Hdbn).
  unfold get_free_inodes, Bitmap.get_free_bits in Hfree |- *.
  rewrite Hinit in Hfree |- *.
    destruct (allocate_bit_succeeds _ Hib Hfree) as (n & ib & Ha).
    assert (Hsm : (Bitmap.allocate_bit (inode_bitmap m)).1 = Some n)
      by (rewrite Ha; reflexivity).
    destruct (allocate_bit_smallest _ _ Hsm) as (Hn & Hfreebit & _).
    destruct (allocate_bit_zero_bits _ _ _ (proj1 Hib) Ha)
      as (_ & Hcnt & Htot).
    pose proof (allocate_bit_is_allocated _ _ _ n (proj1 Hib) Ha) as Hset.
    pose proof (allocate_bit_shape _ _ _ (proj1 Hib) Ha) as Hshape.
    set (m1 := set_inode_bitmap ib m).
    assert (Htot1 : get_total_inodes m1 = get_total_inodes m).
    { unfold get_total_inodes, Bitmap.get_total_bits, m1.
      cbn [set_inode_bitmap initialized inode_bitmap]. rewrite Htot.
      reflexivity. }
    assert (Hnr : 0 <= n < get_total_inodes m).
    { unfold get_total_inodes, Bitmap.get_total_bits. rewrite Hinit.
      exact Hn. }
    assert (Htab : forall j, 0 <= j < get_total_inodes m ->
              0 < inode_table_start (layout m) + j / 42
              < inode_bitmap_start (layout m)).
    { intros j Hj. rewrite R6 in Hj.
      assert (0 <= j / 42 < inode_table_blocks (layout m))
        by (split; [apply Z.div_pos; lia|apply Z.div_lt_upper_bound; lia]).
      lia. }
    assert (Hend : data_bitmap_start (layout m) <= total_blocks d).
    { destruct Hly as (_ & _ & L2 & L3).
      destruct Hp as (_ & _ & _ & _ & Hle & _). lia. }
    assert (Hslot : slot_ok d m1 n).
    { unfold slot_ok. rewrite Htot1. split; [exact Hinit|].
      split; [exact Hnr|]. pose proof (Htab n Hnr).
      cbn [m1 set_inode_bitmap layout]. lia. }
    set (new_inode := initialize_new_inode now).
    assert (Hwf : inode_wf new_inode).
    { unfold inode_wf, int_range, new_inode. simpl.
      repeat split; try lia; try apply Hnow.
      repeat constructor; lia. }
    destruct (write_inode_ok d m1 n new_inode Hd Hslot) as [d1 Hwi].
    destruct (write_inode_disk _ _ _ _ _ Hd Hwi) as (Hd1 & Ht1 & Hf1).
    assert (Hdata : exists data, bitmap_data ib = Some data).
    { destruct Hshape as (_ & _ & Hsh).
      destruct (bitmap_data ib) as [data|]; [eauto|].
      rewrite Htot in Hsh. lia. }
    destruct Hdata as [data Hdata].
    destruct (save_loop_spec data
                (Z.to_nat (inode_bitmap_blocks (layout m)))
                (inode_bitmap_start (layout m)) 0
                (bitmap_size
                   (Bitmap.set_blocks (inode_bitmap_start (layout m))
                      (inode_bitmap_blocks (layout m)) ib))
                d1 Hd1 ltac:(lia) ltac:(lia))
      as (d2 & He & Hd2 & Ht2 & Hf2).
    set (m2 := set_inode_bitmap
                 (Bitmap.set_blocks (inode_bitmap_start (layout m))
                    (inode_bitmap_blocks (layout m)) ib) m1).
    assert (Hsave : save_inode_bitmap d1 m1 = (true, d2, m2)).
    { unfold save_inode_bitmap, Bitmap.save_to_disk.
      cbn [m1 set_inode_bitmap layout inode_bitmap].
      rewrite (shape_initialized _ _ Hshape Hdata). cbn [negb].
      cbn [bitmap_data Bitmap.set_blocks]. rewrite Hdata.
      rewrite He. reflexivity. }
    assert (Hread12 : forall j, read_inode d2 m2 j = read_inode d1 m1 j).
    { intros j. transitivity (read_inode d2 m1 j); [reflexivity|].
      apply read_inode_frame. intros bn off Hpos.
      destruct (get_inode_position_Some _ _ _ _ Hpos) as (Hj & -> & _).
      rewrite Htot1 in Hj. pose proof (Htab j Hj).
      apply Hf2. cbn [m1 set_inode_bitmap layout]. lia. }
    unfold allocate_inode, check_initialized. rewrite Hinit. cbn [negb].
    rewrite Ha. fold m1. fold new_inode. rewrite Hwi, Hsave.
    exists n, d2, m2. split; [reflexivity|].
    assert (Hia : forall j,
              is_inode_allocated m2 j
              = (j =? n) && Bitmap.is_valid_bit (inode_bitmap m) j
                || is_inode_allocated m j).
    { intros j. unfold is_inode_allocated.
      cbn [m2 m1 set_inode_bitmap initialized inode_bitmap]. rewrite Hinit.
      cbn [negb].
      rewrite <- (allocate_bit_is_allocated _ _ _ j (proj1 Hib) Ha).
      reflexivity. }
    split.
    { unfold is_inode_allocated. rewrite Hinit. exact Hfreebit. }
    split.
    { rewrite Hia, Z.eqb_refl. unfold Bitmap.is_valid_bit.
      destruct (Z.leb_spec 0 n); [|lia].
      destruct (Z.ltb_spec n (total_bits (inode_bitmap m))); [|lia].
      reflexivity. }
    split.
    { intros j Hj. rewrite Hia.
      destruct (Z.eqb_spec j n); [contradiction|]. reflexivity. }
    split.
    { cbn [m2 m1 set_inode_bitmap initialized inode_bitmap
           Bitmap.set_blocks free_bits_count]. rewrite Hinit. exact Hcnt. }
    split.
    { rewrite Hread12.
      exact (read_inode_write_inode _ _ _ _ _ Hd Hwf Hwi). }
    split.
    { intros j Hj. rewrite Hread12.
      rewrite (read_inode_write_other _ _ _ _ _ j Hd Hwi Hj).
      unfold read_inode, get_inode_position. rewrite Htot1. reflexivity. }
    split; [reflexivity|].
    split.
    { assert (Ei : initialized m2 = initialized m) by reflexivity.
      assert (El : layout m2 = layout m) by reflexivity.
      assert (Ed : data_bitmap m2 = data_bitmap m) by reflexivity.
      assert (Eb : inode_bitmap m2
                   = Bitmap.set_blocks (inode_bitmap_start (layout m))
                       (inode_bitmap_blocks (layout m)) ib) by reflexivity.
      unfold store_ok. rewrite Ei, El, Ed, Eb.
      split; [exact Hd2|]. split; [rewrite Ht2, Ht1; exact Ht|].
      split; [exact Hinit|].
      split.
      { rewrite Hl. unfold Disk.calculate_layout. rewrite Ht2, Ht1.
        reflexivity. }
      split.
      { pose proof (allocate_bit_ok _ Hib) as Hok. rewrite Ha in Hok.
        exact Hok. }
      split; [cbn [Bitmap.set_blocks total_bits]; rewrite Htot; exact Hibn|].
      split; [exact Hdb|exact Hdbn]. }
    split; [exact Hinit|]. split; [reflexivity|]. split; [reflexivity|].
    split; [rewrite Ht2, Ht1; reflexivity|].
    intros k Hk. rewrite Hf2 by (rewrite Z2Nat.id by lia; lia).
    apply Hf1. pose proof (Htab n Hnr).
    cbn [m1 set_inode_bitmap layout]. lia.
Qed.

(** X12. [allocate_inode] on a mounted store: while an inode is free, it
    returns an inode that was free, marks it allocated and writes a blank
    inode stamped with the current time into its slot; the other inodes
    keep their state and their contents and the free count goes down by
    one. When no inode is free, it fails and changes nothing. *)
Theorem allocate_inode_effect (now : Z) (d : DiskSimulator)
    (m : InodeManager) :
  store_ok d m -> 0 < data_blocks_count (layout m) -> time_range now ->
  (0 < get_free_inodes m ->
   exists n d' m',
     allocate_inode now d m = (Some n, d', m')
     /\ is_inode_allocated m n = false /\ is_inode_allocated m' n = true
     /\ (forall j, j <> n -> is_inode_allocated m' j = is_inode_allocated m j)
     /\ get_free_inodes m' = get_free_inodes m - 1
     /\ read_inode d' m' n = Some (initialize_new_inode now)
     /\ (forall j, j <> n -> read_inode d' m' j = read_inode d m j))
  /\ (get_free_inodes m = 0 -> allocate_inode now d m = (None, d, m)).
Proof.
  intros Hst Hcount Hnow. split.
  - intros Hfree.
    destruct (allocate_inode_spec now d m Hst Hcount Hnow Hfree)
      as (n & d' & m' & H1 & H2 & H3 & H4 & H5 & H6 & H7 & _).
    exists n, d', m'. auto 10.
  - pose proof (store_initialized _ _ Hst) as Hinit.
    unfold get_free_inodes, Bitmap.get_free_bits. rewrite Hinit.
    intros Hz. unfold allocate_inode, check_initialized. rewrite Hinit.
    cbn [negb]. unfold Bitmap.allocate_bit.
    destruct (Bitmap.check_initialized (inode_bitmap m)); cbn [negb].
    + unfold Bitmap.find_free_bit.
      destruct (bitmap_data (inode_bitmap m)); [rewrite Hz|]; cbn;
        rewrite set_inode_bitmap_same; reflexivity.
    + rewrite set_inode_bitmap_same. reflexivity.
Qed.

End InodeAllocation.

(* ====================================================================== *)
(** * Bitmaps on the disk (src/core/bitmap_manager.cpp) *)
(* ====================================================================== *)

Section Persistence.
Import Bitmap.

Lemma reload_chunk (data0 data : list Z) (p c : nat) :
  length data0 = length data -> (p + c <= length data)%nat ->
  take (p + c)
    (take p data0 ++ take c (drop p data)
       ++ drop (p + length (take c (drop p data))) data0)
  ++ drop (p + c) data
  = take p data0 ++ drop p data.
Proof.
  intros Hl Hpc.
  assert (H1 : length (take p data0) = p) by (rewrite length_take; lia).
  assert (H2 : length (take c (drop p data)) = c)
    by (rewrite length_take, length_drop; lia).
  rewrite app_assoc.
  rewrite take_app_le by (rewrite length_app; lia).
  rewrite take_ge by (rewrite length_app; lia).
  rewrite <- app_assoc. f_equal.
  rewrite <- drop_drop. apply take_drop.
Qed.

(** What [save_loop] writes, [load_loop] reads back into an array of the
    same length. *)
Lemma save_load_loop data n :
  forall block ptr remaining_bytes d data0,
    disk_ok d -> 0 <= block -> block + Z.of_nat n <= total_blocks d ->
    0 <= ptr -> 0 <= remaining_bytes ->
    ptr + remaining_bytes = Z.of_nat (length data) ->
    length data0 = length data ->
    remaining_bytes <= Z.of_nat n * BLOCK_SIZE ->
    exists d',
      save_loop n block data ptr remaining_bytes d = (true, d')
      /\ disk_ok d' /\ total_blocks d' = total_blocks d
      /\ (forall k, ~ (block <= k < block + Z.of_nat n) ->
                    Disk.read_block d' k = Disk.read_block d k)
      /\ (forall d'',
            (forall k, block <= k < block + Z.of_nat n ->
                       Disk.read_block d'' k = Disk.read_block d' k) ->
            load_loop d'' n block data0 ptr remaining_bytes
            = (true, take (Z.to_nat ptr) data0 ++ drop (Z.to_nat ptr) data)).
Proof.
  pose proof BLOCK_SIZE_eq as HB.
  induction n as [|n IH]; intros block ptr rem d data0 Hd Hb Hn Hptr Hrem
    Hsum Hlen0 Hfit.
  - exists d. cbn [save_loop load_loop]. split; [reflexivity|].
    split; [exact Hd|]. split; [reflexivity|]. split; [auto|].
    intros _ _. f_equal.
    rewrite take_ge by lia. rewrite drop_ge by lia.
    rewrite app_nil_r. reflexivity.
  - cbn [save_loop]. cbv zeta.
    set (btc := Z.min BLOCK_SIZE rem).
    set (buffer := if 0 <? btc
                   then splice BlockUtils.create_block_buffer 0
                          (slice data ptr btc)
                   else BlockUtils.create_block_buffer).
    assert (Hchunk : 0 < btc -> length (slice data ptr btc) = Z.to_nat btc).
    { intros Hpos. apply length_slice; unfold btc in *; lia. }
    assert (Hlen : Z.of_nat (length buffer) = BLOCK_SIZE).
    { unfold buffer. destruct (Z.ltb_spec 0 btc);
        [|apply length_create_block_buffer].
      pose proof length_create_block_buffer.
      rewrite length_splice; [assumption|lia|].
      rewrite Hchunk by assumption. unfold btc. lia. }
    destruct (write_block_ok d block buffer Hd ltac:(lia)) as [d1 Hw].
    rewrite Hw.
    destruct (write_block_effect _ _ _ _ Hd Hlen Hw)
      as (Hd1 & Ht1 & _ & Hr1 & Hf1).
    destruct (Z.ltb_spec 0 btc) as [Hpos|Hzero].
    + set (chunk := slice data ptr btc) in *.
      specialize (Hchunk Hpos).
      assert (Hbuf : slice buffer 0 btc = chunk).
      { unfold buffer.
        replace btc with (Z.of_nat (length chunk)) at 1 by lia.
        apply slice_splice_same; lia. }
      destruct (IH (block + 1) (ptr + btc) (rem - btc) d1
                  (splice data0 ptr chunk) Hd1 ltac:(lia) ltac:(lia)
                  ltac:(lia) ltac:(unfold btc; lia) ltac:(lia)
                  ltac:(rewrite length_splice; unfold btc in *; lia)
                  ltac:(unfold btc; lia))
        as (d' & He & Hd' & Ht' & Hf' & Hload).
      exists d'. split; [exact He|]. split; [exact Hd'|].
      split; [congruence|].
      split; [intros k Hk; rewrite Hf' by lia; apply Hf1; lia|].
      intros d'' Hagree. cbn [load_loop].
      rewrite (Hagree block) by lia. rewrite Hf' by lia. rewrite Hr1.
      fold btc. destruct (Z.leb_spec btc 0); [lia|].
      rewrite Hbuf. rewrite Hload by (intros k Hk; apply Hagree; lia).
      f_equal. unfold splice, chunk, slice. rewrite Z2Nat.inj_add by lia.
      apply reload_chunk; lia.
    + assert (Hrem0 : rem = 0) by (unfold btc in Hzero; lia).
      destruct (IH (block + 1) ptr rem d1 data0 Hd1 ltac:(lia) ltac:(lia)
                  Hptr Hrem Hsum Hlen0 ltac:(lia))
        as (d' & He & Hd' & Ht' & Hf' & _).
      exists d'. split; [exact He|]. split; [exact Hd'|].
      split; [congruence|].
      split; [intros k Hk; rewrite Hf' by lia; apply Hf1; lia|].
      intros d'' Hagree. cbn [load_loop].
      rewrite (Hagree block) by lia. rewrite Hf' by lia. rewrite Hr1.
      fold btc. destruct (Z.leb_spec btc 0); [|lia].
      f_equal. rewrite take_ge by lia. rewrite drop_ge by lia.
      rewrite app_nil_r. reflexivity.
Qed.

(** X13. A bitmap saved with [save_to_disk] and loaded with
    [load_from_disk] into a bitmap of the same number of bits, from the
    same blocks, comes back with the same array, the same allocated bits
    and the same free counter; the blocks outside the range written are
    left as they were. *)
Theorem bitmap_save_load_round_trip (d : DiskSimulator)
    (start_block_num num_blocks : Z) (b b0 : BitmapManager) :
  disk_ok d -> bitmap_ok b -> bitmap_shape b0 ->
  total_bits b0 = total_bits b -> 0 < total_bits b ->
  0 <= start_block_num -> 0 <= num_blocks ->
  start_block_num + num_blocks <= total_blocks d ->
  bitmap_size b <= num_blocks * BLOCK_SIZE ->
  exists d' b1 b2,
    save_to_disk d start_block_num num_blocks b = (true, d', b1)
    /\ load_from_disk d' start_block_num num_blocks b0 = (true, b2)
    /\ bitmap_data b2 = bitmap_data b
    /\ total_bits b2 = total_bits b
    /\ free_bits_count b2 = free_bits_count b
    /\ (forall j, is_allocated b2 j = is_allocated b j)
    /\ (forall k, ~ (start_block_num <= k < start_block_num + num_blocks) ->
                  Disk.read_block d' k = Disk.read_block d k).
Proof.
  intros Hd [Hs Hc] Hs0 Htot Hpos Hstart Hnum Hend Hfit.
  pose proof Hs as (_ & Hsize & Hdat).
  pose proof Hs0 as (_ & Hsize0 & Hdat0).
  destruct (bitmap_data b) as [data|] eqn:Edata; [|lia].
  destruct (bitmap_data b0) as [data0|] eqn:Edata0; [|lia].
  destruct Hdat as [_ Hlen]. destruct Hdat0 as [_ Hlen0].
  assert (Hsz : bitmap_size b0 = bitmap_size b) by congruence.
  destruct (save_load_loop data (Z.to_nat num_blocks) start_block_num 0
              (bitmap_size b) d data0 Hd Hstart ltac:(lia) ltac:(lia)
              ltac:(lia) ltac:(lia) ltac:(lia)
              ltac:(rewrite Z2Nat.id by lia; exact Hfit))
    as (d' & He & Hd' & Ht' & Hf' & Hload).
  specialize (Hload d' ltac:(auto)).
  change (Z.to_nat 0) with 0%nat in Hload. rewrite take_0, drop_0 in Hload.
  cbn [app] in Hload.
  assert (Hsave : save_to_disk d start_block_num num_blocks b
                  = (true, d', set_blocks start_block_num num_blocks b)).
  { unfold save_to_disk. rewrite (shape_initialized b data Hs Edata).
    cbn [negb bitmap_data set_blocks bitmap_size]. rewrite Edata, He.
    reflexivity. }
  assert (Hld : load_from_disk d' start_block_num num_blocks b0
                = (true,
                   recalculate_free_bits
                     (set_data data
                        (set_blocks start_block_num num_blocks b0)))).
  { unfold load_from_disk. rewrite (shape_initialized b0 data0 Hs0 Edata0).
    cbn [negb bitmap_data set_blocks bitmap_size].
    rewrite Edata0, Hsz, Hload. reflexivity. }
  eexists d', _, _. split; [exact Hsave|]. split; [exact Hld|].
  unfold recalculate_free_bits.
  cbn [bitmap_data set_data set_blocks total_bits].
  destruct (Z.leb_spec (total_bits b0) 0); [lia|].
  cbn [bitmap_data set_free_bits_count set_data set_blocks total_bits
       free_bits_count].
  split; [reflexivity|]. split; [exact Htot|].
  split.
  { unfold counter_ok, zero_bits in Hc. rewrite Edata in Hc.
    rewrite Hc, Htot. reflexivity. }
  split.
  { intros j. unfold is_allocated, is_valid_bit.
    cbn [bitmap_data set_free_bits_count set_data set_blocks total_bits].
    rewrite Htot, Edata. reflexivity. }
  intros k Hk. apply Hf'. lia.
Qed.

End Persistence.
(* ====================================================================== *)
(** * First fit (src/core/bitmap_manager.cpp) *)
(* ====================================================================== *)

Section FirstFitScan.
Import Bitmap.

(** A bitmap with a truthful counter and a free bit hands out the free bit
    of the smallest index. *)
Lemma allocate_bit_smallest_free b bit :
  bitmap_ok b -> 0 <= bit < total_bits b -> is_allocated b bit = false ->
  (forall j, 0 <= j < bit -> is_allocated b j = true) ->
  0 < free_bits_count b
  /\ (allocate_bit b).1 = Some bit
  /\ is_allocated (allocate_bit b).2 bit = true.
Proof.
  intros Hok Hr Hfree Hbelow.
  assert (Hpos : 0 < free_bits_count b).
  { destruct (Z.lt_ge_cases 0 (free_bits_count b)) as [H|H]; [exact H|].
    rewrite (all_taken b Hok H bit Hr) in Hfree. discriminate. }
  split; [exact Hpos|].
  destruct (allocate_bit_succeeds b Hok Hpos) as (k & b' & Ha).
  assert (Hk : (allocate_bit b).1 = Some k) by (rewrite Ha; reflexivity).
  destruct (allocate_bit_smallest b k Hk) as (Hkr & Hkf & Hkb).
  assert (k = bit).
  { destruct (Z.lt_total k bit) as [H|[H|H]]; [|exact H|].
    - rewrite (Hbelow k) in Hkf by lia. discriminate.
    - rewrite (Hkb bit) in Hfree by lia. discriminate. }
  subst k. split; [exact Hk|]. rewrite Ha. cbn [snd].
  rewrite (allocate_bit_is_allocated b bit b' bit (proj1 Hok) Ha).
  rewrite Z.eqb_refl. unfold is_valid_bit.
  destruct (Z.leb_spec 0 bit); [|lia].
  destruct (Z.ltb_spec bit (total_bits b)); [|lia]. reflexivity.
Qed.

(** C5. [allocate_bit] returns the free bit of the smallest index: a bit
    it returns is free and no bit below it is, and on a bitmap with a
    truthful counter the smallest free bit is the bit it returns and
    marks. On a bitmap whose bits are all free it returns bit 0, and so
    does [allocate_inode], whose result is the inode of the root
    directory in [ensure_root_directory]. *)
Theorem allocate_bit_first_fit (b : BitmapManager) (bit : Z) :
  ((allocate_bit b).1 = Some bit ->
   (0 <= bit < total_bits b /\ is_allocated b bit = false
    /\ (forall j, 0 <= j < bit -> is_allocated b j = true))
   /\ ((forall j, 0 <= j < total_bits b -> is_allocated b j = false) ->
       bit = 0
       /\ forall now d m n,
            inode_bitmap m = b ->
            (InodeMgr.allocate_inode now d m).1.1 = Some n -> n = 0))
  /\ (bitmap_ok b -> 0 <= bit < total_bits b ->
      is_allocated b bit = false ->
      (forall j, 0 <= j < bit -> is_allocated b j = true) ->
      (allocate_bit b).1 = Some bit
      /\ is_allocated (allocate_bit b).2 bit = true)
  /\ (bitmap_ok b -> 0 < total_bits b ->
      (forall j, 0 <= j < total_bits b -> is_allocated b j = false) ->
      (allocate_bit b).1 = Some 0
      /\ forall now d m,
           store_ok d m -> inode_bitmap m = b ->
           0 < data_blocks_count (layout m) -> time_range now ->
           (InodeMgr.allocate_inode now d m).1.1 = Some 0).
Proof.
  split; [|split].
  - intros Ha.
    pose proof (allocate_bit_smallest b bit Ha) as (Hr & Hf & Hall).
    split; [auto|]. intros Hfree.
    assert (Hz : forall k, (allocate_bit b).1 = Some k -> k = 0).
    { intros k Hk. destruct (allocate_bit_smallest b k Hk) as (Hkr & _ & Hka).
      destruct (Z.eq_dec k 0) as [|Hne]; [assumption|].
      specialize (Hka 0 ltac:(lia)). rewrite Hfree in Hka by lia.
      discriminate. }
    split; [apply Hz, Ha|].
    intros now d m n <- Hn. apply Hz. eapply allocate_inode_bit, Hn.
  - intros Hok Hr Hfree Hbelow.
    apply (allocate_bit_smallest_free b bit Hok Hr Hfree Hbelow).
  - intros Hok Htot Hfree.
    destruct (allocate_bit_smallest_free b 0 Hok ltac:(lia)
                (Hfree 0 ltac:(lia)) ltac:(intros; lia))
      as (Hpos & H0 & _).
    split; [exact H0|].
    intros now d m Hst <- Hcount Hnow.
    assert (Hfi : 0 < InodeMgr.get_free_inodes m).
    { unfold InodeMgr.get_free_inodes, get_free_bits.
      destruct Hst as (_ & _ & -> & _). exact Hpos. }
    destruct (allocate_inode_spec now d m Hst Hcount Hnow Hfi)
      as (n & d' & m' & Ha & _ & _ & _ & _ & _ & _ & Hn & _).
    rewrite Ha. cbn [fst]. rewrite H0 in Hn. exact (eq_sym Hn).
Qed.

Lemma holed_bitmap_ok : bitmap_ok holed_bitmap.
Proof.
  unfold holed_bitmap.
  apply free_bit_ok. do 3 apply allocate_bit_ok.
  split; [apply create_shape|apply create_counter]; lia.
Qed.

Lemma holed_bitmap_below :
  forall j, 0 <= j < 1 -> is_allocated holed_bitmap j = true.
Proof. intros j Hj. replace j with 0 by lia. vm_compute. reflexivity. Qed.

(** Bit 0 and bit 2 are taken, and the scan hands out bit 1. *)
Lemma allocate_bit_first_fit_witness :
  is_allocated holed_bitmap 0 = true
  /\ is_allocated holed_bitmap 1 = false
  /\ is_allocated holed_bitmap 2 = true
  /\ (allocate_bit holed_bitmap).1 = Some 1
  /\ is_allocated (allocate_bit holed_bitmap).2 1 = true.
Proof.
  split; [vm_compute; reflexivity|].
  split; [vm_compute; reflexivity|].
  split; [vm_compute; reflexivity|].
  refine (proj1 (proj2 (allocate_bit_first_fit holed_bitmap 1))
            holed_bitmap_ok _ _ holed_bitmap_below).
  - vm_compute. split; [discriminate|reflexivity].
  - vm_compute. reflexivity.
Defined.

End FirstFitScan.
(* ====================================================================== *)
(** * Paths (src/utils/path_utils.cpp, path_manager.cpp) *)
(* ====================================================================== *)

Section LastSlash.
Import PathUtils.

Lemma eqb_slash c : Ascii.eqb c slash = bool_decide (c = slash).
Proof.
  destruct (Ascii.eqb_spec c slash) as [E|E].
  - rewrite bool_decide_eq_true_2; auto.
  - rewrite bool_decide_eq_false_2; auto.
Qed.

Lemma find_last_of_from_none s :
  forall i found, slash ∉ s -> find_last_of_from i s found = found.
Proof.
  induction s as [|c s IH]; intros i found Hn; [reflexivity|].
  cbn [find_last_of_from]. apply not_elem_of_cons in Hn as [Hc Hs].
  rewrite eqb_slash, bool_decide_eq_false_2 by (intros E; apply Hc; auto).
  apply IH, Hs.
Qed.

Lemma find_last_of_from_split pre f :
  forall i found,
    slash ∉ f ->
    find_last_of_from i (pre ++ slash :: f) found
    = Some (i + Z.of_nat (length pre)).
Proof.
  induction pre as [|c pre IH]; intros i found Hf.
  - cbn [app find_last_of_from length]. rewrite eqb_slash.
    rewrite bool_decide_eq_true_2 by reflexivity.
    rewrite find_last_of_from_none by exact Hf. f_equal. lia.
  - cbn [app find_last_of_from length]. rewrite IH by exact Hf.
    f_equal. lia.
Qed.

Lemma find_last_of_none s : slash ∉ s -> find_last_of s = None.
Proof. apply find_last_of_from_none. Qed.

Lemma find_last_of_split pre f :
  slash ∉ f -> find_last_of (pre ++ slash :: f) = Some (Z.of_nat (length pre)).
Proof.
  intros H. unfold find_last_of. rewrite find_last_of_from_split by exact H.
  reflexivity.
Qed.

(** Every string splits at its last ['/'], if it has one. *)
Lemma last_slash_split s :
  slash ∉ s \/ exists pre f, s = pre ++ slash :: f /\ slash ∉ f.
Proof.
  induction s as [|c s IH]; [left; apply not_elem_of_nil|].
  destruct IH as [Hn|(pre & f & -> & Hf)].
  - destruct (decide (c = slash)) as [->|Hc].
    + right. exists [], s. split; [reflexivity|exact Hn].
    + left. apply not_elem_of_cons. split; [auto|exact Hn].
  - right. exists (c :: pre), f. split; [reflexivity|exact Hf].
Qed.

(** X14. [extract_filename] and [extract_directory] split a valid path at
    its last ['/']: the file name is what follows it, the directory what
    precedes it, ["/"] when nothing precedes it; a path without ['/'] is
    its own file name, in directory ["."].
    [extract_filename_and_directory] gives the same pair with ["/"] in
    place of the directory ["."]. An invalid path gives two empty strings
    and no pair. *)
Theorem extract_filename_directory_split (path : list ascii) :
  (validate_path path = false ->
   extract_filename path = [] /\ extract_directory path = []
   /\ extract_filename_and_directory path = None)
  /\ (validate_path path = true ->
      (slash ∉ path ->
       extract_filename path = path
       /\ extract_directory path = ["."%char]
       /\ extract_filename_and_directory path = Some (path, [slash]))
      /\ (forall pre f,
            path = pre ++ slash :: f -> slash ∉ f ->
            extract_filename path = f
            /\ extract_directory path
               = (if bool_decide (pre = []) then [slash] else pre)
            /\ extract_filename_and_directory path
               = Some (f, if bool_decide (pre = [] \/ pre = ["."%char])
                          then [slash] else pre))).
Proof.
  unfold extract_filename_and_directory, extract_filename, extract_directory.
  split.
  - intros ->. cbn [negb]. auto.
  - intros ->. cbn [negb]. split.
    + intros Hn. rewrite (find_last_of_none path Hn).
      split; [reflexivity|]. split; reflexivity.
    + intros pre f -> Hf. rewrite (find_last_of_split pre f Hf).
      replace (Z.to_nat (Z.of_nat (length pre) + 1)) with (S (length pre))
        by lia.
      rewrite Nat2Z.id.
      assert (Hd : drop (S (length pre)) (pre ++ slash :: f) = f).
      { replace (S (length pre)) with (length (pre ++ [slash]))
          by (rewrite length_app; cbn; lia).
        rewrite (app_assoc pre [slash] f : pre ++ slash :: f = _).
        apply drop_app_length. }
      rewrite Hd, take_app_length.
      destruct pre as [|c pre].
      * cbn [length Z.of_nat Z.eqb]. rewrite !bool_decide_eq_true_2 by auto.
        auto.
      * replace (Z.of_nat (length (c :: pre)) =? 0) with false
          by (symmetry; apply Z.eqb_neq; cbn [length]; lia).
        rewrite (bool_decide_eq_false_2 (c :: pre = [])) by discriminate.
        split; [reflexivity|]. split; [reflexivity|]. f_equal. f_equal.
        destruct (decide (c :: pre = ["."%char])) as [E|E].
        -- rewrite E. reflexivity.
        -- rewrite (bool_decide_eq_false_2 (c :: pre = ["."%char])) by exact E.
           rewrite (bool_decide_eq_false_2 (c :: pre = [])) by discriminate.
           rewrite bool_decide_eq_false_2; [reflexivity|].
           intros [H|H]; [discriminate|contradiction].
Qed.

End LastSlash.

Section Components.
Import PathUtils PathMgr.

Lemma nonempty_cons (c : list ascii) l :
  nonempty (c :: l) = match c with [] => nonempty l | _ => c :: nonempty l end.
Proof.
  unfold nonempty. destruct c as [|a c].
  - rewrite filter_cons_False by (intros H; apply H; reflexivity).
    reflexivity.
  - rewrite filter_cons_True by discriminate. reflexivity.
Qed.

Lemma nonempty_pending (acc : list ascii) :
  nonempty (getlines [] acc) = nonempty [acc].
Proof. destruct acc; reflexivity. Qed.

(** The components of a string with a ['/'] inside: those before it, then
    those after it. *)
Lemma getlines_split q r :
  forall acc,
    nonempty (getlines (q ++ slash :: r) acc)
    = nonempty (getlines q acc) ++ nonempty (getlines r []).
Proof.
  induction q as [|c q IH]; intros acc.
  - cbn [app]. change (getlines (slash :: r) acc) with (acc :: getlines r []).
    rewrite nonempty_pending, !nonempty_cons.
    destruct acc; reflexivity.
  - cbn [app getlines]. destruct (Ascii.eqb c slash).
    + rewrite !nonempty_cons, IH. destruct acc; reflexivity.
    + apply IH.
Qed.

Lemma getlines_plain s :
  forall acc, slash ∉ s -> nonempty (getlines s acc) = nonempty [acc ++ s].
Proof.
  induction s as [|c s IH]; intros acc Hn.
  - rewrite app_nil_r. apply nonempty_pending.
  - cbn [getlines]. apply not_elem_of_cons in Hn as [Hc Hs].
    rewrite eqb_slash, bool_decide_eq_false_2 by (intros E; apply Hc; auto).
    rewrite IH by exact Hs. rewrite <- app_assoc. reflexivity.
Qed.

Lemma getlines_components s :
  forall acc, slash ∉ acc -> Forall component_ok (nonempty (getlines s acc)).
Proof.
  induction s as [|c s IH]; intros acc Hacc.
  - rewrite nonempty_pending, nonempty_cons.
    destruct acc as [|a acc]; [constructor|].
    constructor; [|constructor]. split; [discriminate|exact Hacc].
  - cbn [getlines]. destruct (Ascii.eqb_spec c slash) as [->|Hc].
    + rewrite nonempty_cons.
      pose proof (IH [] ltac:(apply not_elem_of_nil)) as Hrest.
      destruct acc as [|a acc]; [exact Hrest|].
      constructor; [|exact Hrest]. split; [discriminate|exact Hacc].
    + apply IH. rewrite elem_of_app, list_elem_of_singleton.
      intros [H|H]; [contradiction|]. apply Hc. symmetry. exact H.
Qed.

(** [parse_path] lists the components of the string, with or without a
    leading ['/']. *)
Lemma parse_path_getlines path :
  path <> [] -> parse_path path = Some (nonempty (getlines path [])).
Proof.
  intros Hne. unfold parse_path. fold nonempty.
  destruct path as [|c path]; [contradiction|].
  destruct (decide (c :: path = [slash])) as [E|E].
  - rewrite bool_decide_eq_true_2 by exact E. rewrite E. reflexivity.
  - rewrite bool_decide_eq_false_2 by exact E. f_equal.
    cbn [getlines]. destruct (Ascii.eqb c slash) eqn:Ec.
    + cbn [drop]. rewrite nonempty_cons. reflexivity.
    + cbn [drop getlines]. rewrite Ec. reflexivity.
Qed.

Lemma join_components cs :
  forall c,
    Forall component_ok (c :: cs) ->
    nonempty (getlines (c ++ join_path cs) []) = c :: cs.
Proof.
  induction cs as [|c' cs IH]; intros c Hall.
  - unfold join_path. cbn [map concat]. rewrite app_nil_r.
    inversion Hall as [|? ? [Hne Hns] _]; subst.
    rewrite getlines_plain by exact Hns. cbn [app].
    rewrite nonempty_cons. destruct c; [contradiction|reflexivity].
  - inversion Hall as [|? ? [Hne Hns] Hrest]; subst.
    change (join_path (c' :: cs)) with (slash :: c' ++ join_path cs).
    rewrite getlines_split, (IH c' Hrest).
    rewrite getlines_plain by exact Hns. cbn [app].
    rewrite nonempty_cons. destruct c; [contradiction|reflexivity].
Qed.

(** X15. [parse_path] fails on the empty path only; the components it
    returns are not empty and hold no ['/']; a path without leading ['/']
    parses like the path behind a ['/']; ["/"] has no component; and the
    path made of given components, each behind a ['/'], parses back into
    these components. *)
Theorem parse_path_components (path : list ascii) :
  (parse_path path = None <-> path = [])
  /\ (forall cs, parse_path path = Some cs -> Forall component_ok cs)
  /\ (forall c, c <> slash ->
        parse_path (c :: path) = parse_path (slash :: c :: path))
  /\ parse_path [slash] = Some []
  /\ (forall cs, Forall component_ok cs -> cs <> [] ->
        parse_path (join_path cs) = Some cs).
Proof.
  split; [|split; [|split; [|split; [reflexivity|]]]].
  - split; [|intros ->; reflexivity].
    intros H. destruct path as [|c p]; [reflexivity|].
    rewrite parse_path_getlines in H by discriminate. discriminate.
  - intros cs H. destruct path as [|c p]; [discriminate|].
    rewrite parse_path_getlines in H by discriminate. injection H as <-.
    exact (getlines_components (c :: p) [] (not_elem_of_nil _)).
  - intros c Hc. rewrite !parse_path_getlines by discriminate.
    change (getlines (slash :: c :: path) [])
      with ([] :: getlines (c :: path) []).
    rewrite nonempty_cons. reflexivity.
  - intros cs Hcs Hne. destruct cs as [|c cs]; [contradiction|].
    rewrite parse_path_getlines by discriminate. f_equal.
    change (join_path (c :: cs)) with ([] ++ slash :: (c ++ join_path cs)).
    rewrite getlines_split. change (nonempty (getlines [] [])) with (@nil (list ascii)).
    apply join_components, Hcs.
Qed.

(** What [find_inode] looks up are the components of the path. *)
Lemma find_inode_components d m path :
  find_inode d m path
  = match parse_path path with
    | None => -1
    | Some components => descend d m 0 components
    end.
Proof.
  unfold find_inode. destruct (decide (path = [slash])) as [->|E].
  - reflexivity.
  - rewrite bool_decide_eq_false_2 by exact E. reflexivity.
Qed.

Lemma unique_from_components s :
  forall prev acc,
    (prev = slash -> acc = []) ->
    nonempty (getlines (unique_from both_slash prev s) acc)
    = nonempty (getlines s acc).
Proof.
  induction s as [|c s IH]; intros prev acc Hacc; [reflexivity|].
  cbn [unique_from]. destruct (both_slash prev c) eqn:Eb.
  - apply both_slash_true in Eb as [-> ->]. rewrite (Hacc eq_refl).
    rewrite IH by auto. cbn [getlines]. rewrite (eqb_slash slash).
    rewrite bool_decide_eq_true_2 by reflexivity.
    rewrite nonempty_cons. reflexivity.
  - cbn [getlines]. destruct (Ascii.eqb_spec c slash) as [->|Hc].
    + rewrite !nonempty_cons, IH by auto. reflexivity.
    + apply IH. intros ->. contradiction.
Qed.

Lemma replace_nonempty old new s : s <> [] -> replace old new s <> [].
Proof. destruct s; [contradiction|discriminate]. Qed.

Lemma normalize_path_components path :
  path <> [] ->
  normalize_path path <> []
  /\ nonempty (getlines (normalize_path path) [])
     = nonempty (getlines (replace backslash slash path) []).
Proof.
  intros Hne. unfold normalize_path.
  destruct path as [|a path]; [contradiction|].
  set (r := replace backslash slash (a :: path)).
  assert (Hr : r <> []) by (apply replace_nonempty; discriminate).
  set (u := unique both_slash r).
  assert (Hu : u <> [] /\ nonempty (getlines u []) = nonempty (getlines r [])).
  { unfold u. destruct r as [|c r']; [contradiction|].
    split; [discriminate|]. cbn [unique getlines].
    destruct (Ascii.eqb_spec c slash) as [->|Hc].
    - rewrite !nonempty_cons, unique_from_components by auto. reflexivity.
    - apply unique_from_components. intros ->. contradiction. }
  destruct Hu as [Hune Hu].
  destruct ((1 <? Z.of_nat (length u)) && Ascii.eqb (back u) slash) eqn:Et;
    [|split; [exact Hune|exact Hu]].
  apply andb_true_iff in Et as [Hlen Hback].
  apply Z.ltb_lt in Hlen.
  destruct (Ascii.eqb_spec (back u) slash) as [Eb|]; [|discriminate].
  pose proof (pop_back_back u Hune) as Hsplit. rewrite Eb in Hsplit.
  split.
  - intros E. rewrite E in Hsplit. rewrite Hsplit in Hlen.
    cbn [app length] in Hlen. lia.
  - rewrite <- Hu. rewrite Hsplit at 2.
    rewrite getlines_split. cbn [getlines filter]. rewrite app_nil_r.
    reflexivity.
Qed.

(** X16. Normalising a path does not change what it names: the normalised
    path has the components of the path with ['/'] for each backslash,
    and [find_inode] returns the same inode for both; for a path without
    backslash, [find_inode] returns the same inode with and without
    normalisation. *)
Theorem find_inode_normalize_path (d : DiskSimulator) (m : InodeManager)
    (path : list ascii) :
  parse_path (normalize_path path)
  = parse_path (replace backslash slash path)
  /\ find_inode d m (normalize_path path)
     = find_inode d m (replace backslash slash path)
  /\ (backslash ∉ path ->
      find_inode d m (normalize_path path) = find_inode d m path).
Proof.
  assert (Hp : parse_path (normalize_path path)
               = parse_path (replace backslash slash path)).
  { destruct path as [|a path]; [reflexivity|].
    destruct (normalize_path_components (a :: path) ltac:(discriminate))
      as [Hne Hc].
    rewrite (parse_path_getlines _ Hne).
    rewrite parse_path_getlines by (apply replace_nonempty; discriminate).
    rewrite Hc. reflexivity. }
  split; [exact Hp|].
  assert (Hf : find_inode d m (normalize_path path)
               = find_inode d m (replace backslash slash path))
    by (rewrite !find_inode_components, Hp; reflexivity).
  split; [exact Hf|].
  intros Hn. rewrite Hf, (replace_id _ _ _ Hn). reflexivity.
Qed.

(** X17. [get_parent_path] and [get_basename] split an absolute path other
    than ["/"] at its last ['/'], and the components of the path are those
    of the parent followed by the base name. *)
Theorem parent_and_basename (pre f : list ascii) :
  slash ∉ f -> f <> [] -> (pre = [] \/ exists q, pre = slash :: q) ->
  get_basename (pre ++ slash :: f) = f
  /\ get_parent_path (pre ++ slash :: f)
     = (if bool_decide (pre = []) then [slash] else pre)
  /\ exists cs,
       parse_path (get_parent_path (pre ++ slash :: f)) = Some cs
       /\ parse_path (pre ++ slash :: f) = Some (cs ++ [f]).
Proof.
  intros Hf Hne Habs.
  set (p := pre ++ slash :: f).
  assert (Hhd : exists t, p = slash :: t).
  { destruct Habs as [->|[q ->]]; eexists; reflexivity. }
  destruct Hhd as [t Ht].
  assert (Hroot : p <> [slash]).
  { intros E. unfold p in E. destruct Habs as [->|[q ->]].
    - injection E as ->. contradiction.
    - injection E as E. destruct q; discriminate. }
  assert (Hb : get_basename p = f).
  { unfold get_basename. rewrite Ht.
    rewrite bool_decide_eq_false_2 by (rewrite <- Ht; exact Hroot).
    rewrite (eqb_slash slash), bool_decide_eq_true_2 by reflexivity.
    rewrite <- Ht. unfold p. rewrite (find_last_of_split pre f Hf).
    replace (Z.to_nat (Z.of_nat (length pre) + 1))
      with (length (pre ++ [slash])) by (rewrite length_app; cbn; lia).
    rewrite (app_assoc pre [slash] f : pre ++ slash :: f = _).
    apply drop_app_length. }
  assert (Hpar : get_parent_path p
                 = if bool_decide (pre = []) then [slash] else pre).
  { unfold get_parent_path. rewrite Ht.
    rewrite bool_decide_eq_false_2 by (rewrite <- Ht; exact Hroot).
    rewrite (eqb_slash slash), bool_decide_eq_true_2 by reflexivity.
    rewrite <- Ht. unfold p. rewrite (find_last_of_split pre f Hf).
    rewrite Nat2Z.id, take_app_length.
    destruct pre as [|c pre'].
    - reflexivity.
    - rewrite bool_decide_eq_false_2 by discriminate.
      replace (Z.of_nat (length (c :: pre')) =? 0) with false
        by (symmetry; apply Z.eqb_neq; cbn [length]; lia).
      reflexivity. }
  split; [exact Hb|]. split; [exact Hpar|].
  rewrite Hpar. unfold p.
  rewrite (parse_path_getlines (pre ++ slash :: f))
    by (destruct pre; discriminate).
  rewrite getlines_split, (getlines_plain f [] Hf). cbn [app].
  rewrite (nonempty_cons f []).
  destruct pre as [|c pre'].
  - rewrite bool_decide_eq_true_2 by reflexivity.
    exists []. split; [reflexivity|]. destruct f; [contradiction|reflexivity].
  - rewrite bool_decide_eq_false_2 by discriminate.
    rewrite parse_path_getlines by discriminate.
    eexists. split; [reflexivity|]. destruct f; [contradiction|reflexivity].
Qed.

Lemma parent_and_basename_witness :
  get_basename (["/"; "a"] ++ slash :: ["b"])%char = ["b"%char]
  /\ get_parent_path (["/"; "a"] ++ slash :: ["b"])%char
     = (if bool_decide (["/"; "a"]%char = []) then [slash]
        else ["/"; "a"]%char)
  /\ exists cs,
       parse_path (get_parent_path (["/"; "a"] ++ slash :: ["b"])%char)
       = Some cs
       /\ parse_path (["/"; "a"] ++ slash :: ["b"])%char
          = Some (cs ++ [["b"%char]]).
Proof.
  refine (parent_and_basename ["/"; "a"]%char ["b"%char] _ _ _).
  - intros H. apply list_elem_of_singleton in H. discriminate.
  - discriminate.
  - right. exists ["a"%char]. reflexivity.
Defined.

End Components.
(* ====================================================================== *)
(** * Open files (src/core/file_manager.cpp) *)
(* ====================================================================== *)

Section Descriptors.
Import FileMgr.

Lemma update_file_modification_time_fds now s inode_num :
  FS.file_descriptors (update_file_modification_time now s inode_num)
  = FS.file_descriptors s
  /\ FS.inode_manager (update_file_modification_time now s inode_num)
     = FS.inode_manager s
  /\ FS.next_fd (update_file_modification_time now s inode_num)
     = FS.next_fd s
  /\ FS.mounted (update_file_modification_time now s inode_num)
     = FS.mounted s.
Proof.
  unfold update_file_modification_time.
  destruct (InodeMgr.read_inode _ _ _); repeat split.
Qed.

Lemma get_file_descriptor_unknown s fd :
  FS.file_descriptors s !! fd = None ->
  get_file_descriptor s fd = Failed ERROR_INVALID_FILE_DESCRIPTOR.
Proof. intros H. unfold get_file_descriptor. rewrite H. reflexivity. Qed.

(** X18. [close_file] on a descriptor that is not in the table fails with
    [ERROR_INVALID_FILE_DESCRIPTOR] and changes nothing. On a descriptor
    of the table it succeeds and removes that descriptor only; afterwards
    [read_file], [write_file], [seek_file] and a second [close_file] on it
    fail with [ERROR_INVALID_FILE_DESCRIPTOR] and change nothing. *)
Theorem close_file_invalidates (now : Z) (s : FS.t) (fd : Z) :
  (FS.file_descriptors s !! fd = None ->
   close_file now s fd = (Failed ERROR_INVALID_FILE_DESCRIPTOR, s))
  /\ (forall desc,
        FS.file_descriptors s !! fd = Some desc ->
        (close_file now s fd).1 = Done tt
        /\ FS.file_descriptors (close_file now s fd).2 !! fd = None
        /\ (forall fd', fd' <> fd ->
              FS.file_descriptors (close_file now s fd).2 !! fd'
              = FS.file_descriptors s !! fd')
        /\ (forall now' n,
              read_file now' (close_file now s fd).2 fd n
              = (Failed ERROR_INVALID_FILE_DESCRIPTOR,
                 (close_file now s fd).2))
        /\ (forall now' buffer n,
              write_file now' (close_file now s fd).2 fd buffer n
              = (Failed ERROR_INVALID_FILE_DESCRIPTOR,
                 (close_file now s fd).2))
        /\ (forall position,
              seek_file (close_file now s fd).2 fd position
              = (Failed ERROR_INVALID_FILE_DESCRIPTOR,
                 (close_file now s fd).2))
        /\ (forall now',
              close_file now' (close_file now s fd).2 fd
              = (Failed ERROR_INVALID_FILE_DESCRIPTOR,
                 (close_file now s fd).2))).
Proof.
  split.
  - intros H. unfold close_file. rewrite H. reflexivity.
  - intros desc Hd.
    assert (Hs : (close_file now s fd).2
                 = free_file_descriptor
                     (update_file_modification_time now s
                        (FileDescriptor.inode_num desc)) fd)
      by (unfold close_file; rewrite Hd; reflexivity).
    pose proof (update_file_modification_time_fds now s
                  (FileDescriptor.inode_num desc)) as (Hf & _).
    set (s1 := update_file_modification_time now s
                 (FileDescriptor.inode_num desc)) in *.
    assert (Hfds : FS.file_descriptors (close_file now s fd).2
                   = delete fd (FS.file_descriptors s)).
    { rewrite Hs. unfold free_file_descriptor. rewrite Hf, Hd.
      cbn [FS.file_descriptors FS.set_file_descriptors]. reflexivity. }
    assert (Hgone : FS.file_descriptors (close_file now s fd).2 !! fd = None)
      by (rewrite Hfds; apply lookup_delete_eq).
    split; [unfold close_file; rewrite Hd; reflexivity|].
    split; [exact Hgone|].
    split; [intros fd' Hne; rewrite Hfds; apply lookup_delete_ne; auto|].
    pose proof (get_file_descriptor_unknown _ _ Hgone) as Hg.
    split; [intros now' n; unfold read_file; rewrite Hg; reflexivity|].
    split; [intros now' buffer n; unfold write_file; rewrite Hg; reflexivity|].
    split; [intros position; unfold seek_file; rewrite Hg; reflexivity|].
    intros now'. unfold close_file at 1. rewrite Hgone. reflexivity.
Qed.

Lemma finish_create_fds now s parent_inode filename new_inode mode :
  FS.file_descriptors
    (finish_create now s parent_inode filename new_inode mode).2
  = FS.file_descriptors s
  /\ FS.next_fd (finish_create now s parent_inode filename new_inode mode).2
     = FS.next_fd s
  /\ FS.mounted (finish_create now s parent_inode filename new_inode mode).2
     = FS.mounted s.
Proof.
  unfold finish_create.
  repeat match goal with
         | |- context [match ?x with _ => _ end] => destruct x
         end; repeat split.
Qed.

Lemma allocate_file_inode_fds now s :
  FS.file_descriptors (allocate_file_inode now s).2 = FS.file_descriptors s
  /\ FS.next_fd (allocate_file_inode now s).2 = FS.next_fd s
  /\ FS.mounted (allocate_file_inode now s).2 = FS.mounted s.
Proof.
  unfold allocate_file_inode.
  repeat match goal with
         | |- context [match ?x with _ => _ end] => destruct x
         end; repeat split.
Qed.

Lemma create_file_fds now s path mode :
  FS.file_descriptors (create_file now s path mode).2 = FS.file_descriptors s
  /\ FS.next_fd (create_file now s path mode).2 = FS.next_fd s
  /\ FS.mounted (create_file now s path mode).2 = FS.mounted s.
Proof.
  unfold create_file.
  destruct (file_exists s path); [repeat split|].
  destruct (PathMgr.validate_and_parse_path path) as [[filename directory]|];
    [|repeat split].
  destruct (_ =? -1); [repeat split|].
  pose proof (allocate_file_inode_fds now s) as (A1 & A2 & A3).
  destruct (allocate_file_inode now s) as [[new_inode|e] s1];
    cbn [snd] in *; [|repeat split; assumption].
  pose proof (finish_create_fds now s1 (PathMgr.find_inode (FS.disk s)
                (FS.inode_manager s) directory) filename new_inode mode)
    as (B1 & B2 & B3).
  repeat split; congruence.
Qed.

(** What [allocate_file_descriptor(inode_num, mode, fd)] enters in the
    table. *)
Lemma allocate_file_descriptor_for_Done fuel s inode_num mode fd s' :
  allocate_file_descriptor_for fuel s inode_num mode = Some (Done fd, s') ->
  FS.file_descriptors s !! fd = None
  /\ FS.file_descriptors s'
     = <[fd := {| FileDescriptor.inode_num := inode_num;
                  FileDescriptor.mode := mode;
                  FileDescriptor.position := 0;
                  FileDescriptor.open := true |}]> (FS.file_descriptors s)
  /\ FS.disk s' = FS.disk s /\ FS.inode_manager s' = FS.inode_manager s.
Proof.
  unfold allocate_file_descriptor_for.
  destruct (allocate_file_descriptor fuel s) as [[fd0 s0]|] eqn:E;
    [|discriminate].
  pose proof (allocate_file_descriptor_fresh _ _ _ _ E) as Hfresh.
  unfold allocate_file_descriptor in E.
  destruct (fd_search _ _ _); [|discriminate]. injection E as <- <-.
  destruct (_ =? -1); [discriminate|]. intros [= <- <-].
  split; [exact Hfresh|]. repeat split.
Qed.

(** X19. [open_file] on a path that names no file fails with
    [ERROR_FILE_NOT_FOUND] and changes nothing, unless [OPEN_MODE_CREATE]
    is set. When it returns a descriptor, the descriptor was unused, no
    other descriptor has changed, and the table holds for it an open
    entry with the mode asked for; without [OPEN_MODE_CREATE] the entry
    names the inode of the path, and its position is 0, or the size of
    the file with [OPEN_MODE_APPEND]. A descriptor opened without
    [OPEN_MODE_READ] cannot be read and one opened without
    [OPEN_MODE_WRITE] cannot be written: the calls fail with
    [ERROR_INVALID_ARGUMENT] and change nothing. *)
Theorem open_file_result (fuel : nat) (now : Z) (s : FS.t)
    (path : list ascii) (mode : Z) :
  (PathMgr.find_inode (FS.disk s) (FS.inode_manager s) path = -1 ->
   Z.land mode OPEN_MODE_CREATE = 0 ->
   open_file fuel now s path mode = Some (Failed ERROR_FILE_NOT_FOUND, s))
  /\ (forall fd s',
        open_file fuel now s path mode = Some (Done fd, s') ->
        FS.file_descriptors s !! fd = None
        /\ (forall fd', fd' <> fd ->
              FS.file_descriptors s' !! fd' = FS.file_descriptors s !! fd')
        /\ exists desc,
             FS.file_descriptors s' !! fd = Some desc
             /\ FileDescriptor.mode desc = mode
             /\ FileDescriptor.open desc = true
             /\ (Z.land mode OPEN_MODE_CREATE = 0 ->
                 FileDescriptor.inode_num desc
                 = PathMgr.find_inode (FS.disk s) (FS.inode_manager s) path
                 /\ FileDescriptor.inode_num desc <> -1)
             /\ (Z.land mode OPEN_MODE_APPEND = 0 ->
                 FileDescriptor.position desc = 0)
             /\ (Z.land mode OPEN_MODE_APPEND <> 0 ->
                 Z.land mode OPEN_MODE_CREATE = 0 ->
                 exists inode,
                   InodeMgr.read_inode (FS.disk s) (FS.inode_manager s)
                     (FileDescriptor.inode_num desc) = Some inode
                   /\ FileDescriptor.position desc = Inode.size inode)
             /\ (Z.land mode OPEN_MODE_READ = 0 ->
                 forall now' n,
                   read_file now' s' fd n
                   = (Failed ERROR_INVALID_ARGUMENT, s'))
             /\ (Z.land mode OPEN_MODE_WRITE = 0 ->
                 forall now' buffer n,
                   write_file now' s' fd buffer n
                   = (Failed ERROR_INVALID_ARGUMENT, s'))).
Proof.
  split.
  - intros Hf Hc. unfold open_file. rewrite Hf, Hc. reflexivity.
  - intros fd s' Ho. unfold open_file in Ho.
    set (n0 := PathMgr.find_inode (FS.disk s) (FS.inode_manager s) path) in *.
    set (pre := if n0 =? -1
                then if negb (Z.land mode OPEN_MODE_CREATE =? 0)
                     then create_file now s path
                            (Z.lor FILE_PERMISSION_READ FILE_PERMISSION_WRITE)
                     else (Failed ERROR_FILE_NOT_FOUND, s)
                else (Done n0, s)) in *.
    assert (Hpre : FS.file_descriptors pre.2 = FS.file_descriptors s
                   /\ (Z.land mode OPEN_MODE_CREATE = 0 ->
                       forall n, pre.1 = Done n ->
                         n = n0 /\ n0 <> -1 /\ pre.2 = s)).
    { unfold pre. destruct (Z.eqb_spec n0 (-1)) as [E|E].
      - destruct (Z.eqb_spec (Z.land mode OPEN_MODE_CREATE) 0) as [Ec|Ec];
          cbn [negb].
        + split; [reflexivity|]. intros _ n H. discriminate.
        + split; [apply create_file_fds|]. intros H. contradiction.
      - split; [reflexivity|]. intros _ n [= <-]. auto. }
    destruct pre as [[n|e] s1]; [|discriminate].
    cbn [fst snd] in Hpre. destruct Hpre as [Hfds1 Hnc].
    destruct (allocate_file_descriptor_for fuel s1 n mode)
      as [[[fd1|e] s2]|] eqn:Ea; try discriminate.
    destruct (allocate_file_descriptor_for_Done _ _ _ _ _ _ Ea)
      as (Hfresh & Hfds2 & Hd2 & Hm2).
    set (desc0 := {| FileDescriptor.inode_num := n;
                     FileDescriptor.mode := mode;
                     FileDescriptor.position := 0;
                     FileDescriptor.open := true |}) in *.
    assert (Hfinal : exists desc,
               fd = fd1
               /\ FS.file_descriptors s'
                  = <[fd1 := desc]> (FS.file_descriptors s)
               /\ FileDescriptor.inode_num desc = n
               /\ FileDescriptor.mode desc = mode
               /\ FileDescriptor.open desc = true
               /\ (Z.land mode OPEN_MODE_APPEND = 0 ->
                   FileDescriptor.position desc = 0)
               /\ (Z.land mode OPEN_MODE_APPEND <> 0 ->
                   exists inode,
                     InodeMgr.read_inode (FS.disk s1) (FS.inode_manager s1) n
                     = Some inode
                     /\ FileDescriptor.position desc = Inode.size inode)).
    { destruct (Z.eqb_spec (Z.land mode OPEN_MODE_APPEND) 0) as [Eap|Eap];
        cbn [negb] in Ho.
      - injection Ho as <- <-. exists desc0.
        split; [reflexivity|].
        rewrite update_file_access_time_fds, Hfds2, Hfds1.
        split; [reflexivity|]. repeat split. intros H. contradiction.
      - destruct (InodeMgr.read_inode (FS.disk s2) (FS.inode_manager s2) n)
          as [inode|] eqn:Er; [|discriminate].
        injection Ho as <- <-.
        exists (FileDescriptor.set_position (Inode.size inode) desc0).
        split; [reflexivity|].
        rewrite update_file_access_time_fds.
        unfold set_fd_position.
        cbn [FS.file_descriptors FS.set_file_descriptors].
        rewrite Hfds2, Hfds1.
        split.
        { apply alter_insert_eq. }
        repeat split; [intros H; contradiction|].
        intros _. exists inode. rewrite <- Hd2, <- Hm2. split; [exact Er|].
        reflexivity. }
    destruct Hfinal as (desc & -> & Hfds & Hin & Hmd & Hop & Hp0 & Hpa).
    rewrite Hfds1 in Hfresh.
    split; [exact Hfresh|].
    split; [intros fd' Hne; rewrite Hfds; apply lookup_insert_ne; auto|].
    assert (Hlook : FS.file_descriptors s' !! fd1 = Some desc)
      by (rewrite Hfds; apply lookup_insert_eq).
    assert (Hg : get_file_descriptor s' fd1 = Done desc)
      by (apply get_file_descriptor_Done; auto).
    exists desc. split; [exact Hlook|]. split; [exact Hmd|].
    split; [exact Hop|].
    split.
    { intros Hc. destruct (Hnc Hc n eq_refl) as (-> & Hne & _).
      rewrite Hin. auto. }
    split; [exact Hp0|].
    split.
    { intros Hap Hc. destruct (Hnc Hc n eq_refl) as (_ & _ & ->).
      rewrite Hin. apply Hpa, Hap. }
    split.
    + intros Hr now' k. unfold read_file. rewrite Hg, Hmd, Hr. reflexivity.
    + intros Hw now' buffer k. unfold write_file. rewrite Hg, Hmd, Hw.
      reflexivity.
Qed.

End Descriptors.
(* ====================================================================== *)
(** * Directories (src/core/directory_manager.cpp, path_manager.cpp) *)
(* ====================================================================== *)

Section DirectoryEntries.

Lemma char_of_code_char_code c : char_of_code (char_code c) = c.
Proof.
  unfold char_of_code, char_code.
  pose proof (N_ascii_bounded c) as Hb.
  rewrite Z.mod_small by lia. rewrite N2Z.id. apply ascii_N_embedding.
Qed.

Lemma map_char_codes (s : list ascii) :
  map char_of_code (map char_code s) = s.
Proof.
  induction s as [|c s IH]; [reflexivity|]. cbn [map].
  rewrite char_of_code_char_code, IH. reflexivity.
Qed.

Lemma length_entry_name (name : list ascii) :
  length (take 256 (name ++ repeat NUL 256)) = 256%nat.
Proof. rewrite length_take, length_app, repeat_length. lia. Qed.

Lemma length_encode_DirectoryEntry e :
  length (encode_DirectoryEntry e) = 264%nat.
Proof.
  unfold encode_DirectoryEntry.
  rewrite !length_app, !length_encode_int, length_map, length_entry_name.
  reflexivity.
Qed.

(** What [memcpy] brings back from the bytes of an entry is the entry. *)
Lemma decode_encode_DirectoryEntry e :
  entry_wf e -> decode_DirectoryEntry (encode_DirectoryEntry e) = e.
Proof.
  intros (Hi & Hn & Hl). destruct e as [ino name len].
  cbn [DirectoryEntry.inode_number DirectoryEntry.name
       DirectoryEntry.name_length] in Hi, Hn, Hl.
  change (Z.to_nat MAX_FILENAME_LENGTH) with 256%nat in Hn.
  unfold decode_DirectoryEntry, encode_DirectoryEntry.
  cbn [DirectoryEntry.inode_number DirectoryEntry.name
       DirectoryEntry.name_length].
  assert (Hname : take 256 (name ++ repeat NUL 256) = name).
  { rewrite take_app_le by lia. apply take_ge. lia. }
  rewrite Hname. f_equal.
  - apply get_int_here, Hi.
  - rewrite slice_app_skip by (rewrite length_encode_int; lia).
    rewrite length_encode_int.
    rewrite slice_app_here by (rewrite length_map; lia).
    apply map_char_codes.
  - rewrite get_int_skip by (rewrite length_encode_int; lia).
    rewrite get_int_skip by (rewrite length_encode_int, length_map; lia).
    rewrite length_encode_int, length_map.
    replace (260 - Z.of_nat 4 - Z.of_nat (length name)) with 0 by lia.
    rewrite <- (app_nil_r (encode_int len)). apply get_int_here, Hl.
Qed.

Lemma decode_le_zeros n : decode_le (repeat 0 n) = 0.
Proof. induction n as [|n IH]; [reflexivity|]. cbn. rewrite IH. reflexivity. Qed.

Lemma slice_zeros n off len :
  exists k, slice (repeat 0 n) off len = repeat 0 k.
Proof.
  unfold slice. rewrite drop_repeat.
  destruct (decide (Z.to_nat len <= n - Z.to_nat off)%nat).
  - eexists. apply take_repeat. assumption.
  - eexists. rewrite take_ge by (rewrite repeat_length; lia). reflexivity.
Qed.

(** A slot of zero bytes holds an entry of length 0. *)
Lemma entry_at_zeros pre z k :
  Z.of_nat (length pre) <= sizeof_DirectoryEntry * k ->
  DirectoryEntry.name_length (entry_at (pre ++ repeat 0 z) k) = 0.
Proof.
  intros Hk. unfold entry_at, decode_DirectoryEntry.
  cbn [DirectoryEntry.name_length]. unfold sizeof_DirectoryEntry in *.
  rewrite slice_app_skip by lia.
  destruct (slice_zeros z (k * 264 - Z.of_nat (length pre)) 264) as [a ->].
  unfold get_int. destruct (slice_zeros a 260 4) as [b ->].
  rewrite decode_le_zeros. reflexivity.
Qed.

Lemma block_entries_zeros r :
  forall pre z k,
    Z.of_nat (length pre) <= sizeof_DirectoryEntry * k ->
    DirMgr.block_entries (pre ++ repeat 0 z) k r = [].
Proof.
  induction r as [|r IH]; intros pre z k Hk; [reflexivity|].
  cbn [DirMgr.block_entries]. rewrite entry_at_zeros by exact Hk.
  cbn [Z.ltb]. apply IH. unfold sizeof_DirectoryEntry in *. lia.
Qed.

Lemma entry_at_here pre e rest k :
  entry_wf e -> Z.of_nat (length pre) = sizeof_DirectoryEntry * k ->
  entry_at (pre ++ encode_DirectoryEntry e ++ rest) k = e.
Proof.
  intros He Hk. unfold entry_at. unfold sizeof_DirectoryEntry in *.
  rewrite slice_app_skip by lia.
  replace (k * 264 - Z.of_nat (length pre)) with 0 by lia.
  rewrite slice_app_here by (rewrite length_encode_DirectoryEntry; lia).
  apply decode_encode_DirectoryEntry, He.
Qed.

(** The entries written one behind the other are the entries read. *)
Lemma block_entries_read es :
  forall pre z k r,
    Forall entry_listed es ->
    Z.of_nat (length pre) = sizeof_DirectoryEntry * k ->
    (length es <= r)%nat ->
    DirMgr.block_entries
      (pre ++ concat (map encode_DirectoryEntry es) ++ repeat 0 z) k r
    = es.
Proof.
  induction es as [|e es IH]; intros pre z k r Hes Hk Hr.
  - cbn [map concat app]. apply block_entries_zeros. lia.
  - destruct r as [|r]; [cbn [length] in Hr; lia|].
    inversion Hes as [|? ? [Hwf Hpos] Hes']; subst.
    cbn [DirMgr.block_entries map concat]. rewrite <- !app_assoc.
    rewrite entry_at_here by assumption.
    destruct (Z.ltb_spec 0 (DirectoryEntry.name_length e)); [|lia].
    f_equal.
    rewrite (app_assoc pre). apply IH; [exact Hes'| |cbn [length] in Hr; lia].
    rewrite length_app, length_encode_DirectoryEntry.
    unfold sizeof_DirectoryEntry in *. lia.
Qed.

(** What [fill_block] leaves in a buffer of zeros. *)
Lemma fill_block_spec r :
  forall es pre j,
    Z.of_nat (length pre) = sizeof_DirectoryEntry * j -> 0 <= j ->
    sizeof_DirectoryEntry * (j + Z.of_nat r) <= BLOCK_SIZE ->
    DirMgr.fill_block
      (pre ++ repeat 0 (Z.to_nat (BLOCK_SIZE - sizeof_DirectoryEntry * j)))
      j r es
    = (pre ++ concat (map encode_DirectoryEntry (take r es))
           ++ repeat 0 (Z.to_nat (BLOCK_SIZE - sizeof_DirectoryEntry * j
                                  - sizeof_DirectoryEntry
                                    * Z.of_nat (length (take r es)))),
       drop r es).
Proof.
  pose proof BLOCK_SIZE_eq as HB. unfold sizeof_DirectoryEntry.
  induction r as [|r IH]; intros es pre j Hpre Hj Hfit.
  - cbn [DirMgr.fill_block]. rewrite take_0, drop_0.
    cbn [map concat app length]. do 3 f_equal. lia.
  - destruct es as [|e es].
    + cbn [DirMgr.fill_block take drop map concat app length].
      do 3 f_equal. lia.
    + cbn [DirMgr.fill_block take drop map concat length].
      unfold sizeof_DirectoryEntry.
      assert (Hs : splice (pre ++ repeat 0 (Z.to_nat (BLOCK_SIZE - 264 * j)))
                     (j * 264) (encode_DirectoryEntry e)
                   = (pre ++ encode_DirectoryEntry e)
                       ++ repeat 0 (Z.to_nat (BLOCK_SIZE - 264 * (j + 1)))).
      { unfold splice. rewrite length_encode_DirectoryEntry.
        replace (Z.to_nat (j * 264)) with (length pre) by lia.
        rewrite take_app_length.
        rewrite drop_app_ge by lia.
        rewrite drop_repeat. rewrite <- app_assoc. do 3 f_equal. lia. }
      rewrite Hs. rewrite IH.
      * rewrite <- !app_assoc. do 4 f_equal. f_equal. lia.
      * rewrite length_app, length_encode_DirectoryEntry. lia.
      * lia.
      * lia.
Qed.

Lemma length_concat_entries es :
  length (concat (map encode_DirectoryEntry es)) = (264 * length es)%nat.
Proof.
  induction es as [|e es IH]; [reflexivity|].
  cbn [map concat length]. rewrite length_app, length_encode_DirectoryEntry.
  lia.
Qed.

(** One block of a directory: what [write_directory] puts in its buffer,
    read by [read_directory]. *)
Lemma fill_block_read es :
  Forall entry_listed es ->
  Z.of_nat (length (DirMgr.fill_block BlockUtils.create_block_buffer 0
                      (Z.to_nat PathMgr.max_entries) es).1) = BLOCK_SIZE
  /\ DirMgr.block_entries
       (DirMgr.fill_block BlockUtils.create_block_buffer 0
          (Z.to_nat PathMgr.max_entries) es).1
       0 (Z.to_nat PathMgr.max_entries)
     = take 15 es
  /\ (DirMgr.fill_block BlockUtils.create_block_buffer 0
        (Z.to_nat PathMgr.max_entries) es).2 = drop 15 es.
Proof.
  intros Hes. pose proof BLOCK_SIZE_eq as HB.
  change (Z.to_nat PathMgr.max_entries) with 15%nat.
  pose proof (fill_block_spec 15 es [] 0 ltac:(reflexivity) ltac:(lia)
                ltac:(unfold sizeof_DirectoryEntry; lia)) as Hf.
  cbn [app] in Hf.
  change (Z.to_nat (BLOCK_SIZE - sizeof_DirectoryEntry * 0))
    with (Z.to_nat BLOCK_SIZE) in Hf.
  fold BlockUtils.create_block_buffer in Hf. rewrite Hf. cbn [fst snd].
  assert (Hlen : (length (take 15 es) <= 15)%nat)
    by (rewrite length_take; lia).
  split; [|split; [|reflexivity]].
  - rewrite length_app, length_concat_entries, repeat_length.
    unfold sizeof_DirectoryEntry. lia.
  - apply (block_entries_read (take 15 es) [] _ 0 15);
      [apply Forall_take; exact Hes|reflexivity|exact Hlen].
Qed.

Lemma take_add {A} (l : list A) a b :
  take (a + b) l = take a l ++ take b (drop a l).
Proof.
  revert a. induction l as [|x l IH]; intros [|a]; cbn; auto.
  - rewrite take_nil. reflexivity.
  - f_equal. apply IH.
Qed.

(** The blocks of a directory: what the loop of [write_directory] writes,
    the loop of [read_directory] reads. *)
Lemma write_read_blocks blocks :
  forall es d,
    disk_ok d -> NoDup blocks ->
    Forall (fun b => 0 <= b < total_blocks d
                     /\ BlockUtils.is_valid_block_index b = true) blocks ->
    Forall entry_listed es ->
    exists d',
      DirMgr.write_blocks blocks es d = (true, d')
      /\ disk_ok d' /\ total_blocks d' = total_blocks d
      /\ DirMgr.read_blocks d' blocks = Some (take (15 * length blocks) es)
      /\ (forall k, k ∉ blocks -> Disk.read_block d' k = Disk.read_block d k).
Proof.
  induction blocks as [|b blocks IH]; intros es d Hd Hnd Hb Hes.
  - exists d. cbn. auto.
  - apply NoDup_cons in Hnd as [Hnb Hnd].
    inversion Hb as [|? ? [Hr Hv] Hb']; subst.
    destruct (fill_block_read es Hes) as (Hlen & Hread & Hrest).
    cbn [DirMgr.write_blocks].
    destruct (DirMgr.fill_block BlockUtils.create_block_buffer 0
                (Z.to_nat PathMgr.max_entries) es) as [buffer es'].
    cbn [fst snd] in *. subst es'. rewrite Hv. cbn [negb].
    destruct (write_block_ok d b buffer Hd Hr) as [d1 Hw]. rewrite Hw.
    destruct (write_block_effect _ _ _ _ Hd Hlen Hw)
      as (Hd1 & Ht1 & _ & Hr1 & Hf1).
    destruct (IH (drop 15 es) d1 Hd1 Hnd
                ltac:(rewrite Ht1; exact Hb')
                ltac:(apply Forall_drop; exact Hes))
      as (d' & Hwr & Hd' & Ht' & Hrd & Hf').
    exists d'. split; [exact Hwr|]. split; [exact Hd'|].
    split; [congruence|]. split.
    + cbn [DirMgr.read_blocks]. rewrite (Hf' b Hnb), Hr1, Hrd, Hread.
      f_equal. cbn [length].
      replace (15 * S (length blocks))%nat
        with (15 + 15 * length blocks)%nat by lia.
      symmetry. apply take_add.
    + intros k Hk. apply not_elem_of_cons in Hk as [Hkb Hk].
      rewrite (Hf' k Hk). apply Hf1, Hkb.
Qed.

End DirectoryEntries.

Section Lookup.
Import DirMgr PathMgr.

Lemma scan_block_entries buffer name r :
  forall i,
    scan_block buffer name i r
    = (if bool_decide (lookup_entry (block_entries buffer i r) name = -1
                       /\ Forall (fun e => strcmp_eq (DirectoryEntry.name e)
                                             name = false)
                                 (block_entries buffer i r))
       then None
       else Some (lookup_entry (block_entries buffer i r) name)).
Proof.
  induction r as [|r IH]; intros i.
  - cbn [scan_block block_entries lookup_entry].
    rewrite bool_decide_eq_true_2; auto.
  - cbn [scan_block block_entries].
    destruct (0 <? DirectoryEntry.name_length (entry_at buffer i));
      cbn [andb]; [|apply IH].
    cbn [lookup_entry].
    destruct (strcmp_eq (DirectoryEntry.name (entry_at buffer i)) name) eqn:E.
    + rewrite bool_decide_eq_false_2; [reflexivity|].
      intros [_ H]. inversion H; congruence.
    + rewrite IH.
      destruct (decide (lookup_entry (block_entries buffer (i + 1) r) name
                        = -1
                        /\ Forall (fun e => strcmp_eq (DirectoryEntry.name e)
                                              name = false)
                                  (block_entries buffer (i + 1) r)))
        as [[H1 H2]|Hn].
      * rewrite !bool_decide_eq_true_2; auto.
      * rewrite !bool_decide_eq_false_2; auto.
        intros [H1 H2]. apply Hn. split; [exact H1|].
        inversion H2; assumption.
Qed.

Lemma lookup_entry_app a b name :
  lookup_entry (a ++ b) name
  = (if bool_decide (Forall (fun e => strcmp_eq (DirectoryEntry.name e) name
                                      = false) a)
     then lookup_entry b name else lookup_entry a name).
Proof.
  induction a as [|e a IH].
  - rewrite bool_decide_eq_true_2 by constructor. reflexivity.
  - cbn [app lookup_entry].
    destruct (strcmp_eq (DirectoryEntry.name e) name) eqn:E.
    + rewrite bool_decide_eq_false_2; [reflexivity|].
      intros H. inversion H; congruence.
    + rewrite IH.
      destruct (decide (Forall (fun e => strcmp_eq (DirectoryEntry.name e)
                                           name = false) a)) as [H|H].
      * rewrite !bool_decide_eq_true_2; auto.
      * rewrite !bool_decide_eq_false_2; auto.
        intros H'. apply H. inversion H'; assumption.
Qed.

Lemma lookup_entry_none es name :
  Forall (fun e => strcmp_eq (DirectoryEntry.name e) name = false) es ->
  lookup_entry es name = -1.
Proof.
  induction 1 as [|e es He _ IH]; [reflexivity|].
  cbn [lookup_entry]. rewrite He. exact IH.
Qed.

Lemma read_blocks_cons d b blocks es :
  read_blocks d (b :: blocks) = Some es ->
  exists buffer more,
    Disk.read_block d b = Some buffer
    /\ read_blocks d blocks = Some more
    /\ es = block_entries buffer 0 (Z.to_nat max_entries) ++ more.
Proof.
  cbn [read_blocks].
  destruct (Disk.read_block d b) as [buffer|]; [|discriminate].
  destruct (read_blocks d blocks) as [more|]; [|discriminate].
  intros H. exists buffer, more. split; [reflexivity|].
  split; [reflexivity|]. injection H as H. symmetry. exact H.
Qed.

Lemma block_entries_positive buffer r :
  forall i,
    Forall (fun e => 0 < DirectoryEntry.name_length e)
           (block_entries buffer i r).
Proof.
  induction r as [|r IH]; intros i; [constructor|].
  cbn [block_entries].
  destruct (Z.ltb_spec 0 (DirectoryEntry.name_length (entry_at buffer i)));
    [constructor; [assumption|apply IH]|apply IH].
Qed.

Lemma read_blocks_positive d blocks :
  forall es,
    read_blocks d blocks = Some es ->
    Forall (fun e => 0 < DirectoryEntry.name_length e) es.
Proof.
  induction blocks as [|b blocks IH]; intros es Hr.
  - injection Hr as <-. constructor.
  - destruct (read_blocks_cons _ _ _ _ Hr) as (buffer & more & _ & Hm & ->).
    apply Forall_app. split; [apply block_entries_positive|apply IH, Hm].
Qed.

(** The scan of [find_inode_in_directory] finds what the list of
    [read_directory] holds. *)
Lemma scan_blocks_entries d blocks name :
  forall es,
    read_blocks d blocks = Some es ->
    scan_blocks d blocks name = lookup_entry es name.
Proof.
  induction blocks as [|b blocks IH]; intros es Hr.
  - injection Hr as <-. reflexivity.
  - destruct (read_blocks_cons _ _ _ _ Hr) as (buffer & more & Hb & Hm & ->).
    cbn [scan_blocks]. rewrite Hb.
    rewrite scan_block_entries, lookup_entry_app.
    destruct (decide (Forall (fun e => strcmp_eq (DirectoryEntry.name e)
                                         name = false)
                        (block_entries buffer 0 (Z.to_nat max_entries))))
      as [H|H].
    + rewrite (bool_decide_eq_true_2 _ H).
      rewrite bool_decide_eq_true_2
        by (split; [apply lookup_entry_none; exact H|exact H]).
      apply IH. exact Hm.
    + rewrite (bool_decide_eq_false_2 _ H).
      rewrite bool_decide_eq_false_2 by (intros [_ H']; contradiction).
      reflexivity.
Qed.

(** X20. Path lookup and directory listing agree: in a directory of size
    other than 0 that [read_directory] can list, [find_inode_in_directory]
    returns the inode number of the first listed entry that bears the
    name, and -1 when no listed entry bears it. *)
Theorem lookup_agrees_with_listing (d : DiskSimulator) (m : InodeManager)
    (dir : Z) (inode : Inode.t) (entries : list DirectoryEntry.t)
    (name : list ascii) :
  InodeMgr.read_inode d m dir = Some inode -> Inode.size inode <> 0 ->
  read_directory d m dir = Some entries ->
  find_inode_in_directory d m dir name = lookup_entry entries name
  /\ (Forall (fun e => strcmp_eq (DirectoryEntry.name e) name = false)
             entries ->
      find_inode_in_directory d m dir name = -1)
  /\ Forall (fun e => 0 < DirectoryEntry.name_length e) entries.
Proof.
  intros Hread Hsize Hlist.
  unfold read_directory in Hlist. unfold find_inode_in_directory.
  destruct (load_directory_inode d m dir) as [inode'|] eqn:El;
    [|discriminate].
  assert (inode' = inode) as ->.
  { unfold load_directory_inode in El. rewrite Hread in El.
    destruct (_ =? 0) in El; [discriminate|]. congruence. }
  destruct (Z.eqb_spec (Inode.size inode) 0); [contradiction|].
  destruct (InodeMgr.get_data_blocks d m dir) as [blocks|]; [|discriminate].
  rewrite (scan_blocks_entries d blocks name entries Hlist).
  split; [reflexivity|]. split; [apply lookup_entry_none|].
  exact (read_blocks_positive d blocks entries Hlist).
Qed.

End Lookup.

Section WriteDirectory.
Import DirMgr PathMgr.

Lemma data_blocks_direct d inode :
  Inode.indirect_block inode = -1 ->
  Inode.double_indirect_block inode = -1 ->
  InodeMgr.data_blocks_of d inode
  = Some (filter (fun p => p <> 0) (Inode.direct_blocks inode)).
Proof.
  intros Hi Hd. unfold InodeMgr.data_blocks_of. rewrite Hi, Hd. reflexivity.
Qed.

Lemma read_blocks_frame d d' blocks :
  (forall k, k ∈ blocks -> Disk.read_block d' k = Disk.read_block d k) ->
  read_blocks d' blocks = read_blocks d blocks.
Proof.
  induction blocks as [|b blocks IH]; intros H; [reflexivity|].
  cbn [read_blocks]. rewrite (H b) by apply list_elem_of_here.
  rewrite IH; [reflexivity|]. intros k Hk. apply H. right. exact Hk.
Qed.

Lemma directory_blocks d m dir inode blocks :
  directory_ok d m dir inode blocks ->
  blocks = filter (fun p => p <> 0) (Inode.direct_blocks inode)
  /\ (length blocks <= 10)%nat
  /\ Forall (fun b => 0 <= b < total_blocks d
                      /\ BlockUtils.is_valid_block_index b = true) blocks
  /\ (forall b, b ∈ blocks -> b <> inode_table_start (layout m) + dir / 42).
Proof.
  intros (Hst & Hmax & Hread & Hwf & Hmode & Hind & Hdbl & Hgb & Hnd & Hreg).
  pose proof (store_pool _ _ Hst) as Hp.
  assert (Hb : blocks = filter (fun p => p <> 0) (Inode.direct_blocks inode)).
  { unfold InodeMgr.get_data_blocks, InodeMgr.check_initialized in Hgb.
    rewrite (store_initialized _ _ Hst), Hread in Hgb. cbn [negb] in Hgb.
    rewrite (data_blocks_direct d inode Hind Hdbl) in Hgb. congruence. }
  split; [exact Hb|]. split.
  { rewrite Hb. pose proof (length_filter (fun p => p <> 0)
                               (Inode.direct_blocks inode)) as Hl.
    destruct Hwf as (_ & _ & _ & _ & _ & _ & _ & _ & W9 & _). lia. }
  split.
  { eapply Forall_impl; [exact Hreg|]. intros b Hb'.
    pose proof (in_data_region_range _ _ _ Hp Hb').
    split; [lia|]. unfold BlockUtils.is_valid_block_index.
    apply Z.ltb_lt. lia. }
  intros b Hb' E. rewrite Forall_forall in Hreg.
  pose proof (read_inode_slot _ _ _ _ Hread) as (_ & Hn & _).
  exact (store_table_outside _ _ Hst dir Hn ltac:(rewrite <- E; auto)).
Qed.

(** [write_directory] in place: the entries fit the blocks the directory
    has. *)
Lemma write_directory_spec now d m dir inode blocks entries :
  directory_ok d m dir inode blocks -> time_range now ->
  Forall entry_listed entries ->
  (length entries <= 15 * length blocks)%nat ->
  exists d',
    write_directory now d m dir entries = (true, d', m)
    /\ directory_ok d' m dir (written_directory now (length entries) inode)
                    blocks
    /\ read_directory d' m dir = Some entries
    /\ (forall name,
          find_inode_in_directory d' m dir name = lookup_entry entries name)
    /\ (forall j, j <> dir ->
          InodeMgr.read_inode d' m j = InodeMgr.read_inode d m j)
    /\ (forall k, k ∉ blocks ->
          k <> inode_table_start (layout m) + dir / 42 ->
          Disk.read_block d' k = Disk.read_block d k).
Proof.
  intros Hdir Hnow Hes Hcap.
  destruct (directory_blocks _ _ _ _ _ Hdir) as (Hb & Hlen & Hrange & Hout).
  destruct Hdir as (Hst & Hmax & Hread & Hwf & Hmode & Hind & Hdbl & Hgb
                    & Hnd & Hreg).
  pose proof (store_pool _ _ Hst) as Hp.
  pose proof BLOCK_SIZE_eq as HB.
  destruct (write_read_blocks blocks entries d (proj1 Hp) Hnd Hrange Hes)
    as (d1 & Hwb & Hd1 & Ht1 & Hrb & Hf1).
  rewrite take_ge in Hrb by exact Hcap.
  set (inode' := written_directory now (length entries) inode).
  assert (Hwf' : inode_wf inode').
  { destruct Hwf as (W1 & W2 & W3 & W4 & W5 & W6 & W7 & W8 & W9 & W10
                     & W11 & W12).
    unfold inode_wf, inode', written_directory.
    cbn [Inode.set_modification_time Inode.set_size Inode.mode
         Inode.owner_id Inode.group_id Inode.size Inode.access_time
         Inode.modification_time Inode.creation_time Inode.link_count
         Inode.direct_blocks Inode.indirect_block
         Inode.double_indirect_block].
    assert (int_range (Z.of_nat (length entries) * sizeof_DirectoryEntry))
      by (unfold int_range, sizeof_DirectoryEntry; lia).
    auto 20. }
  pose proof (read_inode_slot _ _ _ _ Hread) as Hslot.
  assert (Hslot1 : slot_ok d1 m dir)
    by (eapply slot_ok_same; [exact Hslot|apply same_table_refl|exact Ht1]).
  destruct (write_inode_ok d1 m dir inode' Hd1 Hslot1) as [d2 Hwi].
  destruct (write_inode_disk _ _ _ _ _ Hd1 Hwi) as (Hd2 & Ht2 & Hf2).
  pose proof (read_inode_write_inode _ _ _ _ _ Hd1 Hwf' Hwi) as Hr2.
  assert (Hst2 : store_ok d2 m)
    by (apply (store_ok_disk d m d2 Hst Hd2); congruence).
  assert (Hgb2 : InodeMgr.get_data_blocks d2 m dir = Some blocks).
  { unfold InodeMgr.get_data_blocks, InodeMgr.check_initialized.
    rewrite (store_initialized _ _ Hst), Hr2. cbn [negb].
    rewrite data_blocks_direct by assumption. rewrite Hb. reflexivity. }
  assert (Hrb2 : read_blocks d2 blocks = Some entries).
  { rewrite <- Hrb. apply read_blocks_frame. intros k Hk.
    apply Hf2, Hout, Hk. }
  exists d2. split.
  { unfold write_directory. rewrite Hread, Hgb.
    replace (Z.of_nat (length blocks)
             <? BlockUtils.calculate_blocks_needed
                  (Z.of_nat (length entries) * sizeof_DirectoryEntry))
      with false.
    2:{ symmetry. apply Z.ltb_ge. unfold BlockUtils.calculate_blocks_needed,
          sizeof_DirectoryEntry. rewrite HB.
        assert ((Z.of_nat (length entries) * 264 + 4096 - 1) / 4096
                < Z.of_nat (length blocks) + 1)
          by (apply Z.div_lt_upper_bound; lia).
        lia. }
    rewrite Hwb. fold (written_directory now (length entries) inode).
    fold inode'. rewrite Hwi. reflexivity. }
  split.
  { unfold directory_ok. split; [exact Hst2|]. split; [lia|].
    split; [exact Hr2|]. split; [exact Hwf'|]. split; [exact Hmode|].
    split; [exact Hind|]. split; [exact Hdbl|]. split; [exact Hgb2|].
    split; assumption. }
  split.
  { unfold read_directory, load_directory_inode. rewrite Hr2.
    change (Inode.mode inode') with (Inode.mode inode).
    destruct (Z.eqb_spec (Z.land (Inode.mode inode) FILE_TYPE_DIRECTORY) 0);
      [contradiction|].
    change (Inode.size inode')
      with (Z.of_nat (length entries) * sizeof_DirectoryEntry).
    destruct (Z.eqb_spec (Z.of_nat (length entries) * sizeof_DirectoryEntry)
                         0) as [E|E].
    - destruct entries; [reflexivity|].
      unfold sizeof_DirectoryEntry in E. cbn [length] in E. lia.
    - rewrite Hgb2. exact Hrb2. }
  split.
  { intros name. unfold find_inode_in_directory, load_directory_inode.
    rewrite Hr2. change (Inode.mode inode') with (Inode.mode inode).
    destruct (Z.eqb_spec (Z.land (Inode.mode inode) FILE_TYPE_DIRECTORY) 0);
      [contradiction|].
    rewrite Hgb2. apply scan_blocks_entries, Hrb2. }
  split.
  { intros j Hj.
    rewrite (read_inode_write_other _ _ _ _ _ j Hd1 Hwi Hj).
    apply read_inode_frame. intros bn off Hpos. apply Hf1.
    destruct (get_inode_position_Some _ _ _ _ Hpos) as (Hjr & -> & _).
    intros Hin. rewrite Forall_forall in Hreg.
    exact (store_table_outside _ _ Hst j Hjr (Hreg _ Hin)). }
  intros k Hk Hkt. rewrite (Hf2 k Hkt). apply Hf1, Hk.
Qed.

(** X21. [write_directory] and [read_directory]: entries with a positive
    name length, written into a directory whose blocks have room for
    them (15 entries a block), are the entries that [read_directory]
    lists afterwards, in the same order; the directory inode gets the
    size of the entries and the time of the call, [find_inode_in_directory]
    resolves every name to its first entry, and the other inodes read as
    before. *)
Theorem write_directory_read_back (now : Z) (d : DiskSimulator)
    (m : InodeManager) (dir : Z) (inode : Inode.t) (blocks : list Z)
    (entries : list DirectoryEntry.t) :
  directory_ok d m dir inode blocks -> time_range now ->
  Forall entry_listed entries ->
  Z.of_nat (length entries)
  <= entries_per_block * Z.of_nat (length blocks) ->
  exists d' inode',
    write_directory now d m dir entries = (true, d', m)
    /\ read_directory d' m dir = Some entries
    /\ InodeMgr.read_inode d' m dir = Some inode'
    /\ Inode.size inode'
       = Z.of_nat (length entries) * sizeof_DirectoryEntry
    /\ Inode.modification_time inode' = now
    /\ (forall name,
          find_inode_in_directory d' m dir name = lookup_entry entries name)
    /\ (forall j, j <> dir ->
          InodeMgr.read_inode d' m j = InodeMgr.read_inode d m j).
Proof.
  intros Hdir Hnow Hes Hcap.
  change entries_per_block with 15 in Hcap.
  destruct (write_directory_spec now d m dir inode blocks entries Hdir Hnow
              Hes ltac:(lia))
    as (d' & Hw & Hdir' & Hrd & Hlook & Hother & _).
  destruct Hdir' as (_ & _ & Hr' & _).
  exists d', (written_directory now (length entries) inode).
  split; [exact Hw|]. split; [exact Hrd|]. split; [exact Hr'|].
  split; [reflexivity|]. split; [reflexivity|].
  split; [exact Hlook|exact Hother].
Qed.

End WriteDirectory.

Section DirectoryNames.
Import DirMgr PathMgr.

Lemma c_str_plain s rest : NUL ∉ s -> c_str (s ++ NUL :: rest) = s.
Proof.
  induction s as [|c s IH]; intros Hn; [reflexivity|].
  apply not_elem_of_cons in Hn as [Hc Hs]. cbn [app c_str].
  destruct (Ascii.eqb_spec c NUL) as [E|_]; [exfalso; apply Hc; auto|].
  rewrite IH by exact Hs. reflexivity.
Qed.

Lemma c_str_id s : NUL ∉ s -> c_str s = s.
Proof.
  induction s as [|c s IH]; intros Hn; [reflexivity|].
  apply not_elem_of_cons in Hn as [Hc Hs]. cbn [c_str].
  destruct (Ascii.eqb_spec c NUL) as [E|_]; [exfalso; apply Hc; auto|].
  rewrite IH by exact Hs. reflexivity.
Qed.

(** The name array of the entry that [add_directory_entry] builds. *)
Lemma make_entry_name name inode_num :
  name_ok name ->
  DirectoryEntry.name (make_entry name inode_num)
  = name ++ repeat NUL (256 - length name)
  /\ DirectoryEntry.name_length (make_entry name inode_num)
     = Z.of_nat (length name)
  /\ c_str (DirectoryEntry.name (make_entry name inode_num)) = name.
Proof.
  intros (Hne & Hnul & Hlen). unfold MAX_FILENAME_LENGTH in Hlen.
  unfold make_entry.
  cbn [DirectoryEntry.name DirectoryEntry.name_length].
  change (MAX_FILENAME_LENGTH - 1) with 255.
  rewrite Z.min_l by lia. rewrite Nat2Z.id, (c_str_id name Hnul).
  rewrite take_app_length.
  assert (E : take 256 (name ++ repeat NUL 256)
              = name ++ repeat NUL (256 - length name)).
  { rewrite take_app_ge by lia. f_equal. apply take_repeat. lia. }
  rewrite E. split; [reflexivity|]. split; [reflexivity|].
  destruct (256 - length name)%nat as [|k] eqn:Ek; [lia|].
  cbn [repeat]. apply c_str_plain, Hnul.
Qed.

Lemma make_entry_listed name inode_num :
  name_ok name -> int_range inode_num ->
  entry_listed (make_entry name inode_num).
Proof.
  intros Hn Hi. destruct (make_entry_name name inode_num Hn) as (E1 & E2 & _).
  pose proof Hn as (Hne & _ & Hlen). unfold MAX_FILENAME_LENGTH in Hlen.
  unfold entry_listed, entry_wf. rewrite E1, E2.
  change (DirectoryEntry.inode_number (make_entry name inode_num))
    with inode_num.
  change (Z.to_nat MAX_FILENAME_LENGTH) with 256%nat.
  split; [|destruct name; [contradiction|cbn [length]; lia]].
  split; [exact Hi|]. split; [|unfold int_range; lia].
  rewrite length_app, repeat_length. lia.
Qed.

(** On the entries of a directory, [strncmp] over the whole array and
    [strcmp] say the same. *)
Lemma strncmp_strcmp e name :
  entry_wf e -> name_ok name ->
  strncmp_eq (DirectoryEntry.name e) name MAX_FILENAME_LENGTH
  = strcmp_eq (DirectoryEntry.name e) name.
Proof.
  intros (_ & Hl & _) (_ & _ & Hn). unfold strncmp_eq, strcmp_eq.
  rewrite !take_ge by (unfold MAX_FILENAME_LENGTH in *; lia). reflexivity.
Qed.

Lemma find_entry_index_None es name :
  Forall entry_wf es -> name_ok name ->
  find_entry_index es name = None ->
  Forall (fun e => strcmp_eq (DirectoryEntry.name e) name = false) es.
Proof.
  intros Hwf Hn Hf. unfold find_entry_index in Hf.
  apply fmap_None in Hf. apply list_find_None in Hf.
  rewrite Forall_forall in *. intros e He.
  rewrite <- (strncmp_strcmp e name (Hwf e He) Hn).
  destruct (strncmp_eq (DirectoryEntry.name e) name MAX_FILENAME_LENGTH)
    eqn:E; [|reflexivity].
  exfalso. exact (Hf e He E).
Qed.

Lemma find_entry_index_Some es name i :
  Forall entry_wf es -> name_ok name ->
  find_entry_index es name = Some i ->
  exists e,
    es !! i = Some e /\ strcmp_eq (DirectoryEntry.name e) name = true
    /\ Forall (fun e => strcmp_eq (DirectoryEntry.name e) name = false)
              (take i es).
Proof.
  intros Hwf Hn Hf. unfold find_entry_index in Hf.
  apply fmap_Some in Hf as ([j e] & Hf & ->).
  apply list_find_Some in Hf as (Hl & Hp & Hbefore). cbn [fst].
  rewrite Forall_forall in Hwf.
  exists e. split; [exact Hl|]. split.
  { rewrite <- (strncmp_strcmp e name
                  (Hwf e (list_elem_of_lookup_2 _ _ _ Hl)) Hn). exact Hp. }
  apply Forall_forall. intros x Hx.
  apply list_elem_of_lookup_1 in Hx as [k Hk].
  apply lookup_take_Some in Hk as [Hk Hlt].
  rewrite <- (strncmp_strcmp x name
                (Hwf x (list_elem_of_lookup_2 _ _ _ Hk)) Hn).
  destruct (strncmp_eq (DirectoryEntry.name x) name MAX_FILENAME_LENGTH)
    eqn:E; [|reflexivity].
  exfalso. exact (Hbefore k x Hk Hlt E).
Qed.

Lemma strcmp_other_name e name name' :
  strcmp_eq (DirectoryEntry.name e) name = true ->
  name_ok name -> name_ok name' -> name' <> name ->
  strcmp_eq (DirectoryEntry.name e) name' = false.
Proof.
  unfold strcmp_eq. intros H (_ & Hn & _) (_ & Hn' & _) Hne.
  apply bool_decide_eq_true_1 in H. apply bool_decide_eq_false_2.
  rewrite H, (c_str_id name Hn), (c_str_id name' Hn'). auto.
Qed.

Lemma listed_entries d m dir entries :
  read_directory d m dir = Some entries -> Forall entry_wf entries ->
  Forall entry_listed entries.
Proof.
  intros Hr Hwf. unfold read_directory in Hr.
  destruct (load_directory_inode d m dir); [|discriminate].
  assert (Hpos : Forall (fun e => 0 < DirectoryEntry.name_length e) entries).
  { destruct (_ =? 0) in Hr; [injection Hr as <-; constructor|].
    destruct (InodeMgr.get_data_blocks d m dir) as [blocks|]; [|discriminate].
    exact (read_blocks_positive d blocks entries Hr). }
  rewrite Forall_forall in *. intros e He. split; auto.
Qed.

(** X22. [add_directory_entry] refuses a name that an entry of the
    directory bears already, and changes nothing. A new name, while the
    blocks of the directory have room, is appended to the listing; from
    then on [find_inode_in_directory] resolves the name to the inode
    given, every other name resolves as the listing before the call
    says, and the other inodes read as before. *)
Theorem add_directory_entry_found (now : Z) (d : DiskSimulator)
    (m : InodeManager) (dir : Z) (inode : Inode.t) (blocks : list Z)
    (entries : list DirectoryEntry.t) (name : list ascii) (inode_num : Z) :
  directory_ok d m dir inode blocks -> time_range now ->
  read_directory d m dir = Some entries -> Forall entry_wf entries ->
  name_ok name -> int_range inode_num ->
  (find_entry_index entries name <> None ->
   add_directory_entry now d m dir name inode_num = (false, d, m))
  /\ (find_entry_index entries name = None ->
      Z.of_nat (length entries) + 1
      <= entries_per_block * Z.of_nat (length blocks) ->
      exists d',
        add_directory_entry now d m dir name inode_num = (true, d', m)
        /\ read_directory d' m dir
           = Some (entries ++ [make_entry name inode_num])
        /\ find_inode_in_directory d' m dir name = inode_num
        /\ (forall name',
              name_ok name' -> name' <> name ->
              find_inode_in_directory d' m dir name'
              = lookup_entry entries name')
        /\ (forall j, j <> dir ->
              InodeMgr.read_inode d' m j = InodeMgr.read_inode d m j)).
Proof.
  intros Hdir Hnow Hrd Hwf Hname Hino.
  unfold add_directory_entry. rewrite Hrd.
  split.
  - intros Hex. destruct (find_entry_index entries name);
      [reflexivity|contradiction].
  - intros Hnew Hcap. rewrite Hnew.
    change entries_per_block with 15 in Hcap.
    pose proof (find_entry_index_None _ _ Hwf Hname Hnew) as Hnone.
    pose proof (make_entry_listed name inode_num Hname Hino) as Hnl.
    destruct (make_entry_name name inode_num Hname) as (_ & _ & Hc).
    assert (Hall : Forall entry_listed (entries ++ [make_entry name inode_num])).
    { apply Forall_app. split; [exact (listed_entries _ _ _ _ Hrd Hwf)|].
      constructor; [exact Hnl|constructor]. }
    destruct (write_directory_spec now d m dir inode blocks
                (entries ++ [make_entry name inode_num]) Hdir Hnow Hall
                ltac:(rewrite length_app; cbn [length]; lia))
      as (d' & Hw & _ & Hrd' & Hlook & Hother & _).
    assert (Hmatch : strcmp_eq (DirectoryEntry.name (make_entry name inode_num))
                               name = true).
    { unfold strcmp_eq. apply bool_decide_eq_true_2. rewrite Hc.
      symmetry. apply c_str_id. apply Hname. }
    exists d'. split; [exact Hw|]. split; [exact Hrd'|].
    split.
    { rewrite Hlook, lookup_entry_app.
      rewrite (bool_decide_eq_true_2 _ Hnone). cbn [lookup_entry].
      rewrite Hmatch. reflexivity. }
    split; [|exact Hother].
    intros name' Hn' Hne. rewrite Hlook, lookup_entry_app.
    destruct (decide (Forall (fun e => strcmp_eq (DirectoryEntry.name e)
                                         name' = false) entries)) as [H|H].
    + rewrite (bool_decide_eq_true_2 _ H). cbn [lookup_entry].
      rewrite (strcmp_other_name _ name name' Hmatch Hname Hn' Hne).
      symmetry. apply lookup_entry_none, H.
    + rewrite (bool_decide_eq_false_2 _ H). reflexivity.
Qed.

Lemma lookup_entry_delete es i e name :
  es !! i = Some e -> strcmp_eq (DirectoryEntry.name e) name = false ->
  lookup_entry (delete i es) name = lookup_entry es name.
Proof.
  revert i. induction es as [|x es IH]; intros [|i] Hl Hn; try discriminate.
  - injection Hl as ->. cbn [delete list_delete lookup_entry]. rewrite Hn.
    reflexivity.
  - cbn [delete list_delete lookup_entry].
    destruct (strcmp_eq (DirectoryEntry.name x) name); [reflexivity|].
    apply (IH i Hl Hn).
Qed.

(** X23. [remove_directory_entry] fails on a name that no entry of the
    directory bears, and changes nothing. Otherwise it erases the first
    entry that bears the name and keeps the others in their order;
    afterwards every other name resolves as before, and the name itself
    resolves to -1 when no second entry bore it. *)
Theorem remove_directory_entry_gone (now : Z) (d : DiskSimulator)
    (m : InodeManager) (dir : Z) (inode : Inode.t) (blocks : list Z)
    (entries : list DirectoryEntry.t) (name : list ascii) :
  directory_ok d m dir inode blocks -> time_range now ->
  read_directory d m dir = Some entries -> Forall entry_wf entries ->
  Z.of_nat (length entries)
  <= entries_per_block * Z.of_nat (length blocks) ->
  name_ok name ->
  (find_entry_index entries name = None ->
   remove_directory_entry now d m dir name = (false, d, m))
  /\ (forall i,
        find_entry_index entries name = Some i ->
        exists d' e,
          remove_directory_entry now d m dir name = (true, d', m)
          /\ entries !! i = Some e
          /\ strcmp_eq (DirectoryEntry.name e) name = true
          /\ read_directory d' m dir = Some (delete i entries)
          /\ (forall name',
                name_ok name' -> name' <> name ->
                find_inode_in_directory d' m dir name'
                = lookup_entry entries name')
          /\ (Forall (fun e => strcmp_eq (DirectoryEntry.name e) name
                               = false) (delete i entries) ->
              find_inode_in_directory d' m dir name = -1)
          /\ (forall j, j <> dir ->
                InodeMgr.read_inode d' m j = InodeMgr.read_inode d m j)).
Proof.
  intros Hdir Hnow Hrd Hwf Hcap Hname.
  unfold remove_directory_entry. rewrite Hrd.
  split; [intros ->; reflexivity|].
  intros i Hi. rewrite Hi.
  change entries_per_block with 15 in Hcap.
  destruct (find_entry_index_Some _ _ _ Hwf Hname Hi) as (e & Hl & Hm & _).
  pose proof (listed_entries _ _ _ _ Hrd Hwf) as Hlisted.
  assert (Hall : Forall entry_listed (delete i entries)).
  { rewrite Forall_forall in *. intros x Hx.
    apply Hlisted. eapply elem_of_sublist; [exact Hx|apply sublist_delete]. }
  assert (Hlen : (length (delete i entries) <= length entries)%nat)
    by (apply sublist_length, sublist_delete).
  destruct (write_directory_spec now d m dir inode blocks (delete i entries)
              Hdir Hnow Hall ltac:(lia))
    as (d' & Hw & _ & Hrd' & Hlook & Hother & _).
  exists d', e. split; [exact Hw|]. split; [exact Hl|]. split; [exact Hm|].
  split; [exact Hrd'|].
  split.
  { intros name' Hn' Hne. rewrite Hlook.
    apply (lookup_entry_delete entries i e name' Hl).
    exact (strcmp_other_name e name name' Hm Hname Hn' Hne). }
  split; [|exact Hother].
  intros Hnone. rewrite Hlook. apply lookup_entry_none, Hnone.
Qed.

End DirectoryNames.
(* ====================================================================== *)
(** * File contents (src/utils/file_operations_utils.cpp) *)
(* ====================================================================== *)

Section Contents.
Import FileOperationsUtils.

Lemma file_image_app d a b :
  file_image d (a ++ b)
  = match file_image d a, file_image d b with
    | Some ia, Some ib => Some (ia ++ ib)
    | _, _ => None
    end.
Proof.
  induction a as [|x a IH]; cbn [app file_image].
  - destruct (file_image d b); reflexivity.
  - destruct (Disk.read_block d x) as [buffer|]; [|reflexivity].
    rewrite IH. destruct (file_image d a), (file_image d b);
      try reflexivity. rewrite app_assoc. reflexivity.
Qed.

(** Bytes copied into the first block of an image that go on into the
    blocks behind it. *)
Lemma splice_across (blk rest buffer : list Z) (so copy : nat) :
  (so + copy = length blk)%nat -> (copy <= length buffer)%nat ->
  (length buffer - copy <= length rest)%nat ->
  (take so blk ++ take copy buffer
     ++ drop (so + length (take copy buffer)) blk)
  ++ (take 0 rest ++ drop copy buffer
        ++ drop (0 + length (drop copy buffer)) rest)
  = take so (blk ++ rest) ++ buffer
      ++ drop (so + length buffer) (blk ++ rest).
Proof.
  intros Hfill Hcopy Hrest.
  rewrite length_take, length_drop.
  replace (so + copy `min` length buffer)%nat with (length blk) by lia.
  rewrite drop_all, app_nil_r. rewrite take_0. cbn [app].
  rewrite take_app_le by lia.
  rewrite drop_app_ge by lia.
  rewrite <- !app_assoc. f_equal.
  rewrite (app_assoc (take copy buffer)), take_drop. f_equal.
  f_equal. lia.
Qed.

(** Bytes copied into the first block of an image that end inside it. *)
Lemma splice_within (blk rest buffer : list Z) (so : nat) :
  (so + length buffer <= length blk)%nat ->
  (take so blk ++ buffer ++ drop (so + length buffer) blk) ++ rest
  = take so (blk ++ rest) ++ buffer
      ++ drop (so + length buffer) (blk ++ rest).
Proof.
  intros H. rewrite take_app_le by lia. rewrite drop_app_le by lia.
  rewrite <- !app_assoc. reflexivity.
Qed.

(** The loop of [write_data_to_blocks] on the image of the blocks it is
    given: the bytes go to [start_offset] of the image. *)
Lemma write_loop_image blocks :
  forall buffer bytes_written d size start_offset img,
    disk_ok d -> NoDup blocks ->
    Forall (fun b => 0 <= b < total_blocks d) blocks ->
    file_image d blocks = Some img ->
    0 <= start_offset < BLOCK_SIZE ->
    Z.of_nat (length buffer) = size - bytes_written ->
    start_offset + Z.of_nat (length buffer)
    <= BLOCK_SIZE * Z.of_nat (length blocks) ->
    exists d',
      write_loop blocks start_offset size bytes_written buffer d
      = (Some size, d')
      /\ disk_ok d' /\ total_blocks d' = total_blocks d
      /\ file_image d' blocks = Some (splice img start_offset buffer)
      /\ (forall k, k ∉ blocks ->
                    Disk.read_block d' k = Disk.read_block d k).
Proof.
  pose proof BLOCK_SIZE_eq as HB.
  induction blocks as [|b blocks IH];
    intros buffer bw d size so img Hd Hnd Hr Himg Hso Hlen Hcap.
  - cbn [length] in Hcap. assert (length buffer = 0%nat) by lia.
    destruct buffer; [|discriminate]. cbn [length] in Hlen.
    exists d. cbn [write_loop]. injection Himg as <-.
    split; [f_equal; f_equal; lia|]. split; [exact Hd|].
    split; [reflexivity|]. split; [|auto].
    unfold splice. rewrite take_nil, drop_nil. reflexivity.
  - apply NoDup_cons in Hnd as [Hnb Hnd].
    inversion Hr as [|? ? Hbr Hr']; subst.
    destruct (file_image_cons _ _ _ _ Himg)
      as (blk & rest_img & Hrb & Hblk & Hrest & ->).
    pose proof (file_image_length _ _ _ Hrest) as Hrl.
    cbn [write_loop].
    destruct (Z.ltb_spec bw size) as [Hlt|Hge]; cbn [negb].
    2:{ assert (length buffer = 0%nat) by lia.
        destruct buffer; [|discriminate].
        exists d. split; [f_equal; f_equal; lia|]. split; [exact Hd|].
        split; [reflexivity|]. split; [|auto].
        rewrite Himg. f_equal. unfold splice. cbn [app length].
        rewrite Nat.add_0_r, take_drop. reflexivity. }
    set (copy := Z.min (BLOCK_SIZE - so) (size - bw)).
    assert (Hcopy : 0 < copy <= Z.of_nat (length buffer))
      by (unfold copy; lia).
    assert (Hchunk : length (slice buffer 0 copy) = Z.to_nat copy)
      by (apply length_slice; lia).
    assert (Hsl : slice buffer 0 copy = take (Z.to_nat copy) buffer)
      by (unfold slice; rewrite drop_0; reflexivity).
    (* the block as it goes out *)
    assert (Hnew : exists nb,
               (match
                   (if (0 <? so) || (size - bw <? BLOCK_SIZE)
                    then Disk.read_block d b
                    else Some BlockUtils.create_block_buffer)
                 with
                 | Some block_buffer =>
                     Some (splice block_buffer so (slice buffer 0 copy))
                 | None => None
                 end) = Some nb
               /\ nb = splice blk so (slice buffer 0 copy)
               /\ Z.of_nat (length nb) = BLOCK_SIZE).
    { exists (splice blk so (slice buffer 0 copy)).
      assert (Hl : Z.of_nat (length (splice blk so (slice buffer 0 copy)))
                   = BLOCK_SIZE).
      { rewrite length_splice; [exact Hblk|lia|].
        rewrite Hchunk. unfold copy. lia. }
      split; [|split; [reflexivity|exact Hl]].
      destruct ((0 <? so) || (size - bw <? BLOCK_SIZE)) eqn:Ec.
      - rewrite Hrb. reflexivity.
      - apply orb_false_iff in Ec as [E1 E2].
        apply Z.ltb_ge in E1. apply Z.ltb_ge in E2.
        assert (so = 0) by lia. subst so.
        assert (copy = BLOCK_SIZE) by (unfold copy; lia).
        f_equal. unfold splice.
        change (Z.to_nat 0) with 0%nat. rewrite !take_0. cbn [app].
        rewrite Hchunk. pose proof length_create_block_buffer as Hz.
        rewrite (drop_ge BlockUtils.create_block_buffer) by lia.
        rewrite (drop_ge blk) by lia. reflexivity. }
    destruct Hnew as (nb & Hout & Enb & Hnbl).
    destruct ((if (0 <? so) || (size - bw <? BLOCK_SIZE)
               then Disk.read_block d b
               else Some BlockUtils.create_block_buffer))
      as [block_buffer|]; [|discriminate].
    injection Hout as Hout. fold copy. rewrite Hout.
    destruct (write_block_ok d b nb Hd Hbr) as [d1 Hw]. rewrite Hw.
    destruct (write_block_effect _ _ _ _ Hd Hnbl Hw)
      as (Hd1 & Ht1 & _ & Hr1 & Hf1).
    assert (Hrest1 : file_image d1 blocks = Some rest_img).
    { rewrite <- Hrest. apply file_image_frame. intros k Hk.
      apply Hf1. intros ->. contradiction. }
    destruct (IH (drop (Z.to_nat copy) buffer) (bw + copy) d1 size 0
                rest_img Hd1 Hnd ltac:(rewrite Ht1; exact Hr') Hrest1
                ltac:(lia)
                ltac:(rewrite length_drop; lia)
                ltac:(rewrite length_drop; cbn [length] in Hcap;
                      unfold copy in *; lia))
      as (d' & Hwl & Hd' & Ht' & Himg' & Hf').
    exists d'. split; [exact Hwl|]. split; [exact Hd'|].
    split; [congruence|].
    split.
    2:{ intros k Hk. apply not_elem_of_cons in Hk as [Hkb Hk].
        rewrite (Hf' k Hk). apply Hf1, Hkb. }
    cbn [file_image]. rewrite (Hf' b Hnb), Hr1, Himg'. f_equal.
    rewrite Enb, Hsl. unfold splice. change (Z.to_nat 0) with 0%nat.
    destruct (Z.le_gt_cases (size - bw) (BLOCK_SIZE - so)) as [Hfit|Hover].
    + assert (Ec : Z.to_nat copy = length buffer) by (unfold copy; lia).
      rewrite Ec. rewrite (take_ge buffer) by lia.
      rewrite (drop_ge buffer) by lia.
      rewrite take_0. cbn [app length]. rewrite drop_0.
      apply splice_within. lia.
    + apply splice_across; unfold copy in *; try lia.
      cbn [length] in Hcap. lia.
Qed.

Lemma splice_behind (img buffer : list Z) (a b : nat) :
  take a img ++ (take b (drop a img) ++ buffer
                   ++ drop (b + length buffer) (drop a img))
  = take (a + b) img ++ buffer ++ drop (a + b + length buffer) img.
Proof.
  rewrite app_assoc, <- take_add. rewrite drop_drop.
  do 3 f_equal. lia.
Qed.

Lemma file_image_take d blocks img k :
  file_image d blocks = Some img ->
  file_image d (take k blocks)
  = Some (take (k * Z.to_nat BLOCK_SIZE) img).
Proof.
  revert img k. induction blocks as [|b blocks IH]; intros img k Himg.
  - injection Himg as <-. rewrite !take_nil. reflexivity.
  - destruct (file_image_cons _ _ _ _ Himg)
      as (blk & more & Hrb & Hblk & Hrest & ->).
    destruct k as [|k]; [reflexivity|].
    cbn [take file_image]. rewrite Hrb, (IH more k Hrest). f_equal.
    replace (S k * Z.to_nat BLOCK_SIZE)%nat
      with (length blk + k * Z.to_nat BLOCK_SIZE)%nat by lia.
    rewrite take_app_add. reflexivity.
Qed.

(** [write_data_to_blocks] on the image of the file. *)
Lemma write_data_to_blocks_image d blocks img offset buffer :
  disk_ok d -> NoDup blocks ->
  Forall (fun b => 0 <= b < total_blocks d) blocks ->
  file_image d blocks = Some img ->
  0 <= offset -> buffer <> [] ->
  offset + Z.of_nat (length buffer) <= Z.of_nat (length img) ->
  exists d',
    write_data_to_blocks d blocks offset buffer (Z.of_nat (length buffer))
    = (true, d')
    /\ disk_ok d' /\ total_blocks d' = total_blocks d
    /\ file_image d' blocks = Some (splice img offset buffer)
    /\ (forall k, k ∉ blocks -> Disk.read_block d' k = Disk.read_block d k).
Proof.
  intros Hd Hnd Hr Himg Hoff Hne Hfit.
  pose proof BLOCK_SIZE_eq as HB.
  pose proof (file_image_length _ _ _ Himg) as Hil.
  assert (Hlb : 0 < Z.of_nat (length buffer))
    by (destruct buffer; [contradiction|cbn [length]; lia]).
  set (sb := Z.to_nat (Z.quot offset BLOCK_SIZE)).
  set (so := Z.rem offset BLOCK_SIZE).
  assert (Hq : Z.quot offset BLOCK_SIZE = offset / BLOCK_SIZE)
    by (apply Z.quot_div_nonneg; lia).
  assert (Hrm : so = offset mod BLOCK_SIZE)
    by (apply Z.rem_mod_nonneg; lia).
  assert (Hsplit : offset = BLOCK_SIZE * Z.of_nat sb + so
                   /\ 0 <= so < BLOCK_SIZE).
  { unfold sb. rewrite Hq, Hrm.
    pose proof (Z.div_pos offset BLOCK_SIZE Hoff ltac:(lia)).
    rewrite Z2Nat.id by assumption.
    pose proof (Z.div_mod offset BLOCK_SIZE ltac:(lia)).
    pose proof (Z.mod_pos_bound offset BLOCK_SIZE ltac:(lia)). lia. }
  destruct Hsplit as [Eoff Hso].
  assert (Hsbl : (sb < length blocks)%nat) by nia.
  pose proof (file_image_drop _ _ _ sb Himg) as Hdrop.
  pose proof (file_image_take _ _ _ sb Himg) as Htake.
  assert (Hnd' : NoDup (drop sb blocks)).
  { rewrite <- (take_drop sb blocks) in Hnd.
    apply NoDup_app in Hnd as (_ & _ & H). exact H. }
  destruct (write_loop_image (drop sb blocks) buffer 0 d
              (Z.of_nat (length buffer)) so
              (drop (sb * Z.to_nat BLOCK_SIZE) img) Hd Hnd'
              ltac:(apply Forall_drop; exact Hr) Hdrop Hso ltac:(lia)
              ltac:(rewrite length_drop; nia))
    as (d' & Hwl & Hd' & Ht' & Himg' & Hf').
  assert (Hpre : file_image d' (take sb blocks)
                 = Some (take (sb * Z.to_nat BLOCK_SIZE) img)).
  { rewrite <- Htake. apply file_image_frame. intros k Hk. apply Hf'.
    intros Hk'. rewrite <- (take_drop sb blocks) in Hnd.
    apply NoDup_app in Hnd as (_ & Hdis & _). exact (Hdis k Hk Hk'). }
  assert (Hall : file_image d' blocks = Some (splice img offset buffer)).
  { rewrite <- (take_drop sb blocks) at 1.
    rewrite file_image_app, Hpre, Himg'. f_equal. unfold splice.
    rewrite splice_behind. do 2 f_equal; [f_equal; lia|].
    f_equal. f_equal. lia. }
  assert (Hblocks : blocks <> []) by (intros ->; cbn in Hsbl; lia).
  exists d'. split.
  { unfold write_data_to_blocks. destruct blocks as [|b0 blocks0];
      [contradiction|].
    fold sb so. rewrite Hwl, Z.eqb_refl. reflexivity. }
  split; [exact Hd'|]. split; [exact Ht'|]. split; [exact Hall|].
  intros k Hk. apply Hf'. intros Hk'. apply Hk.
  eapply elem_of_sublist; [exact Hk'|apply sublist_drop].
Qed.

(** X24. [write_data_to_blocks] at any offset inside the blocks of a
    file: the bytes of the buffer replace the bytes of the file image
    from that offset on and no other byte of the image changes;
    [read_data_from_blocks] at the same offset returns the buffer, a
    range that does not meet the written one reads as before, and the
    blocks outside the file are left as they were. *)
Theorem write_then_read_at_offset (d : DiskSimulator) (blocks : list Z)
    (img : list Z) (offset : Z) (buffer : list Z) :
  disk_ok d -> NoDup blocks ->
  Forall (fun b => 0 <= b < total_blocks d) blocks ->
  file_image d blocks = Some img -> Z.of_nat (length img) < 2^31 ->
  0 <= offset -> buffer <> [] ->
  offset + Z.of_nat (length buffer) <= Z.of_nat (length img) ->
  exists d',
    write_data_to_blocks d blocks offset buffer (Z.of_nat (length buffer))
    = (true, d')
    /\ file_image d' blocks = Some (splice img offset buffer)
    /\ read_data_from_blocks d' blocks offset (Z.of_nat (length buffer))
       = Some buffer
    /\ (forall off n,
          0 <= off -> 0 <= n -> off + n <= Z.of_nat (length img) ->
          off + n <= offset \/ offset + Z.of_nat (length buffer) <= off ->
          read_data_from_blocks d' blocks off n
          = read_data_from_blocks d blocks off n)
    /\ (forall k, k ∉ blocks -> Disk.read_block d' k = Disk.read_block d k).
Proof.
  intros Hd Hnd Hr Himg Hint Hoff Hne Hfit.
  destruct (write_data_to_blocks_image d blocks img offset buffer Hd Hnd Hr
              Himg Hoff Hne Hfit)
    as (d' & Hw & _ & _ & Hall & Hf).
  assert (Hlb : 0 < Z.of_nat (length buffer))
    by (destruct buffer; [contradiction|cbn [length]; lia]).
  assert (Hlen' : length (splice img offset buffer) = length img)
    by (apply length_splice; lia).
  exists d'. split; [exact Hw|]. split; [exact Hall|].
  split.
  { rewrite (read_data_from_blocks_spec d' blocks _ offset
               (Z.of_nat (length buffer)) Hall) by lia.
    f_equal. apply slice_splice_same; lia. }
  split; [|exact Hf].
  intros off n Ho Hn Hin Hdis.
  rewrite (read_data_from_blocks_spec d' blocks _ off n Hall) by lia.
  rewrite (read_data_from_blocks_spec d blocks _ off n Himg) by lia.
  f_equal. destruct Hdis as [Hb|Ha].
  - apply slice_splice_before; lia.
  - apply slice_splice_after; lia.
Qed.

End Contents.

(* ====================================================================== *)
(** * Writing inside a file (src/core/file_manager.cpp) *)
(* ====================================================================== *)

Section Overwrite.
Import FileMgr.

Lemma set_fd_position_other s fd v fd' :
  fd' <> fd ->
  FS.file_descriptors (set_fd_position s fd v) !! fd'
  = FS.file_descriptors s !! fd'.
Proof.
  intros H. unfold set_fd_position.
  cbn [FS.file_descriptors FS.set_file_descriptors].
  apply lookup_alter_ne. auto.
Qed.

(** X25. [write_file] inside a file whose pointers lead to its blocks:
    when the bytes written do not go past the end of the file, the call
    returns their number, the bytes replace those of the file from the
    position of the descriptor on and no other byte of the blocks
    changes, the block list and the size stay, the modification time
    becomes the time of the call, the position moves behind the bytes
    written and no other descriptor changes. Seeking back and reading
    returns the bytes written. *)
Theorem write_file_in_place (now : Z) (s : FS.t) (fd : Z)
    (desc : FileDescriptor.t) (inode : Inode.t) (m0 : InodeManager)
    (blocks : list Z) (img : list Z) (buf : list Z) :
  store_ok (FS.disk s) (FS.inode_manager s) ->
  FS.file_descriptors s !! fd = Some desc ->
  FileDescriptor.open desc = true ->
  Z.land (FileDescriptor.mode desc) OPEN_MODE_WRITE <> 0 ->
  InodeMgr.read_inode (FS.disk s) (FS.inode_manager s)
    (FileDescriptor.inode_num desc) = Some inode ->
  inode_wf inode ->
  tree_ok (FS.disk s) m0 (FS.inode_manager s) inode blocks ->
  NoDup blocks ->
  Forall (fun b => in_data_region (FS.inode_manager s) b
                   /\ block_taken m0 b) blocks ->
  file_image (FS.disk s) blocks = Some img ->
  Z.of_nat (length img) + BLOCK_SIZE < 2^31 ->
  time_range now -> buf <> [] ->
  0 <= FileDescriptor.position desc ->
  FileDescriptor.position desc + Z.of_nat (length buf) <= Inode.size inode ->
  Inode.size inode <= Z.of_nat (length img) ->
  exists s' inode',
    write_file now s fd buf (Z.of_nat (length buf))
    = (Done (Z.of_nat (length buf)), s')
    /\ FS.file_descriptors s' !! fd
       = Some (FileDescriptor.set_position
                 (FileDescriptor.position desc + Z.of_nat (length buf)) desc)
    /\ (forall fd', fd' <> fd ->
          FS.file_descriptors s' !! fd' = FS.file_descriptors s !! fd')
    /\ InodeMgr.read_inode (FS.disk s') (FS.inode_manager s')
         (FileDescriptor.inode_num desc) = Some inode'
    /\ Inode.size inode' = Inode.size inode
    /\ Inode.modification_time inode' = now
    /\ InodeMgr.get_data_blocks (FS.disk s') (FS.inode_manager s')
         (FileDescriptor.inode_num desc) = Some blocks
    /\ file_image (FS.disk s') blocks
       = Some (splice img (FileDescriptor.position desc) buf)
    /\ (Z.land (FileDescriptor.mode desc) OPEN_MODE_READ <> 0 ->
        forall now',
          (read_file now'
             (seek_file s' fd (FileDescriptor.position desc)).2 fd
             (Z.of_nat (length buf))).1
          = Done (Z.of_nat (length buf), buf)).
Proof.
  intros Hst Hfd Hop Hmode Hread Hwf Htree Hnd Hall Himg Hint Hnow Hne
    Hpos Hend Hsize.
  set (d := FS.disk s) in *. set (m := FS.inode_manager s) in *.
  set (n := FileDescriptor.inode_num desc) in *.
  set (pos := FileDescriptor.position desc) in *.
  set (len := Z.of_nat (length buf)) in *.
  pose proof BLOCK_SIZE_eq as HB.
  pose proof (store_pool _ _ Hst) as Hp.
  pose proof (store_layout _ _ Hst) as Hly.
  assert (Hlen : 0 < len)
    by (unfold len; destruct buf; [contradiction|cbn [length]; lia]).
  assert (Hrange : Forall (fun b => 0 <= b < total_blocks d) blocks).
  { eapply Forall_impl; [exact Hall|]. intros b (Hr & _).
    pose proof (in_data_region_range _ _ _ Hp Hr). lia. }
  destruct (write_data_to_blocks_image d blocks img pos buf (proj1 Hp) Hnd
              Hrange Himg Hpos Hne ltac:(fold len; lia))
    as (d1 & Hwd & Hd1 & Ht1 & Himg1 & Hf1).
  set (inode1 := Inode.set_modification_time now
                   (Inode.set_size (Inode.size inode) inode)).
  assert (Hwf1 : inode_wf inode1).
  { destruct Hwf as (W1 & W2 & W3 & W4 & W5 & W6 & W7 & W8 & W9 & W10
                     & W11 & W12).
    unfold inode_wf, inode1.
    cbn [Inode.set_modification_time Inode.set_size Inode.mode
         Inode.owner_id Inode.group_id Inode.size Inode.access_time
         Inode.modification_time Inode.creation_time Inode.link_count
         Inode.direct_blocks Inode.indirect_block
         Inode.double_indirect_block].
    auto 20. }
  pose proof (read_inode_slot _ _ _ _ Hread) as Hslot.
  assert (Hslot1 : slot_ok d1 m n)
    by (eapply slot_ok_same; [exact Hslot|apply same_table_refl|exact Ht1]).
  destruct (write_inode_ok d1 m n inode1 Hd1 Hslot1) as [d2 Hwi].
  destruct (write_inode_disk _ _ _ _ _ Hd1 Hwi) as (Hd2 & Ht2 & Hf2).
  pose proof (read_inode_write_inode _ _ _ _ _ Hd1 Hwf1 Hwi) as Hr2.
  pose proof (layout_table_outside m Hly _ (proj1 (proj2 Hslot))) as Htb.
  assert (Hbs_tb : forall b, b ∈ blocks ->
            b <> inode_table_start (layout m) + n / 42).
  { intros b Hb ->. rewrite Forall_forall in Hall.
    destruct (Hall _ Hb) as (Hr & _). contradiction. }
  assert (Hp2 : pool_ok d2 m)
    by (apply (pool_ok_disk d m d2 Hp Hd2); congruence).
  assert (Htree2 : tree_ok d2 m0 m inode1 blocks).
  { apply (tree_ok_transfer d m0 m inode blocks d2 inode1 Htree);
      [|repeat split].
    intros x (Hxr & Hxt & Hx0). rewrite Hf2, Hf1; [reflexivity| |].
    - intros Hin. rewrite Forall_forall in Hall.
      destruct (Hall _ Hin) as (_ & H0). contradiction.
    - intros ->. contradiction. }
  assert (Hgb2 : InodeMgr.get_data_blocks d2 m n = Some blocks).
  { unfold InodeMgr.get_data_blocks, InodeMgr.check_initialized.
    rewrite (proj1 Hslot), Hr2. cbn [negb].
    exact (tree_blocks d2 m0 m inode1 blocks Hp2 Htree2). }
  assert (Hgb : InodeMgr.get_data_blocks d m n = Some blocks).
  { unfold InodeMgr.get_data_blocks, InodeMgr.check_initialized.
    rewrite (proj1 Hslot), Hread. cbn [negb].
    exact (tree_blocks d m0 m inode blocks Hp Htree). }
  assert (Himg2 : file_image d2 blocks = Some (splice img pos buf)).
  { rewrite <- Himg1. apply file_image_frame. intros k Hk.
    apply Hf2, Hbs_tb, Hk. }
  assert (Hg : get_file_descriptor s fd = Done desc)
    by (apply get_file_descriptor_Done; auto).
  set (s' := set_fd_position (FS.set_disk d2 s) fd (pos + len)).
  assert (Hw : write_file now s fd buf len = (Done len, s')).
  { unfold write_file. rewrite Hg.
    destruct (Z.eqb_spec (Z.land (FileDescriptor.mode desc) OPEN_MODE_WRITE)
                         0); [contradiction|].
    cbv zeta. fold d m n pos. rewrite Hread.
    assert (Hq : forall v, 0 <= v <= Inode.size inode ->
              Z.quot (int32 (v + BLOCK_SIZE - 1)) BLOCK_SIZE
              = (v + BLOCK_SIZE - 1) / BLOCK_SIZE).
    { intros v Hv. rewrite int32_small_range by lia.
      apply Z.quot_div_nonneg; lia. }
    rewrite (Hq (Inode.size inode)) by lia.
    rewrite (Hq (pos + len)) by lia.
    assert (Hle : (pos + len + BLOCK_SIZE - 1) / BLOCK_SIZE
                  <= (Inode.size inode + BLOCK_SIZE - 1) / BLOCK_SIZE)
      by (apply Z.div_le_mono; lia).
    assert (Hlo : 0 <= (pos + len + BLOCK_SIZE - 1) / BLOCK_SIZE)
      by (apply Z.div_pos; lia).
    assert (Hhi : (Inode.size inode + BLOCK_SIZE - 1) / BLOCK_SIZE < 2^31)
      by (apply Z.div_lt_upper_bound; lia).
    rewrite int32_small_range by lia.
    destruct (Z.ltb_spec 0 ((pos + len + BLOCK_SIZE - 1) / BLOCK_SIZE
                            - (Inode.size inode + BLOCK_SIZE - 1)
                              / BLOCK_SIZE)); [lia|].
    change (FS.disk s) with d. change (FS.inode_manager s) with m.
    rewrite Hgb. fold len in Hwd. rewrite Hwd. cbv beta iota.
    rewrite (int32_small_range (pos + len)) by lia.
    rewrite Z.max_l by lia. fold inode1.
    rewrite Hwi. reflexivity. }
  assert (Hfd' : FS.file_descriptors s' !! fd
                 = Some (FileDescriptor.set_position (pos + len) desc))
    by (apply set_fd_position_lookup; exact Hfd).
  exists s', inode1. split; [exact Hw|]. split; [exact Hfd'|].
  split; [intros fd' Hne';
          exact (set_fd_position_other (FS.set_disk d2 s) fd _ fd' Hne')|].
  split; [exact Hr2|]. split; [reflexivity|]. split; [reflexivity|].
  split; [exact Hgb2|]. split; [exact Himg2|].
  intros Hrd now'.
  assert (Hg' : get_file_descriptor s' fd
                = Done (FileDescriptor.set_position (pos + len) desc))
    by (apply get_file_descriptor_Done; auto).
  assert (Hseek : seek_file s' fd pos = (Done tt, set_fd_position s' fd pos)).
  { unfold seek_file. rewrite Hg'.
    change (FS.disk s') with d2. change (FS.inode_manager s') with m.
    change (FileDescriptor.inode_num
              (FileDescriptor.set_position (pos + len) desc)) with n.
    rewrite Hr2. change (Inode.size inode1) with (Inode.size inode).
    destruct (Z.ltb_spec pos 0); [lia|].
    destruct (Z.ltb_spec (Inode.size inode) pos); [lia|]. reflexivity. }
  rewrite Hseek. cbn [snd].
  set (desc2 := FileDescriptor.set_position pos
                  (FileDescriptor.set_position (pos + len) desc)).
  assert (Hfd2 : FS.file_descriptors (set_fd_position s' fd pos) !! fd
                 = Some desc2)
    by (apply set_fd_position_lookup; exact Hfd').
  pose proof (read_file_within now' (set_fd_position s' fd pos) fd len desc2
                inode1 blocks (splice img pos buf) Hfd2 Hop Hrd ltac:(lia)
                Hr2 ltac:(cbn; fold pos; lia) ltac:(cbn; fold pos; lia)
                (proj1 (proj2 (proj2 (proj2 Hwf1)))) Hgb2 Himg2
                ltac:(rewrite length_splice by (fold len; lia);
                      exact Hsize))
    as (Hres & _).
  rewrite Hres. cbn [desc2 FileDescriptor.position
                     FileDescriptor.set_position].
  change (Inode.size inode1) with (Inode.size inode).
  rewrite Z.min_l by lia. do 2 f_equal.
  apply slice_splice_same; lia.
Qed.

End Overwrite.
(* ====================================================================== *)
(** * Unmounting (src/core/filesystem.cpp) *)
(* ====================================================================== *)

Section Unmount.

Lemma close_file_fields now s fd :
  FS.file_descriptors (FileMgr.close_file now s fd).2
  = delete fd (FS.file_descriptors s)
  /\ FS.inode_manager (FileMgr.close_file now s fd).2 = FS.inode_manager s
  /\ FS.next_fd (FileMgr.close_file now s fd).2 = FS.next_fd s
  /\ FS.mounted (FileMgr.close_file now s fd).2 = FS.mounted s.
Proof.
  unfold FileMgr.close_file.
  destruct (FS.file_descriptors s !! fd) as [desc|] eqn:E; cbn [snd].
  - destruct (update_file_modification_time_fds now s
                (FileDescriptor.inode_num desc)) as (H1 & H2 & H3 & H4).
    unfold FileMgr.free_file_descriptor. rewrite H1, E.
    cbn [FS.file_descriptors FS.set_file_descriptors FS.inode_manager
         FS.next_fd FS.mounted].
    auto.
  - rewrite delete_id by exact E. auto.
Qed.

Lemma close_each_fields (clock : Z -> Z) l s :
  let s' := foldl (fun s fd => (FileMgr.close_file (clock fd) s fd).2) s l in
  (forall fd, FS.file_descriptors s' !! fd
              = if bool_decide (fd ∈ l) then None
                else FS.file_descriptors s !! fd)
  /\ FS.inode_manager s' = FS.inode_manager s
  /\ FS.next_fd s' = FS.next_fd s
  /\ FS.mounted s' = FS.mounted s.
Proof.
  revert s. induction l as [|a l IH]; intros s; cbn [foldl].
  - cbv zeta. split; [|auto]. intros fd.
    rewrite bool_decide_eq_false_2 by apply not_elem_of_nil. reflexivity.
  - destruct (close_file_fields (clock a) s a) as (H1 & H2 & H3 & H4).
    destruct (IH (FileMgr.close_file (clock a) s a).2) as (I1 & I2 & I3 & I4).
    cbv zeta. split; [|split; [|split]]; try congruence.
    intros fd. rewrite I1, H1.
    destruct (decide (fd ∈ l)) as [Hin|Hin].
    + rewrite !bool_decide_eq_true_2; [reflexivity| |exact Hin].
      apply elem_of_cons. auto.
    + rewrite (bool_decide_eq_false_2 (fd ∈ l)) by exact Hin.
      destruct (decide (fd = a)) as [->|Hne].
      * rewrite bool_decide_eq_true_2 by apply list_elem_of_here.
        apply lookup_delete_eq.
      * rewrite bool_decide_eq_false_2
          by (rewrite elem_of_cons; tauto).
        apply lookup_delete_ne. auto.
Qed.

(** Closing files opens and closes no disk file. *)
Lemma write_block_file d n buffer :
  disk_file (Disk.write_block d n buffer).2 = None -> disk_file d = None.
Proof.
  unfold Disk.write_block.
  destruct (negb (Disk.is_ready_for_io d n)); [trivial|].
  destruct (disk_file d); [discriminate|trivial].
Qed.

Lemma write_inode_file d m n inode :
  disk_file (InodeMgr.write_inode d m n inode).2 = None ->
  disk_file d = None.
Proof.
  unfold InodeMgr.write_inode.
  destruct (negb (InodeMgr.check_initialized m)); [trivial|].
  destruct (InodeMgr.get_inode_position m n) as [[bn off]|]; [|trivial].
  destruct (Disk.read_block d bn); [|trivial].
  apply write_block_file.
Qed.

Lemma close_file_file now s fd :
  disk_file (FS.disk (FileMgr.close_file now s fd).2) = None ->
  disk_file (FS.disk s) = None.
Proof.
  unfold FileMgr.close_file.
  destruct (FS.file_descriptors s !! fd) as [desc|]; [|trivial].
  cbn [snd]. unfold FileMgr.free_file_descriptor.
  assert (H : disk_file
                (FS.disk (FileMgr.update_file_modification_time now s
                            (FileDescriptor.inode_num desc))) = None ->
              disk_file (FS.disk s) = None).
  { unfold FileMgr.update_file_modification_time.
    destruct (InodeMgr.read_inode _ _ _); [|trivial].
    cbn [FS.disk FS.set_disk]. apply write_inode_file. }
  destruct (FS.file_descriptors _ !! fd); exact H.
Qed.

Lemma close_all_files_file clock s :
  disk_file (FS.disk (FileSystem.close_all_files clock s)) = None ->
  disk_file (FS.disk s) = None.
Proof.
  unfold FileSystem.close_all_files.
  generalize (merge_sort Z.le (map_to_list (FS.file_descriptors s)).*1).
  intros l. revert s. induction l as [|a l IH]; intros s; cbn [foldl].
  - trivial.
  - intros H. apply (close_file_file (clock a) s a). apply IH. exact H.
Qed.

Lemma close_all_files_fields clock s :
  FS.file_descriptors (FileSystem.close_all_files clock s) = ∅
  /\ FS.inode_manager (FileSystem.close_all_files clock s)
     = FS.inode_manager s
  /\ FS.next_fd (FileSystem.close_all_files clock s) = FS.next_fd s
  /\ FS.mounted (FileSystem.close_all_files clock s) = FS.mounted s.
Proof.
  unfold FileSystem.close_all_files.
  destruct (close_each_fields clock
              (merge_sort Z.le (map_to_list (FS.file_descriptors s)).*1) s)
    as (H1 & H2).
  cbv zeta in H1, H2. split; [|exact H2].
  apply map_eq. intros fd. rewrite H1, lookup_empty.
  destruct (decide (fd ∈ merge_sort Z.le
                           (map_to_list (FS.file_descriptors s)).*1))
    as [Hin|Hin].
  - rewrite bool_decide_eq_true_2 by exact Hin. reflexivity.
  - rewrite bool_decide_eq_false_2 by exact Hin.
    destruct (FS.file_descriptors s !! fd) as [desc|] eqn:E; [|reflexivity].
    exfalso. apply Hin. rewrite merge_sort_Permutation.
    apply list_elem_of_fmap. exists (fd, desc). split; [reflexivity|].
    apply elem_of_map_to_list. exact E.
Qed.

(** X26. [unmount] on a file system that is not mounted fails and
    changes nothing. On a mounted one it succeeds: afterwards the file
    system is not mounted, the disk is closed, it holds no open file and
    the lock on the file that was open has been released, no descriptor
    is left in the table, the next descriptor number and the bitmaps in memory are
    as before, and [read_file], [write_file], [seek_file], [close_file],
    [create_file], [open_file], [delete_file], [remove_directory] and a
    second [unmount] fail and change nothing. *)
Theorem unmount_closes_everything (clock : Z -> Z) (s : FS.t) :
  (FS.mounted s = false -> FileSystem.unmount clock s = (false, s))
  /\ (FS.mounted s = true ->
      (FileSystem.unmount clock s).1 = true
      /\ FS.mounted (FileSystem.unmount clock s).2 = false
      /\ disk_open (FS.disk (FileSystem.unmount clock s).2) = false
      /\ disk_file (FS.disk (FileSystem.unmount clock s).2) = None
      /\ (disk_file (FS.disk s) <> None ->
          lock_acquired (FS.disk (FileSystem.unmount clock s).2) = false)
      /\ FS.file_descriptors (FileSystem.unmount clock s).2 = ∅
      /\ FS.next_fd (FileSystem.unmount clock s).2 = FS.next_fd s
      /\ FS.inode_manager (FileSystem.unmount clock s).2 = FS.inode_manager s
      /\ (forall now fd n,
            FileSystem.read_file now (FileSystem.unmount clock s).2 fd n
            = (Failed ERROR_NOT_MOUNTED, (FileSystem.unmount clock s).2))
      /\ (forall now fd buffer n,
            FileSystem.write_file now (FileSystem.unmount clock s).2 fd
              buffer n
            = (Failed ERROR_NOT_MOUNTED, (FileSystem.unmount clock s).2))
      /\ (forall fd position,
            FileSystem.seek_file (FileSystem.unmount clock s).2 fd position
            = (Failed ERROR_NOT_MOUNTED, (FileSystem.unmount clock s).2))
      /\ (forall now fd,
            FileSystem.close_file now (FileSystem.unmount clock s).2 fd
            = (Failed ERROR_NOT_MOUNTED, (FileSystem.unmount clock s).2))
      /\ (forall now path mode,
            FileSystem.create_file now (FileSystem.unmount clock s).2 path
              mode
            = (Failed ERROR_NOT_MOUNTED, (FileSystem.unmount clock s).2))
      /\ (forall fuel now path mode,
            FileSystem.open_file fuel now (FileSystem.unmount clock s).2
              path mode
            = Some (Failed ERROR_NOT_MOUNTED,
                    (FileSystem.unmount clock s).2))
      /\ (forall now path,
            FileSystem.delete_file now (FileSystem.unmount clock s).2 path
            = (false, (FileSystem.unmount clock s).2))
      /\ (forall now path,
            FileSystem.remove_directory now (FileSystem.unmount clock s).2
              path
            = (false, (FileSystem.unmount clock s).2))
      /\ (forall clock',
            FileSystem.unmount clock' (FileSystem.unmount clock s).2
            = (false, (FileSystem.unmount clock s).2))).
Proof.
  split.
  - intros H. unfold FileSystem.unmount, FileSystem.ensure_mounted.
    rewrite H. reflexivity.
  - intros H.
    destruct (close_all_files_fields clock s) as (H1 & H2 & H3 & H4).
    assert (Hu : FileSystem.unmount clock s
                 = (true,
                    FS.set_mounted false
                      (FS.set_disk
                         (Disk.close_disk
                            (FS.disk (FileSystem.close_all_files clock s)))
                         (FileSystem.close_all_files clock s)))).
    { unfold FileSystem.unmount, FileSystem.ensure_mounted.
      rewrite H. reflexivity. }
    rewrite Hu. cbn [fst snd].
    set (s' := FS.set_mounted false _).
    assert (Hm : FS.mounted s' = false) by reflexivity.
    split; [reflexivity|]. split; [exact Hm|].
    split.
    { subst s'. cbn [FS.disk FS.set_mounted FS.set_disk].
      unfold Disk.close_disk. destruct (disk_file _); reflexivity. }
    split.
    { subst s'. cbn [FS.disk FS.set_mounted FS.set_disk].
      unfold Disk.close_disk.
      destruct (disk_file (FS.disk (FileSystem.close_all_files clock s)));
        reflexivity. }
    split.
    { intros Hfile. subst s'. cbn [FS.disk FS.set_mounted FS.set_disk].
      pose proof (close_all_files_file clock s) as Hkeep.
      unfold Disk.close_disk.
      destruct (disk_file (FS.disk (FileSystem.close_all_files clock s)));
        [reflexivity|]. exfalso. apply Hfile, Hkeep. reflexivity. }
    split; [exact H1|]. split; [exact H3|].
    split; [exact H2|].
    unfold FileSystem.read_file, FileSystem.write_file,
      FileSystem.seek_file, FileSystem.close_file, FileSystem.create_file,
      FileSystem.open_file, FileSystem.delete_file,
      FileSystem.remove_directory, FileSystem.unmount,
      FileSystem.ensure_mounted.
    rewrite Hm. cbn [negb]. repeat split.
Qed.

(** [unmount] of [fs_opened], where descriptor 3 is open: the disk file
    is open and locked before, closed and unlocked after. *)
Example unmount_fs_opened :
  match disk_file (FS.disk fs_opened) with
  | Some _ => True
  | None => False
  end
  /\ lock_acquired (FS.disk fs_opened) = true
  /\ match FS.file_descriptors fs_opened !! 3 with
     | Some _ => True
     | None => False
     end
  /\ (FileSystem.unmount (fun _ => 9) fs_opened).1 = true
  /\ FS.mounted (FileSystem.unmount (fun _ => 9) fs_opened).2 = false
  /\ disk_open (FS.disk (FileSystem.unmount (fun _ => 9) fs_opened).2)
     = false
  /\ disk_file (FS.disk (FileSystem.unmount (fun _ => 9) fs_opened).2)
     = None
  /\ lock_acquired (FS.disk (FileSystem.unmount (fun _ => 9) fs_opened).2)
     = false
  /\ map_to_list
       (FS.file_descriptors (FileSystem.unmount (fun _ => 9) fs_opened).2)
     = [].
Proof.
  split; [vm_compute; exact I|].
  split; [vm_compute; reflexivity|].
  split; [vm_compute; exact I|].
  split; [vm_compute; reflexivity|].
  split; [vm_compute; reflexivity|].
  split; [vm_compute; reflexivity|].
  split; [vm_compute; reflexivity|].
  split; vm_compute; reflexivity.
Qed.

End Unmount.
(* ====================================================================== *)
(** * Releasing an inode (src/core/inode_manager.cpp) *)
(* ====================================================================== *)

Section InodeRelease.
Import InodeMgr.

Lemma save_inode_bitmap_spec d m :
  store_ok d m -> 0 < data_blocks_count (layout m) ->
  (exists data, bitmap_data (inode_bitmap m) = Some data) ->
  exists d',
    save_inode_bitmap d m
    = (true, d',
       set_inode_bitmap
         (Bitmap.set_blocks (inode_bitmap_start (layout m))
            (inode_bitmap_blocks (layout m)) (inode_bitmap m)) m)
    /\ disk_ok d' /\ total_blocks d' = total_blocks d
    /\ (forall k, ~ (inode_bitmap_start (layout m) <= k
                      < data_bitmap_start (layout m)) ->
                  Disk.read_block d' k = Disk.read_block d k).
Proof.
  intros Hst Hcount [data Hdata].
  pose proof (store_pool _ _ Hst) as Hp.
  pose proof (store_layout _ _ Hst) as Hly.
  pose proof (store_inode_bitmap_region _ _ Hst)
    as (R1 & R2 & R3 & R4 & R5 & R6).
  pose proof Hst as (Hd & Ht & _ & Hl & Hib & Hibn & Hdb & Hdbn).
  assert (Hend : data_bitmap_start (layout m) <= total_blocks d).
  { destruct Hly as (_ & _ & L2 & L3).
    destruct Hp as (_ & _ & _ & _ & Hle & _). lia. }
  destruct (save_loop_spec data
              (Z.to_nat (inode_bitmap_blocks (layout m)))
              (inode_bitmap_start (layout m)) 0
              (bitmap_size
                 (Bitmap.set_blocks (inode_bitmap_start (layout m))
                    (inode_bitmap_blocks (layout m)) (inode_bitmap m)))
              d Hd ltac:(lia) ltac:(lia))
    as (d' & He & Hd' & Ht' & Hf').
  exists d'. split.
  { unfold save_inode_bitmap, Bitmap.save_to_disk.
    rewrite (shape_initialized _ _ (proj1 Hib) Hdata). cbn [negb].
    cbn [bitmap_data Bitmap.set_blocks]. rewrite Hdata.
    rewrite He. reflexivity. }
  split; [exact Hd'|]. split; [exact Ht'|].
  intros k Hk. apply Hf'. rewrite Z2Nat.id by lia. lia.
Qed.

Lemma free_inode_spec d m n inode l :
  store_ok d m -> 0 < data_blocks_count (layout m) ->
  read_inode d m n = Some inode -> inode_wf inode ->
  Inode.double_indirect_block inode = -1 ->
  get_data_blocks d m n = Some l ->
  let held :=
    l ++ (if Inode.indirect_block inode =? -1 then []
          else [Inode.indirect_block inode]) in
  NoDup held -> Forall (block_taken m) held ->
  is_inode_allocated m n = true ->
  exists d' m' inode',
    free_inode d m n = (true, d', m')
    /\ (forall j, is_inode_allocated m' j
                  = negb (j =? n) && is_inode_allocated m j)
    /\ get_free_inodes m' = get_free_inodes m + 1
    /\ (forall x, block_taken m' x <-> block_taken m x /\ x ∉ held)
    /\ free_bits_count (data_bitmap m')
       = free_bits_count (data_bitmap m) + Z.of_nat (length held)
    /\ (forall j, j <> n -> read_inode d' m' j = read_inode d m j)
    /\ read_inode d' m' n = Some inode' /\ Inode.size inode' = 0
    /\ store_ok d' m'
    /\ initialized m' = initialized m /\ layout m' = layout m
    /\ (forall k, in_data_region m k ->
                  Disk.read_block d' k = Disk.read_block d k).
Proof.
  intros Hst Hcount Hread Hwf Hdbl Hblocks held Hnd Htaken Halloc.
  pose proof (store_initialized _ _ Hst) as Hinit.
  destruct (free_data_blocks_spec d m n inode l Hst Hcount Hread Hwf Hdbl
              Hblocks Hnd Htaken)
    as (d2 & m2 & inode2 & Hfree & Htk & Hcnt & _ & Hr2 & Hsz & _ & _ & Hoth
        & Hst2 & (Si & Sl & Sb) & Hfr2).
  fold held in Htk, Hcnt.
  set (ib3 := (Bitmap.free_bit (inode_bitmap m2) n).2).
  set (m3 := set_inode_bitmap ib3 m2).
  pose proof Hst2 as (Hd2 & Hlt2 & Hi2 & Hl2 & Hib2 & Hibn2 & Hdb2 & Hdbn2).
  assert (Hib3 : bitmap_ok ib3) by (apply free_bit_ok; exact Hib2).
  assert (Htot3 : total_bits ib3 = total_bits (inode_bitmap m2))
    by apply free_bit_total_bits.
  assert (Hst3 : store_ok d2 m3).
  { unfold store_ok, m3.
    cbn [set_inode_bitmap initialized layout inode_bitmap data_bitmap].
    rewrite Htot3. auto 10. }
  assert (Ha2 : Bitmap.is_allocated (inode_bitmap m2) n = true).
  { unfold is_inode_allocated in Halloc. rewrite Hinit in Halloc.
    rewrite Sb. exact Halloc. }
  assert (Hvalid : 0 <= n < total_bits (inode_bitmap m2)).
  { unfold Bitmap.is_allocated in Ha2.
    destruct (Bitmap.is_valid_bit (inode_bitmap m2) n) eqn:Hv;
      [|destruct (bitmap_data (inode_bitmap m2)); discriminate].
    apply (valid_bit_initialized _ _ (proj1 Hib2) Hv). }
  assert (Hdata3 : exists data, bitmap_data ib3 = Some data).
  { destruct Hib3 as [(_ & _ & Hsh) _].
    destruct (bitmap_data ib3) as [data|]; [eauto|]. lia. }
  assert (Hcount3 : 0 < data_blocks_count (layout m3))
    by (cbn [m3 set_inode_bitmap layout]; rewrite Sl; exact Hcount).
  destruct (save_inode_bitmap_spec d2 m3 Hst3 Hcount3 Hdata3)
    as (d3 & Hsave & Hd3 & Ht3 & Hf3).
  set (m4 := set_inode_bitmap _ m3) in Hsave.
  assert (Hst4 : store_ok d3 m4).
  { pose proof (store_ok_disk d2 m3 d3 Hst3 Hd3 Ht3)
      as (A1 & A2 & A3 & A4 & (A5 & A5') & A6 & A7).
    unfold store_ok. split; [exact A1|]. split; [exact A2|].
    split; [exact A3|]. split; [exact A4|]. split; [|split; [exact A6|]].
    - split; [exact A5|exact A5'].
    - exact A7. }
  assert (Hread34 : forall j, read_inode d3 m4 j = read_inode d2 m2 j).
  { intros j. transitivity (read_inode d2 m4 j).
    - apply read_inode_frame. intros bn off Hpos.
      destruct (get_inode_position_Some _ _ _ _ Hpos) as (Hj & -> & _).
      pose proof (store_inode_bitmap_region _ _ Hst4)
        as (R1 & R2 & R3 & R4 & R5 & R6).
      apply Hf3. rewrite R6 in Hj.
      assert (0 <= j / 42 < inode_table_blocks (layout m4))
        by (split; [apply Z.div_pos; lia|apply Z.div_lt_upper_bound; lia]).
      change (layout m3) with (layout m4). lia.
    - unfold read_inode, get_inode_position, check_initialized,
        get_total_inodes, Bitmap.get_total_bits.
      cbn [m4 m3 set_inode_bitmap initialized layout inode_bitmap
           Bitmap.set_blocks total_bits].
      rewrite Htot3. reflexivity. }
  exists d3, m4, inode2. split.
  { unfold free_inode, check_initialized. rewrite Hinit, Halloc.
    cbn [negb]. rewrite Hfree. fold ib3. fold m3. exact Hsave. }
  split.
  { intros j. unfold is_inode_allocated.
    cbn [m4 m3 set_inode_bitmap initialized inode_bitmap]. rewrite Si.
    destruct (initialized m); cbn [negb];
      [|rewrite andb_false_r; reflexivity].
    transitivity (Bitmap.is_allocated ib3 j); [reflexivity|].
    unfold ib3. rewrite (free_bit_is_allocated _ n j (proj1 Hib2)).
    rewrite Sb. reflexivity. }
  split.
  { unfold get_free_inodes, Bitmap.get_free_bits.
    cbn [m4 m3 set_inode_bitmap initialized inode_bitmap Bitmap.set_blocks
         free_bits_count].
    rewrite Si. rewrite Hinit. unfold ib3.
    rewrite (free_bit_count _ n (proj1 Hib2) Ha2). rewrite Sb. reflexivity. }
  split; [exact Htk|]. split; [exact Hcnt|].
  split; [intros j Hj; rewrite Hread34; apply Hoth; exact Hj|].
  split; [rewrite Hread34; exact Hr2|]. split; [exact Hsz|].
  split; [exact Hst4|]. split; [exact Si|]. split; [exact Sl|].
  intros k Hk. rewrite <- (Hfr2 k Hk). apply Hf3.
  pose proof (store_layout _ _ Hst) as (_ & _ & L2 & L3).
  unfold in_data_region in Hk.
  cbn [m3 set_inode_bitmap layout]. rewrite Sl. lia.
Qed.

(** X27. [free_inode] on an inode that is not allocated fails and changes
    nothing. On an allocated inode without double-indirect block it
    succeeds: the inode is free afterwards and no other inode changes its
    state or its contents, the count of free inodes grows by one, the
    data blocks of the inode and its indirect block are released and no
    other block changes its state, and the store is sound as before. *)
Theorem free_inode_effect (d : DiskSimulator) (m : InodeManager) (n : Z)
    (inode : Inode.t) (l : list Z) :
  store_ok d m -> 0 < data_blocks_count (layout m) ->
  read_inode d m n = Some inode -> inode_wf inode ->
  Inode.double_indirect_block inode = -1 ->
  get_data_blocks d m n = Some l ->
  let held :=
    l ++ (if Inode.indirect_block inode =? -1 then []
          else [Inode.indirect_block inode]) in
  NoDup held -> Forall (block_taken m) held ->
  (is_inode_allocated m n = false -> free_inode d m n = (false, d, m))
  /\ (is_inode_allocated m n = true ->
      exists d' m',
        free_inode d m n = (true, d', m')
        /\ is_inode_allocated m' n = false
        /\ (forall j, j <> n ->
              is_inode_allocated m' j = is_inode_allocated m j)
        /\ get_free_inodes m' = get_free_inodes m + 1
        /\ (forall x, block_taken m' x <-> block_taken m x /\ x ∉ held)
        /\ free_bits_count (data_bitmap m')
           = free_bits_count (data_bitmap m) + Z.of_nat (length held)
        /\ (forall j, j <> n -> read_inode d' m' j = read_inode d m j)
        /\ store_ok d' m').
Proof.
  intros Hst Hcount Hread Hwf Hdbl Hblocks held Hnd Htaken. split.
  - intros Hfree. unfold free_inode. rewrite Hfree.
    destruct (negb (check_initialized m)); reflexivity.
  - intros Halloc.
    destruct (free_inode_spec d m n inode l Hst Hcount Hread Hwf Hdbl
                Hblocks Hnd Htaken Halloc)
      as (d' & m' & inode' & H1 & H2 & H3 & H4 & H5 & H6 & _ & _ & H9 & _).
    exists d', m'. split; [exact H1|].
    split; [rewrite H2, Z.eqb_refl; reflexivity|].
    split.
    { intros j Hj. rewrite H2.
      destruct (Z.eqb_spec j n); [contradiction|]. reflexivity. }
    auto.
Qed.

End InodeRelease.
(* ====================================================================== *)
(** * Deleting a file (src/core/filesystem.cpp) *)
(* ====================================================================== *)

Section Deletion.

Lemma scan_blocks_frame d d' blocks name :
  (forall k, k ∈ blocks -> Disk.read_block d' k = Disk.read_block d k) ->
  PathMgr.scan_blocks d' blocks name = PathMgr.scan_blocks d blocks name.
Proof.
  induction blocks as [|b blocks IH]; intros H; [reflexivity|].
  cbn [PathMgr.scan_blocks]. rewrite (H b) by apply list_elem_of_here.
  rewrite IH; [reflexivity|]. intros k Hk. apply H. right. exact Hk.
Qed.

Lemma block_taken_region d m x :
  pool_ok d m -> block_taken m x -> in_data_region m x.
Proof.
  intros (_ & _ & _ & _ & _ & Hb & Htot) Hx. unfold block_taken in Hx.
  apply is_allocated_valid in Hx.
  destruct (valid_bit_initialized _ _ (proj1 Hb) Hx) as (_ & Hr & _).
  unfold in_data_region. lia.
Qed.

(** A directory reads the same wherever its inode and its blocks read the
    same. *)
Lemma directory_frame d m dir inode blocks d' m' :
  directory_ok d m dir inode blocks ->
  initialized m' = initialized m ->
  InodeMgr.read_inode d' m' dir = InodeMgr.read_inode d m dir ->
  (forall k, k ∈ blocks -> Disk.read_block d' k = Disk.read_block d k) ->
  DirMgr.read_directory d' m' dir = DirMgr.read_directory d m dir
  /\ (forall name,
        PathMgr.find_inode_in_directory d' m' dir name
        = PathMgr.find_inode_in_directory d m dir name).
Proof.
  intros Hdir Hi Hr Hb.
  pose proof Hdir as (Hst & _ & Hread & _ & _ & Hind & Hdbl & Hblocks & _).
  assert (Hg : forall d0 m0,
            initialized m0 = initialized m ->
            InodeMgr.read_inode d0 m0 dir = Some inode ->
            InodeMgr.get_data_blocks d0 m0 dir = Some blocks).
  { intros d0 m0 Hi0 Hr0.
    unfold InodeMgr.get_data_blocks, InodeMgr.check_initialized in *.
    rewrite Hi0. rewrite Hread in Hblocks. rewrite Hr0.
    destruct (negb (initialized m)); [discriminate|].
    rewrite (data_blocks_direct d0 inode Hind Hdbl).
    rewrite (data_blocks_direct d inode Hind Hdbl) in Hblocks.
    exact Hblocks. }
  pose proof (Hg d m eq_refl Hread) as G.
  pose proof (Hg d' m' Hi ltac:(rewrite Hr; exact Hread)) as G'.
  unfold DirMgr.read_directory, PathMgr.find_inode_in_directory,
    PathMgr.load_directory_inode.
  rewrite Hr, G, G'. split.
  - destruct (InodeMgr.read_inode d m dir) as [i0|]; [|reflexivity].
    destruct (Z.land (Inode.mode i0) FILE_TYPE_DIRECTORY =? 0);
      [reflexivity|].
    destruct (Inode.size i0 =? 0); [reflexivity|].
    apply read_blocks_frame, Hb.
  - intros name.
    destruct (InodeMgr.read_inode d m dir) as [i0|]; [|reflexivity].
    destruct (Z.land (Inode.mode i0) FILE_TYPE_DIRECTORY =? 0);
      [reflexivity|].
    apply scan_blocks_frame, Hb.
Qed.

(** The entry of [name] leaves the directory [p], then inode [n] is
    released. *)
Lemma unlink_spec now d m n inode l name p pinode blocks entries i :
  time_range now ->
  InodeMgr.is_inode_allocated m n = true ->
  InodeMgr.read_inode d m n = Some inode -> inode_wf inode ->
  Inode.double_indirect_block inode = -1 ->
  InodeMgr.get_data_blocks d m n = Some l ->
  let held :=
    l ++ (if Inode.indirect_block inode =? -1 then []
          else [Inode.indirect_block inode]) in
  NoDup held -> Forall (block_taken m) held ->
  name_ok name -> n <> p ->
  directory_ok d m p pinode blocks ->
  (forall b, b ∈ blocks -> b ∉ held) ->
  DirMgr.read_directory d m p = Some entries ->
  Forall entry_wf entries ->
  Z.of_nat (length entries)
  <= entries_per_block * Z.of_nat (length blocks) ->
  DirMgr.find_entry_index entries name = Some i ->
  exists d1 d2 m2,
    DirMgr.remove_directory_entry now d m p name = (true, d1, m)
    /\ InodeMgr.free_inode d1 m n = (true, d2, m2)
    /\ DirMgr.read_directory d2 m2 p = Some (delete i entries)
    /\ (forall name',
          PathMgr.find_inode_in_directory d2 m2 p name'
          = lookup_entry (delete i entries) name')
    /\ (forall j, InodeMgr.is_inode_allocated m2 j
                  = negb (j =? n) && InodeMgr.is_inode_allocated m j)
    /\ InodeMgr.get_free_inodes m2 = InodeMgr.get_free_inodes m + 1
    /\ (forall x, block_taken m2 x <-> block_taken m x /\ x ∉ held)
    /\ free_bits_count (data_bitmap m2)
       = free_bits_count (data_bitmap m) + Z.of_nat (length held).
Proof.
  intros Hnow Halloc Hread Hwf Hdbl Hblocks held Hnd Htaken Hname Hnp Hdir
    Hdisj Hrd Hewf Hroom Hidx.
  pose proof Hdir as (Hst & _ & Hpread & _ & Hpmode & _).
  pose proof (store_initialized _ _ Hst) as Hinit.
  pose proof (listed_entries d m p entries Hrd Hewf) as Hlisted.
  assert (Hall : Forall entry_listed (delete i entries)).
  { rewrite Forall_forall in *. intros x Hx.
    apply Hlisted. eapply elem_of_sublist; [exact Hx|apply sublist_delete]. }
  assert (Hlen : (length (delete i entries) <= length entries)%nat)
    by (apply sublist_length, sublist_delete).
  assert (Hcap : (length entries <= 15 * length blocks)%nat).
  { change entries_per_block with 15 in Hroom. lia. }
  destruct (write_directory_spec now d m p pinode blocks (delete i entries)
              Hdir Hnow Hall ltac:(lia))
    as (d1 & Hw & Hdir1 & Hrd1 & Hlook1 & Hother1 & Hframe1).
  pose proof Hdir1 as (Hst1 & _ & Hpread1 & _).
  assert (Hread1 : InodeMgr.read_inode d1 m n = Some inode)
    by (rewrite (Hother1 n Hnp); exact Hread).
  assert (Hblocks1 : InodeMgr.get_data_blocks d1 m n = Some l).
  { unfold InodeMgr.get_data_blocks, InodeMgr.check_initialized in *.
    rewrite Hinit in *. cbn [negb] in *. rewrite Hread1.
    rewrite Hread in Hblocks. rewrite <- Hblocks.
    unfold InodeMgr.data_blocks_of. rewrite Hdbl.
    destruct (Z.eqb_spec (Inode.indirect_block inode) (-1)) as [E|E];
      [reflexivity|].
    assert (Hin : Inode.indirect_block inode ∈ held).
    { unfold held. apply elem_of_app. right.
      destruct (Z.eqb_spec (Inode.indirect_block inode) (-1));
        [contradiction|apply list_elem_of_here]. }
    unfold InodeMgr.read_indirect_block. rewrite Hframe1; [reflexivity| |].
    - intros Hb. exact (Hdisj _ Hb Hin).
    - intros Heq. rewrite Forall_forall in Htaken.
      pose proof (Htaken _ Hin) as Htk. rewrite Heq in Htk.
      pose proof (read_inode_slot _ _ _ _ Hpread) as (_ & Hpr & _).
      exact (layout_table_outside m (store_layout _ _ Hst) p Hpr
               (block_taken_region d m _ (store_pool _ _ Hst) Htk)). }
  assert (Hcount : 0 < data_blocks_count (layout m)).
  { destruct Hdir as (_ & _ & _ & _ & _ & _ & _ & _ & _ & Hreg').
    destruct blocks as [|b0 blocks'].
    - exfalso. destruct (find_entry_index_Some entries name i Hewf Hname Hidx)
        as (e & He & _).
      apply lookup_lt_Some in He. cbn [length] in Hcap. lia.
    - apply Forall_cons in Hreg' as [Hb0 _]. unfold in_data_region in Hb0.
      lia. }
  destruct (free_inode_spec d1 m n inode l Hst1 Hcount Hread1 Hwf Hdbl
              Hblocks1 Hnd Htaken Halloc)
    as (d2 & m2 & inode2 & Hfree & Hia & Hfi & Htk2 & Hcnt2 & Hoth2 & _ & _
        & Hst2 & Hi2 & Hl2 & Hfr2).
  fold held in Htk2, Hcnt2.
  assert (Hregion : forall k, k ∈ blocks -> in_data_region m k).
  { destruct Hdir1 as (_ & _ & _ & _ & _ & _ & _ & _ & _ & Hreg').
    rewrite Forall_forall in Hreg'. exact Hreg'. }
  destruct (directory_frame d1 m p _ blocks d2 m2 Hdir1 Hi2
              (Hoth2 p ltac:(congruence))
              (fun k Hk => Hfr2 k (Hregion k Hk)))
    as (Hrd2 & Hlook2).
  exists d1, d2, m2. split.
  { unfold DirMgr.remove_directory_entry. rewrite Hrd, Hidx. exact Hw. }
  split; [exact Hfree|].
  split; [rewrite Hrd2; exact Hrd1|].
  split; [intros name'; rewrite Hlook2; apply Hlook1|].
  split; [exact Hia|]. split; [exact Hfi|]. split; [exact Htk2|exact Hcnt2].
Qed.

Lemma read_inode_not_minus_one d m inode :
  InodeMgr.read_inode d m (-1) <> Some inode.
Proof.
  unfold InodeMgr.read_inode, InodeMgr.get_inode_position.
  destruct (negb (InodeMgr.check_initialized m)); [discriminate|].
  cbn. discriminate.
Qed.

(** X28. [delete_file] on the path of a regular file without
    double-indirect block, in a sound parent directory: the call
    succeeds, the first entry of that name leaves the parent directory
    and the other entries stay in their order, the inode of the file is
    free afterwards, its data blocks and its indirect block are released
    and no other block or inode changes its state. The table of open
    descriptors is left as it was. *)
Theorem delete_file_removes (now : Z) (s : FS.t) (path : list ascii)
    (n : Z) (inode : Inode.t) (l : list Z) (name parent : list ascii)
    (p : Z) (pinode : Inode.t) (blocks : list Z)
    (entries : list DirectoryEntry.t) (i : nat) :
  FS.mounted s = true -> time_range now ->
  PathMgr.find_inode (FS.disk s) (FS.inode_manager s)
    (PathUtils.normalize_path path) = n ->
  InodeMgr.is_inode_allocated (FS.inode_manager s) n = true ->
  InodeMgr.read_inode (FS.disk s) (FS.inode_manager s) n = Some inode ->
  inode_wf inode ->
  Z.land (Inode.mode inode) FILE_TYPE_DIRECTORY = 0 ->
  Inode.double_indirect_block inode = -1 ->
  InodeMgr.get_data_blocks (FS.disk s) (FS.inode_manager s) n = Some l ->
  let held :=
    l ++ (if Inode.indirect_block inode =? -1 then []
          else [Inode.indirect_block inode]) in
  NoDup held -> Forall (block_taken (FS.inode_manager s)) held ->
  PathUtils.extract_filename_and_directory (PathUtils.normalize_path path)
  = Some (name, parent) ->
  name_ok name ->
  PathMgr.find_inode (FS.disk s) (FS.inode_manager s) parent = p ->
  directory_ok (FS.disk s) (FS.inode_manager s) p pinode blocks ->
  (forall b, b ∈ blocks -> b ∉ held) ->
  DirMgr.read_directory (FS.disk s) (FS.inode_manager s) p = Some entries ->
  Forall entry_wf entries ->
  Z.of_nat (length entries)
  <= entries_per_block * Z.of_nat (length blocks) ->
  DirMgr.find_entry_index entries name = Some i ->
  exists s',
    FileSystem.delete_file now s path = (true, s')
    /\ DirMgr.read_directory (FS.disk s') (FS.inode_manager s') p
       = Some (delete i entries)
    /\ (forall name',
          PathMgr.find_inode_in_directory (FS.disk s') (FS.inode_manager s')
            p name'
          = lookup_entry (delete i entries) name')
    /\ (Forall (fun e => strcmp_eq (DirectoryEntry.name e) name = false)
               (delete i entries) ->
        PathMgr.find_inode_in_directory (FS.disk s') (FS.inode_manager s')
          p name = -1)
    /\ InodeMgr.is_inode_allocated (FS.inode_manager s') n = false
    /\ (forall j, j <> n ->
          InodeMgr.is_inode_allocated (FS.inode_manager s') j
          = InodeMgr.is_inode_allocated (FS.inode_manager s) j)
    /\ InodeMgr.get_free_inodes (FS.inode_manager s')
       = InodeMgr.get_free_inodes (FS.inode_manager s) + 1
    /\ (forall x, block_taken (FS.inode_manager s') x
                  <-> block_taken (FS.inode_manager s) x /\ x ∉ held)
    /\ free_bits_count (data_bitmap (FS.inode_manager s'))
       = free_bits_count (data_bitmap (FS.inode_manager s))
         + Z.of_nat (length held)
    /\ FS.file_descriptors s' = FS.file_descriptors s
    /\ FS.next_fd s' = FS.next_fd s
    /\ FS.mounted s' = true.
Proof.
  intros Hm Hnow Hfind Halloc Hread Hwf Hreg Hdbl Hblocks held Hnd Htaken
    Hext Hname Hparent Hdir Hdisj Hrd Hewf Hroom Hidx.
  set (d := FS.disk s) in *. set (m := FS.inode_manager s) in *.
  pose proof Hdir as (_ & _ & Hpread & _ & Hpmode & _).
  assert (Hnp : n <> p).
  { intros ->. rewrite Hread in Hpread. injection Hpread as ->.
    contradiction. }
  assert (Hn1 : n <> -1)
    by (intros ->; exact (read_inode_not_minus_one _ _ _ Hread)).
  assert (Hp1 : p <> -1)
    by (intros ->; exact (read_inode_not_minus_one _ _ _ Hpread)).
  destruct (unlink_spec now d m n inode l name p pinode blocks entries i
              Hnow Halloc Hread Hwf Hdbl Hblocks Hnd Htaken Hname Hnp Hdir
              Hdisj Hrd Hewf Hroom Hidx)
    as (d1 & d2 & m2 & Hrm & Hfree & Hrd2 & Hlook2 & Hia & Hfi & Htk2
        & Hcnt2).
  fold held in Htk2, Hcnt2.
  exists (FS.set_store d2 m2 s). split.
  { unfold FileSystem.delete_file, FileSystem.ensure_mounted.
    rewrite Hm. cbn [negb]. cbv zeta. fold d m. rewrite Hfind.
    destruct (Z.eqb_spec n (-1)); [contradiction|].
    rewrite Hread, Hreg. cbn [Z.eqb negb]. rewrite Hext, Hparent.
    destruct (Z.eqb_spec p (-1)); [contradiction|].
    rewrite Hrm, Hfree. reflexivity. }
  cbn [FS.set_store FS.set_inode_manager FS.set_disk FS.disk
       FS.inode_manager FS.file_descriptors FS.next_fd FS.mounted].
  split; [exact Hrd2|]. split; [exact Hlook2|].
  split.
  { intros Hnone. rewrite Hlook2. apply lookup_entry_none, Hnone. }
  split; [rewrite Hia, Z.eqb_refl; reflexivity|].
  split.
  { intros j Hj. rewrite Hia.
    destruct (Z.eqb_spec j n); [contradiction|]. reflexivity. }
  split; [exact Hfi|]. split; [exact Htk2|]. split; [exact Hcnt2|].
  split; [reflexivity|]. split; [reflexivity|exact Hm].
Qed.

(** X29. [remove_directory] on the path of a directory of at most two
    entries, other than the root, in a sound parent directory: the call
    succeeds, the first entry of that name leaves the parent directory
    and the other entries stay in their order, the inode of the
    directory is free afterwards, its blocks are released and no other
    block or inode changes its state. *)
Theorem remove_directory_removes (now : Z) (s : FS.t) (path : list ascii)
    (n : Z) (inode : Inode.t) (l : list Z)
    (own : list DirectoryEntry.t) (p : Z) (pinode : Inode.t)
    (blocks : list Z) (entries : list DirectoryEntry.t) (i : nat) :
  FS.mounted s = true -> time_range now ->
  PathUtils.normalize_path path <> [PathUtils.slash] ->
  PathMgr.find_inode (FS.disk s) (FS.inode_manager s)
    (PathUtils.normalize_path path) = n ->
  InodeMgr.is_inode_allocated (FS.inode_manager s) n = true ->
  InodeMgr.read_inode (FS.disk s) (FS.inode_manager s) n = Some inode ->
  inode_wf inode ->
  Z.land (Inode.mode inode) FILE_TYPE_DIRECTORY <> 0 ->
  Inode.double_indirect_block inode = -1 ->
  InodeMgr.get_data_blocks (FS.disk s) (FS.inode_manager s) n = Some l ->
  let held :=
    l ++ (if Inode.indirect_block inode =? -1 then []
          else [Inode.indirect_block inode]) in
  NoDup held -> Forall (block_taken (FS.inode_manager s)) held ->
  DirMgr.read_directory (FS.disk s) (FS.inode_manager s) n = Some own ->
  (length own <= 2)%nat ->
  name_ok (PathMgr.get_basename (PathUtils.normalize_path path)) ->
  PathMgr.find_inode (FS.disk s) (FS.inode_manager s)
    (PathMgr.get_parent_path (PathUtils.normalize_path path)) = p ->
  n <> p ->
  directory_ok (FS.disk s) (FS.inode_manager s) p pinode blocks ->
  (forall b, b ∈ blocks -> b ∉ held) ->
  DirMgr.read_directory (FS.disk s) (FS.inode_manager s) p = Some entries ->
  Forall entry_wf entries ->
  Z.of_nat (length entries)
  <= entries_per_block * Z.of_nat (length blocks) ->
  DirMgr.find_entry_index entries
    (PathMgr.get_basename (PathUtils.normalize_path path)) = Some i ->
  exists s',
    FileSystem.remove_directory now s path = (true, s')
    /\ DirMgr.read_directory (FS.disk s') (FS.inode_manager s') p
       = Some (delete i entries)
    /\ (forall name',
          PathMgr.find_inode_in_directory (FS.disk s') (FS.inode_manager s')
            p name'
          = lookup_entry (delete i entries) name')
    /\ InodeMgr.is_inode_allocated (FS.inode_manager s') n = false
    /\ (forall j, j <> n ->
          InodeMgr.is_inode_allocated (FS.inode_manager s') j
          = InodeMgr.is_inode_allocated (FS.inode_manager s) j)
    /\ InodeMgr.get_free_inodes (FS.inode_manager s')
       = InodeMgr.get_free_inodes (FS.inode_manager s) + 1
    /\ (forall x, block_taken (FS.inode_manager s') x
                  <-> block_taken (FS.inode_manager s) x /\ x ∉ held)
    /\ free_bits_count (data_bitmap (FS.inode_manager s'))
       = free_bits_count (data_bitmap (FS.inode_manager s))
         + Z.of_nat (length held)
    /\ FS.file_descriptors s' = FS.file_descriptors s
    /\ FS.mounted s' = true.
Proof.
  intros Hm Hnow Hroot Hfind Halloc Hread Hwf Hdirbit Hdbl Hblocks held Hnd
    Htaken Hown Hsmall Hname Hparent Hnp Hdir Hdisj Hrd Hewf Hroom Hidx.
  set (d := FS.disk s) in *. set (m := FS.inode_manager s) in *.
  set (np := PathUtils.normalize_path path) in *.
  pose proof Hdir as (_ & _ & Hpread & _).
  assert (Hn1 : n <> -1)
    by (intros ->; exact (read_inode_not_minus_one _ _ _ Hread)).
  assert (Hp1 : p <> -1)
    by (intros ->; exact (read_inode_not_minus_one _ _ _ Hpread)).
  destruct (unlink_spec now d m n inode l (PathMgr.get_basename np) p pinode
              blocks entries i
              Hnow Halloc Hread Hwf Hdbl Hblocks Hnd Htaken Hname Hnp Hdir
              Hdisj Hrd Hewf Hroom Hidx)
    as (d1 & d2 & m2 & Hrm & Hfree & Hrd2 & Hlook2 & Hia & Hfi & Htk2
        & Hcnt2).
  fold held in Htk2, Hcnt2.
  exists (FS.set_store d2 m2 s). split.
  { unfold FileSystem.remove_directory, FileSystem.ensure_mounted.
    rewrite Hm. cbn [negb]. fold d m np.
    unfold DirMgr.remove_directory.
    rewrite bool_decide_eq_false_2 by exact Hroot.
    cbv zeta. rewrite Hfind.
    destruct (Z.eqb_spec n (-1)); [contradiction|].
    unfold PathMgr.load_directory_inode. rewrite Hread.
    destruct (Z.eqb_spec (Z.land (Inode.mode inode) FILE_TYPE_DIRECTORY) 0);
      [contradiction|].
    rewrite Hown.
    destruct (Z.ltb_spec 2 (Z.of_nat (length own))); [lia|].
    rewrite Hparent.
    destruct (Z.eqb_spec p (-1)); [contradiction|].
    rewrite Hrm, Hfree. reflexivity. }
  cbn [FS.set_store FS.set_inode_manager FS.set_disk FS.disk
       FS.inode_manager FS.file_descriptors FS.next_fd FS.mounted].
  split; [exact Hrd2|]. split; [exact Hlook2|].
  split; [rewrite Hia, Z.eqb_refl; reflexivity|].
  split.
  { intros j Hj. rewrite Hia.
    destruct (Z.eqb_spec j n); [contradiction|]. reflexivity. }
  split; [exact Hfi|]. split; [exact Htk2|]. split; [exact Hcnt2|].
  split; [reflexivity|exact Hm].
Qed.

(** X30. What the two removals refuse, leaving the file system as it
    was: [delete_file] refuses a path that does not resolve and the path
    of a directory; [remove_directory] refuses the root, a path that
    does not resolve, the path of a regular file and a directory of more
    than two entries. *)
Theorem removals_refused (now : Z) (s : FS.t) (path : list ascii) :
  FS.mounted s = true ->
  (PathMgr.find_inode (FS.disk s) (FS.inode_manager s)
     (PathUtils.normalize_path path) = -1 ->
   FileSystem.delete_file now s path = (false, s)
   /\ FileSystem.remove_directory now s path = (false, s))
  /\ (forall inode,
        InodeMgr.read_inode (FS.disk s) (FS.inode_manager s)
          (PathMgr.find_inode (FS.disk s) (FS.inode_manager s)
             (PathUtils.normalize_path path)) = Some inode ->
        (Z.land (Inode.mode inode) FILE_TYPE_DIRECTORY <> 0 ->
         FileSystem.delete_file now s path = (false, s))
        /\ (Z.land (Inode.mode inode) FILE_TYPE_DIRECTORY = 0 ->
            FileSystem.remove_directory now s path = (false, s)))
  /\ (PathUtils.normalize_path path = [PathUtils.slash] ->
      FileSystem.remove_directory now s path = (false, s))
  /\ (forall entries,
        DirMgr.read_directory (FS.disk s) (FS.inode_manager s)
          (PathMgr.find_inode (FS.disk s) (FS.inode_manager s)
             (PathUtils.normalize_path path)) = Some entries ->
        (2 < length entries)%nat ->
        FileSystem.remove_directory now s path = (false, s)).
Proof.
  intros Hm.
  assert (Hs : FS.set_store (FS.disk s) (FS.inode_manager s) s = s)
    by (destruct s; reflexivity).
  unfold FileSystem.delete_file, FileSystem.remove_directory,
    FileSystem.ensure_mounted, DirMgr.remove_directory.
  rewrite Hm. cbn [negb]. cbv zeta.
  set (d := FS.disk s) in *. set (m := FS.inode_manager s) in *.
  set (np := PathUtils.normalize_path path).
  set (n := PathMgr.find_inode d m np).
  split; [|split; [|split]].
  - intros Hn. rewrite Hn. rewrite Z.eqb_refl. split; [reflexivity|].
    destruct (bool_decide (np = [PathUtils.slash])); cbv beta iota;
      rewrite Hs; reflexivity.
  - intros inode Hread. split.
    + intros Hbit. destruct (n =? -1); [reflexivity|]. rewrite Hread.
      destruct (Z.eqb_spec (Z.land (Inode.mode inode) FILE_TYPE_DIRECTORY)
                           0); [contradiction|]. reflexivity.
    + intros Hbit.
      destruct (bool_decide (np = [PathUtils.slash]));
        [cbv beta iota; rewrite Hs; reflexivity|].
      destruct (n =? -1); [cbv beta iota; rewrite Hs; reflexivity|].
      unfold PathMgr.load_directory_inode. rewrite Hread, Hbit.
      rewrite Z.eqb_refl. cbv beta iota. rewrite Hs. reflexivity.
  - intros Hroot. rewrite bool_decide_eq_true_2 by exact Hroot.
    cbv beta iota. rewrite Hs. reflexivity.
  - intros entries Hrd Hlen.
    destruct (bool_decide (np = [PathUtils.slash]));
      [cbv beta iota; rewrite Hs; reflexivity|].
    destruct (n =? -1); [cbv beta iota; rewrite Hs; reflexivity|].
    destruct (PathMgr.load_directory_inode d m n);
      [|cbv beta iota; rewrite Hs; reflexivity].
    rewrite Hrd.
    destruct (Z.ltb_spec 2 (Z.of_nat (length entries))); [|lia].
    cbv beta iota. rewrite Hs. reflexivity.
Qed.

End Deletion.
(* ====================================================================== *)
(** * The properties on the images of 11 blocks *)
(* ====================================================================== *)

Lemma fs_with_file_regions :
  0 < data_blocks_count (layout (FS.inode_manager fs_with_file)).
Proof. vm_compute. reflexivity. Qed.

Lemma allocate_multiple_blocks_all_or_nothing_witness :
  (2 <= free_bits_count (data_bitmap (FS.inode_manager fs_with_file)) ->
   exists bs m',
     InodeMgr.allocate_multiple_blocks 2 (FS.inode_manager fs_with_file)
     = (Some bs, m')
     /\ Z.of_nat (length bs) = 2 /\ NoDup bs
     /\ Forall (fun b => in_data_region (FS.inode_manager fs_with_file) b
                         /\ ~ block_taken (FS.inode_manager fs_with_file) b)
               bs
     /\ (forall x, block_taken m' x
                   <-> block_taken (FS.inode_manager fs_with_file) x
                       \/ x ∈ bs)
     /\ free_bits_count (data_bitmap m')
        = free_bits_count (data_bitmap (FS.inode_manager fs_with_file)) - 2)
  /\ (free_bits_count (data_bitmap (FS.inode_manager fs_with_file)) < 2 ->
      exists m',
        InodeMgr.allocate_multiple_blocks 2 (FS.inode_manager fs_with_file)
        = (None, m')
        /\ (forall x, block_taken m' x
                      <-> block_taken (FS.inode_manager fs_with_file) x)
        /\ free_bits_count (data_bitmap m')
           = free_bits_count (data_bitmap (FS.inode_manager fs_with_file))).
Proof.
  refine (allocate_multiple_blocks_all_or_nothing (FS.disk fs_with_file)
            (FS.inode_manager fs_with_file) 2 _ _).
  - exact (store_pool _ _ fs_with_file_store).
  - lia.
Defined.

Lemma allocate_data_blocks_listed_witness :
  (2 + indirect_blocks_needed 2
   <= free_bits_count (data_bitmap (FS.inode_manager fs_with_file)) ->
   exists bs d' m' inode',
     InodeMgr.allocate_data_blocks 5 (FS.disk fs_with_file)
       (FS.inode_manager fs_with_file) (inode_of fs_with_file path_a) 2
     = (Some bs, d', m')
     /\ InodeMgr.get_data_blocks d' m' (inode_of fs_with_file path_a)
        = Some bs
     /\ Z.of_nat (length bs) = 2 /\ NoDup bs
     /\ Forall (fun b => in_data_region (FS.inode_manager fs_with_file) b
                         /\ block_taken m' b) bs
     /\ InodeMgr.read_inode d' m' (inode_of fs_with_file path_a)
        = Some inode'
     /\ Inode.size inode' = 0)
  /\ (free_bits_count (data_bitmap (FS.inode_manager fs_with_file)) < 2 ->
      exists m',
        InodeMgr.allocate_data_blocks 5 (FS.disk fs_with_file)
          (FS.inode_manager fs_with_file) (inode_of fs_with_file path_a) 2
        = (None, FS.disk fs_with_file, m')
        /\ (forall x, block_taken m' x
                      <-> block_taken (FS.inode_manager fs_with_file) x)
        /\ free_bits_count (data_bitmap m')
           = free_bits_count (data_bitmap (FS.inode_manager fs_with_file))).
Proof.
  refine (allocate_data_blocks_listed 5 (FS.disk fs_with_file)
            (FS.inode_manager fs_with_file) (inode_of fs_with_file path_a)
            created_inode 2 _ _ _ _ _).
  - exact fs_with_file_store.
  - exact fs_with_file_inode.
  - exact created_inode_fresh.
  - unfold time_range. lia.
  - lia.
Defined.

Lemma allocate_inode_effect_witness :
  (0 < InodeMgr.get_free_inodes (FS.inode_manager fs_with_file) ->
   exists n d' m',
     InodeMgr.allocate_inode 9 (FS.disk fs_with_file)
       (FS.inode_manager fs_with_file) = (Some n, d', m')
     /\ InodeMgr.is_inode_allocated (FS.inode_manager fs_with_file) n = false
     /\ InodeMgr.is_inode_allocated m' n = true
     /\ (forall j, j <> n ->
           InodeMgr.is_inode_allocated m' j
           = InodeMgr.is_inode_allocated (FS.inode_manager fs_with_file) j)
     /\ InodeMgr.get_free_inodes m'
        = InodeMgr.get_free_inodes (FS.inode_manager fs_with_file) - 1
     /\ InodeMgr.read_inode d' m' n = Some (InodeMgr.initialize_new_inode 9)
     /\ (forall j, j <> n ->
           InodeMgr.read_inode d' m' j
           = InodeMgr.read_inode (FS.disk fs_with_file)
               (FS.inode_manager fs_with_file) j))
  /\ (InodeMgr.get_free_inodes (FS.inode_manager fs_with_file) = 0 ->
      InodeMgr.allocate_inode 9 (FS.disk fs_with_file)
        (FS.inode_manager fs_with_file)
      = (None, FS.disk fs_with_file, FS.inode_manager fs_with_file)).
Proof.
  refine (allocate_inode_effect 9 (FS.disk fs_with_file)
            (FS.inode_manager fs_with_file) _ _ _).
  - exact fs_with_file_store.
  - exact fs_with_file_regions.
  - unfold time_range. lia.
Defined.

(** ** The file of three bytes *)

Lemma fs_written_store :
  store_ok (FS.disk fs_written) (FS.inode_manager fs_written).
Proof.
  unfold store_ok, disk_ok, bitmap_ok, bitmap_shape, counter_ok.
  split; [split; [vm_compute; reflexivity|];
          split; vm_compute; discriminate|].
  split; [vm_compute; reflexivity|].
  split; [vm_compute; reflexivity|].
  split; [vm_compute; reflexivity|].
  split.
  { split; [|vm_compute; reflexivity].
    split; [vm_compute; discriminate|].
    split; [vm_compute; reflexivity|].
    vm_compute. split; reflexivity. }
  split; [vm_compute; reflexivity|].
  split.
  { split; [|vm_compute; reflexivity].
    split; [vm_compute; discriminate|].
    split; [vm_compute; reflexivity|].
    vm_compute. split; reflexivity. }
  vm_compute. reflexivity.
Qed.

Lemma fs_written_regions :
  0 < data_blocks_count (layout (FS.inode_manager fs_written)).
Proof. vm_compute. reflexivity. Qed.

Lemma written_inode_wf : inode_wf written_inode.
Proof.
  unfold inode_wf, int_range, time_range. cbn.
  repeat split; try reflexivity; try lia.
  repeat constructor; lia.
Qed.

Lemma fs_written_held :
  NoDup ([5] ++ (if Inode.indirect_block written_inode =? -1 then []
                 else [Inode.indirect_block written_inode])).
Proof. cbn. apply NoDup_singleton. Qed.

Lemma fs_written_taken :
  Forall (block_taken (FS.inode_manager fs_written))
    ([5] ++ (if Inode.indirect_block written_inode =? -1 then []
             else [Inode.indirect_block written_inode])).
Proof. cbn. constructor; [vm_compute; reflexivity|constructor]. Qed.

Lemma free_data_blocks_releases_witness :
  let held :=
    [5] ++ (if Inode.indirect_block written_inode =? -1 then []
            else [Inode.indirect_block written_inode]) in
  exists d' m' inode',
    InodeMgr.free_data_blocks (FS.disk fs_written)
      (FS.inode_manager fs_written)
      (FileDescriptor.inode_num written_descriptor) = (true, d', m')
    /\ (forall x, block_taken m' x
                  <-> block_taken (FS.inode_manager fs_written) x
                      /\ x ∉ held)
    /\ free_bits_count (data_bitmap m')
       = free_bits_count (data_bitmap (FS.inode_manager fs_written))
         + Z.of_nat (length held)
    /\ InodeMgr.get_data_blocks d' m'
         (FileDescriptor.inode_num written_descriptor) = Some []
    /\ InodeMgr.read_inode d' m'
         (FileDescriptor.inode_num written_descriptor) = Some inode'
    /\ Inode.size inode' = 0 /\ Inode.indirect_block inode' = -1
    /\ Inode.mode inode' = Inode.mode written_inode
    /\ (forall j, j <> FileDescriptor.inode_num written_descriptor ->
          InodeMgr.read_inode d' m' j
          = InodeMgr.read_inode (FS.disk fs_written)
              (FS.inode_manager fs_written) j).
Proof.
  refine (free_data_blocks_releases (FS.disk fs_written)
            (FS.inode_manager fs_written)
            (FileDescriptor.inode_num written_descriptor) written_inode [5]
            _ _ _ _ _ _ _ _).
  - exact fs_written_store.
  - exact fs_written_regions.
  - exact fs_written_inode.
  - exact written_inode_wf.
  - reflexivity.
  - exact fs_written_blocks.
  - exact fs_written_held.
  - exact fs_written_taken.
Defined.

Lemma fs_written_range :
  Forall (fun b => 0 <= b < total_blocks (FS.disk fs_written)) [5].
Proof.
  constructor; [|constructor].
  vm_compute. split; [discriminate|reflexivity].
Qed.

Lemma length_written_image : Z.of_nat (length written_image) = 4096.
Proof. vm_compute. reflexivity. Qed.

Lemma write_then_read_at_offset_witness :
  exists d',
    FileOperationsUtils.write_data_to_blocks (FS.disk fs_written) [5] 1
      [88; 89] (Z.of_nat (length [88; 89]))
    = (true, d')
    /\ file_image d' [5] = Some (splice written_image 1 [88; 89])
    /\ FileOperationsUtils.read_data_from_blocks d' [5] 1
         (Z.of_nat (length [88; 89]))
       = Some [88; 89]
    /\ (forall off n,
          0 <= off -> 0 <= n -> off + n <= Z.of_nat (length written_image) ->
          off + n <= 1 \/ 1 + Z.of_nat (length [88; 89]) <= off ->
          FileOperationsUtils.read_data_from_blocks d' [5] off n
          = FileOperationsUtils.read_data_from_blocks (FS.disk fs_written)
              [5] off n)
    /\ (forall k, k ∉ [5] ->
          Disk.read_block d' k = Disk.read_block (FS.disk fs_written) k).
Proof.
  refine (write_then_read_at_offset (FS.disk fs_written) [5] written_image 1
            [88; 89] _ _ _ _ _ _ _ _).
  - exact (proj1 fs_written_store).
  - apply NoDup_singleton.
  - exact fs_written_range.
  - exact fs_written_image.
  - rewrite length_written_image. lia.
  - lia.
  - discriminate.
  - rewrite length_written_image. cbn. lia.
Defined.

Lemma fs_written_tree :
  tree_ok (FS.disk fs_written) (FS.inode_manager fs_written)
    (FS.inode_manager fs_written) written_inode [5].
Proof.
  unfold tree_ok. split.
  { constructor; [|constructor]. unfold entry_ok, int_range. lia. }
  split; [auto|]. split; [reflexivity|]. split; [reflexivity|].
  exists []. split; reflexivity.
Qed.

Lemma fs_written_region :
  Forall (fun b => in_data_region (FS.inode_manager fs_written) b
                   /\ block_taken (FS.inode_manager fs_written) b) [5].
Proof.
  constructor; [|constructor]. split.
  - vm_compute. split; [discriminate|reflexivity].
  - vm_compute. reflexivity.
Qed.

Lemma written_descriptor_writes :
  Z.land (FileDescriptor.mode written_descriptor) OPEN_MODE_WRITE <> 0.
Proof. vm_compute. discriminate. Qed.

Lemma write_file_in_place_witness :
  exists s' inode',
    FileMgr.write_file 6 fs_written 3 [88; 89] (Z.of_nat (length [88; 89]))
    = (Done (Z.of_nat (length [88; 89])), s')
    /\ FS.file_descriptors s' !! 3
       = Some (FileDescriptor.set_position
                 (FileDescriptor.position written_descriptor
                  + Z.of_nat (length [88; 89])) written_descriptor)
    /\ (forall fd', fd' <> 3 ->
          FS.file_descriptors s' !! fd'
          = FS.file_descriptors fs_written !! fd')
    /\ InodeMgr.read_inode (FS.disk s') (FS.inode_manager s')
         (FileDescriptor.inode_num written_descriptor) = Some inode'
    /\ Inode.size inode' = Inode.size written_inode
    /\ Inode.modification_time inode' = 6
    /\ InodeMgr.get_data_blocks (FS.disk s') (FS.inode_manager s')
         (FileDescriptor.inode_num written_descriptor) = Some [5]
    /\ file_image (FS.disk s') [5]
       = Some (splice written_image
                 (FileDescriptor.position written_descriptor) [88; 89])
    /\ (Z.land (FileDescriptor.mode written_descriptor) OPEN_MODE_READ <> 0 ->
        forall now',
          (FileMgr.read_file now'
             (FileMgr.seek_file s' 3
                (FileDescriptor.position written_descriptor)).2 3
             (Z.of_nat (length [88; 89]))).1
          = Done (Z.of_nat (length [88; 89]), [88; 89])).
Proof.
  refine (write_file_in_place 6 fs_written 3 written_descriptor
            written_inode (FS.inode_manager fs_written) [5] written_image
            [88; 89] _ _ _ _ _ _ _ _ _ _ _ _ _ _ _ _).
  - exact fs_written_store.
  - exact fs_written_descriptor.
  - reflexivity.
  - exact written_descriptor_writes.
  - exact fs_written_inode.
  - exact written_inode_wf.
  - exact fs_written_tree.
  - apply NoDup_singleton.
  - exact fs_written_region.
  - exact fs_written_image.
  - rewrite length_written_image. vm_compute. reflexivity.
  - unfold time_range. lia.
  - discriminate.
  - cbn. lia.
  - cbn. lia.
  - rewrite length_written_image. cbn. lia.
Defined.

(** ** A bitmap of eight bits on the blank disk *)

Lemma one_bit_taken_ok : bitmap_ok (Bitmap.allocate_bit (Bitmap.create 8)).2.
Proof.
  unfold bitmap_ok, bitmap_shape, counter_ok.
  split; [|vm_compute; reflexivity].
  split; [vm_compute; discriminate|].
  split; [vm_compute; reflexivity|].
  vm_compute. split; reflexivity.
Qed.

Lemma bitmap_save_load_round_trip_witness :
  exists d' b1 b2,
    Bitmap.save_to_disk (blank_disk 2) 1 1
      (Bitmap.allocate_bit (Bitmap.create 8)).2 = (true, d', b1)
    /\ Bitmap.load_from_disk d' 1 1 (Bitmap.create 8) = (true, b2)
    /\ bitmap_data b2
       = bitmap_data (Bitmap.allocate_bit (Bitmap.create 8)).2
    /\ total_bits b2 = total_bits (Bitmap.allocate_bit (Bitmap.create 8)).2
    /\ free_bits_count b2
       = free_bits_count (Bitmap.allocate_bit (Bitmap.create 8)).2
    /\ (forall j,
          Bitmap.is_allocated b2 j
          = Bitmap.is_allocated (Bitmap.allocate_bit (Bitmap.create 8)).2 j)
    /\ (forall k, ~ (1 <= k < 1 + 1) ->
                  Disk.read_block d' k = Disk.read_block (blank_disk 2) k).
Proof.
  refine (bitmap_save_load_round_trip (blank_disk 2) 1 1
            (Bitmap.allocate_bit (Bitmap.create 8)).2 (Bitmap.create 8)
            _ _ _ _ _ _ _ _ _).
  - exact blank_disk_ok.
  - exact one_bit_taken_ok.
  - exact (proj1 (bitmap_ok_create 8 ltac:(lia))).
  - vm_compute. reflexivity.
  - vm_compute. reflexivity.
  - lia.
  - lia.
  - vm_compute. discriminate.
  - vm_compute. discriminate.
Defined.

(** ** The root directory that holds one file *)

Lemma fs_with_file_root :
  InodeMgr.read_inode (FS.disk fs_with_file) (FS.inode_manager fs_with_file)
    0 = Some root_inode_with_file.
Proof. vm_compute. reflexivity. Qed.

Lemma fs_with_file_entries :
  DirMgr.read_directory (FS.disk fs_with_file)
    (FS.inode_manager fs_with_file) 0 = Some root_entries_with_file.
Proof. vm_compute. reflexivity. Qed.

Lemma fs_with_file_directory :
  directory_ok (FS.disk fs_with_file) (FS.inode_manager fs_with_file) 0
    root_inode_with_file [4].
Proof.
  unfold directory_ok.
  split; [exact fs_with_file_store|].
  split; [vm_compute; discriminate|].
  split; [exact fs_with_file_root|].
  split.
  { unfold inode_wf, int_range, time_range. cbn.
    repeat split; try reflexivity; try lia.
    repeat constructor; lia. }
  split; [vm_compute; discriminate|].
  split; [reflexivity|]. split; [reflexivity|].
  split; [vm_compute; reflexivity|].
  split; [apply NoDup_singleton|].
  constructor; [|constructor].
  vm_compute. split; [discriminate|reflexivity].
Qed.

Lemma name_ok_letter (c : ascii) : c <> NUL -> name_ok [c].
Proof.
  intros H. unfold name_ok. split; [discriminate|]. split.
  - intros Hin. apply list_elem_of_singleton in Hin. congruence.
  - unfold MAX_FILENAME_LENGTH. cbn. lia.
Qed.

Lemma name_ok_dots : name_ok ["."; "."]%char.
Proof.
  unfold name_ok. split; [discriminate|]. split.
  - intros Hin. apply elem_of_cons in Hin as [Hin|Hin]; [discriminate|].
    apply list_elem_of_singleton in Hin. discriminate.
  - unfold MAX_FILENAME_LENGTH. cbn. lia.
Qed.

Lemma root_entries_wf : Forall entry_wf root_entries_with_file.
Proof.
  assert (H0 : int_range 0) by (unfold int_range; lia).
  assert (H1 : int_range 1) by (unfold int_range; lia).
  unfold root_entries_with_file.
  constructor; [apply make_entry_listed;
                [apply name_ok_letter; discriminate|exact H0]|].
  constructor; [apply make_entry_listed; [exact name_ok_dots|exact H0]|].
  constructor; [apply make_entry_listed;
                [apply name_ok_letter; discriminate|exact H1]|].
  constructor.
Qed.

Lemma root_entries_room :
  Z.of_nat (length root_entries_with_file)
  <= entries_per_block * Z.of_nat (length [4]).
Proof. vm_compute. discriminate. Qed.

Lemma root_entries_room_for_one :
  Z.of_nat (length root_entries_with_file) + 1
  <= entries_per_block * Z.of_nat (length [4]).
Proof. vm_compute. discriminate. Qed.

Lemma lookup_agrees_with_listing_witness :
  PathMgr.find_inode_in_directory (FS.disk fs_with_file)
    (FS.inode_manager fs_with_file) 0 ["a"%char]
  = lookup_entry root_entries_with_file ["a"%char]
  /\ (Forall (fun e => strcmp_eq (DirectoryEntry.name e) ["a"%char] = false)
             root_entries_with_file ->
      PathMgr.find_inode_in_directory (FS.disk fs_with_file)
        (FS.inode_manager fs_with_file) 0 ["a"%char] = -1)
  /\ Forall (fun e => 0 < DirectoryEntry.name_length e)
            root_entries_with_file.
Proof.
  refine (lookup_agrees_with_listing (FS.disk fs_with_file)
            (FS.inode_manager fs_with_file) 0 root_inode_with_file
            root_entries_with_file ["a"%char] _ _ _).
  - exact fs_with_file_root.
  - discriminate.
  - exact fs_with_file_entries.
Defined.

Lemma write_directory_read_back_witness :
  exists d' inode',
    DirMgr.write_directory 7 (FS.disk fs_with_file)
      (FS.inode_manager fs_with_file) 0 [DirMgr.make_entry ["b"%char] 1]
    = (true, d', FS.inode_manager fs_with_file)
    /\ DirMgr.read_directory d' (FS.inode_manager fs_with_file) 0
       = Some [DirMgr.make_entry ["b"%char] 1]
    /\ InodeMgr.read_inode d' (FS.inode_manager fs_with_file) 0
       = Some inode'
    /\ Inode.size inode'
       = Z.of_nat (length [DirMgr.make_entry ["b"%char] 1])
         * sizeof_DirectoryEntry
    /\ Inode.modification_time inode' = 7
    /\ (forall name,
          PathMgr.find_inode_in_directory d' (FS.inode_manager fs_with_file)
            0 name
          = lookup_entry [DirMgr.make_entry ["b"%char] 1] name)
    /\ (forall j, j <> 0 ->
          InodeMgr.read_inode d' (FS.inode_manager fs_with_file) j
          = InodeMgr.read_inode (FS.disk fs_with_file)
              (FS.inode_manager fs_with_file) j).
Proof.
  refine (write_directory_read_back 7 (FS.disk fs_with_file)
            (FS.inode_manager fs_with_file) 0 root_inode_with_file [4]
            [DirMgr.make_entry ["b"%char] 1] _ _ _ _).
  - exact fs_with_file_directory.
  - unfold time_range. lia.
  - constructor; [|constructor]. apply make_entry_listed.
    + apply name_ok_letter. discriminate.
    + unfold int_range. lia.
  - vm_compute. discriminate.
Defined.

Lemma add_directory_entry_found_witness :
  (DirMgr.find_entry_index root_entries_with_file ["b"%char] <> None ->
   DirMgr.add_directory_entry 7 (FS.disk fs_with_file)
     (FS.inode_manager fs_with_file) 0 ["b"%char] 1
   = (false, FS.disk fs_with_file, FS.inode_manager fs_with_file))
  /\ (DirMgr.find_entry_index root_entries_with_file ["b"%char] = None ->
      Z.of_nat (length root_entries_with_file) + 1
      <= entries_per_block * Z.of_nat (length [4]) ->
      exists d',
        DirMgr.add_directory_entry 7 (FS.disk fs_with_file)
          (FS.inode_manager fs_with_file) 0 ["b"%char] 1
        = (true, d', FS.inode_manager fs_with_file)
        /\ DirMgr.read_directory d' (FS.inode_manager fs_with_file) 0
           = Some (root_entries_with_file
                   ++ [DirMgr.make_entry ["b"%char] 1])
        /\ PathMgr.find_inode_in_directory d'
             (FS.inode_manager fs_with_file) 0 ["b"%char] = 1
        /\ (forall name',
              name_ok name' -> name' <> ["b"%char] ->
              PathMgr.find_inode_in_directory d'
                (FS.inode_manager fs_with_file) 0 name'
              = lookup_entry root_entries_with_file name')
        /\ (forall j, j <> 0 ->
              InodeMgr.read_inode d' (FS.inode_manager fs_with_file) j
              = InodeMgr.read_inode (FS.disk fs_with_file)
                  (FS.inode_manager fs_with_file) j)).
Proof.
  refine (add_directory_entry_found 7 (FS.disk fs_with_file)
            (FS.inode_manager fs_with_file) 0 root_inode_with_file [4]
            root_entries_with_file ["b"%char] 1 _ _ _ _ _ _).
  - exact fs_with_file_directory.
  - unfold time_range. lia.
  - exact fs_with_file_entries.
  - exact root_entries_wf.
  - apply name_ok_letter. discriminate.
  - unfold int_range. lia.
Defined.

Lemma remove_directory_entry_gone_witness :
  (DirMgr.find_entry_index root_entries_with_file ["a"%char] = None ->
   DirMgr.remove_directory_entry 7 (FS.disk fs_with_file)
     (FS.inode_manager fs_with_file) 0 ["a"%char]
   = (false, FS.disk fs_with_file, FS.inode_manager fs_with_file))
  /\ (forall i,
        DirMgr.find_entry_index root_entries_with_file ["a"%char] = Some i ->
        exists d' e,
          DirMgr.remove_directory_entry 7 (FS.disk fs_with_file)
            (FS.inode_manager fs_with_file) 0 ["a"%char]
          = (true, d', FS.inode_manager fs_with_file)
          /\ root_entries_with_file !! i = Some e
          /\ strcmp_eq (DirectoryEntry.name e) ["a"%char] = true
          /\ DirMgr.read_directory d' (FS.inode_manager fs_with_file) 0
             = Some (delete i root_entries_with_file)
          /\ (forall name',
                name_ok name' -> name' <> ["a"%char] ->
                PathMgr.find_inode_in_directory d'
                  (FS.inode_manager fs_with_file) 0 name'
                = lookup_entry root_entries_with_file name')
          /\ (Forall (fun e => strcmp_eq (DirectoryEntry.name e) ["a"%char]
                               = false) (delete i root_entries_with_file) ->
              PathMgr.find_inode_in_directory d'
                (FS.inode_manager fs_with_file) 0 ["a"%char] = -1)
          /\ (forall j, j <> 0 ->
                InodeMgr.read_inode d' (FS.inode_manager fs_with_file) j
                = InodeMgr.read_inode (FS.disk fs_with_file)
                    (FS.inode_manager fs_with_file) j)).
Proof.
  refine (remove_directory_entry_gone 7 (FS.disk fs_with_file)
            (FS.inode_manager fs_with_file) 0 root_inode_with_file [4]
            root_entries_with_file ["a"%char] _ _ _ _ _ _).
  - exact fs_with_file_directory.
  - unfold time_range. lia.
  - exact fs_with_file_entries.
  - exact root_entries_wf.
  - exact root_entries_room.
  - apply name_ok_letter. discriminate.
Defined.

(** ** Releasing and deleting the file of three bytes *)

Lemma fs_written_allocated :
  InodeMgr.is_inode_allocated (FS.inode_manager fs_written)
    (FileDescriptor.inode_num written_descriptor) = true.
Proof. vm_compute. reflexivity. Qed.

Lemma free_inode_effect_witness :
  let held :=
    [5] ++ (if Inode.indirect_block written_inode =? -1 then []
            else [Inode.indirect_block written_inode]) in
  (InodeMgr.is_inode_allocated (FS.inode_manager fs_written)
     (FileDescriptor.inode_num written_descriptor) = false ->
   InodeMgr.free_inode (FS.disk fs_written) (FS.inode_manager fs_written)
     (FileDescriptor.inode_num written_descriptor)
   = (false, FS.disk fs_written, FS.inode_manager fs_written))
  /\ (InodeMgr.is_inode_allocated (FS.inode_manager fs_written)
        (FileDescriptor.inode_num written_descriptor) = true ->
      exists d' m',
        InodeMgr.free_inode (FS.disk fs_written)
          (FS.inode_manager fs_written)
          (FileDescriptor.inode_num written_descriptor) = (true, d', m')
        /\ InodeMgr.is_inode_allocated m'
             (FileDescriptor.inode_num written_descriptor) = false
        /\ (forall j, j <> FileDescriptor.inode_num written_descriptor ->
              InodeMgr.is_inode_allocated m' j
              = InodeMgr.is_inode_allocated (FS.inode_manager fs_written) j)
        /\ InodeMgr.get_free_inodes m'
           = InodeMgr.get_free_inodes (FS.inode_manager fs_written) + 1
        /\ (forall x, block_taken m' x
                      <-> block_taken (FS.inode_manager fs_written) x
                          /\ x ∉ held)
        /\ free_bits_count (data_bitmap m')
           = free_bits_count (data_bitmap (FS.inode_manager fs_written))
             + Z.of_nat (length held)
        /\ (forall j, j <> FileDescriptor.inode_num written_descriptor ->
              InodeMgr.read_inode d' m' j
              = InodeMgr.read_inode (FS.disk fs_written)
                  (FS.inode_manager fs_written) j)
        /\ store_ok d' m').
Proof.
  refine (free_inode_effect (FS.disk fs_written)
            (FS.inode_manager fs_written)
            (FileDescriptor.inode_num written_descriptor) written_inode [5]
            _ _ _ _ _ _ _ _).
  - exact fs_written_store.
  - exact fs_written_regions.
  - exact fs_written_inode.
  - exact written_inode_wf.
  - reflexivity.
  - exact fs_written_blocks.
  - exact fs_written_held.
  - exact fs_written_taken.
Defined.

Lemma fs_written_mounted : FS.mounted fs_written = true.
Proof. vm_compute. reflexivity. Qed.

Lemma fs_written_path :
  PathMgr.find_inode (FS.disk fs_written) (FS.inode_manager fs_written)
    (PathUtils.normalize_path path_a)
  = FileDescriptor.inode_num written_descriptor.
Proof. vm_compute. reflexivity. Qed.

Lemma written_inode_regular :
  Z.land (Inode.mode written_inode) FILE_TYPE_DIRECTORY = 0.
Proof. vm_compute. reflexivity. Qed.

Lemma path_a_parts :
  PathUtils.extract_filename_and_directory (PathUtils.normalize_path path_a)
  = Some (["a"%char], ["/"%char]).
Proof. vm_compute. reflexivity. Qed.

Lemma fs_written_parent :
  PathMgr.find_inode (FS.disk fs_written) (FS.inode_manager fs_written)
    ["/"%char] = 0.
Proof. vm_compute. reflexivity. Qed.

Lemma fs_written_root :
  InodeMgr.read_inode (FS.disk fs_written) (FS.inode_manager fs_written) 0
  = Some root_inode_with_file.
Proof. vm_compute. reflexivity. Qed.

Lemma fs_written_entries :
  DirMgr.read_directory (FS.disk fs_written) (FS.inode_manager fs_written) 0
  = Some root_entries_with_file.
Proof. vm_compute. reflexivity. Qed.

Lemma fs_written_directory :
  directory_ok (FS.disk fs_written) (FS.inode_manager fs_written) 0
    root_inode_with_file [4].
Proof.
  unfold directory_ok.
  split; [exact fs_written_store|].
  split; [vm_compute; discriminate|].
  split; [exact fs_written_root|].
  split.
  { unfold inode_wf, int_range, time_range. cbn.
    repeat split; try reflexivity; try lia.
    repeat constructor; lia. }
  split; [vm_compute; discriminate|].
  split; [reflexivity|]. split; [reflexivity|].
  split; [vm_compute; reflexivity|].
  split; [apply NoDup_singleton|].
  constructor; [|constructor].
  vm_compute. split; [discriminate|reflexivity].
Qed.

Lemma fs_written_apart :
  forall b, b ∈ [4] ->
    b ∉ [5] ++ (if Inode.indirect_block written_inode =? -1 then []
                else [Inode.indirect_block written_inode]).
Proof.
  intros b Hb. apply list_elem_of_singleton in Hb. subst b. cbn.
  intros H. apply list_elem_of_singleton in H. discriminate.
Qed.

Lemma root_entries_index :
  DirMgr.find_entry_index root_entries_with_file ["a"%char] = Some 2%nat.
Proof. vm_compute. reflexivity. Qed.

Lemma delete_file_removes_witness :
  let held :=
    [5] ++ (if Inode.indirect_block written_inode =? -1 then []
            else [Inode.indirect_block written_inode]) in
  exists s',
    FileSystem.delete_file 8 fs_written path_a = (true, s')
    /\ DirMgr.read_directory (FS.disk s') (FS.inode_manager s') 0
       = Some (delete 2%nat root_entries_with_file)
    /\ (forall name',
          PathMgr.find_inode_in_directory (FS.disk s') (FS.inode_manager s')
            0 name'
          = lookup_entry (delete 2%nat root_entries_with_file) name')
    /\ (Forall (fun e => strcmp_eq (DirectoryEntry.name e) ["a"%char]
                         = false)
               (delete 2%nat root_entries_with_file) ->
        PathMgr.find_inode_in_directory (FS.disk s') (FS.inode_manager s')
          0 ["a"%char] = -1)
    /\ InodeMgr.is_inode_allocated (FS.inode_manager s')
         (FileDescriptor.inode_num written_descriptor) = false
    /\ (forall j, j <> FileDescriptor.inode_num written_descriptor ->
          InodeMgr.is_inode_allocated (FS.inode_manager s') j
          = InodeMgr.is_inode_allocated (FS.inode_manager fs_written) j)
    /\ InodeMgr.get_free_inodes (FS.inode_manager s')
       = InodeMgr.get_free_inodes (FS.inode_manager fs_written) + 1
    /\ (forall x, block_taken (FS.inode_manager s') x
                  <-> block_taken (FS.inode_manager fs_written) x
                      /\ x ∉ held)
    /\ free_bits_count (data_bitmap (FS.inode_manager s'))
       = free_bits_count (data_bitmap (FS.inode_manager fs_written))
         + Z.of_nat (length held)
    /\ FS.file_descriptors s' = FS.file_descriptors fs_written
    /\ FS.next_fd s' = FS.next_fd fs_written
    /\ FS.mounted s' = true.
Proof.
  refine (delete_file_removes 8 fs_written path_a
            (FileDescriptor.inode_num written_descriptor) written_inode [5]
            ["a"%char] ["/"%char] 0 root_inode_with_file [4]
            root_entries_with_file 2%nat
            _ _ _ _ _ _ _ _ _ _ _ _ _ _ _ _ _ _ _ _).
  - exact fs_written_mounted.
  - unfold time_range. lia.
  - exact fs_written_path.
  - exact fs_written_allocated.
  - exact fs_written_inode.
  - exact written_inode_wf.
  - exact written_inode_regular.
  - reflexivity.
  - exact fs_written_blocks.
  - exact fs_written_held.
  - exact fs_written_taken.
  - exact path_a_parts.
  - apply name_ok_letter. discriminate.
  - exact fs_written_parent.
  - exact fs_written_directory.
  - exact fs_written_apart.
  - exact fs_written_entries.
  - exact root_entries_wf.
  - exact root_entries_room.
  - exact root_entries_index.
Defined.

(** ** Removing the subdirectory *)

Lemma fs_with_directory_store :
  store_ok (FS.disk fs_with_directory) (FS.inode_manager fs_with_directory).
Proof.
  unfold store_ok, disk_ok, bitmap_ok, bitmap_shape, counter_ok.
  split; [split; [vm_compute; reflexivity|];
          split; vm_compute; discriminate|].
  split; [vm_compute; reflexivity|].
  split; [vm_compute; reflexivity|].
  split; [vm_compute; reflexivity|].
  split.
  { split; [|vm_compute; reflexivity].
    split; [vm_compute; discriminate|].
    split; [vm_compute; reflexivity|].
    vm_compute. split; reflexivity. }
  split; [vm_compute; reflexivity|].
  split.
  { split; [|vm_compute; reflexivity].
    split; [vm_compute; discriminate|].
    split; [vm_compute; reflexivity|].
    vm_compute. split; reflexivity. }
  vm_compute. reflexivity.
Qed.

Lemma fs_with_directory_mounted : FS.mounted fs_with_directory = true.
Proof. vm_compute. reflexivity. Qed.

Lemma path_d_not_root :
  PathUtils.normalize_path path_d <> [PathUtils.slash].
Proof. vm_compute. discriminate. Qed.

Lemma fs_with_directory_path :
  PathMgr.find_inode (FS.disk fs_with_directory)
    (FS.inode_manager fs_with_directory) (PathUtils.normalize_path path_d)
  = 2.
Proof. vm_compute. reflexivity. Qed.

Lemma fs_with_directory_allocated :
  InodeMgr.is_inode_allocated (FS.inode_manager fs_with_directory) 2 = true.
Proof. vm_compute. reflexivity. Qed.

Lemma fs_with_directory_inode :
  InodeMgr.read_inode (FS.disk fs_with_directory)
    (FS.inode_manager fs_with_directory) 2 = Some directory_inode.
Proof. vm_compute. reflexivity. Qed.

Lemma directory_inode_wf : inode_wf directory_inode.
Proof.
  unfold inode_wf, int_range, time_range. cbn.
  repeat split; try reflexivity; try lia.
  repeat constructor; lia.
Qed.

Lemma directory_inode_mode :
  Z.land (Inode.mode directory_inode) FILE_TYPE_DIRECTORY <> 0.
Proof. vm_compute. discriminate. Qed.

Lemma fs_with_directory_blocks :
  InodeMgr.get_data_blocks (FS.disk fs_with_directory)
    (FS.inode_manager fs_with_directory) 2 = Some [5].
Proof. vm_compute. reflexivity. Qed.

Lemma fs_with_directory_held :
  NoDup ([5] ++ (if Inode.indirect_block directory_inode =? -1 then []
                 else [Inode.indirect_block directory_inode])).
Proof. cbn. apply NoDup_singleton. Qed.

Lemma fs_with_directory_taken :
  Forall (block_taken (FS.inode_manager fs_with_directory))
    ([5] ++ (if Inode.indirect_block directory_inode =? -1 then []
             else [Inode.indirect_block directory_inode])).
Proof. cbn. constructor; [vm_compute; reflexivity|constructor]. Qed.

Lemma fs_with_directory_own :
  DirMgr.read_directory (FS.disk fs_with_directory)
    (FS.inode_manager fs_with_directory) 2
  = Some (DirMgr.initial_entries 2 0).
Proof. vm_compute. reflexivity. Qed.

Lemma path_d_basename :
  PathMgr.get_basename (PathUtils.normalize_path path_d) = ["d"%char].
Proof. vm_compute. reflexivity. Qed.

Lemma path_d_name_ok :
  name_ok (PathMgr.get_basename (PathUtils.normalize_path path_d)).
Proof. rewrite path_d_basename. apply name_ok_letter. discriminate. Qed.

Lemma fs_with_directory_parent :
  PathMgr.find_inode (FS.disk fs_with_directory)
    (FS.inode_manager fs_with_directory)
    (PathMgr.get_parent_path (PathUtils.normalize_path path_d)) = 0.
Proof. vm_compute. reflexivity. Qed.

Lemma fs_with_directory_root :
  InodeMgr.read_inode (FS.disk fs_with_directory)
    (FS.inode_manager fs_with_directory) 0 = Some root_inode_with_directory.
Proof. vm_compute. reflexivity. Qed.

Lemma fs_with_directory_directory :
  directory_ok (FS.disk fs_with_directory)
    (FS.inode_manager fs_with_directory) 0 root_inode_with_directory [4].
Proof.
  unfold directory_ok.
  split; [exact fs_with_directory_store|].
  split; [vm_compute; discriminate|].
  split; [exact fs_with_directory_root|].
  split.
  { unfold inode_wf, int_range, time_range. cbn.
    repeat split; try reflexivity; try lia.
    repeat constructor; lia. }
  split; [vm_compute; discriminate|].
  split; [reflexivity|]. split; [reflexivity|].
  split; [vm_compute; reflexivity|].
  split; [apply NoDup_singleton|].
  constructor; [|constructor].
  vm_compute. split; [discriminate|reflexivity].
Qed.

Lemma fs_with_directory_apart :
  forall b, b ∈ [4] ->
    b ∉ [5] ++ (if Inode.indirect_block directory_inode =? -1 then []
                else [Inode.indirect_block directory_inode]).
Proof.
  intros b Hb. apply list_elem_of_singleton in Hb. subst b. cbn.
  intros H. apply list_elem_of_singleton in H. discriminate.
Qed.

Lemma fs_with_directory_entries :
  DirMgr.read_directory (FS.disk fs_with_directory)
    (FS.inode_manager fs_with_directory) 0
  = Some root_entries_with_directory.
Proof. vm_compute. reflexivity. Qed.

Lemma root_entries_with_directory_wf :
  Forall entry_wf root_entries_with_directory.
Proof.
  unfold root_entries_with_directory. apply Forall_app.
  split; [exact root_entries_wf|].
  constructor; [|constructor]. apply make_entry_listed.
  - apply name_ok_letter. discriminate.
  - unfold int_range. lia.
Qed.

Lemma root_entries_with_directory_room :
  Z.of_nat (length root_entries_with_directory)
  <= entries_per_block * Z.of_nat (length [4]).
Proof. vm_compute. discriminate. Qed.

Lemma root_entries_with_directory_index :
  DirMgr.find_entry_index root_entries_with_directory
    (PathMgr.get_basename (PathUtils.normalize_path path_d)) = Some 3%nat.
Proof. vm_compute. reflexivity. Qed.

Lemma remove_directory_removes_witness :
  let held :=
    [5] ++ (if Inode.indirect_block directory_inode =? -1 then []
            else [Inode.indirect_block directory_inode]) in
  exists s',
    FileSystem.remove_directory 8 fs_with_directory path_d = (true, s')
    /\ DirMgr.read_directory (FS.disk s') (FS.inode_manager s') 0
       = Some (delete 3%nat root_entries_with_directory)
    /\ (forall name',
          PathMgr.find_inode_in_directory (FS.disk s') (FS.inode_manager s')
            0 name'
          = lookup_entry (delete 3%nat root_entries_with_directory) name')
    /\ InodeMgr.is_inode_allocated (FS.inode_manager s') 2 = false
    /\ (forall j, j <> 2 ->
          InodeMgr.is_inode_allocated (FS.inode_manager s') j
          = InodeMgr.is_inode_allocated
              (FS.inode_manager fs_with_directory) j)
    /\ InodeMgr.get_free_inodes (FS.inode_manager s')
       = InodeMgr.get_free_inodes (FS.inode_manager fs_with_directory) + 1
    /\ (forall x, block_taken (FS.inode_manager s') x
                  <-> block_taken (FS.inode_manager fs_with_directory) x
                      /\ x ∉ held)
    /\ free_bits_count (data_bitmap (FS.inode_manager s'))
       = free_bits_count
           (data_bitmap (FS.inode_manager fs_with_directory))
         + Z.of_nat (length held)
    /\ FS.file_descriptors s' = FS.file_descriptors fs_with_directory
    /\ FS.mounted s' = true.
Proof.
  refine (remove_directory_removes 8 fs_with_directory path_d 2
            directory_inode [5] (DirMgr.initial_entries 2 0) 0
            root_inode_with_directory [4] root_entries_with_directory 3%nat
            _ _ _ _ _ _ _ _ _ _ _ _ _ _ _ _ _ _ _ _ _ _ _).
  - exact fs_with_directory_mounted.
  - unfold time_range. lia.
  - exact path_d_not_root.
  - exact fs_with_directory_path.
  - exact fs_with_directory_allocated.
  - exact fs_with_directory_inode.
  - exact directory_inode_wf.
  - exact directory_inode_mode.
  - reflexivity.
  - exact fs_with_directory_blocks.
  - exact fs_with_directory_held.
  - exact fs_with_directory_taken.
  - exact fs_with_directory_own.
  - cbn. lia.
  - exact path_d_name_ok.
  - exact fs_with_directory_parent.
  - lia.
  - exact fs_with_directory_directory.
  - exact fs_with_directory_apart.
  - exact fs_with_directory_entries.
  - exact root_entries_with_directory_wf.
  - exact root_entries_with_directory_room.
  - exact root_entries_with_directory_index.
Defined.

Lemma fs_with_file_mounted : FS.mounted fs_with_file = true.
Proof. vm_compute. reflexivity. Qed.

Lemma removals_refused_witness :
  (PathMgr.find_inode (FS.disk fs_with_file)
     (FS.inode_manager fs_with_file)
     (PathUtils.normalize_path path_a) = -1 ->
   FileSystem.delete_file 8 fs_with_file path_a
   = (false, fs_with_file)
   /\ FileSystem.remove_directory 8 fs_with_file path_a
      = (false, fs_with_file))
  /\ (forall inode,
        InodeMgr.read_inode (FS.disk fs_with_file)
          (FS.inode_manager fs_with_file)
          (PathMgr.find_inode (FS.disk fs_with_file)
             (FS.inode_manager fs_with_file)
             (PathUtils.normalize_path path_a)) = Some inode ->
        (Z.land (Inode.mode inode) FILE_TYPE_DIRECTORY <> 0 ->
         FileSystem.delete_file 8 fs_with_file path_a
         = (false, fs_with_file))
        /\ (Z.land (Inode.mode inode) FILE_TYPE_DIRECTORY = 0 ->
            FileSystem.remove_directory 8 fs_with_file path_a
            = (false, fs_with_file)))
  /\ (PathUtils.normalize_path path_a = [PathUtils.slash] ->
      FileSystem.remove_directory 8 fs_with_file path_a
      = (false, fs_with_file))
  /\ (forall entries,
        DirMgr.read_directory (FS.disk fs_with_file)
          (FS.inode_manager fs_with_file)
          (PathMgr.find_inode (FS.disk fs_with_file)
             (FS.inode_manager fs_with_file)
             (PathUtils.normalize_path path_a)) = Some entries ->
        (2 < length entries)%nat ->
        FileSystem.remove_directory 8 fs_with_file path_a
        = (false, fs_with_file)).
Proof.
  exact (removals_refused 8 fs_with_file path_a
           fs_with_file_mounted).
Defined.
(* ====================================================================== *)
(** * The round trip from [create_file] on (src/core/filesystem.cpp) *)
(* ====================================================================== *)

Section PathOfNewFile.
Import PathUtils PathMgr.

(** The components of a path are those of its directory, then its file
    name. The one path that [extract_filename_and_directory] and
    [parse_path] take apart differently is [./name]: its directory is the
    root, its components are [.] and [name]. *)
Lemma new_file_components np name directory :
  extract_filename_and_directory np = Some (name, directory) ->
  name <> [] ->
  exists cs,
    parse_path np = Some (cs ++ [name])
    /\ (parse_path directory = Some cs
        \/ (np = "."%char :: slash :: name /\ directory = [slash]
            /\ cs = [["."%char]])).
Proof.
  intros Hex Hname.
  unfold extract_filename_and_directory, extract_filename,
    extract_directory in Hex.
  destruct (validate_path np) eqn:Hv; cbn [negb] in Hex; [|discriminate].
  assert (Hne : np <> []).
  { intros ->. vm_compute in Hv. discriminate. }
  rewrite (parse_path_getlines np Hne).
  destruct (last_slash_split np) as [Hno | (pre & f & -> & Hf)].
  - rewrite (find_last_of_none np Hno) in Hex. cbn in Hex.
    injection Hex as <- <-. exists []. split; [|left; reflexivity].
    rewrite (getlines_plain np [] Hno). cbn [app].
    unfold nonempty. rewrite filter_cons_True by exact Hname. reflexivity.
  - rewrite (find_last_of_split pre f Hf) in Hex.
    assert (Hd : drop (Z.to_nat (Z.of_nat (length pre) + 1))
                      (pre ++ slash :: f) = f).
    { replace (Z.to_nat (Z.of_nat (length pre) + 1)) with (length pre + 1)%nat
        by lia.
      rewrite <- drop_drop, drop_app_length. reflexivity. }
    rewrite Hd in Hex. injection Hex as <- Hdir.
    assert (Hf' : nonempty (getlines f []) = [f]).
    { rewrite (getlines_plain f [] Hf). cbn [app]. unfold nonempty.
      rewrite filter_cons_True by exact Hname. reflexivity. }
    rewrite (getlines_split pre f []), Hf'.
    destruct pre as [|c pre].
    + cbn in Hdir. subst directory. exists []. split; [|left]; reflexivity.
    + replace (Z.of_nat (length (c :: pre)) =? 0) with false in Hdir
        by (symmetry; apply Z.eqb_neq; cbn [length]; lia).
      replace (Z.to_nat (Z.of_nat (length (c :: pre)))) with (length (c :: pre))
        in Hdir by lia.
      rewrite take_app_length in Hdir.
      destruct (decide (c :: pre = ["."%char])) as [E|E].
      * rewrite (bool_decide_eq_true_2 _ E) in Hdir.
        rewrite bool_decide_eq_false_2 in Hdir by discriminate.
        subst directory. rewrite E. exists [["."%char]].
        split; [reflexivity|]. right. repeat split; reflexivity.
      * rewrite (bool_decide_eq_false_2 _ E) in Hdir.
        rewrite bool_decide_eq_false_2 in Hdir by discriminate.
        subst directory.
        exists (nonempty (getlines (c :: pre) [])). split; [reflexivity|].
        left. apply parse_path_getlines. discriminate.
Qed.

Lemma descend_app d m a :
  forall c b,
    descend d m c a <> -1 ->
    descend d m c (a ++ b) = descend d m (descend d m c a) b.
Proof.
  induction a as [|x a IH]; intros c b H; [reflexivity|].
  cbn [descend app] in *.
  destruct (find_inode_in_directory d m c x =? -1); [contradiction|].
  apply IH, H.
Qed.

End PathOfNewFile.

Section Resolution.
Import PathUtils PathMgr DirMgr.

(** Where every successful lookup on the way is kept, the descent is
    kept. *)
Lemma descend_kept d m d' m' comps :
  forall c,
    (forall x comp,
       x ∈ way d m c comps ->
       find_inode_in_directory d m x comp <> -1 ->
       find_inode_in_directory d' m' x comp
       = find_inode_in_directory d m x comp) ->
    descend d m c comps <> -1 ->
    descend d' m' c comps = descend d m c comps.
Proof.
  induction comps as [|comp comps IH]; intros c Hkeep Hne; [reflexivity|].
  cbn [descend way] in *.
  destruct (Z.eqb_spec (find_inode_in_directory d m c comp) (-1)) as [E|E];
    [contradiction|].
  rewrite (Hkeep c comp (list_elem_of_here _ _) E).
  destruct (Z.eqb_spec (find_inode_in_directory d m c comp) (-1));
    [contradiction|].
  apply IH; [|exact Hne].
  intros x comp' Hx. apply Hkeep. apply list_elem_of_further, Hx.
Qed.

(** The lookup in a directory that is not empty goes through the entries
    that [read_directory] lists. *)
Lemma find_in_listing d m dir inode entries name :
  InodeMgr.read_inode d m dir = Some inode -> Inode.size inode <> 0 ->
  read_directory d m dir = Some entries ->
  find_inode_in_directory d m dir name = lookup_entry entries name.
Proof.
  intros Hread Hsize Hlist.
  unfold read_directory in Hlist. unfold find_inode_in_directory.
  destruct (load_directory_inode d m dir) as [inode'|] eqn:El;
    [|discriminate].
  assert (inode' = inode) as ->.
  { unfold load_directory_inode in El. rewrite Hread in El.
    destruct (_ =? 0) in El; [discriminate|]. congruence. }
  destruct (Z.eqb_spec (Inode.size inode) 0); [contradiction|].
  destruct (InodeMgr.get_data_blocks d m dir) as [blocks|]; [|discriminate].
  exact (scan_blocks_entries d blocks name entries Hlist).
Qed.

(** A directory stays the directory it is where its inode and its blocks
    are kept. *)
Lemma directory_ok_frame d m dir inode blocks d' m' :
  directory_ok d m dir inode blocks ->
  store_ok d' m' -> total_blocks d' = total_blocks d ->
  layout m' = layout m ->
  InodeMgr.read_inode d' m' dir = Some inode ->
  directory_ok d' m' dir inode blocks.
Proof.
  intros Hdir Hst Ht Hl Hr.
  pose proof Hdir
    as (Hst0 & Hsz & Hread & Hwf & Hmode & Hind & Hdbl & Hblocks & Hnd & Hreg).
  unfold directory_ok. rewrite Ht.
  repeat (split; [assumption|]).
  split.
  - unfold InodeMgr.get_data_blocks, InodeMgr.check_initialized in *.
    destruct Hst as (_ & _ & -> & _). destruct Hst0 as (_ & _ & Hi & _).
    rewrite Hi in Hblocks. cbn [negb] in *. rewrite Hr.
    rewrite Hread in Hblocks.
    rewrite (data_blocks_direct d' inode Hind Hdbl).
    rewrite (data_blocks_direct d inode Hind Hdbl) in Hblocks.
    exact Hblocks.
  - split; [exact Hnd|].
    eapply Forall_impl; [exact Hreg|].
    intros x Hx. unfold in_data_region in *. rewrite Hl. exact Hx.
Qed.

End Resolution.

Section Descriptors.
Import FileMgr.

(** The search for a descriptor number ends where one of the numbers from
    3 to 1024 is not in use; [k - n] rounds, or [k - n + 1022] rounds
    through the wrap from 1024 to 3, lead from [n] to the free number
    [k]. *)
Lemma fd_search_finds (fds : gmap Z FileDescriptor.t) (k : Z) :
  3 <= k <= 1024 -> fds !! k = None ->
  forall (fuel : nat) (n : Z),
    3 <= n <= 1024 ->
    (Z.to_nat (if (n <=? k)%Z then (k - n)%Z else (k - n + 1022)%Z)
     < fuel)%nat ->
    exists fd, fd_search fuel fds n = Some fd /\ 3 <= fd <= 1024.
Proof.
  intros Hk Hfree. induction fuel as [|fuel IH]; intros n Hn Hlt; [lia|].
  cbn [fd_search]. destruct (fds !! n) eqn:E.
  - assert (n <> k) by congruence.
    rewrite (int32_small (n + 1)) by lia.
    destruct (Z.ltb_spec 1024 (n + 1)).
    + apply IH; [lia|].
      destruct (Z.leb_spec n k); [lia|].
      destruct (Z.leb_spec 3 k); lia.
    + apply IH; [lia|].
      destruct (Z.leb_spec n k); destruct (Z.leb_spec (n + 1) k); lia.
  - exists n. split; [reflexivity|exact Hn].
Qed.

(** [open_file(p, READ|WRITE)] on a file that exists returns a
    descriptor: the next number when it is not in use, else a number from
    3 to 1024 that the search comes to. *)
Lemma open_file_found fuel now s p :
  FS.mounted s = true -> inode_of s p <> -1 ->
  3 <= FS.next_fd s < 2^31 - 1 ->
  (FS.file_descriptors s !! FS.next_fd s = None
   \/ exists k, 3 <= k <= 1024 /\ FS.file_descriptors s !! k = None) ->
  (1023 <= fuel)%nat ->
  exists fd s',
    FileSystem.open_file fuel now s p (Z.lor OPEN_MODE_READ OPEN_MODE_WRITE)
    = Some (Done fd, s').
Proof.
  intros Hm Hino Hnext Hfree Hfuel.
  unfold FileSystem.open_file, FileSystem.ensure_mounted. rewrite Hm.
  cbn [negb]. unfold open_file. unfold inode_of in Hino.
  destruct (Z.eqb_spec
              (PathMgr.find_inode (FS.disk s) (FS.inode_manager s)
                 (PathUtils.normalize_path p)) (-1)); [contradiction|].
  unfold allocate_file_descriptor_for, allocate_file_descriptor.
  assert (Hsearch : exists fd,
            fd_search fuel (FS.file_descriptors s) (FS.next_fd s) = Some fd
            /\ 3 <= fd).
  { destruct fuel as [|fuel]; [lia|]. cbn [fd_search].
    destruct (FS.file_descriptors s !! FS.next_fd s) eqn:E.
    - destruct Hfree as [Hfree | (k & Hk & Hfree)]; [discriminate|].
      rewrite (int32_small (FS.next_fd s + 1)) by lia.
      destruct (fd_search_finds _ k Hk Hfree fuel
                  (if 1024 <? FS.next_fd s + 1 then 3
                   else FS.next_fd s + 1)) as (fd & Hs & Hfd).
      + destruct (Z.ltb_spec 1024 (FS.next_fd s + 1)); lia.
      + destruct (Z.ltb_spec 1024 (FS.next_fd s + 1));
          [destruct (Z.leb_spec 3 k)|
           destruct (Z.leb_spec (FS.next_fd s + 1) k)]; lia.
      + exists fd. split; [exact Hs|lia].
    - exists (FS.next_fd s). split; [reflexivity|lia]. }
  destruct Hsearch as (fd & -> & Hfd).
  destruct (Z.eqb_spec fd (-1)); [lia|].
  change (negb (Z.land (Z.lor OPEN_MODE_READ OPEN_MODE_WRITE)
                       OPEN_MODE_APPEND =? 0)) with false.
  cbv iota. eexists _, _. reflexivity.
Qed.

End Descriptors.

Section NewInode.
Import InodeMgr.

Lemma int_range_shiftr v :
  int_range v <-> Z.shiftr v 31 = 0 \/ Z.shiftr v 31 = -1.
Proof.
  rewrite Z.shiftr_div_pow2 by lia. unfold int_range.
  change (2 ^ 31) with 2147483648.
  pose proof (Z.div_mod v 2147483648 ltac:(lia)).
  pose proof (Z.mod_pos_bound v 2147483648 ltac:(lia)).
  split; [intros Hv|intros [Hq|Hq]; rewrite Hq in *; lia].
  destruct (Z_lt_le_dec v 0); [right|left]; nia.
Qed.

(** The bitwise or of two [int]s is an [int]. *)
Lemma int_range_lor a b :
  int_range a -> int_range b -> int_range (Z.lor a b).
Proof.
  rewrite !int_range_shiftr, Z.shiftr_lor.
  intros [-> | ->] [-> | ->]; cbn; auto.
Qed.

Lemma new_file_inode_wf now mode :
  time_range now -> int_range mode ->
  inode_wf
    (FileOperationsUtils.initialize_new_inode now mode
       FileOperationsUtils.default_link_count).
Proof.
  intros H Hm.
  unfold inode_wf, int_range, FileOperationsUtils.default_link_count in *.
  simpl. repeat split; try lia; try apply H.
  repeat constructor; lia.
Qed.

(** The inode that [create_file] makes: [allocate_file_inode] allocates it
    and writes the defaults, [finish_create] sets its mode. The other
    inodes and the data region are as before. *)
Lemma new_file_inode_spec now d m mode :
  store_ok d m -> 0 < data_blocks_count (layout m) -> time_range now ->
  0 < get_free_inodes m -> int_range mode ->
  let defaults :=
    FileOperationsUtils.initialize_new_inode now
      FileOperationsUtils.default_mode
      FileOperationsUtils.default_link_count in
  let inode := Inode.set_mode (Z.lor FILE_TYPE_REGULAR mode) defaults in
  exists n d1 m1 d2 d3,
    allocate_inode now d m = (Some n, d1, m1)
    /\ write_inode d1 m1 n defaults = (true, d2)
    /\ read_inode d2 m1 n = Some defaults
    /\ write_inode d2 m1 n inode = (true, d3)
    /\ read_inode d3 m1 n = Some inode
    /\ fresh_file inode
    /\ store_ok d3 m1
    /\ is_inode_allocated m n = false
    /\ (forall j, j <> n -> read_inode d3 m1 j = read_inode d m j)
    /\ initialized m1 = initialized m /\ layout m1 = layout m
    /\ data_bitmap m1 = data_bitmap m
    /\ total_blocks d3 = total_blocks d
    /\ (forall k, in_data_region m k ->
                  Disk.read_block d3 k = Disk.read_block d k).
Proof.
  intros Hst Hcount Hnow Hfree Hmode defaults inode.
  destruct (allocate_inode_spec now d m Hst Hcount Hnow Hfree)
    as (n & d1 & m1 & Ha & Hfree_n & _ & _ & _ & Hr1 & Ho1 & _ & Hst1 & Hi1
        & Hl1 & Hb1 & Ht1 & Hf1).
  pose proof Hst1 as (Hd1 & _).
  assert (Hwd : inode_wf defaults).
  { apply new_file_inode_wf; [exact Hnow|]. vm_compute.
    split; [discriminate|reflexivity]. }
  assert (Hwi : inode_wf inode).
  { apply (new_file_inode_wf now (Z.lor FILE_TYPE_REGULAR mode) Hnow).
    apply int_range_lor; [|exact Hmode]. vm_compute.
    split; [discriminate|reflexivity]. }
  destruct (write_inode_ok d1 m1 n defaults Hd1 (read_inode_slot _ _ _ _ Hr1))
    as (d2 & Hw2).
  destruct (write_inode_disk d1 m1 n defaults d2 Hd1 Hw2)
    as (Hd2 & Ht2 & Hf2).
  pose proof (read_inode_write_inode d1 m1 n defaults d2 Hd1 Hwd Hw2) as Hr2.
  destruct (write_inode_ok d2 m1 n inode Hd2 (read_inode_slot _ _ _ _ Hr2))
    as (d3 & Hw3).
  destruct (write_inode_disk d2 m1 n inode d3 Hd2 Hw3) as (Hd3 & Ht3 & Hf3).
  pose proof (read_inode_write_inode d2 m1 n inode d3 Hd2 Hwi Hw3) as Hr3.
  exists n, d1, m1, d2, d3.
  split; [exact Ha|]. split; [exact Hw2|]. split; [exact Hr2|].
  split; [exact Hw3|]. split; [exact Hr3|].
  split.
  { split; [exact Hwi|]. repeat split; reflexivity. }
  split.
  { apply (store_ok_disk d1 m1 d3 Hst1 Hd3). congruence. }
  split; [exact Hfree_n|].
  split.
  { intros j Hj.
    rewrite (read_inode_write_other d2 m1 n inode d3 j Hd2 Hw3 Hj).
    rewrite (read_inode_write_other d1 m1 n defaults d2 j Hd1 Hw2 Hj).
    apply Ho1, Hj. }
  split; [exact Hi1|]. split; [exact Hl1|]. split; [exact Hb1|].
  split; [congruence|].
  intros k Hk.
  pose proof (store_inode_bitmap_region _ _ Hst)
    as (R1 & R2 & R3 & R4 & R5 & R6).
  pose proof Hst as (Hd & _ & _ & Hl & _).
  pose proof (calculate_layout_facts d ltac:(apply Hd))
    as (_ & _ & _ & C4 & C5 & _).
  rewrite <- Hl in C4, C5.
  destruct (read_inode_slot _ _ _ _ Hr1) as (_ & Hn & _).
  pose proof (store_inode_bitmap_region _ _ Hst1) as (_ & _ & _ & _ & _ & R6').
  rewrite R6', Hl1 in Hn.
  assert (Hk' : k <> inode_table_start (layout m1) + n / 42).
  { rewrite Hl1. unfold in_data_region in Hk.
    assert (n / 42 < inode_table_blocks (layout m))
      by (apply Z.div_lt_upper_bound; lia).
    lia. }
  rewrite (Hf3 k Hk'), (Hf2 k Hk').
  apply Hf1. unfold in_data_region in Hk. lia.
Qed.

End NewInode.

Section CreateFile.
Import PathUtils PathMgr DirMgr InodeMgr.

(** [create_file(p, mode)] in a parent directory that has room for one
    more entry: the new inode holds no byte and no block, [p] leads to
    it, and the data bitmap is as before. *)
Lemma create_file_spec now s p mode name directory parent pinode blocks
    entries :
  let d := FS.disk s in
  let m := FS.inode_manager s in
  let np := normalize_path p in
  FS.mounted s = true ->
  extract_filename_and_directory np = Some (name, directory) ->
  (np = "."%char :: slash :: name ->
   find_inode_in_directory d m 0 ["."%char] = 0) ->
  name_ok name ->
  find_inode d m directory = parent ->
  directory_ok d m parent pinode blocks ->
  is_inode_allocated m parent = true ->
  Inode.size pinode <> 0 ->
  read_directory d m parent = Some entries ->
  Forall entry_wf entries ->
  find_entry_index entries name = None ->
  Z.of_nat (length entries) + 1
  <= entries_per_block * Z.of_nat (length blocks) ->
  (forall c, c ∈ way_to d m directory -> c <> parent ->
     is_inode_allocated m c = true
     /\ exists inode l,
          directory_ok d m c inode l /\ forall b, b ∈ l -> b ∉ blocks) ->
  0 < get_free_inodes m -> int_range mode -> time_range now ->
  exists n s1,
    FileSystem.create_file now s p mode = (Done n, s1)
    /\ store_ok (FS.disk s1) (FS.inode_manager s1)
    /\ FS.mounted s1 = true
    /\ FS.file_descriptors s1 = FS.file_descriptors s
    /\ FS.next_fd s1 = FS.next_fd s
    /\ inode_of s1 p = n /\ n <> -1
    /\ (exists inode,
          read_inode (FS.disk s1) (FS.inode_manager s1) n = Some inode
          /\ fresh_file inode)
    /\ data_bitmap (FS.inode_manager s1) = data_bitmap m
    /\ file_exists d m np = false.
Proof.
  intros d m np Hm Hex Hdot Hname Hparent Hdir Halloc Hsize Hrd Hwf Hnew
    Hroom Hway Hfree Hmode Hnow.
  pose proof Hdir as (Hst & Hcap & Hpread & Hpwf & Hpmode & Hpind & Hpdbl
                      & Hpblocks & Hpnd & Hpreg).
  destruct (new_file_components np name directory Hex (proj1 Hname))
    as (cs & Hnp & Hcs).
  assert (Hpne : parent <> -1).
  { intros E. rewrite E in Hpread.
    exact (read_inode_not_minus_one _ _ _ Hpread). }
  assert (Hdesc : descend d m 0 cs = parent).
  { rewrite <- Hparent, find_inode_components.
    destruct Hcs as [-> | (E & -> & ->)]; [reflexivity|].
    cbn [descend]. rewrite (Hdot E). reflexivity. }
  assert (Hon : forall x, x ∈ way d m 0 cs ->
                          x ∈ way_to d m directory \/ x = parent).
  { intros x Hx. destruct Hcs as [Hcs | (E & Hd & ->)].
    - left. unfold way_to. rewrite Hcs. exact Hx.
    - right. cbn [way] in Hx. rewrite (Hdot E) in Hx. cbn in Hx.
      apply list_elem_of_singleton in Hx. subst x directory.
      rewrite <- Hparent. reflexivity. }
  pose proof (find_entry_index_None _ _ Hwf Hname Hnew) as Hnone.
  assert (Hlook : forall name',
            find_inode_in_directory d m parent name'
            = lookup_entry entries name').
  { intros name'.
    exact (find_in_listing d m parent pinode entries name' Hpread Hsize Hrd). }
  assert (Hmissing : find_inode d m np = -1).
  { rewrite find_inode_components, Hnp.
    rewrite descend_app by (rewrite Hdesc; exact Hpne).
    rewrite Hdesc. cbn [descend].
    rewrite Hlook, (lookup_entry_none _ _ Hnone). reflexivity. }
  assert (Hcount : 0 < data_blocks_count (layout m)).
  { destruct blocks as [|b blocks'].
    - cbn [length] in Hroom. lia.
    - apply Forall_cons in Hpreg as [Hb _]. unfold in_data_region in Hb.
      lia. }
  destruct (new_file_inode_spec now d m mode Hst Hcount Hnow Hfree Hmode)
    as (n & d1 & m1 & d2 & d3 & Ha & Hw2 & Hr2 & Hw3 & Hr3 & Hfresh & Hst3
        & Hfree_n & Hother & Hi1 & Hl1 & Hb1 & Ht3 & Hframe).
  assert (Hnp' : n <> parent) by (intros ->; congruence).
  assert (Hdir3 : directory_ok d3 m1 parent pinode blocks).
  { apply (directory_ok_frame d m parent pinode blocks d3 m1 Hdir Hst3 Ht3
             Hl1).
    rewrite Hother by auto. exact Hpread. }
  assert (Hblocks_frame :
            forall k, k ∈ blocks -> Disk.read_block d3 k = Disk.read_block d k).
  { intros k Hk. apply Hframe. rewrite Forall_forall in Hpreg.
    apply Hpreg, Hk. }
  destruct (directory_frame d m parent pinode blocks d3 m1 Hdir Hi1
              (Hother parent ltac:(auto)) Hblocks_frame) as (Hrd3 & _).
  rewrite Hrd in Hrd3.
  assert (Hn : int_range n).
  { destruct (read_inode_slot _ _ _ _ Hr3) as (_ & Hn & _).
    pose proof (store_inode_bitmap_region _ _ Hst3)
      as (_ & _ & _ & _ & _ & R6).
    pose proof Hst as ((_ & Hd0 & _) & _ & _ & Hl & _).
    pose proof (calculate_layout_facts d Hd0) as (C1 & C2 & C3 & C4 & C5 & C6
                                                  & C7).
    rewrite <- Hl in C1, C2, C3, C4, C5, C6, C7.
    rewrite R6, Hl1 in Hn. specialize (C7 Hcount).
    change (DISK_SIZE / BLOCK_SIZE) with 25600 in Hcap.
    unfold int_range. lia. }
  assert (Hall : Forall entry_listed (entries ++ [make_entry name n])).
  { apply Forall_app. split; [exact (listed_entries _ _ _ _ Hrd Hwf)|].
    constructor; [exact (make_entry_listed name n Hname Hn)|constructor]. }
  change entries_per_block with 15 in Hroom.
  destruct (write_directory_spec now d3 m1 parent pinode blocks
              (entries ++ [make_entry name n]) Hdir3 Hnow Hall
              ltac:(rewrite length_app; cbn [length]; lia))
    as (d4 & Hw4 & Hdir4 & Hrd4 & Hlook4 & Hother4 & Hframe4).
  destruct (make_entry_name name n Hname) as (_ & _ & Hc).
  assert (Hmatch : strcmp_eq (DirectoryEntry.name (make_entry name n)) name
                   = true).
  { unfold strcmp_eq. apply bool_decide_eq_true_2. rewrite Hc.
    symmetry. apply c_str_id. apply Hname. }
  exists n, (FS.set_store d4 m1 (FS.set_store d2 m1 s)).
  split.
  { unfold FileSystem.create_file, FileSystem.ensure_mounted. rewrite Hm.
    cbn [negb]. fold np. unfold file_exists. fold d m. rewrite Hmissing.
    cbn [Z.eqb negb]. rewrite Hex. fold d m. rewrite Hparent.
    destruct (Z.eqb_spec parent (-1)); [contradiction|].
    unfold FileSystem.allocate_file_inode, FileMgr.allocate_file_inode.
    fold d m. rewrite Ha, Hw2.
    unfold FileMgr.finish_create.
    change (FS.disk (FS.set_store d2 m1 s)) with d2.
    change (FS.inode_manager (FS.set_store d2 m1 s)) with m1.
    rewrite Hr2, Hw3.
    unfold add_directory_entry. rewrite Hrd3, Hnew, Hw4. reflexivity. }
  change (FS.disk (FS.set_store d4 m1 (FS.set_store d2 m1 s))) with d4.
  change (FS.inode_manager (FS.set_store d4 m1 (FS.set_store d2 m1 s)))
    with m1.
  split; [apply Hdir4|]. split; [exact Hm|].
  split; [reflexivity|]. split; [reflexivity|].
  split.
  { unfold inode_of.
    change (FS.disk (FS.set_store d4 m1 (FS.set_store d2 m1 s))) with d4.
    change (FS.inode_manager (FS.set_store d4 m1 (FS.set_store d2 m1 s)))
      with m1.
    fold np. rewrite find_inode_components, Hnp.
    assert (Hkept : descend d4 m1 0 cs = descend d m 0 cs).
    { apply descend_kept; [|rewrite Hdesc; exact Hpne].
      intros x comp Hx Hfound.
      destruct (decide (x = parent)) as [->|Hxp].
      - rewrite Hlook4, Hlook, lookup_entry_app. rewrite Hlook in Hfound.
        destruct (decide (Forall (fun e => strcmp_eq (DirectoryEntry.name e)
                                             comp = false) entries))
          as [H|H].
        + exfalso. apply Hfound, lookup_entry_none, H.
        + rewrite (bool_decide_eq_false_2 _ H). reflexivity.
      - destruct (Hway x) as (Hxa & inode & l & Hdx & Hapart);
          [destruct (Hon x Hx); [assumption|contradiction]|exact Hxp|].
        assert (Hxn : x <> n) by (intros ->; congruence).
        apply (directory_frame d m x inode l d4 m1 Hdx Hi1).
        + rewrite (Hother4 x Hxp). apply Hother, Hxn.
        + intros k Hk.
          pose proof Hdx as (_ & _ & _ & _ & _ & _ & _ & _ & _ & Hreg).
          rewrite Forall_forall in Hreg. specialize (Hreg k Hk).
          rewrite Hframe4; [apply Hframe, Hreg|apply Hapart, Hk|].
          rewrite Hl1. intros ->.
          destruct (read_inode_slot _ _ _ _ Hpread) as (_ & Hp & _).
          exact (store_table_outside d m Hst parent Hp Hreg). }
    rewrite descend_app by (rewrite Hkept, Hdesc; exact Hpne).
    rewrite Hkept, Hdesc. cbn [descend].
    rewrite Hlook4, lookup_entry_app, (bool_decide_eq_true_2 _ Hnone).
    cbn [lookup_entry]. rewrite Hmatch.
    change (DirectoryEntry.inode_number (make_entry name n)) with n.
    destruct (Z.eqb_spec n (-1)); [congruence|reflexivity]. }
  split.
  { intros ->. exact (read_inode_not_minus_one _ _ _ Hr3). }
  split.
  { eexists. split; [|exact Hfresh]. rewrite (Hother4 n Hnp'). exact Hr3. }
  split; [exact Hb1|].
  unfold file_exists. rewrite Hmissing. reflexivity.
Qed.

End CreateFile.

Section RoundTripFromCreate.
Import PathUtils PathMgr DirMgr InodeMgr.

(** C1, amended. Let the file system be mounted, and let the normal form
    of [p] be a valid path that [extract_filename_and_directory] takes
    apart into [name] and [directory], where [name] fits a directory entry
    and [directory] leads to the inode [parent]; for a path [./name] let
    the entry [.] of the root lead to the root. Let [parent] be an
    allocated directory of a sound store that is not empty, whose entries
    are well formed, which has no entry [name], and whose blocks have room
    for one more entry; let the other directories searched on the way to
    it be allocated directories that share no block with it. Let there be
    a free inode, let [mode] be an [int], let the next descriptor number
    be at least 3 and below [INT_MAX], not in use unless one of the
    numbers from 3 to 1024 is free, and let [buf] be a buffer that is not
    empty, whose length plus a block stays an [int], and for whose data
    blocks and indirect blocks the data bitmap has free bits.
    Then [p] does not exist, and
    [create_file(p, mode); fd = open_file(p, READ|WRITE);
    write_file(fd, buf, |buf|); seek_file(fd, 0); read_file(fd, r, |buf|);
    close_file(fd)] succeeds at each step, [open_file] ending its search
    within 1023 rounds: [write_file] and [read_file] return [|buf|], and
    [r = buf]. *)
Theorem write_read_round_trip (fuel : nat)
    (now_m now_o now_w now_r now_c : Z) (s : FS.t) (p : list ascii)
    (mode : Z) (buf : list Z) (name directory : list ascii) (parent : Z)
    (pinode : Inode.t) (blocks : list Z) (entries : list DirectoryEntry.t) :
  let d := FS.disk s in
  let m := FS.inode_manager s in
  let np := PathUtils.normalize_path p in
  FS.mounted s = true ->
  PathUtils.extract_filename_and_directory np = Some (name, directory) ->
  (np = "."%char :: PathUtils.slash :: name ->
   PathMgr.find_inode_in_directory d m 0 ["."%char] = 0) ->
  name_ok name ->
  PathMgr.find_inode d m directory = parent ->
  directory_ok d m parent pinode blocks ->
  InodeMgr.is_inode_allocated m parent = true ->
  Inode.size pinode <> 0 ->
  DirMgr.read_directory d m parent = Some entries ->
  Forall entry_wf entries ->
  DirMgr.find_entry_index entries name = None ->
  Z.of_nat (length entries) + 1
  <= entries_per_block * Z.of_nat (length blocks) ->
  (forall c, c ∈ way_to d m directory -> c <> parent ->
     InodeMgr.is_inode_allocated m c = true
     /\ exists inode l,
          directory_ok d m c inode l /\ forall b, b ∈ l -> b ∉ blocks) ->
  0 < InodeMgr.get_free_inodes m ->
  int_range mode ->
  3 <= FS.next_fd s < 2^31 - 1 ->
  (FS.file_descriptors s !! FS.next_fd s = None
   \/ exists k, 3 <= k <= 1024 /\ FS.file_descriptors s !! k = None) ->
  (1023 <= fuel)%nat ->
  time_range now_m -> time_range now_o -> time_range now_w ->
  buf <> [] ->
  Z.of_nat (length buf) + BLOCK_SIZE - 1 < 2^31 ->
  blocks_for (Z.of_nat (length buf))
  + indirect_blocks_needed (blocks_for (Z.of_nat (length buf)))
  <= free_bits_count (data_bitmap m) ->
  PathMgr.file_exists d m np = false
  /\ exists n fd,
       create_round_trip fuel now_m now_o now_w now_r now_c s p mode buf
       = Some (Done n, Done fd,
               (Done (Z.of_nat (length buf)), Done tt,
                Done (Z.of_nat (length buf), buf), Done tt)).
Proof.
  intros d m np Hm Hex Hdot Hname Hparent Hdir Halloc Hsize Hrd Hwf Hnew
    Hroom Hway Hfree Hmode Hnext Hfd Hfuel Hnow_m Hnow_o Hnow_w Hbuf Hlen
    Hblocks.
  destruct (create_file_spec now_m s p mode name directory parent pinode
              blocks entries Hm Hex Hdot Hname Hparent Hdir Halloc Hsize Hrd
              Hwf Hnew Hroom Hway Hfree Hmode Hnow_m)
    as (n & s1 & Hc & Hst1 & Hm1 & Hfds & Hnx & Hino & Hn & (inode & Hr & Hfr)
        & Hbm & Hmissing).
  split; [exact Hmissing|].
  rewrite <- Hnx, <- Hfds in Hfd. rewrite <- Hnx in Hnext.
  destruct (open_file_found fuel now_o s1 p Hm1 ltac:(rewrite Hino; exact Hn)
              Hnext Hfd Hfuel) as (fd & s2 & Ho).
  exists n, fd. unfold create_round_trip. rewrite Hc, Ho. cbn [ret_int].
  rewrite <- Hino in Hr. fold m in Hbm. rewrite <- Hbm in Hblocks.
  rewrite (round_trip_after_open fuel now_o now_w now_r now_c s1 s2 p fd
             inode buf Hst1 Hr Hfr Ho Hnow_o Hnow_w Hbuf Hlen Hblocks).
  reflexivity.
Qed.

End RoundTripFromCreate.

(** ** The round trip of ["ABC"] through ["/d/f"] *)

Section RoundTripWitness.
Import PathUtils PathMgr DirMgr InodeMgr.

Lemma fs_with_directory_sub :
  directory_ok (FS.disk fs_with_directory)
    (FS.inode_manager fs_with_directory) 2 directory_inode [5].
Proof.
  unfold directory_ok.
  split; [exact fs_with_directory_store|].
  split; [vm_compute; discriminate|].
  split; [exact fs_with_directory_inode|].
  split; [exact directory_inode_wf|].
  split; [exact directory_inode_mode|].
  split; [reflexivity|]. split; [reflexivity|].
  split; [exact fs_with_directory_blocks|].
  split; [apply NoDup_singleton|].
  constructor; [|constructor].
  vm_compute. split; [discriminate|reflexivity].
Qed.

Lemma path_f_parts :
  extract_filename_and_directory (normalize_path path_f)
  = Some (["f"%char], path_d).
Proof. vm_compute. reflexivity. Qed.

Lemma fs_with_directory_dot :
  normalize_path path_f = "."%char :: slash :: ["f"%char] ->
  find_inode_in_directory (FS.disk fs_with_directory)
    (FS.inode_manager fs_with_directory) 0 ["."%char] = 0.
Proof. intros _. vm_compute. reflexivity. Qed.

Lemma fs_with_directory_sub_path :
  find_inode (FS.disk fs_with_directory)
    (FS.inode_manager fs_with_directory) path_d = 2.
Proof. vm_compute. reflexivity. Qed.

Lemma initial_entries_wf : Forall entry_wf (initial_entries 2 0).
Proof.
  unfold initial_entries, entry_wf, int_range.
  repeat constructor; cbn; lia.
Qed.

Lemma initial_entries_new :
  find_entry_index (initial_entries 2 0) ["f"%char] = None.
Proof. vm_compute. reflexivity. Qed.

Lemma initial_entries_room :
  Z.of_nat (length (initial_entries 2 0)) + 1
  <= entries_per_block * Z.of_nat (length [5]).
Proof. vm_compute. discriminate. Qed.

Lemma fs_with_directory_way :
  way_to (FS.disk fs_with_directory) (FS.inode_manager fs_with_directory)
    path_d = [0].
Proof. vm_compute. reflexivity. Qed.

Lemma fs_with_directory_root_allocated :
  is_inode_allocated (FS.inode_manager fs_with_directory) 0 = true.
Proof. vm_compute. reflexivity. Qed.

Lemma fs_with_directory_on_the_way :
  forall c,
    c ∈ way_to (FS.disk fs_with_directory)
          (FS.inode_manager fs_with_directory) path_d ->
    c <> 2 ->
    is_inode_allocated (FS.inode_manager fs_with_directory) c = true
    /\ exists inode l,
         directory_ok (FS.disk fs_with_directory)
           (FS.inode_manager fs_with_directory) c inode l
         /\ forall b, b ∈ l -> b ∉ [5].
Proof.
  intros c Hc _.
  pose proof fs_with_directory_way as E.
  pose proof (eq_ind _ (fun l => c ∈ l) Hc _ E) as Hc'.
  apply list_elem_of_singleton in Hc'. subst c.
  split; [exact fs_with_directory_root_allocated|].
  exists root_inode_with_directory, [4].
  split; [exact fs_with_directory_directory|].
  intros b Hb. apply list_elem_of_singleton in Hb. subst b.
  intros H. apply list_elem_of_singleton in H. discriminate.
Qed.

Lemma fs_with_directory_free_inode :
  0 < get_free_inodes (FS.inode_manager fs_with_directory).
Proof. vm_compute. reflexivity. Qed.

Lemma fs_with_directory_next_fd :
  3 <= FS.next_fd fs_with_directory < 2^31 - 1.
Proof. vm_compute. split; [discriminate|reflexivity]. Qed.

Lemma fs_with_directory_free_fd :
  FS.file_descriptors fs_with_directory !! FS.next_fd fs_with_directory
  = None
  \/ exists k, 3 <= k <= 1024
               /\ FS.file_descriptors fs_with_directory !! k = None.
Proof. right. exists 3. split; [lia|]. vm_compute. reflexivity. Qed.

Lemma fs_with_directory_room :
  blocks_for (Z.of_nat (length [65; 66; 67]))
  + indirect_blocks_needed (blocks_for (Z.of_nat (length [65; 66; 67])))
  <= free_bits_count (data_bitmap (FS.inode_manager fs_with_directory)).
Proof. vm_compute. discriminate. Qed.

Lemma write_read_round_trip_witness :
  PathMgr.file_exists (FS.disk fs_with_directory)
    (FS.inode_manager fs_with_directory) (PathUtils.normalize_path path_f) = false
  /\ exists n fd,
       create_round_trip 1023 3 4 5 6 7 fs_with_directory path_f 0x600
         [65; 66; 67]
       = Some (Done n, Done fd,
               (Done (Z.of_nat (length [65; 66; 67])), Done tt,
                Done (Z.of_nat (length [65; 66; 67]), [65; 66; 67]),
                Done tt)).
Proof.
  refine (write_read_round_trip 1023 3 4 5 6 7 fs_with_directory path_f
            0x600 [65; 66; 67] ["f"%char] path_d 2 directory_inode [5]
            (initial_entries 2 0)
            fs_with_directory_mounted path_f_parts fs_with_directory_dot _
            fs_with_directory_sub_path fs_with_directory_sub
            fs_with_directory_allocated _ fs_with_directory_own
            initial_entries_wf initial_entries_new initial_entries_room
            fs_with_directory_on_the_way fs_with_directory_free_inode _
            fs_with_directory_next_fd fs_with_directory_free_fd _ _ _ _ _ _
            fs_with_directory_room).
  - apply name_ok_letter. discriminate.
  - discriminate.
  - unfold int_range. lia.
  - lia.
  - unfold time_range. lia.
  - unfold time_range. lia.
  - unfold time_range. lia.
  - discriminate.
  - vm_compute. reflexivity.
Defined.

(** The six results of that run: inode 3, descriptor 3, three bytes
    written and read. *)
Example round_trip_in_directory :
  create_round_trip 1023 3 4 5 6 7 fs_with_directory path_f 0x600
    [65; 66; 67]
  = Some (Done 3, Done 3,
          (Done 3, Done tt, Done (3, [65; 66; 67]), Done tt)).
Proof. vm_compute. reflexivity. Qed.

(** The same through the relative paths ["./a"] and ["a"] on the image
    of 11 blocks: [create_file] takes the root for their directory, and
    [open_file] finds the file, for ["./a"] through the entry [.] of the
    root. *)
Example round_trip_relative_paths :
  create_round_trip 1023 1 2 3 4 5 (fresh_fs 11) ["."; "/"; "a"]%char 0x600
    [65; 66; 67]
  = Some (Done 1, Done 3,
          (Done 3, Done tt, Done (3, [65; 66; 67]), Done tt))
  /\ create_round_trip 1023 1 2 3 4 5 (fresh_fs 11) ["a"%char] 0x600
       [65; 66; 67]
     = Some (Done 1, Done 3,
             (Done 3, Done tt, Done (3, [65; 66; 67]), Done tt)).
Proof. split; vm_compute; reflexivity. Qed.

End RoundTripWitness.
